(** * TR_NPCGenerator: the novelty check and the rejection sampler

    A shallow embedding of the name generator:
    - [js/levenshtein.js]: the edit-distance comparator;
    - [js/generator.js]: the generator that rebuilds the existing pairs
      as the per-source cross product of the loaded names;
    - the generator variant that loads the existing full names from
      dedicated files (module [DirectPairs]);
    - the generator variant that loads one flat NPC file with an inline
      source tag (module [FlatFile]);
    - for each of the three generators its statistics and the click
      handler of its page (module [Dom] holds what they share).

    JavaScript strings are sequences of UTF-16 code units.  The embedding
    covers the strings whose code units are below 256 (Basic Latin and
    Latin-1 Supplement): there [toLowerCase] acts on each code unit on
    its own, and a code unit is an [ascii].  Beyond these code units
    [toLowerCase] can lengthen a string; module [Wide] embeds
    levenshtein.js once more over an alphabet on which it does. *)

From Stdlib Require Import String Ascii List Arith Bool Lia DecimalString.
Import ListNotations.

Open Scope string_scope.
Open Scope list_scope.
Open Scope nat_scope.

(** ** JavaScript strings *)

Module JS.

(** [String.prototype.toLowerCase] on one code unit below 256: the
    upper-case letters are A-Z, and U+00C0-U+00DE without the
    multiplication sign U+00D7. *)
Definition lowerUnit (c : ascii) : ascii :=
  let n := nat_of_ascii c in
  if ((65 <=? n) && (n <=? 90))
     || ((192 <=? n) && (n <=? 222) && negb (n =? 215))
  then ascii_of_nat (n + 32)
  else c.

Fixpoint toLowerCase (s : string) : string :=
  match s with
  | EmptyString => EmptyString
  | String c s' => String (lowerUnit c) (toLowerCase s')
  end.

(** [s.charAt(i)]: the one-unit string at index [i], or the empty string
    when [i] is out of range. *)
Definition charAt (s : string) (i : nat) : string :=
  match String.get i s with
  | Some c => String c EmptyString
  | None => EmptyString
  end.

(** [s.startsWith(p)]. *)
Definition startsWith (s p : string) : bool := String.prefix p s.

(** White space and line terminators below 256: what [trim] strips and
    what the regular expression class [\s] matches. *)
Definition isSpace (c : ascii) : bool :=
  let n := nat_of_ascii c in
  ((9 <=? n) && (n <=? 13)) || (n =? 32) || (n =? 160).

Fixpoint trimStart (s : string) : string :=
  match s with
  | EmptyString => EmptyString
  | String c s' => if isSpace c then trimStart s' else s
  end.

(** [trimEnd] keeps a unit when it is no white space or when something
    is kept after it. *)
Fixpoint trimEnd (s : string) : string :=
  match s with
  | EmptyString => EmptyString
  | String c s' =>
      match trimEnd s' with
      | EmptyString => if isSpace c then EmptyString else String c EmptyString
      | t => String c t
      end
  end.

Definition trim (s : string) : string := trimEnd (trimStart s).

(** [s.split(sep)] for a separator of one code unit: the fields between
    the separators, empty fields included; never the empty list. *)
Fixpoint split (sep : ascii) (s : string) : list string :=
  match s with
  | EmptyString => [EmptyString]
  | String c s' =>
      if Ascii.eqb c sep then EmptyString :: split sep s'
      else match split sep s' with
           | f :: fs => String c f :: fs
           | [] => [String c EmptyString]
           end
  end.

(** [arr.join(sep)]. *)
Fixpoint join (sep : string) (l : list string) : string :=
  match l with
  | [] => EmptyString
  | [x] => x
  | x :: rest => (x ++ sep ++ join sep rest)%string
  end.

(** [arr.includes(x)], [set.has(x)] on strings. *)
Definition includes (l : list string) (x : string) : bool :=
  existsb (String.eqb x) l.

(** A [Set] of strings in insertion order: [new Set()], [set.add(x)],
    [new Set(array)]. *)
Definition SetOf := list string.

Definition add (s : SetOf) (x : string) : SetOf :=
  if includes s x then s else s ++ [x].

Definition newSet (l : list string) : SetOf := fold_left add l [].

(** [arr[i] = v] on a JavaScript array: inside the array the element is
    replaced, at its end the array grows by one element, and past its
    end the gap is left as holes. *)
Definition assign {A : Type} (hole : A) (arr : list A) (i : nat) (v : A)
  : list A :=
  if i <? length arr then firstn i arr ++ v :: skipn (S i) arr
  else arr ++ repeat hole (i - length arr) ++ [v].


(** [s.split(/\s+/)]: the fields between the maximal runs of white
    space; a run at the start or at the end leaves an empty field there.
    [inRun] says that the unit before was white space. *)
Fixpoint splitSpacesFrom (inRun : bool) (s : string) : list string :=
  match s with
  | EmptyString => [EmptyString]
  | String c s' =>
      if isSpace c then
        if inRun then splitSpacesFrom true s'
        else EmptyString :: splitSpacesFrom true s'
      else match splitSpacesFrom false s' with
           | f :: fs => String c f :: fs
           | [] => [String c EmptyString]
           end
  end.

Definition splitSpaces (s : string) : list string := splitSpacesFrom false s.

(** [s.lastIndexOf(sub)], [None] for -1. *)
Fixpoint lastIndexOf (sub s : string) : option nat :=
  match s with
  | EmptyString => if String.prefix sub EmptyString then Some 0 else None
  | String _ s' =>
      match lastIndexOf sub s' with
      | Some i => Some (S i)
      | None => if String.prefix sub s then Some 0 else None
      end
  end.

(** [s.includes(sub)] on strings. *)
Definition includesSub (s sub : string) : bool :=
  match lastIndexOf sub s with Some _ => true | None => false end.

(** [s.substring(i, j)] for [i <= j], and [s.substring(i)]. *)
Definition substring (s : string) (i j : nat) : string :=
  String.substring i (j - i) s.

Definition substringFrom (s : string) (i : nat) : string :=
  String.substring i (String.length s - i) s.

(** [s.replace(pattern, replacement)] with a string pattern: the first
    occurrence only. *)
Fixpoint replace (s pattern replacement : string) : string :=
  if String.prefix pattern s
  then (replacement
          ++ String.substring (String.length pattern)
               (String.length s - String.length pattern) s)%string
  else match s with
       | EmptyString => EmptyString
       | String c s' => String c (replace s' pattern replacement)
       end.

(** The truth value of a string: the empty string is falsy. *)
Definition truthy (s : string) : bool := negb (String.eqb s EmptyString).

End JS.

(** ** levenshtein.js *)

Module Levenshtein.
Import JS.

Definition Matrix := list (list nat).

(** [matrix[i][j]] read. *)
Definition cell (matrix : Matrix) (i j : nat) : nat :=
  nth j (nth i matrix []) 0.

(** [matrix[i][j] = v]. *)
Definition setCell (matrix : Matrix) (i j v : nat) : Matrix :=
  assign [] matrix i (assign 0 (nth i matrix []) j v).

(** [for (let i = 0; i <= bLower.length; i++) matrix[i] = [i];] *)
Definition initRows (blen : nat) : Matrix :=
  fold_left (fun matrix i => assign [] matrix i [i]) (seq 0 (S blen)) [].

(** [for (let j = 0; j <= aLower.length; j++) matrix[0][j] = j;] *)
Definition initColumns (alen : nat) (matrix : Matrix) : Matrix :=
  fold_left (fun matrix j => setCell matrix 0 j j) (seq 0 (S alen)) matrix.

(** The body of the inner loop. *)
Definition fillCell (aLower bLower : string) (i : nat) (matrix : Matrix)
  (j : nat) : Matrix :=
  if String.eqb (charAt bLower (i - 1)) (charAt aLower (j - 1))
  then setCell matrix i j (cell matrix (i - 1) (j - 1))
  else setCell matrix i j
         (Nat.min (cell matrix (i - 1) (j - 1) + 1)
            (Nat.min (cell matrix i (j - 1) + 1)
                     (cell matrix (i - 1) j + 1))).

(** The two nested loops, [i] from 1 to [bLower.length] and [j] from 1
    to [aLower.length]. *)
Definition fill (aLower bLower : string) (matrix : Matrix) : Matrix :=
  fold_left
    (fun matrix i =>
       fold_left (fillCell aLower bLower i)
                 (seq 1 (String.length aLower)) matrix)
    (seq 1 (String.length bLower)) matrix.

Definition levenshteinDistance (a b : string) : nat :=
  let aLower := toLowerCase a in
  let bLower := toLowerCase b in
  if String.eqb aLower bLower then 0
  else if String.length aLower =? 0 then String.length bLower
  else if String.length bLower =? 0 then String.length aLower
  else
    let matrix :=
      fill aLower bLower
        (initColumns (String.length aLower)
           (initRows (String.length bLower))) in
    cell matrix (String.length bLower) (String.length aLower).

(** [areTooSimilar(name1, name2, threshold = 3)]. *)
Definition areTooSimilar (name1 name2 : string) (threshold : nat) : bool :=
  levenshteinDistance name1 name2 <? threshold.

End Levenshtein.

(** ** levenshtein.js on strings that lower-casing lengthens

    The lower case of the capital letter I with dot above, U+0130, is
    the letter i followed by the combining dot above, U+0307: two code
    units for one.  This module embeds levenshtein.js over the strings
    whose code units are those below 256 and these two; on them
    [toLowerCase] still acts on each code unit on its own. *)

Module Wide.
Import Levenshtein.

Inductive Unit : Type :=
  | Below256 (c : ascii)
  | CapitalIDot
  | CombiningDot.

Definition eqbUnit (x y : Unit) : bool :=
  match x, y with
  | Below256 c, Below256 d => Ascii.eqb c d
  | CapitalIDot, CapitalIDot => true
  | CombiningDot, CombiningDot => true
  | _, _ => false
  end.

(** [===] on strings. *)
Fixpoint eqb (s t : list Unit) : bool :=
  match s, t with
  | [], [] => true
  | x :: s', y :: t' => eqbUnit x y && eqb s' t'
  | _, _ => false
  end.

Definition lowerUnit (u : Unit) : list Unit :=
  match u with
  | Below256 c => [Below256 (JS.lowerUnit c)]
  | CapitalIDot => [Below256 "i"; CombiningDot]
  | CombiningDot => [CombiningDot]
  end.

Definition toLowerCase (s : list Unit) : list Unit := flat_map lowerUnit s.

Definition charAt (s : list Unit) (i : nat) : list Unit :=
  match nth_error s i with
  | Some u => [u]
  | None => []
  end.

Definition fillCell (aLower bLower : list Unit) (i : nat) (matrix : Matrix)
  (j : nat) : Matrix :=
  if eqb (charAt bLower (i - 1)) (charAt aLower (j - 1))
  then setCell matrix i j (cell matrix (i - 1) (j - 1))
  else setCell matrix i j
         (Nat.min (cell matrix (i - 1) (j - 1) + 1)
            (Nat.min (cell matrix i (j - 1) + 1)
                     (cell matrix (i - 1) j + 1))).

Definition fill (aLower bLower : list Unit) (matrix : Matrix) : Matrix :=
  fold_left
    (fun matrix i =>
       fold_left (fillCell aLower bLower i) (seq 1 (length aLower)) matrix)
    (seq 1 (length bLower)) matrix.

Definition levenshteinDistance (a b : list Unit) : nat :=
  let aLower := toLowerCase a in
  let bLower := toLowerCase b in
  if eqb aLower bLower then 0
  else if length aLower =? 0 then length bLower
  else if length bLower =? 0 then length aLower
  else
    let matrix :=
      fill aLower bLower
        (initColumns (length aLower) (initRows (length bLower))) in
    cell matrix (length bLower) (length aLower).

Definition areTooSimilar (name1 name2 : list Unit) (threshold : nat) : bool :=
  levenshteinDistance name1 name2 <? threshold.

(** A string of code units below 256 as a string of this module. *)
Definition ofString (s : string) : list Unit :=
  map Below256 (list_ascii_of_string s).

End Wide.

(** ** Control flow and the outside world *)

Module Runtime.
Import JS.

(** How a call ends: [return v], or an exception with the message
    [message], from [throw new Error(message)] or from the engine. *)
Inductive Completion (A : Type) : Type :=
  | Return (v : A)
  | Throw (message : string).
Arguments Return {A} v.
Arguments Throw {A} message.

(** The message of the [TypeError] that a call [callee(...)] throws when
    [callee] is [undefined], in the wording of V8 and of SpiderMonkey. *)
Definition notAFunction (callee : string) : string :=
  (callee ++ " is not a function")%string.

(** [while (cond) body], run for at most [fuel] iterations; [None] when
    the fuel runs out while the condition still holds. *)
Fixpoint while {S : Type} (cond : S -> bool) (body : S -> S) (fuel : nat)
  (s : S) : option S :=
  if cond s then
    match fuel with
    | 0 => None
    | S fuel' => while cond body fuel' (body s)
    end
  else Some s.

(** The random source: [random k] stands for the [k]-th call of
    [Math.random()].  [Math.floor(Math.random() * n)] is an index below
    [n]; every such index can come out, so the [k]-th draw from [n]
    elements is [random k mod n] for an arbitrary [random]. *)
Definition Random := nat -> nat.

Definition randomIndex (random : Random) (k n : nat) : nat :=
  random k mod n.

(** What [await fetch(path)] gives: a response with [ok] set and its
    text, a response that is not ok, or a rejected promise. *)
Inductive Response : Type :=
  | Ok (text : string)
  | NotOk
  | Rejected (message : string).

(** The files behind [fetch].  [manifestFiles dir] is the [files] array
    of [dir/manifest.json] when that file is served, parses as JSON and
    holds an array there. *)
Record World : Type := {
  fetch : string -> Response;
  manifestFiles : string -> option (list string)
}.

(** A generated pair [{ firstname, lastname }]. *)
Record Pair : Type := { firstname : string; lastname : string }.

(** What one call of [generate] did: how it ended, the generator object
    after it, the number of [Math.random()] calls and the final value of
    [attempts]. *)
Record Run (State : Type) : Type := {
  outcome : Completion (list Pair);
  after : State;
  randomCalls : nat;
  iterations : nat
}.
Arguments outcome {State} r.
Arguments after {State} r.
Arguments randomCalls {State} r.
Arguments iterations {State} r.

End Runtime.

(** ** The page *)

Module Dom.
Import JS Runtime.

(** The assignments a click handler makes to the page:
    [output.innerHTML = html] and [generateBtn.disabled = flag]. *)
Inductive Write : Type :=
  | SetInnerHTML (html : string)
  | SetDisabled (flag : bool).

(** What the page shows: the markup last assigned to the output element
    and whether the button is disabled. *)
Record Page : Type := { innerHTML : string; disabled : bool }.

Definition write (page : Page) (w : Write) : Page :=
  match w with
  | SetInnerHTML html => {| innerHTML := html; disabled := disabled page |}
  | SetDisabled flag => {| innerHTML := innerHTML page; disabled := flag |}
  end.

(** The page after a sequence of assignments. *)
Definition render (page : Page) (writes : list Write) : Page :=
  fold_left write writes page.

(** The double quote, and a quoted attribute value. *)
Definition quote : string := String "034" EmptyString.

Definition quoted (s : string) : string := (quote ++ s ++ quote)%string.

(** The multiplication sign U+00D7. *)
Definition times : string := String "215" EmptyString.

(** A length or a size inside a template literal: its decimal digits. *)
Definition numberToString (n : nat) : string :=
  NilEmpty.string_of_uint (Nat.to_uint n).

(** ['<div class="loading">Loading...</div>']. *)
Definition loadingHtml : string :=
  ("<div class=" ++ quoted "loading" ++ ">Loading...</div>")%string.

(** [names.forEach(name => { html += `<li>...</li>`; })]. *)
Definition appendItems (html : string) (names : list Pair) : string :=
  fold_left
    (fun html name =>
       (html ++ "<li>" ++ firstname name ++ " " ++ lastname name
             ++ "</li>")%string)
    names html.

(** The markup up to the end of the list of names. *)
Definition listHtml (names : list Pair) : string :=
  (appendItems
     ("<div class=" ++ quoted "results" ++ ">"
      ++ "<h2>Generated Names</h2>"
      ++ "<ul class=" ++ quoted "name-list" ++ ">")
     names
   ++ "</ul>")%string.

End Dom.

(** ** The name pools shared by generator.js and the direct-pairs variant *)

Module Pools.
Import JS Runtime.

(** [{ name, source }]. *)
Record NameRecord : Type := { name : string; source : string }.

Definition defaultFiles : list string :=
  ["vanilla.txt"; "tr.txt"; "sky.txt"; "pc.txt"].

(** [parseNameFile(text)]. *)
Definition parseNameFile (text : string) : list string :=
  filter (fun line => truthy line && negb (startsWith line "#"))
    (map trim (split "010" text)).

(** [parseBlacklist(text)]. *)
Definition parseBlacklist (text : string) : SetOf :=
  newSet
    (filter (fun line => truthy line && negb (startsWith line "#"))
       (map (fun line => toLowerCase (trim line)) (split "010" text))).

(** [loadDirectory(basePath)]. *)
Definition loadDirectory (world : World) (basePath : string)
  : list NameRecord :=
  let filesToLoad :=
    match manifestFiles world basePath with
    | Some files =>
        fold_left
          (fun filesToLoad f =>
             if includes filesToLoad f then filesToLoad
             else filesToLoad ++ [f])
          files defaultFiles
    | None => defaultFiles
    end in
  fold_left
    (fun results filename =>
       match fetch world (basePath ++ "/" ++ filename)%string with
       | Ok text =>
           let source := replace filename ".txt" "" in
           results
             ++ map (fun name => {| name := name; source := source |})
                  (parseNameFile text)
       | _ => results
       end)
    filesToLoad [].

(** The source filter of [getFirstnames] and [getLastnames]. *)
Definition bySourceFilter (sourceFilter : string)
  (records : list NameRecord) : list NameRecord :=
  if String.eqb sourceFilter "vanilla" then
    filter (fun fn => String.eqb (source fn) "vanilla") records
  else if String.eqb sourceFilter "expanded" then
    filter (fun fn => includes ["tr"; "sky"; "pc"] (source fn)) records
  else records.

(** The [for ... of filtered] loop of [getFirstnames] and [getLastnames]:
    the state is [(seen, results)]. *)
Definition collect (blacklist : SetOf) (filtered : list NameRecord)
  : SetOf * list string :=
  fold_left
    (fun '(seen, results) fn =>
       let lower := toLowerCase (name fn) in
       if negb (includes blacklist lower) && negb (includes seen lower)
       then (add seen lower, results ++ [name fn])
       else (seen, results))
    filtered ([], []).

(** [getFirstnames(sourceFilter)] and [getLastnames(sourceFilter)] on
    the loaded records and the blacklist of their role. *)
Definition getNames (records : list NameRecord) (blacklist : SetOf)
  (sourceFilter : string) : list string :=
  snd (collect blacklist (bySourceFilter sourceFilter records)).

End Pools.

(** ** js/generator.js: existing pairs as a cross product by source *)

Module Generator.
Import JS Runtime Pools Levenshtein.

(** The [NPCGenerator] object.  [existingPairsCache] is the property
    [_existingPairsCache]: [None] while it is absent or [null]. *)
Record State : Type := {
  allFirstnames : list NameRecord;
  allLastnames : list NameRecord;
  existingCombinations : SetOf;
  blacklistedFirstnames : SetOf;
  blacklistedLastnames : SetOf;
  loaded : bool;
  currentRace : option string;
  currentSex : option string;
  existingPairsCache : option SetOf
}.

(** The object literal the script starts with. *)
Definition initial : State := {|
  allFirstnames := [];
  allLastnames := [];
  existingCombinations := [];
  blacklistedFirstnames := [];
  blacklistedLastnames := [];
  loaded := false;
  currentRace := None;
  currentSex := None;
  existingPairsCache := None
|}.

Definition setCache (g : State) (cache : option SetOf) : State := {|
  allFirstnames := allFirstnames g;
  allLastnames := allLastnames g;
  existingCombinations := existingCombinations g;
  blacklistedFirstnames := blacklistedFirstnames g;
  blacklistedLastnames := blacklistedLastnames g;
  loaded := loaded g;
  currentRace := currentRace g;
  currentSex := currentSex g;
  existingPairsCache := cache
|}.

(** One blacklist of [loadData]: replaced when the file is served, kept
    as it was when the response is not ok, emptied when [fetch] fails. *)
Definition loadBlacklist (world : World) (path : string) (old : SetOf)
  : SetOf :=
  match fetch world path with
  | Ok text => parseBlacklist text
  | NotOk => old
  | Rejected _ => []
  end.

(** [loadData(race, sex)]: the completion and the object after it. *)
Definition loadData (g : State) (world : World) (race sex : string)
  : Completion bool * State :=
  let firstnameDir := ("npcs/" ++ race ++ "/firstnames_" ++ sex)%string in
  let lastnameDir := ("npcs/" ++ race ++ "/lastnames")%string in
  let firstnames := loadDirectory world firstnameDir in
  let lastnames := loadDirectory world lastnameDir in
  let fnBlacklist :=
    loadBlacklist world "npcs/blacklist_firstnames.txt"
      (blacklistedFirstnames g) in
  let lnBlacklist :=
    loadBlacklist world "npcs/blacklist_lastnames.txt"
      (blacklistedLastnames g) in
  let finish (isLoaded : bool) : State := {|
    allFirstnames := firstnames;
    allLastnames := lastnames;
    existingCombinations := existingCombinations g;
    blacklistedFirstnames := fnBlacklist;
    blacklistedLastnames := lnBlacklist;
    loaded := isLoaded;
    currentRace := Some race;
    currentSex := Some sex;
    existingPairsCache := None
  |} in
  if length firstnames =? 0 then
    (Throw ("No firstnames found for " ++ race ++ " " ++ sex)%string,
     finish false)
  else if length lastnames =? 0 then
    (Throw ("No lastnames found for " ++ race)%string, finish false)
  else (Return true, finish true).

Definition getFirstnames (g : State) (sourceFilter : string) : list string :=
  getNames (allFirstnames g) (blacklistedFirstnames g) sourceFilter.

Definition getLastnames (g : State) (sourceFilter : string) : list string :=
  getNames (allLastnames g) (blacklistedLastnames g) sourceFilter.

(** The names of the properties that every object inherits from
    [Object.prototype].  On the object literal [{}] each of them reads
    as a function or, for [__proto__], as the prototype object: a value
    that is truthy and has no method [push]. *)
Definition inherited : list string :=
  ["constructor"; "__defineGetter__"; "__defineSetter__"; "hasOwnProperty";
   "__lookupGetter__"; "__lookupSetter__"; "isPrototypeOf";
   "propertyIsEnumerable"; "toString"; "valueOf"; "__proto__";
   "toLocaleString"].

(** The own properties of the objects [fnBySource] and [lnBySource]:
    for a source the lower-cased names of that source, the sources in
    the order of their first record.  Only membership in the set built
    from them matters below, so the order in which [Object.keys] lists
    the sources plays no part. *)
Definition BySource := list (string * list string).

(** [if (!m[source]) m[source] = []; m[source].push(v)] for a source
    that is no inherited property: [m[source]] is [undefined] or an own
    array. *)
Fixpoint insert (m : BySource) (src v : string) : BySource :=
  match m with
  | [] => [(src, [v])]
  | (key, vs) :: rest =>
      if String.eqb key src then (key, vs ++ [v]) :: rest
      else (key, vs) :: insert rest src v
  end.

(** [if (!m[source]) m[source] = []; m[source].push(v)]: for a source
    that is named like an inherited property [m[source]] is truthy, so
    nothing is assigned, and [m[source].push] is [undefined], so the
    call throws a [TypeError]: [None]. *)
Definition push (m : BySource) (src v : string) : option BySource :=
  if includes inherited src then None else Some (insert m src v).

(** [m[source] || []] for a source that is an own property of
    [fnBySource]. *)
Fixpoint lookup (m : BySource) (src : string) : list string :=
  match m with
  | [] => []
  | (key, vs) :: rest => if String.eqb key src then vs else lookup rest src
  end.

(** [records.forEach(r => { ... push ... })] on the empty object: the
    object after the loop, or [None] when a [push] throws. *)
Definition bySource (records : list NameRecord) : option BySource :=
  fold_left
    (fun m r =>
       match m with
       | Some own => push own (source r) (toLowerCase (name r))
       | None => None
       end)
    records (Some []).

(** The loops that create the pairs within each source. *)
Definition pairsWithin (fnBySource lnBySource : BySource) : SetOf :=
  fold_left
    (fun cache '(src, fns) =>
       let lns := lookup lnBySource src in
       fold_left
         (fun cache fn =>
            fold_left
              (fun cache ln => add cache (fn ++ "|" ++ ln)%string)
              lns cache)
         fns cache)
    fnBySource [].

(** The set built when [_existingPairsCache] is absent, or the
    [TypeError] of the first [push] that throws. *)
Definition buildExistingPairs (g : State) : Completion SetOf :=
  match bySource (allFirstnames g) with
  | None => Throw (notAFunction "fnBySource[fn.source].push")
  | Some fnBySource =>
      match bySource (allLastnames g) with
      | None => Throw (notAFunction "lnBySource[ln.source].push")
      | Some lnBySource => Return (pairsWithin fnBySource lnBySource)
      end
  end.

(** [const [existingFn, existingLn] = existing.split('|')]: the first two
    fields; the second is [undefined] when there is one field only. *)
Definition names (existing : string) : string * option string :=
  match split "|" existing with
  | existingFn :: existingLn :: _ => (existingFn, Some existingLn)
  | existingFn :: [] => (existingFn, None)
  | [] => (EmptyString, None)
  end.

(** The Levenshtein loop over the cached pairs. *)
Definition existsSimilar (cache : SetOf) (fnLower lnLower : string) : bool :=
  existsb
    (fun existing =>
       match names existing with
       | (existingFn, Some existingLn) =>
           String.eqb existingLn lnLower
           && areTooSimilar fnLower existingFn 3
       | (_, None) => false
       end)
    cache.

(** The pairs the checks run against: the cache when it is there, or
    the set that is built on the spot. *)
Definition existingPairs (g : State) : Completion SetOf :=
  match existingPairsCache g with
  | Some cache => Return cache
  | None => buildExistingPairs g
  end.

(** [isTooSimilarToExisting(firstname, lastname)]: the completion and
    the object after the call.  The cache is set to an empty set before
    the set is built, and the pairs are added once both objects are
    filled: a build that throws leaves the empty set in the cache. *)
Definition isTooSimilarToExisting (g : State) (firstname lastname : string)
  : Completion bool * State :=
  let fnLower := toLowerCase firstname in
  let lnLower := toLowerCase lastname in
  match existingPairs g with
  | Throw message => (Throw message, setCache g (Some []))
  | Return cache =>
      let g' := setCache g (Some cache) in
      let candidateKey := (fnLower ++ "|" ++ lnLower)%string in
      if includes cache candidateKey then (Return true, g')
      else (Return (existsSimilar cache fnLower lnLower), g')
  end.

(** The variables of the loop of [generate]; [failure] holds the message
    of the exception that left the loop, if any. *)
Record Loop : Type := {
  this : State;
  results : list Pair;
  attempted : SetOf;
  attempts : nat;
  calls : nat;
  failure : option string
}.

Definition maxAttemptsFactor : nat := 500.

Definition cond (count maxAttempts : nat) (s : Loop) : bool :=
  match failure s with
  | Some _ => false
  | None => (length (results s) <? count) && (attempts s <? maxAttempts)
  end.

Definition body (random : Random) (firstnames lastnames : list string)
  (s : Loop) : Loop :=
  let attempts' := S (attempts s) in
  let firstname :=
    nth (randomIndex random (calls s) (length firstnames))
        firstnames EmptyString in
  let lastname :=
    nth (randomIndex random (S (calls s)) (length lastnames))
        lastnames EmptyString in
  let calls' := S (S (calls s)) in
  let key := (toLowerCase firstname ++ "|" ++ toLowerCase lastname)%string in
  if includes (attempted s) key then
    {| this := this s; results := results s; attempted := attempted s;
       attempts := attempts'; calls := calls'; failure := failure s |}
  else
    let attempted' := add (attempted s) key in
    match isTooSimilarToExisting (this s) firstname lastname with
    | (Throw message, this') =>
        {| this := this'; results := results s; attempted := attempted';
           attempts := attempts'; calls := calls';
           failure := Some message |}
    | (Return similar, this') =>
        if similar then
          {| this := this'; results := results s; attempted := attempted';
             attempts := attempts'; calls := calls';
             failure := failure s |}
        else
          {| this := this';
             results :=
               results s
               ++ [{| firstname := firstname; lastname := lastname |}];
             attempted := attempted';
             attempts := attempts'; calls := calls';
             failure := failure s |}
    end.

(** The variables when the loop starts. *)
Definition start (g : State) : Loop :=
  {| this := g; results := []; attempted := []; attempts := 0; calls := 0;
     failure := None |}.

(** [generate(count, sourceFilter)]. *)
Definition generate (fuel : nat) (g : State) (random : Random)
  (count : nat) (sourceFilter : string) : option (Run State) :=
  let thrown message :=
    Some {| outcome := Throw message; after := g;
            randomCalls := 0; iterations := 0 |} in
  if negb (loaded g) then thrown "Data not loaded"
  else
    let firstnames := getFirstnames g sourceFilter in
    let lastnames := getLastnames g sourceFilter in
    if length firstnames =? 0 then
      thrown "No firstnames available (check source filter and blacklist)"
    else if length lastnames =? 0 then
      thrown "No lastnames available (check source filter and blacklist)"
    else
      let maxAttempts := count * maxAttemptsFactor in
      match
        while (cond count maxAttempts) (body random firstnames lastnames)
          fuel (start g)
      with
      | Some s =>
          Some {| outcome :=
                    match failure s with
                    | Some message => Throw message
                    | None => Return (results s)
                    end;
                  after := this s;
                  randomCalls := calls s; iterations := attempts s |}
      | None => None
      end.

(** [buildExistingCombinations()]: the set is replaced by an empty one;
    the two sets of lower-cased names are built and dropped. *)
Definition buildExistingCombinations (g : State) : State :=
  let allFn :=
    fold_left (fun allFn fn => add allFn (toLowerCase (name fn)))
      (allFirstnames g) [] in
  let allLn :=
    fold_left (fun allLn ln => add allLn (toLowerCase (name ln)))
      (allLastnames g) [] in
  {| allFirstnames := allFirstnames g;
     allLastnames := allLastnames g;
     existingCombinations := [];
     blacklistedFirstnames := blacklistedFirstnames g;
     blacklistedLastnames := blacklistedLastnames g;
     loaded := loaded g;
     currentRace := currentRace g;
     currentSex := currentSex g;
     existingPairsCache := existingPairsCache g |}.

(** [getAllFirstnamesLower()] and [getAllLastnamesLower()]. *)
Definition getAllFirstnamesLower (g : State) : SetOf :=
  fold_left
    (fun seen fn =>
       if negb (includes (blacklistedFirstnames g) (toLowerCase (name fn)))
       then add seen (toLowerCase (name fn))
       else seen)
    (allFirstnames g) [].

Definition getAllLastnamesLower (g : State) : SetOf :=
  fold_left
    (fun seen ln =>
       if negb (includes (blacklistedLastnames g) (toLowerCase (name ln)))
       then add seen (toLowerCase (name ln))
       else seen)
    (allLastnames g) [].

(** The object that [getStats] returns. *)
Module Stats.
Record Stats : Type := {
  uniqueFirstnames : nat;
  uniqueLastnames : nat;
  vanillaFirstnames : nat;
  expandedFirstnames : nat;
  vanillaLastnames : nat;
  expandedLastnames : nat;
  totalFirstnames : nat;
  totalLastnames : nat;
  blacklistedFirstnames : nat;
  blacklistedLastnames : nat
}.
End Stats.

(** [records.filter(r => r.source === src).length]. *)
Definition countSource (src : string) (records : list NameRecord) : nat :=
  length (filter (fun r => String.eqb (source r) src) records).

(** [getStats(sourceFilter)]. *)
Definition getStats (g : State) (sourceFilter : string) : Stats.Stats :=
  let firstnames := getFirstnames g sourceFilter in
  let lastnames := getLastnames g sourceFilter in
  let vanillaFn := countSource "vanilla" (allFirstnames g) in
  let trFn := countSource "tr" (allFirstnames g) in
  let skyFn := countSource "sky" (allFirstnames g) in
  let pcFn := countSource "pc" (allFirstnames g) in
  let vanillaLn := countSource "vanilla" (allLastnames g) in
  let trLn := countSource "tr" (allLastnames g) in
  let skyLn := countSource "sky" (allLastnames g) in
  let pcLn := countSource "pc" (allLastnames g) in
  {| Stats.uniqueFirstnames := length firstnames;
     Stats.uniqueLastnames := length lastnames;
     Stats.vanillaFirstnames := vanillaFn;
     Stats.expandedFirstnames := trFn + skyFn + pcFn;
     Stats.vanillaLastnames := vanillaLn;
     Stats.expandedLastnames := trLn + skyLn + pcLn;
     Stats.totalFirstnames := length (allFirstnames g);
     Stats.totalLastnames := length (allLastnames g);
     Stats.blacklistedFirstnames := length (blacklistedFirstnames g);
     Stats.blacklistedLastnames := length (blacklistedLastnames g) |}.

(** The markup of the click handler. *)
Definition errorHtml (message : string) : string :=
  ("<div class=" ++ Dom.quoted "error" ++ ">" ++ message ++ "</div>")%string.

Definition noNamesHtml : string :=
  ("<div class=" ++ Dom.quoted "error" ++ ">"
   ++ "Could not generate any novel combinations. "
   ++ "Try a different source filter.</div>")%string.

Definition resultsHtml (names : list Pair) (stats : Stats.Stats) : string :=
  (Dom.listHtml names
   ++ "<div class=" ++ Dom.quoted "stats" ++ ">"
   ++ "Generating from: "
   ++ Dom.numberToString (Stats.uniqueFirstnames stats)
   ++ " firstnames " ++ Dom.times ++ " "
   ++ Dom.numberToString (Stats.uniqueLastnames stats) ++ " lastnames"
   ++ "<br>Checking against: "
   ++ Dom.numberToString (Stats.totalFirstnames stats)
   ++ " firstnames " ++ Dom.times ++ " "
   ++ Dom.numberToString (Stats.totalLastnames stats)
   ++ " lastnames (all sources)"
   ++ "</div>"
   ++ "</div>")%string.

(** The click handler of the generate button, run to its end: the
    object after it and its assignments to the page, in their order.
    [race] and [sex] are the values of the two selectors, [sourceSelect]
    is the value of the source selector, [None] when the page has no
    such element; [None] as a result means that the fuel of [generate]
    ran out. *)
Definition clickHandler (fuel : nat) (g : State) (world : World)
  (random : Random) (race sex : string) (sourceSelect : option string)
  : option (State * list Dom.Write) :=
  let source :=
    match sourceSelect with Some value => value | None => "all" end in
  let opening :=
    [Dom.SetInnerHTML Dom.loadingHtml; Dom.SetDisabled true] in
  let closing (g' : State) (html : string) :=
    Some (g', opening ++ [Dom.SetInnerHTML html; Dom.SetDisabled false]) in
  match loadData g world race sex with
  | (Throw message, g1) => closing g1 (errorHtml message)
  | (Return _, g1) =>
      match generate fuel g1 random 10 source with
      | None => None
      | Some r =>
          match outcome r with
          | Throw message => closing (after r) (errorHtml message)
          | Return names =>
              let stats := getStats (after r) source in
              if length names =? 0 then closing (after r) noNamesHtml
              else closing (after r) (resultsHtml names stats)
          end
      end
  end.

End Generator.

(** ** The variant with dedicated full-name files (direct pairs) *)

Module DirectPairs.
Import JS Runtime Pools Levenshtein.

Record State : Type := {
  allFirstnames : list NameRecord;
  allLastnames : list NameRecord;
  allFullnames : list NameRecord;
  blacklistedFirstnames : SetOf;
  blacklistedLastnames : SetOf;
  loaded : bool
}.

Definition initial : State := {|
  allFirstnames := [];
  allLastnames := [];
  allFullnames := [];
  blacklistedFirstnames := [];
  blacklistedLastnames := [];
  loaded := false
|}.

Definition loadBlacklist (world : World) (path : string) (old : SetOf)
  : SetOf :=
  match fetch world path with
  | Ok text => parseBlacklist text
  | NotOk => old
  | Rejected _ => []
  end.

(** [loadData(race, sex)]. *)
Definition loadData (g : State) (world : World) (race sex : string)
  : Completion bool * State :=
  let firstnameDir := ("npcs/" ++ race ++ "/firstnames_" ++ sex)%string in
  let lastnameDir := ("npcs/" ++ race ++ "/lastnames")%string in
  let fullnameDir := ("npcs/" ++ race ++ "/fullnames")%string in
  let firstnames := loadDirectory world firstnameDir in
  let lastnames := loadDirectory world lastnameDir in
  let fullnames := loadDirectory world fullnameDir in
  let fnBlacklist :=
    loadBlacklist world "npcs/blacklist_firstnames.txt"
      (blacklistedFirstnames g) in
  let lnBlacklist :=
    loadBlacklist world "npcs/blacklist_lastnames.txt"
      (blacklistedLastnames g) in
  let finish (isLoaded : bool) : State := {|
    allFirstnames := firstnames;
    allLastnames := lastnames;
    allFullnames := fullnames;
    blacklistedFirstnames := fnBlacklist;
    blacklistedLastnames := lnBlacklist;
    loaded := isLoaded
  |} in
  if length firstnames =? 0 then
    (Throw ("No firstnames found for " ++ race ++ " " ++ sex)%string,
     finish false)
  else if length lastnames =? 0 then
    (Throw ("No lastnames found for " ++ race)%string, finish false)
  else (Return true, finish true).

Definition getFirstnames (g : State) (sourceFilter : string) : list string :=
  getNames (allFirstnames g) (blacklistedFirstnames g) sourceFilter.

Definition getLastnames (g : State) (sourceFilter : string) : list string :=
  getNames (allLastnames g) (blacklistedLastnames g) sourceFilter.

(** What one round of the loop of [isTooSimilarToExisting] answers for
    one existing full name. *)
Definition matches (firstname lastname : string) (existing : NameRecord)
  : bool :=
  let candidateFull := toLowerCase (firstname ++ " " ++ lastname)%string in
  let existingLower := toLowerCase (name existing) in
  String.eqb candidateFull existingLower
  || match split " " existingLower with
     | [existingFn; existingLn] =>
         String.eqb existingLn (toLowerCase lastname)
         && areTooSimilar (toLowerCase firstname) existingFn 3
     | _ => false
     end.

(** [isTooSimilarToExisting(firstname, lastname)]. *)
Definition isTooSimilarToExisting (g : State) (firstname lastname : string)
  : bool :=
  existsb (matches firstname lastname) (allFullnames g).

Record Loop : Type := {
  results : list Pair;
  attempted : SetOf;
  attempts : nat;
  calls : nat
}.

Definition maxAttemptsFactor : nat := 100.

Definition cond (count maxAttempts : nat) (s : Loop) : bool :=
  (length (results s) <? count) && (attempts s <? maxAttempts).

Definition body (g : State) (random : Random)
  (firstnames lastnames : list string) (s : Loop) : Loop :=
  let attempts' := S (attempts s) in
  let firstname :=
    nth (randomIndex random (calls s) (length firstnames))
        firstnames EmptyString in
  let lastname :=
    nth (randomIndex random (S (calls s)) (length lastnames))
        lastnames EmptyString in
  let calls' := S (S (calls s)) in
  let key := (toLowerCase firstname ++ "|" ++ toLowerCase lastname)%string in
  if includes (attempted s) key then
    {| results := results s; attempted := attempted s;
       attempts := attempts'; calls := calls' |}
  else
    let attempted' := add (attempted s) key in
    if isTooSimilarToExisting g firstname lastname then
      {| results := results s; attempted := attempted';
         attempts := attempts'; calls := calls' |}
    else
      {| results :=
           results s ++ [{| firstname := firstname; lastname := lastname |}];
         attempted := attempted';
         attempts := attempts'; calls := calls' |}.

(** The variables when the loop starts. *)
Definition start : Loop :=
  {| results := []; attempted := []; attempts := 0; calls := 0 |}.

(** [generate(count, sourceFilter)]. *)
Definition generate (fuel : nat) (g : State) (random : Random)
  (count : nat) (sourceFilter : string) : option (Run State) :=
  let thrown message :=
    Some {| outcome := Throw message; after := g;
            randomCalls := 0; iterations := 0 |} in
  if negb (loaded g) then thrown "Data not loaded"
  else
    let firstnames := getFirstnames g sourceFilter in
    let lastnames := getLastnames g sourceFilter in
    if length firstnames =? 0 then
      thrown "No firstnames available (check source filter and blacklist)"
    else if length lastnames =? 0 then
      thrown "No lastnames available (check source filter and blacklist)"
    else
      let maxAttempts := count * maxAttemptsFactor in
      match
        while (cond count maxAttempts) (body g random firstnames lastnames)
          fuel start
      with
      | Some s =>
          Some {| outcome := Return (results s); after := g;
                  randomCalls := calls s; iterations := attempts s |}
      | None => None
      end.

(** The object that [getStats] returns. *)
Module Stats.
Record Stats : Type := {
  uniqueFirstnames : nat;
  uniqueLastnames : nat;
  totalFirstnames : nat;
  totalLastnames : nat;
  existingFullnames : nat
}.
End Stats.

(** [getStats(sourceFilter)]. *)
Definition getStats (g : State) (sourceFilter : string) : Stats.Stats :=
  let firstnames := getFirstnames g sourceFilter in
  let lastnames := getLastnames g sourceFilter in
  {| Stats.uniqueFirstnames := length firstnames;
     Stats.uniqueLastnames := length lastnames;
     Stats.totalFirstnames := length (allFirstnames g);
     Stats.totalLastnames := length (allLastnames g);
     Stats.existingFullnames := length (allFullnames g) |}.

(** The markup of the click handler. *)
Definition errorHtml (message : string) : string :=
  ("<div class=" ++ Dom.quoted "error" ++ ">" ++ message ++ "</div>")%string.

Definition noNamesHtml : string :=
  ("<div class=" ++ Dom.quoted "error" ++ ">"
   ++ "Could not generate any novel combinations. "
   ++ "Try a different source filter.</div>")%string.

Definition resultsHtml (names : list Pair) (stats : Stats.Stats) : string :=
  (Dom.listHtml names
   ++ "<div class=" ++ Dom.quoted "stats" ++ ">"
   ++ "Generating from: "
   ++ Dom.numberToString (Stats.uniqueFirstnames stats)
   ++ " firstnames " ++ Dom.times ++ " "
   ++ Dom.numberToString (Stats.uniqueLastnames stats) ++ " lastnames"
   ++ "<br>Checking against: "
   ++ Dom.numberToString (Stats.existingFullnames stats)
   ++ " existing NPCs"
   ++ "</div>"
   ++ "</div>")%string.

(** The click handler of the generate button, run to its end. *)
Definition clickHandler (fuel : nat) (g : State) (world : World)
  (random : Random) (race sex : string) (sourceSelect : option string)
  : option (State * list Dom.Write) :=
  let source :=
    match sourceSelect with Some value => value | None => "all" end in
  let opening :=
    [Dom.SetInnerHTML Dom.loadingHtml; Dom.SetDisabled true] in
  let closing (g' : State) (html : string) :=
    Some (g', opening ++ [Dom.SetInnerHTML html; Dom.SetDisabled false]) in
  match loadData g world race sex with
  | (Throw message, g1) => closing g1 (errorHtml message)
  | (Return _, g1) =>
      match generate fuel g1 random 10 source with
      | None => None
      | Some r =>
          match outcome r with
          | Throw message => closing (after r) (errorHtml message)
          | Return names =>
              let stats := getStats (after r) source in
              if length names =? 0 then closing (after r) noNamesHtml
              else closing (after r) (resultsHtml names stats)
          end
      end
  end.

End DirectPairs.

(** ** The variant with one flat NPC file and an inline source tag *)

Module FlatFile.
Import JS Runtime Levenshtein.

(** [{ firstname, lastname, source }]; [lastname] is [null] for an NPC
    with a single name. *)
Record Npc : Type := {
  firstname : string;
  lastname : option string;
  source : string
}.

Record State : Type := {
  npcs : list Npc;
  blacklistedLastnames : SetOf;
  loaded : bool
}.

Definition initial : State := {|
  npcs := [];
  blacklistedLastnames := [];
  loaded := false
|}.

(** The function mapped over the lines by [parseNPCFile]; [None] is the
    [null] that the final filter drops. *)
Definition parseLine (line : string) : option Npc :=
  let '(namePart, source) :=
    if includesSub line " | " then
      match lastIndexOf " | " line with
      | Some pipeIndex =>
          (trim (substring line 0 pipeIndex),
           toLowerCase (trim (substringFrom line (pipeIndex + 3))))
      | None => (line, "vanilla")
      end
    else (line, "vanilla") in
  match splitSpaces namePart with
  | first :: second :: rest =>
      Some {| firstname := first;
              lastname := Some (join " " (second :: rest));
              source := source |}
  | [only] =>
      Some {| firstname := only; lastname := None; source := source |}
  | [] => None
  end.

(** [parseNPCFile(text)]. *)
Definition parseNPCFile (text : string) : list Npc :=
  let lines :=
    filter (fun line => truthy line && negb (startsWith line "#"))
      (map trim (split "010" text)) in
  flat_map
    (fun line => match parseLine line with Some npc => [npc] | None => [] end)
    lines.

(** [parseBlacklist(text)]. *)
Definition parseBlacklist (text : string) : SetOf :=
  newSet
    (filter (fun line => truthy line && negb (startsWith line "#"))
       (map (fun line => toLowerCase (trim line)) (split "010" text))).

(** [loadData(race, sex)]. *)
Definition loadData (g : State) (world : World) (race sex : string)
  : Completion bool * State :=
  let npcFile := ("npcs/" ++ race ++ "_" ++ sex ++ ".txt")%string in
  let blacklistFile := "npcs/blacklist.txt" in
  let failed : State := {|
    npcs := npcs g;
    blacklistedLastnames := blacklistedLastnames g;
    loaded := false
  |} in
  match fetch world npcFile with
  | Rejected message => (Throw message, failed)
  | NotOk =>
      (Throw ("No data found for " ++ race ++ " " ++ sex)%string, failed)
  | Ok npcText =>
      (Return true,
       {| npcs := parseNPCFile npcText;
          blacklistedLastnames :=
            match fetch world blacklistFile with
            | Ok blacklistText => parseBlacklist blacklistText
            | NotOk => []
            | Rejected _ => []
            end;
          loaded := true |})
  end.

(** [filterBySource(sourceFilter)]. *)
Definition filterBySource (g : State) (sourceFilter : string) : list Npc :=
  if String.eqb sourceFilter "all" then npcs g
  else filter (fun npc => String.eqb (source npc) sourceFilter) (npcs g).

(** [getFirstnames(sourceFilter)]: the [Set] holds the names as they are
    written. *)
Definition getFirstnames (g : State) (sourceFilter : string) : list string :=
  fold_left
    (fun names npc =>
       if truthy (firstname npc) then add names (firstname npc) else names)
    (filterBySource g sourceFilter) [].

(** [getLastnames(sourceFilter)]. *)
Definition getLastnames (g : State) (sourceFilter : string) : list string :=
  fold_left
    (fun names npc =>
       match lastname npc with
       | Some ln =>
           if truthy ln
              && negb (includes (blacklistedLastnames g) (toLowerCase ln))
           then add names ln
           else names
       | None => names
       end)
    (filterBySource g sourceFilter) [].

(** What one round of the loop of [isTooSimilarToExisting] answers for
    one NPC; an NPC without a lastname is skipped. *)
Definition matches (first last : string) (npc : Npc) : bool :=
  match lastname npc with
  | None => false
  | Some npcLast =>
      if truthy npcLast then
        let candidateFull := toLowerCase (first ++ " " ++ last)%string in
        let existingFull :=
          toLowerCase (firstname npc ++ " " ++ npcLast)%string in
        String.eqb candidateFull existingFull
        || (String.eqb (toLowerCase npcLast) (toLowerCase last)
            && areTooSimilar first (firstname npc) 3)
      else false
  end.

(** [isTooSimilarToExisting(firstname, lastname)]. *)
Definition isTooSimilarToExisting (g : State) (first last : string) : bool :=
  existsb (matches first last) (npcs g).

Record Loop : Type := {
  results : list Pair;
  attempted : SetOf;
  attempts : nat;
  calls : nat
}.

Definition maxAttemptsFactor : nat := 100.

Definition cond (count maxAttempts : nat) (s : Loop) : bool :=
  (length (results s) <? count) && (attempts s <? maxAttempts).

(** [results.some(r => ...)]. *)
Definition alreadyInResults (results : list Pair) (first last : string)
  : bool :=
  existsb
    (fun r =>
       String.eqb (toLowerCase (Runtime.firstname r)) (toLowerCase first)
       && String.eqb (toLowerCase (Runtime.lastname r)) (toLowerCase last))
    results.

Definition body (g : State) (random : Random)
  (firstnames lastnames : list string) (s : Loop) : Loop :=
  let attempts' := S (attempts s) in
  let first :=
    nth (randomIndex random (calls s) (length firstnames))
        firstnames EmptyString in
  let last :=
    nth (randomIndex random (S (calls s)) (length lastnames))
        lastnames EmptyString in
  let calls' := S (S (calls s)) in
  let key := (toLowerCase first ++ "|" ++ toLowerCase last)%string in
  if includes (attempted s) key then
    {| results := results s; attempted := attempted s;
       attempts := attempts'; calls := calls' |}
  else
    let attempted' := add (attempted s) key in
    if isTooSimilarToExisting g first last then
      {| results := results s; attempted := attempted';
         attempts := attempts'; calls := calls' |}
    else if alreadyInResults (results s) first last then
      {| results := results s; attempted := attempted';
         attempts := attempts'; calls := calls' |}
    else
      {| results :=
           results s
             ++ [{| Runtime.firstname := first; Runtime.lastname := last |}];
         attempted := attempted';
         attempts := attempts'; calls := calls' |}.

(** The variables when the loop starts. *)
Definition start : Loop :=
  {| results := []; attempted := []; attempts := 0; calls := 0 |}.

(** [generate(count, sourceFilter)]. *)
Definition generate (fuel : nat) (g : State) (random : Random)
  (count : nat) (sourceFilter : string) : option (Run State) :=
  let thrown message :=
    Some {| outcome := Throw message; after := g;
            randomCalls := 0; iterations := 0 |} in
  if negb (loaded g) then thrown "Data not loaded"
  else
    let firstnames := getFirstnames g sourceFilter in
    let lastnames := getLastnames g sourceFilter in
    if length firstnames =? 0 then thrown "No firstnames available"
    else if length lastnames =? 0 then
      thrown "No lastnames available (all may be blacklisted)"
    else
      let maxAttempts := count * maxAttemptsFactor in
      match
        while (cond count maxAttempts) (body g random firstnames lastnames)
          fuel start
      with
      | Some s =>
          Some {| outcome := Return (results s); after := g;
                  randomCalls := calls s; iterations := attempts s |}
      | None => None
      end.

(** The object that [getStats] returns. *)
Module Stats.
Record Stats : Type := {
  totalNPCs : nat;
  allNPCs : nat;
  vanillaNPCs : nat;
  trNPCs : nat;
  uniqueFirstnames : nat;
  uniqueLastnames : nat;
  blacklistedLastnames : nat;
  theoreticalCombinations : nat;
  existingCombinations : nat
}.
End Stats.

(** The truth value of [npc.lastname]: [null] and the empty string are
    falsy. *)
Definition hasLastname (npc : Npc) : bool :=
  match lastname npc with Some ln => truthy ln | None => false end.

(** [getStats(sourceFilter)]. *)
Definition getStats (g : State) (sourceFilter : string) : Stats.Stats :=
  let filteredNpcs := filterBySource g sourceFilter in
  let firstnames := getFirstnames g sourceFilter in
  let lastnames := getLastnames g sourceFilter in
  let totalPossible := length firstnames * length lastnames in
  let existing := length (filter hasLastname filteredNpcs) in
  let vanillaCount :=
    length (filter (fun n => String.eqb (source n) "vanilla") (npcs g)) in
  let trCount :=
    length (filter (fun n => String.eqb (source n) "tr") (npcs g)) in
  {| Stats.totalNPCs := length filteredNpcs;
     Stats.allNPCs := length (npcs g);
     Stats.vanillaNPCs := vanillaCount;
     Stats.trNPCs := trCount;
     Stats.uniqueFirstnames := length firstnames;
     Stats.uniqueLastnames := length lastnames;
     Stats.blacklistedLastnames := length (blacklistedLastnames g);
     Stats.theoreticalCombinations := totalPossible;
     Stats.existingCombinations := existing |}.

(** The markup of the click handler. *)
Definition errorHtml (message race sex : string) : string :=
  ("<div class=" ++ Dom.quoted "error" ++ ">" ++ message
   ++ "<br><br>Make sure the file <code>npcs/" ++ race ++ "_" ++ sex
   ++ ".txt</code> exists.</div>")%string.

Definition noNamesHtml : string :=
  ("<div class=" ++ Dom.quoted "error" ++ ">"
   ++ "Could not generate any novel combinations. "
   ++ "All possibilities may be exhausted or too similar to existing names."
   ++ "</div>")%string.

Definition resultsHtml (names : list Pair) (stats : Stats.Stats) : string :=
  let html :=
    (Dom.listHtml names
     ++ "<div class=" ++ Dom.quoted "stats" ++ ">"
     ++ Dom.numberToString (Stats.uniqueFirstnames stats)
     ++ " firstnames " ++ Dom.times ++ " "
     ++ Dom.numberToString (Stats.uniqueLastnames stats)
     ++ " lastnames available")%string in
  let html :=
    if 0 <? Stats.blacklistedLastnames stats
    then (html ++ "<br>"
          ++ Dom.numberToString (Stats.blacklistedLastnames stats)
          ++ " lastnames blacklisted")%string
    else html in
  (html ++ "<br>" ++ Dom.numberToString (Stats.vanillaNPCs stats)
   ++ " vanilla + " ++ Dom.numberToString (Stats.trNPCs stats)
   ++ " TR NPCs loaded"
   ++ "</div>"
   ++ "</div>")%string.

(** The click handler of the generate button, run to its end. *)
Definition clickHandler (fuel : nat) (g : State) (world : World)
  (random : Random) (race sex : string) (sourceSelect : option string)
  : option (State * list Dom.Write) :=
  let source :=
    match sourceSelect with Some value => value | None => "all" end in
  let opening :=
    [Dom.SetInnerHTML Dom.loadingHtml; Dom.SetDisabled true] in
  let closing (g' : State) (html : string) :=
    Some (g', opening ++ [Dom.SetInnerHTML html; Dom.SetDisabled false]) in
  match loadData g world race sex with
  | (Throw message, g1) => closing g1 (errorHtml message race sex)
  | (Return _, g1) =>
      match generate fuel g1 random 10 source with
      | None => None
      | Some r =>
          match outcome r with
          | Throw message => closing (after r) (errorHtml message race sex)
          | Return names =>
              let stats := getStats (after r) source in
              if length names =? 0 then closing (after r) noNamesHtml
              else closing (after r) (resultsHtml names stats)
          end
      end
  end.

End FlatFile.

(** * Specification notions *)

Module EditDistance.

(** The recurrence of the dynamic programme on two words read from
    their last unit: equal last units cost nothing, otherwise one edit
    is paid on top of the cheapest of a substitution, an insertion and a
    deletion. *)
Fixpoint edit (ra : list ascii) : list ascii -> nat :=
  fix editRa (rb : list ascii) : nat :=
    match ra, rb with
    | [], _ => length rb
    | _, [] => length ra
    | x :: ra', y :: rb' =>
        if Ascii.eqb y x then edit ra' rb'
        else Nat.min (edit ra' rb' + 1)
               (Nat.min (edit ra' rb + 1) (editRa rb' + 1))
    end.

(** [Script n u v]: the word [u] is turned into [v] by [n] single-unit
    edits; every unit of [u] is kept, substituted or deleted, and the
    other units of [v] are inserted. *)
Inductive Script : nat -> list ascii -> list ascii -> Prop :=
  | ScriptDone : Script 0 [] []
  | ScriptKeep n x u v : Script n u v -> Script n (x :: u) (x :: v)
  | ScriptSubstitute n x y u v :
      Script n u v -> Script (S n) (x :: u) (y :: v)
  | ScriptDelete n x u v : Script n u v -> Script (S n) (x :: u) v
  | ScriptInsert n y u v : Script n u v -> Script (S n) u (y :: v).

(** The code units of a string. *)
Definition units (s : string) : list ascii := list_ascii_of_string s.

(** What the matrix holds at row [i] and column [j]: the recurrence on
    the first [j] units of [a] and the first [i] units of [b]. *)
Definition prefixDistance (a b : string) (i j : nat) : nat :=
  edit (rev (firstn j (units a))) (rev (firstn i (units b))).

End EditDistance.

Module Sampling.
Import JS Runtime.

(** The key under which [generate] remembers a pair it has tried. *)
Definition key (p : Pair) : string :=
  (toLowerCase (firstname p) ++ "|" ++ toLowerCase (lastname p))%string.

(** A pair without its letter case: two pairs are duplicates of each
    other, letter case aside, when they agree on it. *)
Definition folded (p : Pair) : string * string :=
  (toLowerCase (firstname p), toLowerCase (lastname p)).

(** What the variables of the sampling loop satisfy before and after
    every round: [rejects] is the answer of the novelty check. *)
Definition Sampled (firstnames lastnames : list string)
  (rejects : string -> string -> bool) (count maxAttempts : nat)
  (results : list Pair) (attempted : SetOf) (attempts calls : nat) : Prop :=
  length results <= count
  /\ attempts <= maxAttempts
  /\ calls = 2 * attempts
  /\ length results <= attempts
  /\ (forall p, In p results ->
        In (key p) attempted
        /\ In (firstname p) firstnames
        /\ In (lastname p) lastnames
        /\ rejects (firstname p) (lastname p) = false)
  /\ NoDup (map key results).


(** What a call of [generate] that returns within its budget looks
    like: [K] is the attempts factor of the variant. *)
Definition BoundedRun {State : Type} (K count : nat) (r : Run State)
  : Prop :=
  exists results,
    outcome r = Return results
    /\ iterations r <= count * K
    /\ length results <= count
    /\ (length results < count -> iterations r = count * K)
    /\ randomCalls r = 2 * iterations r.

End Sampling.

Module Frame.
Import JS Runtime.

(** The set that a check leaves in the pair cache: the pairs it ran
    against, or the empty set when they could not be built. *)
Definition pairs (g : Generator.State) : SetOf :=
  match Generator.existingPairs g with
  | Return cache => cache
  | Throw _ => []
  end.

(** The generator object with its pair cache filled: the one change a
    call of [generate] of generator.js makes to the object. *)
Definition withCache (g : Generator.State) : Generator.State :=
  Generator.setCache g (Some (pairs g)).

(** The object after a call is the object before it, up to the cache. *)
Definition sameData (g g' : Generator.State) : Prop :=
  g' = g \/ g' = withCache g.

(** The novelty check of generator.js does not let the pair through: it
    answers [true], or it throws. *)
Definition rejects (g : Generator.State) (firstname lastname : string)
  : bool :=
  match fst (Generator.isTooSimilarToExisting g firstname lastname) with
  | Return similar => similar
  | Throw _ => true
  end.

(** The novelty check returns on the object: its pair cache is there, or
    it can be built. *)
Definition checks (g : Generator.State) : Prop :=
  exists cache, Generator.existingPairs g = Return cache.

(** No loaded record has a source that is named like an inherited
    property. *)
Definition plainSources (g : Generator.State) : bool :=
  forallb
    (fun r => negb (includes Generator.inherited (Pools.source r)))
    (Generator.allFirstnames g ++ Generator.allLastnames g).

(** The pair key that the cache holds for a firstname record and a
    lastname record. *)
Definition cacheKey (fn ln : Pools.NameRecord) : string :=
  (toLowerCase (Pools.name fn) ++ "|" ++ toLowerCase (Pools.name ln))%string.

(** The object with other blacklists. *)
Definition setBlacklists (g : Generator.State)
  (firstnameBlacklist lastnameBlacklist : SetOf) : Generator.State := {|
  Generator.allFirstnames := Generator.allFirstnames g;
  Generator.allLastnames := Generator.allLastnames g;
  Generator.existingCombinations := Generator.existingCombinations g;
  Generator.blacklistedFirstnames := firstnameBlacklist;
  Generator.blacklistedLastnames := lastnameBlacklist;
  Generator.loaded := Generator.loaded g;
  Generator.currentRace := Generator.currentRace g;
  Generator.currentSex := Generator.currentSex g;
  Generator.existingPairsCache := Generator.existingPairsCache g
|}.

End Frame.

Module Sessions.
Import JS Runtime.

(** The generator objects of generator.js on which no [loadData] has
    succeeded yet: the initial object, and what a [loadData] that threw
    leaves of such an object. *)
Inductive NeverLoaded : Generator.State -> Prop :=
  | NeverLoadedInitial : NeverLoaded Generator.initial
  | NeverLoadedFailed g world race sex message g' :
      NeverLoaded g ->
      Generator.loadData g world race sex = (Throw message, g') ->
      NeverLoaded g'.

(** The same for the flat-file variant. *)
Inductive FlatNeverLoaded : FlatFile.State -> Prop :=
  | FlatNeverLoadedInitial : FlatNeverLoaded FlatFile.initial
  | FlatNeverLoadedFailed g world race sex message g' :
      FlatNeverLoaded g ->
      FlatFile.loadData g world race sex = (Throw message, g') ->
      FlatNeverLoaded g'.

(** A call that threw [message], drew nothing and left the object [g]
    as it was. *)
Definition thrown {State : Type} (g : State) (message : string)
  : Run State :=
  {| outcome := Throw message; after := g;
     randomCalls := 0; iterations := 0 |}.

End Sessions.

Module PoolSpec.
Import JS Runtime.

(** [Subsequence l l']: [l] is [l'] with some elements left out. *)
Inductive Subsequence {A : Type} : list A -> list A -> Prop :=
  | SubsequenceNil : Subsequence [] []
  | SubsequenceSkip x l l' : Subsequence l l' -> Subsequence l (x :: l')
  | SubsequenceKeep x l l' :
      Subsequence l l' -> Subsequence (x :: l) (x :: l').

(** The loops that build a candidate pool, as a function of the names
    that come in: a name is kept unless it is [blocked] or a name with
    the same [norm] was seen before. *)
Fixpoint keepFirst (blocked : string -> bool) (norm : string -> string)
  (seen : SetOf) (names : list string) : list string :=
  match names with
  | [] => []
  | n :: rest =>
      if negb (blocked n) && negb (includes seen (norm n))
      then n :: keepFirst blocked norm (add seen (norm n)) rest
      else keepFirst blocked norm seen rest
  end.

(** What a candidate pool is to the names [names] it is drawn from: a
    subsequence of the names, without two names of the same [norm],
    without [blocked] names, holding for each of its names the first
    spelling that comes in, and holding a spelling of every name that is
    not blocked. *)
Definition PoolOf (blocked : string -> bool) (norm : string -> string)
  (names pool : list string) : Prop :=
  Subsequence pool names
  /\ NoDup (map norm pool)
  /\ (forall n, In n pool -> blocked n = false)
  /\ (forall n, In n pool ->
        exists before rest,
          names = before ++ n :: rest
          /\ forall m, In m before -> norm m <> norm n)
  /\ (forall n, In n names -> blocked n = false ->
        exists m, In m pool /\ norm m = norm n).

(** A name is blacklisted when its lower-cased form is in the
    blacklist. *)
Definition blacklisted (blacklist : SetOf) (n : string) : bool :=
  includes blacklist (toLowerCase n).

(** The lastnames of the NPCs that have one. *)
Definition lastnamesOf (l : list FlatFile.Npc) : list string :=
  flat_map
    (fun npc =>
       match FlatFile.lastname npc with Some ln => [ln] | None => [] end)
    l.

End PoolSpec.

Module Novelty.
Import JS Runtime Levenshtein.

(** The pair is the full name of the NPC, letter case aside. *)
Definition exactMatch (p : Pair) (npc : FlatFile.Npc) : Prop :=
  exists npcLast,
    FlatFile.lastname npc = Some npcLast
    /\ toLowerCase (firstname p) = toLowerCase (FlatFile.firstname npc)
    /\ toLowerCase (lastname p) = toLowerCase npcLast.

(** The pair bears the lastname of the NPC, letter case aside, and its
    firstname is fewer than three edits away from the firstname of the
    NPC. *)
Definition nearMiss (p : Pair) (npc : FlatFile.Npc) : Prop :=
  exists npcLast,
    FlatFile.lastname npc = Some npcLast
    /\ toLowerCase npcLast = toLowerCase (lastname p)
    /\ levenshteinDistance (firstname p) (FlatFile.firstname npc) < 3.

(** A string without the code unit [c]. *)
Definition without (c : ascii) (s : string) : bool :=
  forallb (fun x => negb (Ascii.eqb x c)) (list_ascii_of_string s).

(** A string without white space. *)
Definition singleWord (s : string) : bool :=
  forallb (fun c => negb (isSpace c)) (list_ascii_of_string s).

End Novelty.

(** ** Sample datasets *)

Module Samples.
Import JS Runtime.

(** The text of lines [lines], each ended by a line feed. *)
Definition fileOf (lines : list string) : string :=
  String.concat EmptyString
    (map (fun line => (line ++ String "010" EmptyString)%string) lines).

(** A world that serves the files of [files] and nothing else. *)
Definition serve (files : list (string * list string)) : World := {|
  fetch := fun path =>
    match find (fun file => String.eqb (fst file) path) files with
    | Some file => Ok (fileOf (snd file))
    | None => NotOk
    end;
  manifestFiles := fun _ => None
|}.

(** The flat file of the dark elves: Aryon Savel and the single-named
    Dilborn. *)
Definition flatWorld : World :=
  serve [("npcs/darkelf_male.txt", ["Aryon Savel"; "Dilborn"])].

Definition flatLoaded : FlatFile.State :=
  snd (FlatFile.loadData FlatFile.initial flatWorld "darkelf" "male").

(** A flat file with the single-named Jiub and with Aryon Savel. *)
Definition jiubWorld : World :=
  serve [("npcs/darkelf_male.txt", ["Jiub"; "Aryon Savel"])].

Definition jiubLoaded : FlatFile.State :=
  snd (FlatFile.loadData FlatFile.initial jiubWorld "darkelf" "male").

(** generator.js: Aryon is a vanilla firstname and is blacklisted, Aryan
    is a firstname of tr, Savel is a vanilla lastname. *)
Definition blacklistWorld : World :=
  serve [("npcs/darkelf/firstnames_male/vanilla.txt", ["Aryon"]);
         ("npcs/darkelf/firstnames_male/tr.txt", ["Aryan"]);
         ("npcs/darkelf/lastnames/vanilla.txt", ["Savel"]);
         ("npcs/blacklist_firstnames.txt", ["Aryon"])].

Definition blacklistLoaded : Generator.State :=
  snd (Generator.loadData Generator.initial blacklistWorld "darkelf" "male").

(** The same files without the blacklisted firstname. *)
Definition plainWorld : World :=
  serve [("npcs/darkelf/firstnames_male/tr.txt", ["Aryan"]);
         ("npcs/darkelf/lastnames/vanilla.txt", ["Savel"]);
         ("npcs/blacklist_firstnames.txt", ["Aryon"])].

Definition plainLoaded : Generator.State :=
  snd (Generator.loadData Generator.initial plainWorld "darkelf" "male").

(** A world that serves the files of [files] and, in every directory,
    a manifest that lists [manifest]. *)
Definition serveWithManifest (manifest : list string)
  (files : list (string * list string)) : World := {|
  fetch := fetch (serve files);
  manifestFiles := fun _ => Some manifest
|}.

(** generator.js: the firstname Vedam comes from the custom file that
    the manifest lists. *)
Definition customWorld : World :=
  serveWithManifest ["custom.txt"]
    [("npcs/darkelf/firstnames_male/vanilla.txt", ["Aryon"]);
     ("npcs/darkelf/firstnames_male/custom.txt", ["Vedam"]);
     ("npcs/darkelf/lastnames/vanilla.txt", ["Savel"])].

Definition customLoaded : Generator.State :=
  snd (Generator.loadData Generator.initial customWorld "darkelf" "male").

(** A flat file with the firstname Aryon in two spellings. *)
Definition caseWorld : World :=
  serve [("npcs/darkelf_male.txt", ["Aryon Savel"; "aryon Hlaalu"])].

Definition caseLoaded : FlatFile.State :=
  snd (FlatFile.loadData FlatFile.initial caseWorld "darkelf" "male").

(** generator.js: the only firstname is blacklisted. *)
Definition emptiedWorld : World :=
  serve [("npcs/darkelf/firstnames_male/vanilla.txt", ["Aryon"]);
         ("npcs/darkelf/lastnames/vanilla.txt", ["Savel"]);
         ("npcs/blacklist_firstnames.txt", ["Aryon"])].

Definition emptiedLoaded : Generator.State :=
  snd (Generator.loadData Generator.initial emptiedWorld "darkelf" "male").

(** generator.js: the only lastname is blacklisted. *)
Definition lastEmptiedWorld : World :=
  serve [("npcs/darkelf/firstnames_male/vanilla.txt", ["Aryon"]);
         ("npcs/darkelf/lastnames/vanilla.txt", ["Savel"]);
         ("npcs/blacklist_lastnames.txt", ["SAVEL"])].

Definition lastEmptiedLoaded : Generator.State :=
  snd (Generator.loadData Generator.initial lastEmptiedWorld
         "darkelf" "male").

(** A flat file with a comment only, and one with single names only. *)
Definition commentWorld : World :=
  serve [("npcs/argonian_male.txt", ["# nobody yet"])].

Definition commentLoaded : FlatFile.State :=
  snd (FlatFile.loadData FlatFile.initial commentWorld "argonian" "male").

Definition singleNamesWorld : World :=
  serve [("npcs/argonian_male.txt", ["Jiub"; "Okur"])].

Definition singleNamesLoaded : FlatFile.State :=
  snd (FlatFile.loadData FlatFile.initial singleNamesWorld
         "argonian" "male").

(** The direct-pairs variant: the firstnames Aryon and Dilborn, the
    lastname Savel and the existing full name Aryon Savel. *)
Definition directWorld : World :=
  serve [("npcs/darkelf/firstnames_male/vanilla.txt", ["Aryon"; "Dilborn"]);
         ("npcs/darkelf/lastnames/vanilla.txt", ["Savel"]);
         ("npcs/darkelf/fullnames/vanilla.txt", ["Aryon Savel"])].

Definition directLoaded : DirectPairs.State :=
  snd (DirectPairs.loadData DirectPairs.initial directWorld
         "darkelf" "male").

(** generator.js: two firstnames that hold a bar. *)
Definition barWorld : World :=
  serve [("npcs/darkelf/firstnames_male/vanilla.txt", ["x|yon"]);
         ("npcs/darkelf/firstnames_male/tr.txt", ["x|yoo"]);
         ("npcs/darkelf/lastnames/vanilla.txt", ["Savel"])].

Definition barLoaded : Generator.State :=
  snd (Generator.loadData Generator.initial barWorld "darkelf" "male").

(** generator.js: the vanilla lastname holds a bar, and Sa is a lastname
    of sky, a source without firstnames. *)
Definition barLastWorld : World :=
  serve [("npcs/darkelf/firstnames_male/vanilla.txt", ["Aryon"]);
         ("npcs/darkelf/firstnames_male/tr.txt", ["Aryan"]);
         ("npcs/darkelf/lastnames/vanilla.txt", ["Sa|vel"]);
         ("npcs/darkelf/lastnames/sky.txt", ["Sa"])].

Definition barLastLoaded : Generator.State :=
  snd (Generator.loadData Generator.initial barLastWorld "darkelf" "male").

(** generator.js: the manifest lists the file constructor.txt, whose
    names are tagged with the source constructor. *)
Definition inheritedWorld : World :=
  serveWithManifest ["constructor.txt"]
    [("npcs/darkelf/firstnames_male/vanilla.txt", ["Aryon"]);
     ("npcs/darkelf/firstnames_male/constructor.txt", ["Vedam"]);
     ("npcs/darkelf/lastnames/vanilla.txt", ["Savel"])].

Definition inheritedLoaded : Generator.State :=
  snd (Generator.loadData Generator.initial inheritedWorld
         "darkelf" "male").

(** The direct-pairs variant: the existing full name M'Aiq the Liar has
    three words; M'Aaq is a firstname and the Liar a lastname. *)
Definition threeWordWorld : World :=
  serve [("npcs/khajiit/firstnames_male/vanilla.txt", ["M'Aaq"]);
         ("npcs/khajiit/lastnames/vanilla.txt", ["the Liar"]);
         ("npcs/khajiit/fullnames/vanilla.txt", ["M'Aiq the Liar"])].

Definition threeWordLoaded : DirectPairs.State :=
  snd (DirectPairs.loadData DirectPairs.initial threeWordWorld
         "khajiit" "male").

(** A flat file with a vanilla NPC, an NPC of tr and an NPC of sky. *)
Definition taggedWorld : World :=
  serve [("npcs/darkelf_male.txt",
          ["Aryon Savel"; "Vedam Dren | TR"; "Dilborn Hlaalu | sky"])].

Definition taggedLoaded : FlatFile.State :=
  snd (FlatFile.loadData FlatFile.initial taggedWorld "darkelf" "male").

End Samples.


(** ** Name files and directories *)

Module Loading.
Import JS Runtime Pools.

(** A name as it stands on a line of a name file: not empty, without
    white space around it, no comment, and without a line feed. *)
Definition cleanName (n : string) : Prop :=
  n <> EmptyString
  /\ trim n = n
  /\ startsWith n "#" = false
  /\ Novelty.without "010" n = true.

(** The records that one file of a directory contributes: the body of
    the loading loop of [loadDirectory]. *)
Definition fileRecords (world : World) (basePath filename : string)
  : list NameRecord :=
  match fetch world (basePath ++ "/" ++ filename)%string with
  | Ok text =>
      map (fun n => {| name := n; source := replace filename ".txt" "" |})
        (parseNameFile text)
  | _ => []
  end.

(** The files that the manifest of a directory lists. *)
Definition listedFiles (world : World) (basePath : string) : list string :=
  match manifestFiles world basePath with
  | Some files => files
  | None => []
  end.

End Loading.

(** ** Sessions of generator.js *)

Module Session.
Import JS Runtime.

(** The pair cache, when it is filled, holds the pairs of the names that
    are loaded now. *)
Definition Coherent (g : Generator.State) : Prop :=
  Generator.existingPairsCache g = None
  \/ exists cache,
       Generator.existingPairsCache g = Some cache
       /\ Generator.buildExistingPairs g = Return cache.

(** The pair cache was left empty by a build that threw, and the build
    would throw again. *)
Definition Emptied (g : Generator.State) : Prop :=
  Generator.existingPairsCache g = Some []
  /\ exists message, Generator.buildExistingPairs g = Throw message.

(** The objects that the methods of generator.js and the click handler
    reach from the object literal, one call after the other.  The
    methods that only read the object ([getFirstnames], [getStats], ...)
    add nothing. *)
Inductive Reachable : Generator.State -> Prop :=
  | ReachableInitial : Reachable Generator.initial
  | ReachableLoadData g world race sex :
      Reachable g ->
      Reachable (snd (Generator.loadData g world race sex))
  | ReachableBuild g :
      Reachable g -> Reachable (Generator.buildExistingCombinations g)
  | ReachableCheck g first last :
      Reachable g ->
      Reachable (snd (Generator.isTooSimilarToExisting g first last))
  | ReachableGenerate g fuel random count sourceFilter r :
      Reachable g ->
      Generator.generate fuel g random count sourceFilter = Some r ->
      Reachable (after r)
  | ReachableClick g fuel world random race sex sourceSelect g' writes :
      Reachable g ->
      Generator.clickHandler fuel g world random race sex sourceSelect
      = Some (g', writes) ->
      Reachable g'.

(** What a caller sees of a call of [generate]: how it ended, the
    number of [Math.random()] calls and the number of rounds. *)
Definition observed {State : Type} (r : Run State)
  : Completion (list Pair) * nat * nat :=
  (outcome r, randomCalls r, iterations r).

End Session.

(** ** The lines of the flat NPC file *)

Module FlatFormat.
Import JS Runtime Novelty.

(** A word: not empty and without white space. *)
Definition word (w : string) : Prop :=
  singleWord w = true /\ w <> EmptyString.

(** The line that writes the name [words] with the source tag [src],
    and the line of the old format without a tag. *)
Definition taggedLine (words : list string) (src : string) : string :=
  (join " " words ++ " | " ++ src)%string.

Definition plainLine (words : list string) : string := join " " words.

(** The NPC that a name of one or more words stands for. *)
Definition npcOf (words : list string) (src : string)
  : option FlatFile.Npc :=
  match words with
  | [] => None
  | [only] =>
      Some {| FlatFile.firstname := only;
              FlatFile.lastname := None;
              FlatFile.source := src |}
  | first :: rest =>
      Some {| FlatFile.firstname := first;
              FlatFile.lastname := Some (join " " rest);
              FlatFile.source := src |}
  end.

End FlatFormat.

(** ** More sample datasets *)

Module Scenarios.
Import JS Runtime Samples.

(** A text with blank space around a name, a comment and an empty
    line. *)
Definition untidyText : string :=
  ("  Aryon  " ++ String "010" "# no name here"
   ++ String "010" (String "010" "Dilborn"))%string.

(** generator.js: the files of [blacklistWorld] without the blacklist
    of firstnames. *)
Definition reloadWorld : World :=
  serve [("npcs/darkelf/firstnames_male/vanilla.txt", ["Aryon"]);
         ("npcs/darkelf/firstnames_male/tr.txt", ["Aryan"]);
         ("npcs/darkelf/lastnames/vanilla.txt", ["Savel"])].

(** The object of [blacklistWorld] after a second [loadData], from
    [reloadWorld]. *)
Definition reloaded : Generator.State :=
  snd (Generator.loadData blacklistLoaded reloadWorld "darkelf" "male").

(** The random source that draws the index 1 twice and the index 0
    ever after. *)
Definition oneThenZero : Random := fun k => if k <? 2 then 1 else 0.

End Scenarios.
(** * The edit-distance comparator *)

Section ForLoops.

Context {S : Type}.

(** The invariant rule of [for (k = start; k < start + len; k++)]. *)
Lemma fold_left_seq_invariant (P : nat -> S -> Prop) (f : S -> nat -> S) :
  forall len start s,
    P start s ->
    (forall k s', start <= k < start + len -> P k s' ->
                  P (Datatypes.S k) (f s' k)) ->
    P (start + len) (fold_left f (seq start len) s).
Proof.
  induction len as [|len IH]; intros start s H0 Hstep; simpl.
  - now rewrite Nat.add_0_r.
  - rewrite <- Nat.add_succ_comm. apply IH.
    + apply Hstep; [lia | exact H0].
    + intros k s' Hk HP. apply Hstep; [lia | exact HP].
Qed.

End ForLoops.

Section Arrays.

Context {A : Type}.
Variable hole : A.

Lemma assign_at_end (arr : list A) (v : A) :
  JS.assign hole arr (length arr) v = arr ++ [v].
Proof.
  unfold JS.assign. rewrite Nat.ltb_irrefl, Nat.sub_diag. reflexivity.
Qed.

Lemma length_assign_inside (arr : list A) (i : nat) (v : A) :
  i < length arr -> length (JS.assign hole arr i v) = length arr.
Proof.
  intros Hi. unfold JS.assign.
  destruct (Nat.ltb_spec i (length arr)) as [_|]; [|lia].
  rewrite length_app, length_firstn. cbn [length].
  rewrite length_skipn. lia.
Qed.

Lemma nth_assign_inside (arr : list A) (i k : nat) (v d : A) :
  i < length arr ->
  nth k (JS.assign hole arr i v) d = if k =? i then v else nth k arr d.
Proof.
  intros Hi. unfold JS.assign.
  destruct (Nat.ltb_spec i (length arr)) as [_|]; [|lia].
  assert (Hlen : length (firstn i arr) = i) by (rewrite length_firstn; lia).
  destruct (Nat.eqb_spec k i) as [->|Hne].
  - rewrite app_nth2 by lia. rewrite Hlen, Nat.sub_diag. reflexivity.
  - destruct (Nat.lt_ge_cases k i) as [Hlt|Hge].
    + rewrite app_nth1 by lia.
      rewrite <- (firstn_skipn i arr) at 2. rewrite app_nth1 by lia.
      reflexivity.
    + rewrite app_nth2 by lia. rewrite Hlen.
      destruct (k - i) as [|m] eqn:Hm; [lia|]. simpl.
      rewrite <- (firstn_skipn (Datatypes.S i) arr) at 2.
      rewrite app_nth2; rewrite length_firstn; [|lia].
      f_equal. lia.
Qed.

End Arrays.

Section EditRecurrence.
Import EditDistance.

Lemma edit_nil_l (rb : list ascii) : edit [] rb = length rb.
Proof. destruct rb; reflexivity. Qed.

Lemma edit_nil_r (ra : list ascii) : edit ra [] = length ra.
Proof. destruct ra; reflexivity. Qed.

Lemma edit_cons (x y : ascii) (ra rb : list ascii) :
  edit (x :: ra) (y :: rb) =
  if Ascii.eqb y x then edit ra rb
  else Nat.min (edit ra rb + 1)
         (Nat.min (edit ra (y :: rb) + 1) (edit (x :: ra) rb + 1)).
Proof. reflexivity. Qed.

(** The recurrence does not depend on the order of its two words. *)
Lemma edit_symmetric : forall ra rb, edit ra rb = edit rb ra.
Proof.
  induction ra as [|x ra IHa]; intros rb.
  - now rewrite edit_nil_l, edit_nil_r.
  - induction rb as [|y rb IHb].
    + reflexivity.
    + rewrite !edit_cons, (Ascii.eqb_sym x y).
      rewrite (IHa rb), (IHa (y :: rb)), <- IHb.
      destruct (Ascii.eqb y x); [reflexivity|]. lia.
Qed.

Lemma edit_same : forall r, edit r r = 0.
Proof.
  induction r as [|x r IH]; [reflexivity|].
  rewrite edit_cons, Ascii.eqb_refl. exact IH.
Qed.

Lemma length_units (s : string) : length (units s) = String.length s.
Proof. induction s; simpl; congruence. Qed.

Lemma get_units (s : string) :
  forall k, String.get k s = nth_error (units s) k.
Proof.
  induction s as [|c s IH]; intros [|k]; simpl; auto.
Qed.

Lemma charAt_units (s : string) (k : nat) (d : ascii) :
  k < String.length s ->
  JS.charAt s k = String (nth k (units s) d) EmptyString.
Proof.
  intros Hk. unfold JS.charAt. rewrite get_units.
  rewrite <- length_units in Hk.
  now rewrite (nth_error_nth' _ d Hk).
Qed.

Lemma firstn_succ_snoc {A : Type} (l : list A) (d : A) :
  forall k, k < length l -> firstn (S k) l = firstn k l ++ [nth k l d].
Proof.
  induction l as [|x l IH]; intros k Hk; simpl in Hk; [lia|].
  destruct k as [|k]; [reflexivity|].
  rewrite (firstn_cons (S k)), (firstn_cons k), (IH k) by lia. reflexivity.
Qed.

Lemma prefixDistance_row_0 (a b : string) (j : nat) :
  j <= String.length a -> prefixDistance a b 0 j = j.
Proof.
  intros Hj. unfold prefixDistance. simpl. rewrite edit_nil_r.
  rewrite length_rev, length_firstn, length_units. lia.
Qed.

Lemma prefixDistance_column_0 (a b : string) (i : nat) :
  i <= String.length b -> prefixDistance a b i 0 = i.
Proof.
  intros Hi. unfold prefixDistance. simpl. rewrite edit_nil_l.
  rewrite length_rev, length_firstn, length_units. lia.
Qed.

(** The recurrence of the inner loop, on the prefixes. *)
Lemma prefixDistance_step (a b : string) (i j : nat) :
  1 <= i <= String.length b -> 1 <= j <= String.length a ->
  prefixDistance a b i j =
  if String.eqb (JS.charAt b (i - 1)) (JS.charAt a (j - 1))
  then prefixDistance a b (i - 1) (j - 1)
  else Nat.min (prefixDistance a b (i - 1) (j - 1) + 1)
         (Nat.min (prefixDistance a b i (j - 1) + 1)
                  (prefixDistance a b (i - 1) j + 1)).
Proof.
  intros Hi Hj.
  destruct i as [|i]; [lia|]. destruct j as [|j]; [lia|].
  replace (S i - 1) with i by lia. replace (S j - 1) with j by lia.
  set (d := "000"%char).
  rewrite (charAt_units b i d), (charAt_units a j d) by lia.
  unfold prefixDistance.
  rewrite (firstn_succ_snoc (units a) d j) by (rewrite length_units; lia).
  rewrite (firstn_succ_snoc (units b) d i) by (rewrite length_units; lia).
  rewrite !rev_unit, edit_cons.
  replace (String.eqb (String (nth i (units b) d) "")
                      (String (nth j (units a) d) ""))
    with (Ascii.eqb (nth i (units b) d) (nth j (units a) d)).
  - reflexivity.
  - simpl. now destruct (Ascii.eqb _ _).
Qed.

End EditRecurrence.

Section MatrixInvariant.
Import EditDistance Levenshtein.

Variables a b : string.

Let alen := String.length a.
Let blen := String.length b.
Let fullRow (i : nat) : list nat :=
  map (prefixDistance a b i) (seq 0 (S alen)).

Lemma nth_map_seq (f : nat -> nat) (n k d : nat) :
  k < n -> nth k (map f (seq 0 n)) d = f k.
Proof.
  intros Hk.
  rewrite (nth_indep _ d (f 0)) by (rewrite length_map, length_seq; lia).
  rewrite (map_nth f (seq 0 n) 0 k), seq_nth by lia. reflexivity.
Qed.

Lemma initRows_spec (n : nat) :
  initRows n = map (fun i => [i]) (seq 0 (S n)).
Proof.
  unfold initRows.
  apply (fold_left_seq_invariant
           (fun k (m : Matrix) => m = map (fun i => [i]) (seq 0 k))
           (fun matrix i => JS.assign [] matrix i [i]) (S n) 0 []).
  - reflexivity.
  - intros k m _ ->.
    replace k with (length (map (fun i => [i]) (seq 0 k))) at 2
      by (rewrite length_map, length_seq; reflexivity).
    rewrite assign_at_end, seq_S, map_app. reflexivity.
Qed.

Lemma setCell_row_0 (row : list nat) (rest : Matrix) (j v : nat) :
  setCell (row :: rest) 0 j v = JS.assign 0 row j v :: rest.
Proof. reflexivity. Qed.

Lemma initColumns_spec (n : nat) (row0 : list nat) (rest : Matrix) :
  row0 = [0] ->
  initColumns n (row0 :: rest) = seq 0 (S n) :: rest.
Proof.
  intros ->. unfold initColumns.
  apply (fold_left_seq_invariant
           (fun k (m : Matrix) => m = seq 0 (Nat.max 1 k) :: rest)
           (fun matrix j => setCell matrix 0 j j) (S n) 0 ([0] :: rest)).
  - reflexivity.
  - intros k m _ ->. rewrite setCell_row_0.
    destruct k as [|k]; [reflexivity|].
    replace (Nat.max 1 (S k)) with (S k) by lia.
    replace (Nat.max 1 (S (S k))) with (S (S k)) by lia.
    replace (S k) with (length (seq 0 (S k))) at 2
      by (rewrite length_seq; reflexivity).
    rewrite assign_at_end, <- seq_S. reflexivity.
Qed.

Lemma setCell_spec (m : Matrix) (i j v : nat) :
  i < length m -> length (nth i m []) = j ->
  length (setCell m i j v) = length m
  /\ forall k, nth k (setCell m i j v) [] =
               if k =? i then nth i m [] ++ [v] else nth k m [].
Proof.
  intros Hi Hj. unfold setCell. subst j. rewrite assign_at_end. split.
  - now apply length_assign_inside.
  - intros k. now apply nth_assign_inside.
Qed.

(** The rows of the matrix while row [i] is filled up to column [j]. *)
Let filling (i j : nat) (m : Matrix) : Prop :=
  length m = S blen
  /\ forall k, k <= blen ->
       nth k m [] =
       if k <? i then fullRow k
       else if k =? i then map (prefixDistance a b i) (seq 0 j)
       else [k].

Lemma fillCell_invariant (i j : nat) (m : Matrix) :
  1 <= i <= blen -> 1 <= j <= alen ->
  filling i j m -> filling i (S j) (fillCell a b i m j).
Proof.
  intros Hi Hj [Hlen Hrows].
  assert (Hrow : nth i m [] = map (prefixDistance a b i) (seq 0 j)).
  { rewrite Hrows by lia.
    destruct (Nat.ltb_spec i i); [lia|]. now rewrite Nat.eqb_refl. }
  assert (Hprev : nth (i - 1) m [] = fullRow (i - 1)).
  { rewrite Hrows by lia.
    destruct (Nat.ltb_spec (i - 1) i); [reflexivity | lia]. }
  assert (Hv :
    (if String.eqb (JS.charAt b (i - 1)) (JS.charAt a (j - 1))
     then cell m (i - 1) (j - 1)
     else Nat.min (cell m (i - 1) (j - 1) + 1)
            (Nat.min (cell m i (j - 1) + 1) (cell m (i - 1) j + 1)))
    = prefixDistance a b i j).
  { unfold cell. rewrite Hrow, Hprev. unfold fullRow.
    rewrite !nth_map_seq by lia.
    symmetry. apply prefixDistance_step; assumption. }
  assert (Hset : forall v,
    (v = prefixDistance a b i j) -> filling i (S j) (setCell m i j v)).
  { intros v ->.
    destruct (setCell_spec m i j (prefixDistance a b i j)) as [Hl Hn].
    - lia.
    - rewrite Hrow, length_map, length_seq. reflexivity.
    - split; [congruence|]. intros k Hk. rewrite Hn.
      destruct (Nat.eqb_spec k i) as [->|Hne].
      + destruct (Nat.ltb_spec i i); [lia|].
        rewrite Hrow, seq_S, map_app. reflexivity.
      + rewrite Hrows by assumption.
        destruct (Nat.ltb_spec k i); [reflexivity|].
        destruct (Nat.eqb_spec k i); [contradiction | reflexivity]. }
  unfold fillCell.
  destruct (String.eqb (JS.charAt b (i - 1)) (JS.charAt a (j - 1)));
    apply Hset; exact Hv.
Qed.

Lemma fill_row_invariant (i : nat) (m : Matrix) :
  1 <= i <= blen ->
  filling i 1 m ->
  filling (S i) 1
    (fold_left (fillCell a b i) (seq 1 (String.length a)) m).
Proof.
  intros Hi Hm.
  assert (Hend : filling i (1 + alen)
            (fold_left (fillCell a b i) (seq 1 alen) m)).
  { apply (fold_left_seq_invariant (fun j m' => filling i j m')).
    - exact Hm.
    - intros j m' Hj Hm'.
      apply fillCell_invariant; [assumption | lia | assumption]. }
  destruct Hend as [Hlen Hrows]. split; [exact Hlen|].
  intros k Hk. rewrite Hrows by assumption.
  destruct (Nat.ltb_spec k i) as [Hlt|Hge].
  - destruct (Nat.ltb_spec k (S i)); [reflexivity | lia].
  - destruct (Nat.eqb_spec k i) as [->|Hne].
    + destruct (Nat.ltb_spec i (S i)); [reflexivity | lia].
    + destruct (Nat.ltb_spec k (S i)); [lia|].
      destruct (Nat.eqb_spec k (S i)) as [->|]; [|reflexivity].
      simpl. rewrite prefixDistance_column_0 by (fold blen; lia).
      reflexivity.
Qed.

(** The matrix when both loops are over: every row is filled. *)
Lemma fill_spec :
  let m := fill a b (initColumns alen (initRows blen)) in
  forall i j, i <= blen -> j <= alen -> cell m i j = prefixDistance a b i j.
Proof.
  intros m.
  assert (Hfinal : filling (1 + blen) 1 m).
  { unfold m, fill.
    apply (fold_left_seq_invariant (fun i m' => filling i 1 m')
             (fun matrix i =>
                fold_left (fillCell a b i) (seq 1 (String.length a)) matrix)).
    - rewrite initRows_spec. simpl map.
      rewrite initColumns_spec by reflexivity. split.
      + simpl. rewrite length_map, length_seq. reflexivity.
      + intros k Hk. destruct k as [|k].
        * cbn [nth Nat.ltb Nat.leb]. unfold fullRow.
          apply nth_ext with (d := 0) (d' := 0).
          -- now rewrite length_map, !length_seq.
          -- intros n Hn. rewrite length_seq in Hn.
             rewrite nth_map_seq, seq_nth by lia.
             rewrite prefixDistance_row_0 by (fold alen; lia). reflexivity.
        * cbn [nth]. 
          rewrite (nth_indep _ [] ((fun i => [i]) 0))
            by (rewrite length_map, length_seq; lia).
          rewrite (map_nth (fun i => [i]) (seq 1 blen) 0 k), seq_nth by lia.
          destruct (Nat.ltb_spec (S k) 1); [lia|].
          destruct (Nat.eqb_spec (S k) 1) as [Heq|Hne].
          -- simpl. rewrite prefixDistance_column_0 by (fold blen; lia).
             now rewrite Heq.
          -- reflexivity.
    - intros i m' Hi Hm'. apply fill_row_invariant; [lia | assumption]. }
  destruct Hfinal as [_ Hrows]. intros i j Hi Hj. unfold cell.
  rewrite Hrows by assumption.
  destruct (Nat.ltb_spec i (1 + blen)); [|lia].
  unfold fullRow. apply nth_map_seq. lia.
Qed.

End MatrixInvariant.

Section LowerCase.

Lemma length_toLowerCase (s : string) :
  String.length (JS.toLowerCase s) = String.length s.
Proof. induction s; simpl; congruence. Qed.

Lemma lowerUnit_idempotent (c : ascii) :
  JS.lowerUnit (JS.lowerUnit c) = JS.lowerUnit c.
Proof.
  destruct c as [[] [] [] [] [] [] [] []]; reflexivity.
Qed.

Lemma toLowerCase_idempotent (s : string) :
  JS.toLowerCase (JS.toLowerCase s) = JS.toLowerCase s.
Proof.
  induction s; simpl; [reflexivity|].
  now rewrite lowerUnit_idempotent, IHs.
Qed.

Lemma toLowerCase_append (s t : string) :
  JS.toLowerCase (s ++ t)%string
  = (JS.toLowerCase s ++ JS.toLowerCase t)%string.
Proof. induction s; simpl; congruence. Qed.

Lemma string_length_0 (s : string) : String.length s = 0 -> s = EmptyString.
Proof. destruct s; [reflexivity | discriminate]. Qed.

End LowerCase.

Section Distance.
Import EditDistance Levenshtein.

(** The matrix computes the recurrence on the two lower-cased words. *)
Lemma levenshteinDistance_edit (a b : string) :
  levenshteinDistance a b =
  edit (rev (units (JS.toLowerCase a))) (rev (units (JS.toLowerCase b))).
Proof.
  unfold levenshteinDistance.
  destruct (String.eqb_spec (JS.toLowerCase a) (JS.toLowerCase b)) as [->|_].
  - now rewrite edit_same.
  - destruct (Nat.eqb_spec (String.length (JS.toLowerCase a)) 0) as [Ha|Ha].
    + rewrite (string_length_0 _ Ha). simpl.
      now rewrite edit_nil_l, length_rev, length_units.
    + destruct (Nat.eqb_spec (String.length (JS.toLowerCase b)) 0) as [Hb|Hb].
      * rewrite (string_length_0 _ Hb). simpl.
        now rewrite edit_nil_r, length_rev, length_units.
      * rewrite fill_spec by lia. unfold prefixDistance.
        rewrite <- (length_units (JS.toLowerCase a)).
        rewrite <- (length_units (JS.toLowerCase b)).
        now rewrite !firstn_all.
Qed.

Lemma levenshteinDistance_symmetric (a b : string) :
  levenshteinDistance a b = levenshteinDistance b a.
Proof. rewrite !levenshteinDistance_edit. apply edit_symmetric. Qed.

Lemma levenshteinDistance_same (x : string) : levenshteinDistance x x = 0.
Proof. unfold levenshteinDistance. now rewrite String.eqb_refl. Qed.

Lemma levenshteinDistance_empty (s : string) :
  levenshteinDistance EmptyString s = String.length (JS.toLowerCase s).
Proof.
  rewrite levenshteinDistance_edit. simpl.
  now rewrite edit_nil_l, length_rev, length_units.
Qed.

(** The distance does not see the letter case of its arguments. *)
Lemma levenshteinDistance_lower (a b : string) :
  levenshteinDistance (JS.toLowerCase a) (JS.toLowerCase b)
  = levenshteinDistance a b.
Proof.
  unfold levenshteinDistance. now rewrite !toLowerCase_idempotent.
Qed.

End Distance.

Section WideStrings.
Import JS Levenshtein.

(** From the empty string the distance is the number of code units of
    the lower-cased string. *)
Lemma wide_distance_empty (s : list Wide.Unit) :
  Wide.levenshteinDistance [] s = length (Wide.toLowerCase s).
Proof.
  unfold Wide.levenshteinDistance.
  change (Wide.toLowerCase []) with (@nil Wide.Unit).
  destruct (Wide.toLowerCase s) as [|u t]; reflexivity.
Qed.

Lemma wide_eqbUnit_refl (u : Wide.Unit) : Wide.eqbUnit u u = true.
Proof. destruct u; cbn; [apply Ascii.eqb_refl | reflexivity | reflexivity]. Qed.

Lemma wide_eqb_refl (s : list Wide.Unit) : Wide.eqb s s = true.
Proof.
  induction s as [|u s IH]; [reflexivity|]. cbn.
  now rewrite wide_eqbUnit_refl, IH.
Qed.

Lemma wide_distance_same (x : list Wide.Unit) :
  Wide.levenshteinDistance x x = 0.
Proof. unfold Wide.levenshteinDistance. now rewrite wide_eqb_refl. Qed.

(** On the strings of code units below 256 the two embeddings of
    levenshtein.js agree. *)
Lemma wide_toLowerCase_ofString (s : string) :
  Wide.toLowerCase (Wide.ofString s) = Wide.ofString (toLowerCase s).
Proof.
  unfold Wide.toLowerCase, Wide.ofString.
  induction s as [|c s IH]; [reflexivity|]. cbn. now rewrite IH.
Qed.

Lemma wide_eqb_ofString (s t : string) :
  Wide.eqb (Wide.ofString s) (Wide.ofString t) = String.eqb s t.
Proof.
  unfold Wide.ofString. revert t.
  induction s as [|c s IH]; intros [|d t]; try reflexivity.
  cbn. now rewrite IH.
Qed.

Lemma wide_length_ofString (s : string) :
  length (Wide.ofString s) = String.length s.
Proof.
  unfold Wide.ofString. induction s as [|c s IH]; [reflexivity|].
  cbn. now rewrite IH.
Qed.

Lemma wide_charAt_ofString (s : string) (i : nat) :
  Wide.charAt (Wide.ofString s) i = Wide.ofString (charAt s i).
Proof.
  unfold Wide.charAt, Wide.ofString, charAt. revert i.
  induction s as [|c s IH]; intros [|i]; try reflexivity.
  cbn. apply IH.
Qed.

Lemma fold_left_pointwise {A B : Type} (f f' : A -> B -> A) (l : list B) :
  (forall x y, f x y = f' x y) ->
  forall x, fold_left f l x = fold_left f' l x.
Proof.
  intros H. induction l as [|y l IH]; intros x; [reflexivity|].
  cbn. now rewrite H, IH.
Qed.

Lemma wide_fill_ofString (a b : string) (matrix : Matrix) :
  Wide.fill (Wide.ofString a) (Wide.ofString b) matrix = fill a b matrix.
Proof.
  unfold Wide.fill, fill. rewrite !wide_length_ofString.
  apply fold_left_pointwise. intros m i.
  apply fold_left_pointwise. intros m' j.
  unfold Wide.fillCell, fillCell.
  now rewrite !wide_charAt_ofString, wide_eqb_ofString.
Qed.

Lemma wide_distance_ofString (a b : string) :
  Wide.levenshteinDistance (Wide.ofString a) (Wide.ofString b)
  = levenshteinDistance a b.
Proof.
  unfold Wide.levenshteinDistance, levenshteinDistance.
  rewrite !wide_toLowerCase_ofString, wide_eqb_ofString,
    !wide_length_ofString.
  now rewrite wide_fill_ofString.
Qed.

End WideStrings.

Section MinimalScripts.
Import EditDistance Levenshtein.

(** Dropping the last unit of either word moves the recurrence by at
    most one. *)
Lemma edit_cons_bounds :
  forall n u v, length u + length v <= n ->
    forall x, edit (x :: u) v <= S (edit u v)
              /\ edit u v <= S (edit (x :: u) v).
Proof.
  induction n as [|n IH]; intros u v Hn x.
  - destruct u, v; simpl in Hn; try lia. simpl. lia.
  - destruct v as [|y v].
    + rewrite !edit_nil_r. simpl. lia.
    + assert (Hv : forall z, edit u (z :: v) <= S (edit u v)
                            /\ edit u v <= S (edit u (z :: v))).
      { intros z. rewrite (edit_symmetric u (z :: v)), (edit_symmetric u v).
        apply IH. simpl in Hn. lia. }
      assert (Hu : edit (x :: u) v <= S (edit u v)
                   /\ edit u v <= S (edit (x :: u) v)).
      { apply IH. simpl in Hn. lia. }
      rewrite edit_cons. destruct (Ascii.eqb y x) eqn:Hyx.
      * apply Ascii.eqb_eq in Hyx. subst y.
        pose proof (Hv x). lia.
      * pose proof (Hv y). lia.
Qed.

Lemma edit_delete (x : ascii) (u v : list ascii) :
  edit (x :: u) v <= S (edit u v).
Proof. now apply (edit_cons_bounds (length u + length v)). Qed.

Lemma edit_insert (y : ascii) (u v : list ascii) :
  edit u (y :: v) <= S (edit u v).
Proof.
  rewrite (edit_symmetric u (y :: v)), (edit_symmetric u v).
  apply edit_delete.
Qed.

(** No script is shorter than the recurrence. *)
Lemma edit_le_script (n : nat) (u v : list ascii) :
  Script n u v -> edit u v <= n.
Proof.
  induction 1 as [|n x u v _ IH|n x y u v _ IH|n x u v _ IH|n y u v _ IH].
  - reflexivity.
  - now rewrite edit_cons, Ascii.eqb_refl.
  - rewrite edit_cons. destruct (Ascii.eqb y x); lia.
  - pose proof (edit_delete x u v). lia.
  - pose proof (edit_insert y u v). lia.
Qed.

Lemma script_insert_all (v : list ascii) : Script (length v) [] v.
Proof.
  induction v; simpl; [constructor | now apply ScriptInsert].
Qed.

Lemma script_delete_all (u : list ascii) : Script (length u) u [].
Proof.
  induction u; simpl; [constructor | now apply ScriptDelete].
Qed.

(** A script of the length of the recurrence exists. *)
Lemma script_of_edit : forall u v, Script (edit u v) u v.
Proof.
  induction u as [|x u IHu]; intros v.
  - rewrite edit_nil_l. apply script_insert_all.
  - induction v as [|y v IHv].
    + rewrite edit_nil_r. apply script_delete_all.
    + rewrite edit_cons. destruct (Ascii.eqb y x) eqn:Hyx.
      * apply Ascii.eqb_eq in Hyx. subst y. apply ScriptKeep, IHu.
      * destruct (Nat.min_spec (edit u (y :: v) + 1) (edit (x :: u) v + 1))
          as [[_ Hin]|[_ Hin]]; rewrite Hin;
        match goal with
        | |- Script (Nat.min ?p ?q) _ _ =>
            destruct (Nat.min_spec p q) as [[_ Hout]|[_ Hout]]; rewrite Hout
        end; rewrite Nat.add_1_r.
        -- apply ScriptSubstitute, IHu.
        -- apply ScriptDelete, IHu.
        -- apply ScriptSubstitute, IHu.
        -- apply ScriptInsert, IHv.
Qed.

Lemma script_snoc_keep n x u v :
  Script n u v -> Script n (u ++ [x]) (v ++ [x]).
Proof.
  induction 1; simpl;
    [apply ScriptKeep, ScriptDone | now apply ScriptKeep
    | now apply ScriptSubstitute | now apply ScriptDelete
    | now apply ScriptInsert].
Qed.

Lemma script_snoc_substitute n x y u v :
  Script n u v -> Script (S n) (u ++ [x]) (v ++ [y]).
Proof.
  induction 1; simpl;
    [apply ScriptSubstitute, ScriptDone | now apply ScriptKeep
    | now apply ScriptSubstitute | now apply ScriptDelete
    | now apply ScriptInsert].
Qed.

Lemma script_snoc_delete n x u v :
  Script n u v -> Script (S n) (u ++ [x]) v.
Proof.
  induction 1; simpl;
    [apply ScriptDelete, ScriptDone | now apply ScriptKeep
    | now apply ScriptSubstitute | now apply ScriptDelete
    | now apply ScriptInsert].
Qed.

Lemma script_snoc_insert n y u v :
  Script n u v -> Script (S n) u (v ++ [y]).
Proof.
  induction 1; simpl;
    [apply ScriptInsert, ScriptDone | now apply ScriptKeep
    | now apply ScriptSubstitute | now apply ScriptDelete
    | now apply ScriptInsert].
Qed.

(** A script read backwards edits the reversed words. *)
Lemma script_rev n u v : Script n u v -> Script n (rev u) (rev v).
Proof.
  induction 1; simpl.
  - constructor.
  - now apply script_snoc_keep.
  - now apply script_snoc_substitute.
  - now apply script_snoc_delete.
  - now apply script_snoc_insert.
Qed.

(** [levenshteinDistance] is the length of a shortest script between the
    lower-cased words. *)
Lemma levenshteinDistance_minimal (a b : string) :
  Script (levenshteinDistance a b)
    (units (JS.toLowerCase a)) (units (JS.toLowerCase b))
  /\ forall n,
       Script n (units (JS.toLowerCase a)) (units (JS.toLowerCase b)) ->
       levenshteinDistance a b <= n.
Proof.
  rewrite levenshteinDistance_edit. split.
  - rewrite <- (rev_involutive (units (JS.toLowerCase a))) at 2.
    rewrite <- (rev_involutive (units (JS.toLowerCase b))) at 2.
    apply script_rev, script_of_edit.
  - intros n Hn. apply edit_le_script, script_rev, Hn.
Qed.

End MinimalScripts.

(** * The rejection sampler *)

Section WhileLoops.
Import Runtime.

Context {S : Type}.
Variables (cond : S -> bool) (body : S -> S).

Lemma while_done (fuel : nat) (s : S) :
  cond s = false -> while cond body fuel s = Some s.
Proof. intros H. destruct fuel; simpl; now rewrite H. Qed.

Lemma while_step (fuel : nat) (s : S) :
  cond s = true ->
  while cond body (Datatypes.S fuel) s = while cond body fuel (body s).
Proof. intros H. simpl. now rewrite H. Qed.

(** The invariant rule: what holds before the loop and is kept by every
    round holds after it, together with the negated condition. *)
Lemma while_invariant (P : S -> Prop) :
  (forall s, P s -> cond s = true -> P (body s)) ->
  forall fuel s s',
    P s -> while cond body fuel s = Some s' -> P s' /\ cond s' = false.
Proof.
  intros Hstep. induction fuel as [|fuel IH]; intros s s' HP Hrun.
  - simpl in Hrun. destruct (cond s) eqn:Hc; [discriminate|].
    injection Hrun as <-. now split.
  - simpl in Hrun. destruct (cond s) eqn:Hc.
    + apply (IH (body s)); [now apply Hstep | exact Hrun].
    + injection Hrun as <-. now split.
Qed.

(** The variant rule: a measure that every round decreases, as long as
    the invariant holds, bounds the number of rounds. *)
Lemma while_terminates (P : S -> Prop) (measure : S -> nat) :
  (forall s, P s -> cond s = true ->
     P (body s) /\ measure (body s) < measure s) ->
  forall fuel s, P s -> measure s <= fuel ->
    exists s', while cond body fuel s = Some s'.
Proof.
  intros Hdec. induction fuel as [|fuel IH]; intros s HP Hm.
  - destruct (cond s) eqn:Hc.
    + destruct (Hdec s HP Hc). lia.
    + exists s. now apply while_done.
  - destruct (cond s) eqn:Hc.
    + rewrite while_step by assumption.
      destruct (Hdec s HP Hc). apply IH; [assumption | lia].
    + exists s. now apply while_done.
Qed.

(** The rounds of a loop that ends: the body ran [n] times, the
    condition held before each of these rounds and fails after the
    last. *)
Lemma while_rounds :
  forall fuel s s',
    while cond body fuel s = Some s' ->
    exists n,
      s' = Nat.iter n body s
      /\ cond s' = false
      /\ forall m, m < n -> cond (Nat.iter m body s) = true.
Proof.
  induction fuel as [|fuel IH]; intros s s' Hrun; simpl in Hrun;
    destruct (cond s) eqn:Hc; try discriminate.
  - injection Hrun as <-. exists 0. repeat split; [exact Hc | lia].
  - destruct (IH _ _ Hrun) as (n & Hn & Hfalse & Htrue).
    exists (Datatypes.S n). rewrite Nat.iter_succ_r.
    repeat split; try assumption.
    intros [|m] Hm; [exact Hc|].
    rewrite Nat.iter_succ_r. apply Htrue. lia.
  - injection Hrun as <-. exists 0. repeat split; [exact Hc | lia].
Qed.

End WhileLoops.

Section Sets.

Lemma includes_In (l : list string) (x : string) :
  JS.includes l x = true <-> In x l.
Proof.
  unfold JS.includes. rewrite existsb_exists. split.
  - intros [y [Hy Heq]]. apply String.eqb_eq in Heq. now subst.
  - intros H. exists x. split; [exact H | apply String.eqb_refl].
Qed.

Lemma includes_not_In (l : list string) (x : string) :
  JS.includes l x = false <-> ~ In x l.
Proof.
  rewrite <- includes_In. destruct (JS.includes l x); split; intros; congruence.
Qed.

Lemma In_add (s : JS.SetOf) (x y : string) :
  In y (JS.add s x) <-> In y s \/ y = x.
Proof.
  unfold JS.add. destruct (JS.includes s x) eqn:H.
  - apply includes_In in H. split; [now left | intros [Hy | ->]; assumption].
  - rewrite in_app_iff. simpl. intuition congruence.
Qed.

Lemma NoDup_snoc {A : Type} (l : list A) (x : A) :
  NoDup l -> ~ In x l -> NoDup (l ++ [x]).
Proof.
  induction 1 as [|y l Hy Hl IH]; intros Hx; simpl.
  - constructor; [intros [] | constructor].
  - constructor.
    + rewrite in_app_iff. simpl. intros [H | [H | []]]; [contradiction|].
      apply Hx. now left.
    + apply IH. intros H. apply Hx. now right.
Qed.

End Sets.

Section SamplingLoop.
Import JS Runtime Sampling.

Context {L : Type}.
Variables (resultsOf : L -> list Pair) (attemptedOf : L -> SetOf)
  (attemptsOf callsOf : L -> nat).
Variables (count maxAttempts : nat) (random : Random)
  (firstnames lastnames : list string).
Variable rejects : string -> string -> bool.
Variable Inv : L -> Prop.
Variables (cond : L -> bool) (body : L -> L).

Let drawnFirst (s : L) : string :=
  nth (randomIndex random (callsOf s) (length firstnames))
      firstnames EmptyString.
Let drawnLast (s : L) : string :=
  nth (randomIndex random (S (callsOf s)) (length lastnames))
      lastnames EmptyString.
Let drawn (s : L) : Pair :=
  {| firstname := drawnFirst s; lastname := drawnLast s |}.

Hypothesis cond_spec : forall s, Inv s ->
  cond s = (length (resultsOf s) <? count) && (attemptsOf s <? maxAttempts).

(** One round: the counters move, a pair that was tried before changes
    nothing else, and a new pair is remembered and is appended to the
    results only when the novelty check lets it through. *)
Hypothesis body_spec : forall s, Inv s ->
  Inv (body s)
  /\ attemptsOf (body s) = S (attemptsOf s)
  /\ callsOf (body s) = S (S (callsOf s))
  /\ (if includes (attemptedOf s) (key (drawn s))
      then resultsOf (body s) = resultsOf s
           /\ attemptedOf (body s) = attemptedOf s
      else attemptedOf (body s) = add (attemptedOf s) (key (drawn s))
           /\ (resultsOf (body s) = resultsOf s
               \/ (rejects (drawnFirst s) (drawnLast s) = false
                   /\ resultsOf (body s) = resultsOf s ++ [drawn s]))).

Hypothesis firstnames_nonempty : firstnames <> [].
Hypothesis lastnames_nonempty : lastnames <> [].

Let sampled (s : L) : Prop :=
  Inv s
  /\ Sampled firstnames lastnames rejects count maxAttempts
       (resultsOf s) (attemptedOf s) (attemptsOf s) (callsOf s).

Lemma drawn_in_pools (s : L) :
  In (drawnFirst s) firstnames /\ In (drawnLast s) lastnames.
Proof.
  unfold drawnFirst, drawnLast, randomIndex. split; apply nth_In;
    apply Nat.mod_upper_bound; intros H; apply length_zero_iff_nil in H;
    contradiction.
Qed.

Lemma body_keeps_sampled (s : L) :
  sampled s -> cond s = true -> sampled (body s).
Proof.
  intros [HI (Hlen & Hatt & Hcalls & Hle & Hres & Hnd)] Hc.
  rewrite (cond_spec s HI) in Hc. apply andb_prop in Hc as [Hc1 Hc2].
  apply Nat.ltb_lt in Hc1, Hc2.
  destruct (body_spec s HI) as (HI' & Ha & Hk & Hcase).
  split; [exact HI'|]. unfold Sampled. rewrite Ha, Hk.
  destruct (includes (attemptedOf s) (key (drawn s))) eqn:Hinc.
  - destruct Hcase as [-> ->].
    split; [lia|]. split; [lia|]. split; [lia|]. split; [lia|].
    split; assumption.
  - destruct Hcase as [Hadd Hr].
    assert (Hold : forall p, In p (resultsOf s) ->
              In (key p) (attemptedOf (body s))
              /\ In (firstname p) firstnames
              /\ In (lastname p) lastnames
              /\ rejects (firstname p) (lastname p) = false).
    { intros p Hp. destruct (Hres p Hp) as (H1 & H2 & H3 & H4).
      repeat split; try assumption. rewrite Hadd. apply In_add. now left. }
    destruct Hr as [-> | [Hrej ->]].
    + split; [lia|]. split; [lia|]. split; [lia|]. split; [lia|].
      split; assumption.
    + rewrite length_app. simpl.
      split; [lia|]. split; [lia|]. split; [lia|]. split; [lia|]. split.
      * intros p Hp. apply in_app_or in Hp as [Hp|Hp]; [now apply Hold|].
        destruct Hp as [<- | Hp]; [|contradiction].
        destruct (drawn_in_pools s) as [Hf Hl].
        split; [rewrite Hadd; apply In_add; now right|].
        split; [exact Hf|]. split; [exact Hl | exact Hrej].
      * rewrite map_app. simpl.
        apply NoDup_snoc; [exact Hnd|].
        intros Hin. apply in_map_iff in Hin as [p [Hkey Hp]].
        apply includes_not_In in Hinc. apply Hinc.
        rewrite <- Hkey. now apply Hres.
Qed.

(** Whatever the fuel, a loop that ends leaves [Sampled] variables and a
    false loop condition. *)
Lemma sampling_loop_result (s0 s : L) (fuel : nat) :
  Inv s0 -> resultsOf s0 = [] -> attemptedOf s0 = [] ->
  attemptsOf s0 = 0 -> callsOf s0 = 0 ->
  while cond body fuel s0 = Some s ->
  sampled s
  /\ (length (resultsOf s) = count \/ attemptsOf s = maxAttempts).
Proof.
  intros HI Hr Ha Hn Hk Hrun.
  assert (Hs0 : sampled s0).
  { split; [exact HI|]. unfold Sampled. rewrite Hr, Ha, Hn, Hk. simpl.
    split; [lia|]. split; [lia|]. split; [lia|]. split; [lia|].
    split; [contradiction | constructor]. }
  destruct (while_invariant cond body sampled body_keeps_sampled
              fuel s0 s Hs0 Hrun) as [Hs Hc].
  split; [exact Hs|].
  destruct Hs as [HIs (Hlen & Hatt & _)].
  rewrite (cond_spec s HIs) in Hc. apply andb_false_iff in Hc as [Hc|Hc];
    apply Nat.ltb_ge in Hc; lia.
Qed.

(** The loop ends within [maxAttempts] rounds. *)
Lemma sampling_loop_terminates (s0 : L) (fuel : nat) :
  Inv s0 -> attemptsOf s0 = 0 -> maxAttempts <= fuel ->
  exists s, while cond body fuel s0 = Some s.
Proof.
  intros HI Hn Hfuel.
  apply (while_terminates cond body Inv
           (fun s => maxAttempts - attemptsOf s)); [|exact HI|lia].
  intros s HIs Hc.
  rewrite (cond_spec s HIs) in Hc. apply andb_prop in Hc as [_ Hc].
  apply Nat.ltb_lt in Hc.
  destruct (body_spec s HIs) as (HI' & Ha & _).
  split; [exact HI' | lia].
Qed.

Lemma rounds_counted (s0 : L) (m : nat) :
  Inv s0 -> attemptsOf s0 = 0 ->
  Inv (Nat.iter m body s0) /\ attemptsOf (Nat.iter m body s0) = m.
Proof.
  intros HI Hn. induction m as [|m [IHI IHn]]; simpl; [now split|].
  destruct (body_spec _ IHI) as (HI' & Ha & _).
  split; [exact HI' | congruence].
Qed.

(** No round starts once [count] pairs are accepted or [maxAttempts]
    rounds are over: the final variables are those after [attempts]
    rounds, and before each of these rounds fewer than [count] pairs
    were accepted. *)
Lemma sampling_loop_rounds (s0 s : L) (fuel : nat) :
  Inv s0 -> attemptsOf s0 = 0 ->
  while cond body fuel s0 = Some s ->
  s = Nat.iter (attemptsOf s) body s0
  /\ forall m, m < attemptsOf s ->
       length (resultsOf (Nat.iter m body s0)) < count.
Proof.
  intros HI Hn Hrun.
  destruct (while_rounds cond body fuel s0 s Hrun) as (n & Hs & _ & Htrue).
  assert (Hatt : attemptsOf s = n)
    by (rewrite Hs; now apply rounds_counted).
  rewrite Hatt. split; [exact Hs|].
  intros m Hm. specialize (Htrue m Hm).
  rewrite (cond_spec _ (proj1 (rounds_counted s0 m HI Hn))) in Htrue.
  apply andb_prop in Htrue as [Hlt _]. now apply Nat.ltb_lt.
Qed.

End SamplingLoop.

(** ** The flat-file variant *)

Section FlatFileSampler.
Import JS Runtime Sampling.

Variables (g : FlatFile.State) (random : Random).
Variables (firstnames lastnames : list string).

Lemma flat_body_spec (s : FlatFile.Loop) :
  let first :=
    nth (randomIndex random (FlatFile.calls s) (length firstnames))
        firstnames EmptyString in
  let last :=
    nth (randomIndex random (S (FlatFile.calls s)) (length lastnames))
        lastnames EmptyString in
  let drawn := {| firstname := first; lastname := last |} in
  let s' := FlatFile.body g random firstnames lastnames s in
  True ->
  True
  /\ FlatFile.attempts s' = S (FlatFile.attempts s)
  /\ FlatFile.calls s' = S (S (FlatFile.calls s))
  /\ (if includes (FlatFile.attempted s) (key drawn)
      then FlatFile.results s' = FlatFile.results s
           /\ FlatFile.attempted s' = FlatFile.attempted s
      else FlatFile.attempted s' = add (FlatFile.attempted s) (key drawn)
           /\ (FlatFile.results s' = FlatFile.results s
               \/ (FlatFile.isTooSimilarToExisting g first last = false
                   /\ FlatFile.results s' = FlatFile.results s ++ [drawn]))).
Proof.
  intros first last drawn s' _. subst s'. unfold FlatFile.body.
  fold first last. unfold key. simpl firstname. simpl lastname.
  destruct (includes (FlatFile.attempted s) _); simpl;
    [repeat split; reflexivity|].
  destruct (FlatFile.isTooSimilarToExisting g first last); simpl;
    [repeat split; try reflexivity; now left|].
  destruct (FlatFile.alreadyInResults (FlatFile.results s) first last);
    simpl; repeat split; try reflexivity; [now left | right; now split].
Qed.

End FlatFileSampler.

Section FlatFileGenerate.
Import JS Runtime Sampling.

Variables (g : FlatFile.State) (random : Random) (count : nat)
  (sourceFilter : string).

Hypothesis is_loaded : FlatFile.loaded g = true.
Hypothesis has_firstnames : FlatFile.getFirstnames g sourceFilter <> [].
Hypothesis has_lastnames : FlatFile.getLastnames g sourceFilter <> [].

Let firstnames := FlatFile.getFirstnames g sourceFilter.
Let lastnames := FlatFile.getLastnames g sourceFilter.
Let maxAttempts := count * FlatFile.maxAttemptsFactor.

Lemma flat_generate_loop (fuel : nat) :
  FlatFile.generate fuel g random count sourceFilter =
  match
    while (FlatFile.cond count maxAttempts)
      (FlatFile.body g random firstnames lastnames) fuel FlatFile.start
  with
  | Some s =>
      Some {| outcome := Return (FlatFile.results s); after := g;
              randomCalls := FlatFile.calls s;
              iterations := FlatFile.attempts s |}
  | None => None
  end.
Proof.
  unfold FlatFile.generate, maxAttempts, firstnames, lastnames.
  rewrite is_loaded. simpl negb. cbv iota.
  destruct (FlatFile.getFirstnames g sourceFilter) as [|f fs];
    [contradiction|].
  destruct (FlatFile.getLastnames g sourceFilter) as [|l ls];
    [contradiction|].
  reflexivity.
Qed.

(** A call that ends returns, leaves the object as it was, and its
    results satisfy [Sampled]; no round started once [count] pairs were
    accepted. *)
Lemma flat_generate_result (fuel : nat) (r : Run FlatFile.State) :
  FlatFile.generate fuel g random count sourceFilter = Some r ->
  exists results attempted,
    r = {| outcome := Return results; after := g;
           randomCalls := 2 * iterations r; iterations := iterations r |}
    /\ Sampled firstnames lastnames (FlatFile.isTooSimilarToExisting g)
         count maxAttempts
         results attempted (iterations r) (2 * iterations r)
    /\ (length results = count \/ iterations r = maxAttempts)
    /\ (forall m, m < iterations r ->
          length (FlatFile.results
                    (Nat.iter m (FlatFile.body g random firstnames lastnames)
                       FlatFile.start)) < count).
Proof.
  rewrite flat_generate_loop. intros Hrun.
  destruct (while _ _ fuel _) as [s|] eqn:Hloop; [|discriminate].
  injection Hrun as <-.
  destruct (sampling_loop_result FlatFile.results FlatFile.attempted
              FlatFile.attempts FlatFile.calls
              count maxAttempts random firstnames lastnames
              (FlatFile.isTooSimilarToExisting g) (fun _ => True)
              (FlatFile.cond count maxAttempts)
              (FlatFile.body g random firstnames lastnames)
              (fun s _ => eq_refl)
              (flat_body_spec g random _ _)
              has_firstnames has_lastnames
              FlatFile.start s fuel I eq_refl eq_refl eq_refl eq_refl Hloop)
    as [[_ Hs] Hend].
  destruct (sampling_loop_rounds FlatFile.results FlatFile.attempted
              FlatFile.attempts FlatFile.calls
              count maxAttempts random firstnames lastnames
              (FlatFile.isTooSimilarToExisting g) (fun _ => True)
              (FlatFile.cond count maxAttempts)
              (FlatFile.body g random firstnames lastnames)
              (fun s _ => eq_refl)
              (flat_body_spec g random _ _)
              FlatFile.start s fuel I eq_refl Hloop)
    as [_ Hrounds].
  exists (FlatFile.results s), (FlatFile.attempted s).
  cbn [iterations].
  assert (Hcalls : FlatFile.calls s = 2 * FlatFile.attempts s)
    by (destruct Hs as (_ & _ & Hc & _); exact Hc).
  rewrite <- Hcalls. split; [reflexivity|].
  split; [exact Hs|]. split; [exact Hend | exact Hrounds].
Qed.

(** The call ends when the fuel covers [maxAttempts] rounds. *)
Lemma flat_generate_defined (fuel : nat) :
  maxAttempts <= fuel ->
  exists r, FlatFile.generate fuel g random count sourceFilter = Some r.
Proof.
  intros Hfuel. rewrite flat_generate_loop.
  destruct (sampling_loop_terminates FlatFile.results FlatFile.attempted
              FlatFile.attempts FlatFile.calls
              count maxAttempts random firstnames lastnames
              (FlatFile.isTooSimilarToExisting g) (fun _ => True)
              (FlatFile.cond count maxAttempts)
              (FlatFile.body g random firstnames lastnames)
              (fun s _ => eq_refl)
              (flat_body_spec g random _ _)
              FlatFile.start fuel I eq_refl Hfuel)
    as [s Hs].
  rewrite Hs. eauto.
Qed.

End FlatFileGenerate.

Section Folds.

Context {A B : Type}.

(** The invariant rule of [for (const x of l)]. *)
Lemma fold_left_invariant (P : A -> Prop) (f : A -> B -> A) :
  forall l a,
    P a -> (forall a' x, In x l -> P a' -> P (f a' x)) ->
    P (fold_left f l a).
Proof.
  induction l as [|x l IH]; intros a Ha Hstep; simpl; [exact Ha|].
  apply IH.
  - apply Hstep; [now left | exact Ha].
  - intros a' y Hy. apply Hstep. now right.
Qed.

End Folds.

Section FlatFileNovelty.
Import JS Runtime Sampling Novelty Levenshtein.

Lemma toLowerCase_empty (s : string) :
  toLowerCase s = EmptyString -> s = EmptyString.
Proof. destruct s; [reflexivity | discriminate]. Qed.

Lemma truthy_true (s : string) : truthy s = true <-> s <> EmptyString.
Proof.
  unfold truthy. destruct (String.eqb_spec s EmptyString); simpl;
    split; intros; congruence.
Qed.

Lemma flat_lastnames_truthy (g : FlatFile.State) (sourceFilter ln : string) :
  In ln (FlatFile.getLastnames g sourceFilter) -> ln <> EmptyString.
Proof.
  unfold FlatFile.getLastnames. revert ln.
  apply (fold_left_invariant
           (fun names => forall ln, In ln names -> ln <> EmptyString)).
  - intros ln [].
  - intros names npc _ Hnames ln.
    destruct (FlatFile.lastname npc) as [l|]; [|apply Hnames].
    destruct (truthy l) eqn:Hl; simpl; [|apply Hnames].
    destruct (includes _ _); simpl; [apply Hnames|].
    intros Hin. apply In_add in Hin as [Hin | ->]; [now apply Hnames|].
    now apply truthy_true.
Qed.

(** A pair that no round of the check matches is neither the full name
    of the NPC nor a near miss of it. *)
Lemma flat_matches_false (first last : string) (npc : FlatFile.Npc) :
  last <> EmptyString ->
  FlatFile.matches first last npc = false ->
  ~ exactMatch {| firstname := first; lastname := last |} npc
  /\ ~ nearMiss {| firstname := first; lastname := last |} npc.
Proof.
  intros Hlast Hm. unfold FlatFile.matches in Hm.
  unfold exactMatch, nearMiss. simpl.
  destruct (FlatFile.lastname npc) as [npcLast|].
  - destruct (truthy npcLast) eqn:Ht.
    + apply orb_false_iff in Hm as [Hexact Hnear]. split.
      * intros (l & [= <-] & Hf & Hl).
        rewrite !toLowerCase_append, Hf, Hl, String.eqb_refl in Hexact.
        discriminate.
      * intros (l & [= <-] & Hl & Hd).
        rewrite Hl, String.eqb_refl in Hnear. simpl in Hnear.
        unfold areTooSimilar in Hnear. apply Nat.ltb_ge in Hnear. lia.
    + apply negb_false_iff, String.eqb_eq in Ht. subst npcLast.
      split; intros (l & [= <-] & H); destruct H as [H1 H2].
      * apply Hlast, toLowerCase_empty. exact H2.
      * apply Hlast, toLowerCase_empty. symmetry. exact H1.
  - split; intros (l & Habs & _); discriminate.
Qed.

Lemma flat_check_false (g : FlatFile.State) (first last : string) :
  last <> EmptyString ->
  FlatFile.isTooSimilarToExisting g first last = false ->
  forall npc, In npc (FlatFile.npcs g) ->
    ~ exactMatch {| firstname := first; lastname := last |} npc
    /\ ~ nearMiss {| firstname := first; lastname := last |} npc.
Proof.
  intros Hlast Hcheck npc Hnpc. apply flat_matches_false; [exact Hlast|].
  unfold FlatFile.isTooSimilarToExisting in Hcheck.
  destruct (FlatFile.matches first last npc) eqn:Hm; [|reflexivity].
  rewrite <- Hcheck. symmetry. apply existsb_exists. now exists npc.
Qed.

Lemma NoDup_key_folded (results : list Pair) :
  NoDup (map key results) -> NoDup (map folded results).
Proof.
  induction results as [|p results IH]; simpl; intros Hnd; [constructor|].
  inversion Hnd as [|? ? Hnotin Hrest]; subst. constructor.
  - intros Hin. apply Hnotin.
    apply in_map_iff in Hin as [q [Hq Hin]]. apply in_map_iff.
    exists q. split; [|exact Hin].
    unfold folded in Hq. unfold key. injection Hq as -> ->. reflexivity.
  - now apply IH.
Qed.

End FlatFileNovelty.

(** ** The direct-pairs variant *)

Section DirectPairsSampler.
Import JS Runtime Sampling.

Variables (g : DirectPairs.State) (random : Random).
Variables (firstnames lastnames : list string).

Lemma direct_body_spec (s : DirectPairs.Loop) :
  let first :=
    nth (randomIndex random (DirectPairs.calls s) (length firstnames))
        firstnames EmptyString in
  let last :=
    nth (randomIndex random (S (DirectPairs.calls s)) (length lastnames))
        lastnames EmptyString in
  let drawn := {| firstname := first; lastname := last |} in
  let s' := DirectPairs.body g random firstnames lastnames s in
  True ->
  True
  /\ DirectPairs.attempts s' = S (DirectPairs.attempts s)
  /\ DirectPairs.calls s' = S (S (DirectPairs.calls s))
  /\ (if includes (DirectPairs.attempted s) (key drawn)
      then DirectPairs.results s' = DirectPairs.results s
           /\ DirectPairs.attempted s' = DirectPairs.attempted s
      else DirectPairs.attempted s'
           = add (DirectPairs.attempted s) (key drawn)
           /\ (DirectPairs.results s' = DirectPairs.results s
               \/ (DirectPairs.isTooSimilarToExisting g first last = false
                   /\ DirectPairs.results s'
                      = DirectPairs.results s ++ [drawn]))).
Proof.
  intros first last drawn s' _. subst s'. unfold DirectPairs.body.
  fold first last. unfold key. simpl firstname. simpl lastname.
  destruct (includes (DirectPairs.attempted s) _); simpl;
    [repeat split; reflexivity|].
  destruct (DirectPairs.isTooSimilarToExisting g first last); simpl;
    repeat split; try reflexivity; [now left | right; now split].
Qed.

End DirectPairsSampler.

Section DirectPairsGenerate.
Import JS Runtime Sampling.

Variables (g : DirectPairs.State) (random : Random) (count : nat)
  (sourceFilter : string).

Hypothesis is_loaded : DirectPairs.loaded g = true.
Hypothesis has_firstnames : DirectPairs.getFirstnames g sourceFilter <> [].
Hypothesis has_lastnames : DirectPairs.getLastnames g sourceFilter <> [].

Let firstnames := DirectPairs.getFirstnames g sourceFilter.
Let lastnames := DirectPairs.getLastnames g sourceFilter.
Let maxAttempts := count * DirectPairs.maxAttemptsFactor.

Lemma direct_generate_loop (fuel : nat) :
  DirectPairs.generate fuel g random count sourceFilter =
  match
    while (DirectPairs.cond count maxAttempts)
      (DirectPairs.body g random firstnames lastnames) fuel DirectPairs.start
  with
  | Some s =>
      Some {| outcome := Return (DirectPairs.results s); after := g;
              randomCalls := DirectPairs.calls s;
              iterations := DirectPairs.attempts s |}
  | None => None
  end.
Proof.
  unfold DirectPairs.generate, maxAttempts, firstnames, lastnames.
  rewrite is_loaded. simpl negb. cbv iota.
  destruct (DirectPairs.getFirstnames g sourceFilter) as [|f fs];
    [contradiction|].
  destruct (DirectPairs.getLastnames g sourceFilter) as [|l ls];
    [contradiction|].
  reflexivity.
Qed.

(** A call that ends returns, leaves the object as it was, and its
    results satisfy [Sampled]; no round started once [count] pairs were
    accepted. *)
Lemma direct_generate_result (fuel : nat) (r : Run DirectPairs.State) :
  DirectPairs.generate fuel g random count sourceFilter = Some r ->
  exists results attempted,
    r = {| outcome := Return results; after := g;
           randomCalls := 2 * iterations r; iterations := iterations r |}
    /\ Sampled firstnames lastnames (DirectPairs.isTooSimilarToExisting g)
         count maxAttempts
         results attempted (iterations r) (2 * iterations r)
    /\ (length results = count \/ iterations r = maxAttempts)
    /\ (forall m, m < iterations r ->
          length (DirectPairs.results
                    (Nat.iter m (DirectPairs.body g random firstnames lastnames)
                       DirectPairs.start)) < count).
Proof.
  rewrite direct_generate_loop. intros Hrun.
  destruct (while _ _ fuel _) as [s|] eqn:Hloop; [|discriminate].
  injection Hrun as <-.
  destruct (sampling_loop_result DirectPairs.results DirectPairs.attempted
              DirectPairs.attempts DirectPairs.calls
              count maxAttempts random firstnames lastnames
              (DirectPairs.isTooSimilarToExisting g) (fun _ => True)
              (DirectPairs.cond count maxAttempts)
              (DirectPairs.body g random firstnames lastnames)
              (fun s _ => eq_refl)
              (direct_body_spec g random _ _)
              has_firstnames has_lastnames
              DirectPairs.start s fuel I eq_refl eq_refl eq_refl eq_refl Hloop)
    as [[_ Hs] Hend].
  destruct (sampling_loop_rounds DirectPairs.results DirectPairs.attempted
              DirectPairs.attempts DirectPairs.calls
              count maxAttempts random firstnames lastnames
              (DirectPairs.isTooSimilarToExisting g) (fun _ => True)
              (DirectPairs.cond count maxAttempts)
              (DirectPairs.body g random firstnames lastnames)
              (fun s _ => eq_refl)
              (direct_body_spec g random _ _)
              DirectPairs.start s fuel I eq_refl Hloop)
    as [_ Hrounds].
  exists (DirectPairs.results s), (DirectPairs.attempted s).
  cbn [iterations].
  assert (Hcalls : DirectPairs.calls s = 2 * DirectPairs.attempts s)
    by (destruct Hs as (_ & _ & Hc & _); exact Hc).
  rewrite <- Hcalls. split; [reflexivity|].
  split; [exact Hs|]. split; [exact Hend | exact Hrounds].
Qed.

(** The call ends when the fuel covers [maxAttempts] rounds. *)
Lemma direct_generate_defined (fuel : nat) :
  maxAttempts <= fuel ->
  exists r, DirectPairs.generate fuel g random count sourceFilter = Some r.
Proof.
  intros Hfuel. rewrite direct_generate_loop.
  destruct (sampling_loop_terminates DirectPairs.results DirectPairs.attempted
              DirectPairs.attempts DirectPairs.calls
              count maxAttempts random firstnames lastnames
              (DirectPairs.isTooSimilarToExisting g) (fun _ => True)
              (DirectPairs.cond count maxAttempts)
              (DirectPairs.body g random firstnames lastnames)
              (fun s _ => eq_refl)
              (direct_body_spec g random _ _)
              DirectPairs.start fuel I eq_refl Hfuel)
    as [s Hs].
  rewrite Hs. eauto.
Qed.

End DirectPairsGenerate.

(** ** generator.js *)

Section CrossProductSampler.
Import JS Runtime Sampling Frame.

Variables (g : Generator.State) (random : Random).
Variables (firstnames lastnames : list string).

(** The check returns or throws. *)
Lemma checks_or_throws :
  checks g \/ exists message, Generator.existingPairs g = Throw message.
Proof.
  unfold checks. destruct (Generator.existingPairs g) as [cache|message];
    [left; now exists cache | right; now exists message].
Qed.

Lemma checks_pairs (cache : SetOf) :
  Generator.existingPairs g = Return cache -> pairs g = cache.
Proof. unfold pairs. now intros ->. Qed.

(** A check that throws leaves the empty set in the cache. *)
Lemma check_throws (first last message : string) :
  Generator.existingPairs g = Throw message ->
  Generator.isTooSimilarToExisting g first last
  = (Throw message, Generator.setCache g (Some []))
  /\ withCache g = Generator.setCache g (Some [])
  /\ rejects g first last = true.
Proof.
  intros H. unfold rejects, withCache, pairs,
    Generator.isTooSimilarToExisting.
  rewrite H. now repeat split.
Qed.

(** A check that returns answers the same on the object and on the
    object with its cache filled, and leaves the cache filled. *)
Lemma check_sameData (g' : Generator.State) (first last : string) :
  checks g ->
  sameData g g' ->
  Generator.isTooSimilarToExisting g' first last
  = (Return (rejects g first last), withCache g).
Proof.
  intros [cache Hc] Hsame.
  assert (Hg : Generator.isTooSimilarToExisting g first last
               = (Return (rejects g first last), withCache g)).
  { unfold rejects, withCache, pairs, Generator.isTooSimilarToExisting.
    rewrite Hc. destruct (includes cache _); reflexivity. }
  destruct Hsame as [-> | ->]; [exact Hg|].
  rewrite <- Hg. unfold withCache, pairs, Generator.isTooSimilarToExisting.
  rewrite Hc.
  change (Generator.existingPairs (Generator.setCache g (Some cache)))
    with (Return (A := SetOf) cache).
  cbv iota. destruct (includes cache _); reflexivity.
Qed.

Hypothesis can_check : checks g.

Lemma cross_body_spec (s : Generator.Loop) :
  let first :=
    nth (randomIndex random (Generator.calls s) (length firstnames))
        firstnames EmptyString in
  let last :=
    nth (randomIndex random (S (Generator.calls s)) (length lastnames))
        lastnames EmptyString in
  let drawn := {| firstname := first; lastname := last |} in
  let s' := Generator.body random firstnames lastnames s in
  sameData g (Generator.this s) /\ Generator.failure s = None ->
  (sameData g (Generator.this s') /\ Generator.failure s' = None)
  /\ Generator.attempts s' = S (Generator.attempts s)
  /\ Generator.calls s' = S (S (Generator.calls s))
  /\ (if includes (Generator.attempted s) (key drawn)
      then Generator.results s' = Generator.results s
           /\ Generator.attempted s' = Generator.attempted s
      else Generator.attempted s' = add (Generator.attempted s) (key drawn)
           /\ (Generator.results s' = Generator.results s
               \/ (rejects g first last = false
                   /\ Generator.results s'
                      = Generator.results s ++ [drawn]))).
Proof.
  intros first last drawn s' [Hsame Hnone]. subst s'. unfold Generator.body.
  fold first last. unfold key. simpl firstname. simpl lastname.
  destruct (includes (Generator.attempted s) _); simpl;
    [repeat split; try reflexivity; assumption|].
  rewrite (check_sameData _ first last can_check Hsame).
  destruct (rejects g first last); simpl;
    (split; [split; [right; reflexivity | exact Hnone]|]);
    repeat split; try reflexivity; [now left | right; now split].
Qed.

End CrossProductSampler.

Section CrossProductGenerate.
Import JS Runtime Sampling Frame.

Variables (g : Generator.State) (random : Random) (count : nat)
  (sourceFilter : string).

Hypothesis is_loaded : Generator.loaded g = true.
Hypothesis has_firstnames : Generator.getFirstnames g sourceFilter <> [].
Hypothesis has_lastnames : Generator.getLastnames g sourceFilter <> [].

Let firstnames := Generator.getFirstnames g sourceFilter.
Let lastnames := Generator.getLastnames g sourceFilter.
Let maxAttempts := count * Generator.maxAttemptsFactor.

Lemma cross_generate_loop (fuel : nat) :
  Generator.generate fuel g random count sourceFilter =
  match
    while (Generator.cond count maxAttempts)
      (Generator.body random firstnames lastnames) fuel (Generator.start g)
  with
  | Some s =>
      Some {| outcome :=
                match Generator.failure s with
                | Some message => Throw message
                | None => Return (Generator.results s)
                end;
              after := Generator.this s;
              randomCalls := Generator.calls s;
              iterations := Generator.attempts s |}
  | None => None
  end.
Proof.
  unfold Generator.generate, maxAttempts, firstnames, lastnames.
  rewrite is_loaded. simpl negb. cbv iota.
  destruct (Generator.getFirstnames g sourceFilter) as [|f fs];
    [contradiction|].
  destruct (Generator.getLastnames g sourceFilter) as [|l ls];
    [contradiction|].
  reflexivity.
Qed.

Let Inv (s : Generator.Loop) : Prop :=
  sameData g (Generator.this s) /\ Generator.failure s = None.

Lemma cross_cond_spec (s : Generator.Loop) :
  Inv s ->
  Generator.cond count maxAttempts s
  = (length (Generator.results s) <? count)
    && (Generator.attempts s <? maxAttempts).
Proof. intros [_ H]. unfold Generator.cond. now rewrite H. Qed.

(** A call that ends on an object on which the check returns: it
    returns, changes nothing of the object but its cache, and its
    results satisfy [Sampled]; no round started once [count] pairs were
    accepted. *)
Lemma cross_generate_result (fuel : nat) (r : Run Generator.State) :
  checks g ->
  Generator.generate fuel g random count sourceFilter = Some r ->
  exists results attempted,
    outcome r = Return results
    /\ sameData g (after r)
    /\ randomCalls r = 2 * iterations r
    /\ Sampled firstnames lastnames (rejects g) count maxAttempts
         results attempted (iterations r) (2 * iterations r)
    /\ (length results = count \/ iterations r = maxAttempts)
    /\ (forall m, m < iterations r ->
          length (Generator.results
                    (Nat.iter m (Generator.body random firstnames lastnames)
                       (Generator.start g))) < count).
Proof.
  intros Hcheck. rewrite cross_generate_loop. intros Hrun.
  destruct (while _ _ fuel _) as [s|] eqn:Hloop; [|discriminate].
  injection Hrun as <-.
  assert (Hstart : Inv (Generator.start g))
    by (split; [left|]; reflexivity).
  destruct (sampling_loop_result Generator.results Generator.attempted
              Generator.attempts Generator.calls
              count maxAttempts random firstnames lastnames
              (rejects g) Inv
              (Generator.cond count maxAttempts)
              (Generator.body random firstnames lastnames)
              cross_cond_spec
              (cross_body_spec g random _ _ Hcheck)
              has_firstnames has_lastnames
              (Generator.start g) s fuel Hstart
              eq_refl eq_refl eq_refl eq_refl Hloop)
    as [[[Hsame Hnone] Hs] Hend].
  destruct (sampling_loop_rounds Generator.results Generator.attempted
              Generator.attempts Generator.calls
              count maxAttempts random firstnames lastnames
              (rejects g) Inv
              (Generator.cond count maxAttempts)
              (Generator.body random firstnames lastnames)
              cross_cond_spec
              (cross_body_spec g random _ _ Hcheck)
              (Generator.start g) s fuel Hstart eq_refl Hloop)
    as [_ Hrounds].
  exists (Generator.results s), (Generator.attempted s).
  cbn [iterations outcome after randomCalls]. rewrite Hnone.
  assert (Hcalls : Generator.calls s = 2 * Generator.attempts s)
    by (destruct Hs as (_ & _ & Hc & _); exact Hc).
  rewrite <- Hcalls. split; [reflexivity|]. split; [exact Hsame|].
  split; [reflexivity|]. split; [exact Hs|].
  split; [exact Hend | exact Hrounds].
Qed.

(** A call on an object on which the check throws: it returns nothing
    when no pair is asked for, and otherwise its first round throws and
    leaves the empty set in the cache. *)
Lemma cross_generate_fails (fuel : nat) (message : string) :
  Generator.existingPairs g = Throw message ->
  Generator.generate fuel g random count sourceFilter
  = if count =? 0
    then Some {| outcome := Return []; after := g;
                 randomCalls := 0; iterations := 0 |}
    else match fuel with
         | 0 => None
         | S _ =>
             Some {| outcome := Throw message;
                     after := Generator.setCache g (Some []);
                     randomCalls := 2; iterations := 1 |}
         end.
Proof.
  intros Hthrow. rewrite cross_generate_loop.
  destruct (count =? 0) eqn:Hz.
  - apply Nat.eqb_eq in Hz. rewrite while_done; [reflexivity|].
    unfold Generator.cond. cbn. now rewrite Hz.
  - apply Nat.eqb_neq in Hz.
    assert (Hc : Generator.cond count maxAttempts (Generator.start g)
                 = true).
    { unfold Generator.cond. cbn [Generator.failure Generator.start
        Generator.results Generator.attempts length].
      apply andb_true_intro. split; apply Nat.ltb_lt;
        unfold maxAttempts, Generator.maxAttemptsFactor; lia. }
    destruct fuel as [|fuel']; [simpl; now rewrite Hc|].
    rewrite while_step by exact Hc.
    unfold Generator.body, Generator.start.
    cbn [Generator.attempted Generator.this Generator.calls includes
         existsb].
    destruct (check_throws g
                (nth (randomIndex random 0 (length firstnames))
                   firstnames EmptyString)
                (nth (randomIndex random 1 (length lastnames))
                   lastnames EmptyString) message Hthrow) as (-> & _).
    now rewrite while_done.
Qed.

(** The call ends when the fuel covers [maxAttempts] rounds. *)
Lemma cross_generate_defined (fuel : nat) :
  maxAttempts <= fuel ->
  exists r, Generator.generate fuel g random count sourceFilter = Some r.
Proof.
  intros Hfuel. destruct (checks_or_throws g) as [Hcheck | [message Hthrow]].
  - rewrite cross_generate_loop.
    destruct (sampling_loop_terminates Generator.results Generator.attempted
                Generator.attempts Generator.calls
                count maxAttempts random firstnames lastnames
                (rejects g)
                (fun s => sameData g (Generator.this s)
                          /\ Generator.failure s = None)
                (Generator.cond count maxAttempts)
                (Generator.body random firstnames lastnames)
                cross_cond_spec
                (cross_body_spec g random _ _ Hcheck)
                (Generator.start g) fuel
                (conj (or_introl eq_refl) eq_refl) eq_refl Hfuel)
      as [s Hs].
    rewrite Hs. eauto.
  - rewrite (cross_generate_fails fuel message Hthrow).
    destruct (count =? 0) eqn:Hz; [eauto|]. apply Nat.eqb_neq in Hz.
    destruct fuel as [|fuel']; [|eauto].
    unfold maxAttempts, Generator.maxAttemptsFactor in Hfuel. lia.
Qed.

End CrossProductGenerate.

Section CrossProductReturns.
Import JS Runtime Pools Frame Sampling.

(** A call of [generate] that returns pairs ran on a loaded object, left
    it as it was up to the cache, and its results satisfy [Sampled]. *)
Lemma cross_generate_returns (fuel : nat) (g : Generator.State)
  (random : Random) (count : nat) (sourceFilter : string)
  (r : Run Generator.State) (results : list Pair) :
  Generator.generate fuel g random count sourceFilter = Some r ->
  outcome r = Return results ->
  Generator.loaded g = true
  /\ sameData g (after r)
  /\ exists attempted,
       Sampled (Generator.getFirstnames g sourceFilter)
         (Generator.getLastnames g sourceFilter) (rejects g)
         count (count * Generator.maxAttemptsFactor)
         results attempted (iterations r) (2 * iterations r).
Proof.
  intros Hrun Hout.
  assert (Hl : Generator.loaded g = true).
  { destruct (Generator.loaded g) eqn:Hl; [reflexivity|].
    unfold Generator.generate in Hrun. rewrite Hl in Hrun.
    cbn [negb] in Hrun. injection Hrun as <-. discriminate Hout. }
  assert (Hf : Generator.getFirstnames g sourceFilter <> []).
  { intros E. unfold Generator.generate in Hrun.
    rewrite Hl, E in Hrun. cbn [negb length Nat.eqb] in Hrun.
    injection Hrun as <-. discriminate Hout. }
  assert (Hn : Generator.getLastnames g sourceFilter <> []).
  { intros E. unfold Generator.generate in Hrun.
    rewrite Hl, E in Hrun. cbn [negb length Nat.eqb] in Hrun.
    destruct (length (Generator.getFirstnames g sourceFilter) =? 0);
      injection Hrun as <-; discriminate Hout. }
  split; [exact Hl|].
  destruct (checks_or_throws g) as [Hcheck | [message Hthrow]].
  - destruct (cross_generate_result g random count sourceFilter Hl Hf Hn
                fuel r Hcheck Hrun)
      as (results' & attempted & Ho & Hsame & _ & Hs & _).
    rewrite Ho in Hout. injection Hout as ->.
    split; [exact Hsame|]. now exists attempted.
  - rewrite (cross_generate_fails g random count sourceFilter Hl Hf Hn
               fuel message Hthrow) in Hrun.
    destruct (count =? 0) eqn:Hz.
    + apply Nat.eqb_eq in Hz. injection Hrun as <-.
      injection Hout as <-. cbn [after iterations].
      split; [now left|]. exists []. subst count. unfold Sampled.
      cbn. repeat split; try lia; try contradiction. constructor.
    + destruct fuel; [discriminate|]. injection Hrun as <-.
      discriminate Hout.
Qed.

(** A call of [generate] that throws: the object was not loaded or a
    pool was empty, and nothing was drawn; or the pair set could not be
    built, and the first round threw. *)
Lemma cross_generate_throws_cases (fuel : nat) (g : Generator.State)
  (random : Random) (count : nat) (sourceFilter : string)
  (r : Run Generator.State) (message : string) :
  Generator.generate fuel g random count sourceFilter = Some r ->
  outcome r = Throw message ->
  (r = {| outcome := Throw message; after := g;
          randomCalls := 0; iterations := 0 |}
   /\ ((message = "Data not loaded" /\ Generator.loaded g = false)
       \/ (Generator.loaded g = true
           /\ (message
               = "No firstnames available (check source filter and blacklist)"
               \/ message
                  = "No lastnames available (check source filter and blacklist)"))))
  \/ (r = {| outcome := Throw message;
             after := Generator.setCache g (Some []);
             randomCalls := 2; iterations := 1 |}
      /\ Generator.existingPairs g = Throw message
      /\ Generator.loaded g = true
      /\ 0 < count).
Proof.
  intros Hrun Hout.
  destruct (Generator.loaded g) eqn:Hl.
  2:{ unfold Generator.generate in Hrun. rewrite Hl in Hrun.
      cbn [negb] in Hrun. injection Hrun as <-.
      injection Hout as <-. left. split; [reflexivity | left; now split]. }
  destruct (Generator.getFirstnames g sourceFilter) as [|f fs] eqn:Hf.
  { unfold Generator.generate in Hrun. rewrite Hl, Hf in Hrun.
    cbn [negb length Nat.eqb] in Hrun. injection Hrun as <-.
    injection Hout as <-. left.
    split; [reflexivity | right; split; [reflexivity | now left]]. }
  destruct (Generator.getLastnames g sourceFilter) as [|l ls] eqn:Hn.
  { unfold Generator.generate in Hrun. rewrite Hl, Hf, Hn in Hrun.
    cbn [negb length Nat.eqb] in Hrun. injection Hrun as <-.
    injection Hout as <-. left.
    split; [reflexivity | right; split; [reflexivity | now right]]. }
  assert (Hfs : Generator.getFirstnames g sourceFilter <> [])
    by (rewrite Hf; discriminate).
  assert (Hls : Generator.getLastnames g sourceFilter <> [])
    by (rewrite Hn; discriminate).
  destruct (checks_or_throws g) as [Hcheck | [message' Hthrow]].
  - destruct (cross_generate_result g random count sourceFilter Hl Hfs Hls
                fuel r Hcheck Hrun) as (results & _ & Ho & _).
    congruence.
  - rewrite (cross_generate_fails g random count sourceFilter Hl Hfs Hls
               fuel message' Hthrow) in Hrun.
    destruct (count =? 0) eqn:Hz;
      [injection Hrun as <-; discriminate Hout|].
    apply Nat.eqb_neq in Hz.
    destruct fuel; [discriminate|]. injection Hrun as <-.
    injection Hout as <-. right.
    split; [reflexivity|]. split; [exact Hthrow|]. split; [reflexivity|].
    lia.
Qed.

End CrossProductReturns.

Section Sessions.
Import JS Runtime Sessions.

Lemma neverLoaded_not_loaded (g : Generator.State) :
  NeverLoaded g -> Generator.loaded g = false.
Proof.
  induction 1 as [|g world race sex message g' _ _ Hload]; [reflexivity|].
  unfold Generator.loadData in Hload.
  destruct (length (Pools.loadDirectory world _) =? 0);
    [injection Hload as _ <-; reflexivity|].
  destruct (length (Pools.loadDirectory world _) =? 0);
    [injection Hload as _ <-; reflexivity | discriminate].
Qed.

Lemma flatNeverLoaded_not_loaded (g : FlatFile.State) :
  FlatNeverLoaded g -> FlatFile.loaded g = false.
Proof.
  induction 1 as [|g world race sex message g' _ _ Hload]; [reflexivity|].
  unfold FlatFile.loadData in Hload.
  destruct (fetch world _);
    [discriminate | injection Hload as _ <- | injection Hload as _ <-];
    reflexivity.
Qed.

End Sessions.

(** ** Parsing the flat NPC file *)

Section FlatFileParsing.
Import JS Runtime Novelty.

Lemma singleWord_cons (c : ascii) (s : string) :
  singleWord (String c s) = true ->
  isSpace c = false /\ singleWord s = true.
Proof.
  unfold singleWord. simpl. intros H. apply andb_prop in H as [Hc Hs].
  split; [now apply negb_true_iff | exact Hs].
Qed.

Lemma space_is_space : isSpace " " = true.
Proof. reflexivity. Qed.

(** A word holds no source tag. *)
Lemma singleWord_no_tag (s : string) :
  singleWord s = true -> lastIndexOf " | " s = None.
Proof.
  induction s as [|c s IH]; intros Hs; [reflexivity|].
  apply singleWord_cons in Hs as [Hc Hs]. cbn [lastIndexOf].
  rewrite (IH Hs). cbn [String.prefix].
  destruct (Ascii.ascii_dec " " c) as [<-|]; [|reflexivity].
  rewrite space_is_space in Hc. discriminate.
Qed.

(** A word is its own and only field. *)
Lemma singleWord_splitSpaces (s : string) :
  singleWord s = true -> splitSpacesFrom false s = [s].
Proof.
  induction s as [|c s IH]; intros Hs; [reflexivity|].
  apply singleWord_cons in Hs as [Hc Hs]. simpl.
  now rewrite Hc, (IH Hs).
Qed.

(** A line that is a single word is parsed as an NPC without a
    lastname, of the source vanilla. *)
Lemma parseLine_singleWord (word : string) :
  singleWord word = true ->
  FlatFile.parseLine word
  = Some {| FlatFile.firstname := word;
            FlatFile.lastname := None;
            FlatFile.source := "vanilla" |}.
Proof.
  intros Hw. unfold FlatFile.parseLine, includesSub, splitSpaces.
  now rewrite (singleWord_no_tag word Hw), (singleWord_splitSpaces word Hw).
Qed.

Lemma flat_matches_no_lastname (first last : string) (npc : FlatFile.Npc) :
  FlatFile.lastname npc = None -> FlatFile.matches first last npc = false.
Proof. unfold FlatFile.matches. now intros ->. Qed.

End FlatFileParsing.

(** ** The pair cache of generator.js *)

Section PairCache.
Import JS Runtime Pools Frame.

(** [v] is listed under [src]. *)
Let holds (m : Generator.BySource) (src v : string) : Prop :=
  exists vs, In (src, vs) m /\ In v vs.

(** The object that the loop over the records builds when no [push]
    throws. *)
Let grouped (records : list NameRecord) : Generator.BySource :=
  fold_left
    (fun m r => Generator.insert m (source r) (toLowerCase (name r)))
    records [].

Lemma holds_insert (m : Generator.BySource) (s v src x : string) :
  holds (Generator.insert m s v) src x
  <-> holds m src x \/ (src = s /\ x = v).
Proof.
  induction m as [|[k vs] rest IH]; simpl.
  - split.
    + intros (ws & [[= <- <-] | []] & [<- | []]). right. now split.
    + intros [(ws & [] & _) | [-> ->]]. exists [v]. split; now left.
  - destruct (String.eqb_spec k s) as [->|Hne].
    + split.
      * intros (ws & [[= <- <-] | Hin] & Hx).
        -- apply in_app_or in Hx as [Hx | [<- | []]].
           ++ left. exists vs. split; [now left | exact Hx].
           ++ right. now split.
        -- left. exists ws. split; [now right | exact Hx].
      * intros [(ws & [[= <- <-] | Hin] & Hx) | [-> ->]].
        -- exists (vs ++ [v]). split; [now left|].
           apply in_or_app. now left.
        -- exists ws. split; [now right | exact Hx].
        -- exists (vs ++ [v]). split; [now left|].
           apply in_or_app. right. now left.
    + split.
      * intros (ws & [[= <- <-] | Hin] & Hx).
        -- left. exists vs. split; [now left | exact Hx].
        -- assert (H : holds (Generator.insert rest s v) src x)
             by (exists ws; now split).
           apply IH in H as [(ws' & Hin' & Hx') | H]; [|now right].
           left. exists ws'. split; [now right | exact Hx'].
      * intros [(ws & [[= <- <-] | Hin] & Hx) | H].
        -- exists vs. split; [now left | exact Hx].
        -- assert (H : holds (Generator.insert rest s v) src x)
             by (apply IH; left; exists ws; now split).
           destruct H as (ws' & Hin' & Hx').
           exists ws'. split; [now right | exact Hx'].
        -- assert (H' : holds (Generator.insert rest s v) src x)
             by (apply IH; now right).
           destruct H' as (ws' & Hin' & Hx').
           exists ws'. split; [now right | exact Hx'].
Qed.

Lemma holds_grouped (records : list NameRecord) (src x : string) :
  holds (grouped records) src x
  <-> exists r, In r records /\ source r = src /\ x = toLowerCase (name r).
Proof.
  unfold grouped.
  assert (Hgen : forall m,
    holds (fold_left
             (fun m r => Generator.insert m (source r) (toLowerCase (name r)))
             records m) src x
    <-> holds m src x
        \/ exists r, In r records /\ source r = src
                     /\ x = toLowerCase (name r)).
  { induction records as [|r records IH]; intros m; simpl.
    - split; [now left | intros [H | (r & [] & _)]; exact H].
    - rewrite IH, holds_insert. split.
      + intros [[H | [Hs Hx]] | (r' & Hin & Hs & Hx)].
        * now left.
        * right. exists r. split; [now left|]. split; [now symmetry | exact Hx].
        * right. exists r'. split; [now right|]. now split.
      + intros [H | (r' & [Heq | Hin] & Hs & Hx)].
        * left. now left.
        * left. right. subst r'. split; [now symmetry | exact Hx].
        * right. exists r'. now repeat split. }
  rewrite Hgen. split; [|now right].
  intros [(vs & [] & _) | H]. exact H.
Qed.

Lemma lookup_insert (m : Generator.BySource) (s v src : string) :
  Generator.lookup (Generator.insert m s v) src
  = if String.eqb s src then Generator.lookup m src ++ [v]
    else Generator.lookup m src.
Proof.
  induction m as [|[k vs] rest IH]; simpl.
  - destruct (String.eqb s src); reflexivity.
  - destruct (String.eqb_spec k s) as [->|Hne]; simpl.
    + destruct (String.eqb s src); reflexivity.
    + destruct (String.eqb_spec k src) as [->|Hne'].
      * destruct (String.eqb_spec s src); [congruence | reflexivity].
      * exact IH.
Qed.

Lemma lookup_grouped (records : list NameRecord) (src x : string) :
  In x (Generator.lookup (grouped records) src)
  <-> exists r, In r records /\ source r = src /\ x = toLowerCase (name r).
Proof.
  unfold grouped.
  assert (Hgen : forall m,
    In x (Generator.lookup
            (fold_left
               (fun m r => Generator.insert m (source r) (toLowerCase (name r)))
               records m) src)
    <-> In x (Generator.lookup m src)
        \/ exists r, In r records /\ source r = src
                     /\ x = toLowerCase (name r)).
  { induction records as [|r records IH]; intros m; simpl.
    - split; [now left | intros [H | (r & [] & _)]; exact H].
    - rewrite IH, lookup_insert. split.
      + intros [H | (r' & Hin & Hs & Hx)].
        * destruct (String.eqb_spec (source r) src) as [Heq|]; [|now left].
          apply in_app_or in H as [H | [Hx | []]]; [now left|].
          right. exists r. split; [now left|].
          split; [exact Heq | now symmetry].
        * right. exists r'. split; [now right|]. now split.
      + intros [H | (r' & [Heq | Hin] & Hs & Hx)].
        * left. destruct (String.eqb (source r) src); [|exact H].
          apply in_or_app. now left.
        * left. subst r'. rewrite Hs, String.eqb_refl. apply in_or_app.
          right. left. now symmetry.
        * right. exists r'. now repeat split. }
  rewrite Hgen. simpl. split; [|now right].
  intros [[] | H]. exact H.
Qed.

(** Membership in a set built by a loop of [add]. *)
Lemma In_fold_add {A : Type} (f : A -> string) (l : list A) :
  forall (cache : SetOf) (k : string),
    In k (fold_left (fun cache x => add cache (f x)) l cache)
    <-> In k cache \/ exists x, In x l /\ k = f x.
Proof.
  induction l as [|y l IH]; intros cache k; simpl.
  - split; [now left | intros [H | (x & [] & _)]; exact H].
  - rewrite IH, In_add. split.
    + intros [[H | ->] | (x & Hx & Hk)].
      * now left.
      * right. exists y. split; [now left | reflexivity].
      * right. exists x. split; [now right | exact Hk].
    + intros [H | (x & [<- | Hx] & Hk)].
      * left. now left.
      * left. now right.
      * right. now exists x.
Qed.

Lemma pairsWithin_grouped (firsts lasts : list NameRecord) (k : string) :
  In k (Generator.pairsWithin (grouped firsts) (grouped lasts))
  <-> exists fn ln,
        In fn firsts /\ In ln lasts
        /\ source fn = source ln
        /\ k = cacheKey fn ln.
Proof.
  unfold Generator.pairsWithin.
  set (lnBySource := grouped lasts).
  assert (Hgen : forall (m : Generator.BySource) cache,
    In k (fold_left
            (fun cache '(src, fns) =>
               fold_left
                 (fun cache fn =>
                    fold_left
                      (fun cache ln => add cache (fn ++ "|" ++ ln)%string)
                      (Generator.lookup lnBySource src) cache)
                 fns cache)
            m cache)
    <-> In k cache
        \/ exists src fn ln,
             holds m src fn
             /\ In ln (Generator.lookup lnBySource src)
             /\ k = (fn ++ "|" ++ ln)%string).
  { induction m as [|[src fns] rest IH]; intros cache; simpl.
    - split; [now left | intros [H | (s & f & l & (vs & [] & _) & _)]; exact H].
    - rewrite IH.
      assert (Hrow : forall fns' cache',
        In k (fold_left
                (fun cache fn =>
                   fold_left
                     (fun cache ln => add cache (fn ++ "|" ++ ln)%string)
                     (Generator.lookup lnBySource src) cache)
                fns' cache')
        <-> In k cache'
            \/ exists fn ln,
                 In fn fns'
                 /\ In ln (Generator.lookup lnBySource src)
                 /\ k = (fn ++ "|" ++ ln)%string).
      { induction fns' as [|fn fns' IHf]; intros cache'; simpl.
        - split; [now left | intros [H | (f & l & [] & _)]; exact H].
        - rewrite IHf,
            (In_fold_add (fun ln => (fn ++ "|" ++ ln)%string)). split.
          + intros [[H | (ln & Hln & Hk)] | (f & l & Hf & Hl & Hk)].
            * now left.
            * right. exists fn, ln.
              repeat split; [now left | exact Hln | exact Hk].
            * right. exists f, l.
              repeat split; [now right | exact Hl | exact Hk].
          + intros [H | (f & l & [<- | Hf] & Hl & Hk)].
            * left. now left.
            * left. right. now exists l.
            * right. now exists f, l. }
      rewrite Hrow. split.
      + intros [[H | (fn & ln & Hf & Hl & Hk)]
               | (s & f & l & (vs & Hin & Hv) & Hl & Hk)].
        * now left.
        * right. exists src, fn, ln. repeat split; try assumption.
          exists fns. split; [now left | exact Hf].
        * right. exists s, f, l. repeat split; try assumption.
          exists vs. split; [now right | exact Hv].
      + intros [H | (s & f & l & (vs & [[= <- <-] | Hin] & Hv) & Hl & Hk)].
        * left. now left.
        * left. right. now exists f, l.
        * right. exists s, f, l. repeat split; try assumption.
          exists vs. now split. }
  rewrite Hgen. split.
  - intros [[] | (src & fn & ln & Hf & Hl & Hk)].
    apply holds_grouped in Hf as (rf & Hrf & Hsf & ->).
    apply lookup_grouped in Hl as (rl & Hrl & Hsl & ->).
    exists rf, rl. repeat split; try assumption. congruence.
  - intros (rf & rl & Hrf & Hrl & Hsrc & ->). right.
    exists (source rf), (toLowerCase (name rf)), (toLowerCase (name rl)).
    repeat split.
    + apply holds_grouped. now exists rf.
    + apply lookup_grouped. exists rl. now repeat split.
Qed.

(** The loop over the records throws exactly when a record has a source
    that is named like an inherited property. *)
Lemma bySource_grouped (records : list NameRecord) :
  Generator.bySource records
  = if forallb
         (fun r => negb (includes Generator.inherited (source r))) records
    then Some (grouped records)
    else None.
Proof.
  unfold Generator.bySource, grouped. generalize (@nil (string * list string)).
  induction records as [|r records IH]; intros m; [reflexivity|].
  cbn [fold_left forallb]. unfold Generator.push at 2.
  destruct (includes Generator.inherited (source r)); cbn [negb andb].
  - clear IH. induction records as [|r' records IH]; [reflexivity|].
    exact IH.
  - apply IH.
Qed.

Lemma plainSources_app (g : Generator.State) :
  plainSources g
  = forallb (fun r => negb (includes Generator.inherited (source r)))
      (Generator.allFirstnames g)
    && forallb (fun r => negb (includes Generator.inherited (source r)))
         (Generator.allLastnames g).
Proof. unfold plainSources. apply forallb_app. Qed.

(** The pair set is built exactly when no source is named like an
    inherited property. *)
Lemma plainSources_builds (g : Generator.State) :
  plainSources g = true
  <-> exists cache, Generator.buildExistingPairs g = Return cache.
Proof.
  rewrite plainSources_app. unfold Generator.buildExistingPairs.
  rewrite !bySource_grouped.
  destruct (forallb _ (Generator.allFirstnames g));
    [|split; [discriminate | intros [cache H]; discriminate]].
  destruct (forallb _ (Generator.allLastnames g));
    [|split; [discriminate | intros [cache H]; discriminate]].
  split; [intros _; eauto | reflexivity].
Qed.

Lemma plainSources_throws (g : Generator.State) :
  plainSources g = false
  <-> exists message, Generator.buildExistingPairs g = Throw message.
Proof.
  destruct (plainSources g) eqn:Hp.
  - apply plainSources_builds in Hp as [cache Hc]. rewrite Hc.
    split; [discriminate | intros [message H]; discriminate].
  - split; [intros _ | reflexivity].
    destruct (Generator.buildExistingPairs g) as [cache|message] eqn:Hb;
      [|now exists message].
    assert (H : plainSources g = true)
      by (apply plainSources_builds; now exists cache).
    congruence.
Qed.

(** The set that is built holds the keys of the firstname records
    paired with the lastname records of their source, and nothing
    else. *)
Lemma buildExistingPairs_spec (g : Generator.State) (cache : SetOf)
  (k : string) :
  Generator.buildExistingPairs g = Return cache ->
  (In k cache
   <-> exists fn ln,
         In fn (Generator.allFirstnames g)
         /\ In ln (Generator.allLastnames g)
         /\ source fn = source ln
         /\ k = cacheKey fn ln).
Proof.
  unfold Generator.buildExistingPairs. rewrite !bySource_grouped.
  destruct (forallb _ (Generator.allFirstnames g)); [|discriminate].
  destruct (forallb _ (Generator.allLastnames g)); [|discriminate].
  intros [= <-]. apply pairsWithin_grouped.
Qed.


End PairCache.

(** ** The candidate pools *)

Section KeepFirst.
Import JS Runtime PoolSpec.

Variables (blocked : string -> bool) (norm : string -> string).

Lemma keepFirst_subsequence (names : list string) :
  forall seen, Subsequence (keepFirst blocked norm seen names) names.
Proof.
  induction names as [|n names IH]; intros seen; simpl; [constructor|].
  destruct (negb _ && negb _); [apply SubsequenceKeep | apply SubsequenceSkip];
    apply IH.
Qed.

Lemma keepFirst_In (names : list string) :
  forall seen n,
    In n (keepFirst blocked norm seen names) ->
    In n names /\ blocked n = false /\ ~ In (norm n) seen.
Proof.
  induction names as [|x names IH]; intros seen n; simpl; [intros []|].
  destruct (blocked x) eqn:Hb; simpl.
  - intros H. destruct (IH _ _ H) as (H1 & H2 & H3).
    split; [now right | now split].
  - destruct (includes seen (norm x)) eqn:Hs; simpl.
    + intros H. destruct (IH _ _ H) as (H1 & H2 & H3).
      split; [now right | now split].
    + intros [<- | H].
      * split; [now left|]. split; [exact Hb | now apply includes_not_In].
      * destruct (IH _ _ H) as (H1 & H2 & H3).
        split; [now right|]. split; [exact H2|].
        intros Hin. apply H3, In_add. now left.
Qed.

Lemma keepFirst_NoDup (names : list string) :
  forall seen, NoDup (map norm (keepFirst blocked norm seen names)).
Proof.
  induction names as [|x names IH]; intros seen; simpl; [constructor|].
  destruct (negb _ && negb _); [|apply IH]. simpl. constructor; [|apply IH].
  intros Hin. apply in_map_iff in Hin as [m [Hm Hin]].
  destruct (keepFirst_In _ _ _ Hin) as (_ & _ & Hseen).
  apply Hseen, In_add. right. exact Hm.
Qed.

Hypothesis blocked_norm :
  forall m n, norm m = norm n -> blocked m = blocked n.

Lemma keepFirst_first (names : list string) :
  forall seen n,
    In n (keepFirst blocked norm seen names) ->
    exists before rest,
      names = before ++ n :: rest
      /\ forall m, In m before -> norm m <> norm n.
Proof.
  induction names as [|x names IH]; intros seen n; simpl; [intros []|].
  destruct (negb (blocked x) && negb (includes seen (norm x))) eqn:Hkeep.
  - intros [<- | H].
    + exists [], names. split; [reflexivity | intros m []].
    + destruct (IH _ _ H) as (before & rest & -> & Hbefore).
      exists (x :: before), rest. split; [reflexivity|].
      intros m [<- | Hm]; [|now apply Hbefore].
      destruct (keepFirst_In _ _ _ H) as (_ & _ & Hseen).
      intros Heq. apply Hseen, In_add. right. now symmetry.
  - intros H. destruct (IH _ _ H) as (before & rest & -> & Hbefore).
    exists (x :: before), rest. split; [reflexivity|].
    intros m [<- | Hm]; [|now apply Hbefore].
    destruct (keepFirst_In _ _ _ H) as (Hin & Hblock & Hseen).
    intros Heq.
    apply andb_false_iff in Hkeep as [Hk | Hk]; apply negb_false_iff in Hk.
    + rewrite (blocked_norm _ _ Heq) in Hk. congruence.
    + apply includes_In in Hk. rewrite Heq in Hk. contradiction.
Qed.

Lemma keepFirst_complete (names : list string) :
  forall seen n,
    In n names -> blocked n = false ->
    In (norm n) seen
    \/ exists m, In m (keepFirst blocked norm seen names)
                 /\ norm m = norm n.
Proof.
  induction names as [|x names IH]; intros seen n; simpl; [intros []|].
  intros [<- | Hin] Hblock.
  - rewrite Hblock. simpl.
    destruct (includes seen (norm x)) eqn:Hs; simpl.
    + left. now apply includes_In.
    + right. exists x. split; [now left | reflexivity].
  - destruct (negb (blocked x) && negb (includes seen (norm x))).
    + destruct (IH (add seen (norm x)) n Hin Hblock)
        as [Hseen | (m & Hm & Heq)].
      * apply In_add in Hseen as [Hseen | Heq]; [now left|].
        right. exists x. split; [now left | now symmetry].
      * right. exists m. split; [now right | exact Heq].
    + exact (IH seen n Hin Hblock).
Qed.

(** [keepFirst] from an empty memory builds a pool. *)
Lemma keepFirst_pool (names : list string) :
  PoolOf blocked norm names (keepFirst blocked norm [] names).
Proof.
  split; [apply keepFirst_subsequence|].
  split; [apply keepFirst_NoDup|].
  split; [intros n Hn; now destruct (keepFirst_In _ _ _ Hn) as (_ & H & _)|].
  split; [intros n Hn; now apply (keepFirst_first _ [])|].
  intros n Hn Hblock.
  destruct (keepFirst_complete _ [] n Hn Hblock) as [[] | H]. exact H.
Qed.

End KeepFirst.

Section CandidatePools.
Import JS Runtime Pools PoolSpec.

Lemma collect_keepFirst (blacklist : SetOf) (filtered : list NameRecord) :
  snd (collect blacklist filtered)
  = keepFirst (blacklisted blacklist) toLowerCase [] (map name filtered).
Proof.
  unfold collect.
  assert (Hgen : forall seen results,
    snd (fold_left
           (fun '(seen, results) fn =>
              let lower := toLowerCase (name fn) in
              if negb (includes blacklist lower) && negb (includes seen lower)
              then (add seen lower, results ++ [name fn])
              else (seen, results))
           filtered (seen, results))
    = results
      ++ keepFirst (blacklisted blacklist) toLowerCase seen
           (map name filtered)).
  { induction filtered as [|fn filtered IH]; intros seen results; simpl.
    - now rewrite app_nil_r.
    - unfold blacklisted at 1.
      destruct (negb (includes blacklist (toLowerCase (name fn)))
                && negb (includes seen (toLowerCase (name fn)))).
      + rewrite IH, <- app_assoc. reflexivity.
      + apply IH. }
  apply (Hgen [] []).
Qed.

(** [getNames] returns a pool of the names that pass the source
    filter. *)
Lemma getNames_pool (blacklist : SetOf) (records : list NameRecord)
  (sourceFilter : string) :
  PoolOf (blacklisted blacklist) toLowerCase
    (map name (bySourceFilter sourceFilter records))
    (getNames records blacklist sourceFilter).
Proof.
  unfold getNames. rewrite collect_keepFirst. apply keepFirst_pool.
  intros m n Heq. unfold blacklisted. now rewrite Heq.
Qed.

Lemma flat_getFirstnames_keepFirst (g : FlatFile.State)
  (sourceFilter : string) :
  FlatFile.getFirstnames g sourceFilter
  = keepFirst (fun n => negb (truthy n)) (fun n => n) []
      (map FlatFile.firstname (FlatFile.filterBySource g sourceFilter)).
Proof.
  unfold FlatFile.getFirstnames.
  assert (Hgen : forall l seen,
    fold_left
      (fun names npc =>
         if truthy (FlatFile.firstname npc)
         then add names (FlatFile.firstname npc) else names)
      l seen
    = seen ++ keepFirst (fun n => negb (truthy n)) (fun n => n) seen
                (map FlatFile.firstname l)).
  { induction l as [|npc l IH]; intros seen; simpl.
    - now rewrite app_nil_r.
    - rewrite negb_involutive.
      destruct (truthy (FlatFile.firstname npc)); simpl; [|apply IH].
      rewrite IH. unfold add.
      destruct (includes seen (FlatFile.firstname npc)); simpl;
        [reflexivity|].
      now rewrite <- app_assoc. }
  apply (Hgen _ []).
Qed.

Lemma flat_getLastnames_keepFirst (g : FlatFile.State)
  (sourceFilter : string) :
  FlatFile.getLastnames g sourceFilter
  = keepFirst
      (fun n => negb (truthy n)
                || blacklisted (FlatFile.blacklistedLastnames g) n)
      (fun n => n) []
      (lastnamesOf (FlatFile.filterBySource g sourceFilter)).
Proof.
  unfold FlatFile.getLastnames, lastnamesOf.
  assert (Hgen : forall l seen,
    fold_left
      (fun names npc =>
         match FlatFile.lastname npc with
         | Some ln =>
             if truthy ln
                && negb (includes (FlatFile.blacklistedLastnames g)
                           (toLowerCase ln))
             then add names ln else names
         | None => names
         end)
      l seen
    = seen
      ++ keepFirst
           (fun n => negb (truthy n)
                     || blacklisted (FlatFile.blacklistedLastnames g) n)
           (fun n => n) seen
           (flat_map
              (fun npc =>
                 match FlatFile.lastname npc with
                 | Some ln => [ln]
                 | None => []
                 end) l)).
  { induction l as [|npc l IH]; intros seen; simpl.
    - now rewrite app_nil_r.
    - destruct (FlatFile.lastname npc) as [ln|]; simpl; [|apply IH].
      rewrite negb_orb, negb_involutive. unfold blacklisted at 1.
      destruct (truthy ln
                && negb (includes (FlatFile.blacklistedLastnames g)
                           (toLowerCase ln))); simpl; [|apply IH].
      rewrite IH. unfold add.
      destruct (includes seen ln); simpl; [reflexivity|].
      now rewrite <- app_assoc. }
  apply (Hgen _ []).
Qed.

Lemma bySourceFilter_expanded (records : list NameRecord) (r : NameRecord) :
  In r (bySourceFilter "expanded" records)
  <-> In r records
      /\ (source r = "tr" \/ source r = "sky" \/ source r = "pc").
Proof.
  unfold bySourceFilter. simpl. rewrite filter_In. unfold includes. simpl.
  rewrite !orb_true_iff, !String.eqb_eq. intuition congruence.
Qed.

Lemma bySourceFilter_vanilla (records : list NameRecord) (r : NameRecord) :
  In r (bySourceFilter "vanilla" records)
  <-> In r records /\ source r = "vanilla".
Proof.
  unfold bySourceFilter. simpl. rewrite filter_In, String.eqb_eq.
  reflexivity.
Qed.

Lemma bySourceFilter_other (sourceFilter : string)
  (records : list NameRecord) :
  sourceFilter <> "vanilla" -> sourceFilter <> "expanded" ->
  bySourceFilter sourceFilter records = records.
Proof.
  intros Hv He. unfold bySourceFilter.
  destruct (String.eqb_spec sourceFilter "vanilla"); [contradiction|].
  destruct (String.eqb_spec sourceFilter "expanded"); [contradiction|].
  reflexivity.
Qed.

End CandidatePools.

(** ** Loading *)

Section Loading.
Import JS Runtime Pools.

Lemma parseNameFile_lines (text line : string) :
  In line (parseNameFile text) ->
  line <> EmptyString /\ startsWith line "#" = false.
Proof.
  unfold parseNameFile. rewrite filter_In. intros [_ H].
  apply andb_prop in H as [Ht Hs]. split.
  - now apply truthy_true.
  - now apply negb_true_iff.
Qed.

(** Every loaded record is a line that is neither blank nor a
    comment. *)
Lemma loadDirectory_lines (world : World) (basePath : string)
  (r : NameRecord) :
  In r (loadDirectory world basePath) ->
  name r <> EmptyString /\ startsWith (name r) "#" = false.
Proof.
  unfold loadDirectory.
  apply (fold_left_invariant
           (fun results : list NameRecord =>
              In r results ->
              name r <> EmptyString /\ startsWith (name r) "#" = false)).
  - intros [].
  - intros results filename _ IH.
    destruct (fetch world _); try exact IH.
    intros Hin. apply in_app_or in Hin as [Hin | Hin]; [now apply IH|].
    apply in_map_iff in Hin as [line [<- Hline]]. simpl.
    now apply parseNameFile_lines with (text := text).
Qed.

End Loading.

(** ** Splitting at a separator *)

Section Splitting.
Import JS Runtime Novelty.

Variable sep : ascii.

Lemma split_not_nil (s : string) : split sep s <> [].
Proof.
  destruct s as [|c s]; simpl; [discriminate|].
  destruct (Ascii.eqb c sep); [discriminate|].
  destruct (split sep s); discriminate.
Qed.

(** The fields of two strings joined by the separator are the fields of
    the first followed by the fields of the second. *)
Lemma split_append (a b : string) :
  split sep (a ++ String sep b)%string = split sep a ++ split sep b.
Proof.
  induction a as [|c a IH]; simpl.
  - now rewrite Ascii.eqb_refl.
  - rewrite IH. destruct (Ascii.eqb c sep); [reflexivity|].
    destruct (split sep a) as [|f fs] eqn:Ha; [|reflexivity].
    now apply split_not_nil in Ha.
Qed.

Lemma split_single (s x : string) : split sep s = [x] -> x = s.
Proof.
  revert x. induction s as [|c s IH]; simpl; intros x.
  - now intros [= <-].
  - destruct (Ascii.eqb c sep).
    + intros [= _ H]. now apply split_not_nil in H.
    + destruct (split sep s) as [|f fs] eqn:Hs;
        [now apply split_not_nil in Hs|].
      intros [= <- ->]. now rewrite (IH f eq_refl).
Qed.

Lemma split_without (s : string) :
  without sep s = true -> split sep s = [s].
Proof.
  unfold without. induction s as [|c s IH]; simpl; [reflexivity|].
  intros H. apply andb_prop in H as [Hc Hs].
  apply negb_true_iff in Hc. now rewrite Hc, (IH Hs).
Qed.

(** Two fields come from two strings without the separator: the fields
    are the strings. *)
Lemma split_two (a b efn eln : string) :
  split sep (a ++ String sep b)%string = [efn; eln] ->
  efn = a /\ eln = b.
Proof.
  rewrite split_append. intros H.
  destruct (split sep a) as [|fa [|fa' ra]] eqn:Ha;
    [now apply split_not_nil in Ha | |].
  - destruct (split sep b) as [|fb [|fb' rb]] eqn:Hb;
      [now apply split_not_nil in Hb | | discriminate].
    injection H as <- <-. split; now apply split_single.
  - destruct (split sep b) as [|fb rb] eqn:Hb;
      [now apply split_not_nil in Hb|].
    simpl in H. injection H as _ _ H.
    destruct ra; discriminate.
Qed.

(** The fields of a split hold no separator. *)
Lemma split_fields_without (s f : string) :
  In f (split sep s) -> without sep f = true.
Proof.
  revert f. induction s as [|c s IH]; simpl; intros f.
  - intros [<- | []]. reflexivity.
  - destruct (Ascii.eqb c sep) eqn:Hc.
    + intros [<- | Hf]; [reflexivity | now apply IH].
    + destruct (split sep s) as [|g gs] eqn:Hs;
        [now apply split_not_nil in Hs|].
      intros [<- | Hf].
      * unfold without. simpl. rewrite Hc. simpl.
        apply (IH g). now left.
      * apply IH. now right.
Qed.

(** Joining the fields with the separator gives the string back. *)
Lemma split_join (s : string) :
  join (String sep EmptyString) (split sep s) = s.
Proof.
  induction s as [|c s IH]; [reflexivity|]. cbn [split].
  destruct (Ascii.eqb_spec c sep) as [->|Hne].
  - destruct (split sep s) as [|f fs] eqn:Hs;
      [now apply split_not_nil in Hs|].
    cbn [join]. cbn [join] in IH. now rewrite IH.
  - destruct (split sep s) as [|f fs] eqn:Hs;
      [now apply split_not_nil in Hs|].
    destruct fs as [|f' fs]; cbn [join] in *; now rewrite <- IH.
Qed.

(** A string has exactly two fields when it is two strings without the
    separator around one separator. *)
Lemma split_two_shape (s a b : string) :
  split sep s = [a; b]
  <-> s = (a ++ String sep b)%string
      /\ without sep a = true /\ without sep b = true.
Proof.
  split.
  - intros H. split.
    + rewrite <- (split_join s), H. reflexivity.
    + split; apply (split_fields_without s); rewrite H;
        [now left | right; now left].
  - intros (-> & Ha & Hb).
    now rewrite split_append, (split_without _ Ha), (split_without _ Hb).
Qed.

End Splitting.

(** ** The similarity checks *)

Section SimilarityChecks.
Import JS Runtime Pools Levenshtein Novelty Frame Session.

Lemma areTooSimilar_lt (a b : string) (threshold : nat) :
  areTooSimilar a b threshold = true <-> levenshteinDistance a b < threshold.
Proof. unfold areTooSimilar. apply Nat.ltb_lt. Qed.

Lemma cross_existsSimilar_spec (cache : SetOf) (fnLower lnLower : string) :
  Generator.existsSimilar cache fnLower lnLower = true
  <-> exists existing existingFn,
        In existing cache
        /\ Generator.names existing = (existingFn, Some lnLower)
        /\ levenshteinDistance fnLower existingFn < 3.
Proof.
  unfold Generator.existsSimilar. rewrite existsb_exists. split.
  - intros (existing & Hin & H).
    destruct (Generator.names existing) as [existingFn [existingLn|]]
      eqn:Hn; [|discriminate].
    apply andb_prop in H as [Hl Hd].
    apply String.eqb_eq in Hl. subst existingLn.
    exists existing, existingFn. split; [exact Hin|].
    split; [exact Hn|]. now apply areTooSimilar_lt.
  - intros (existing & existingFn & Hin & Hn & Hd).
    exists existing. split; [exact Hin|]. rewrite Hn, String.eqb_refl.
    now apply areTooSimilar_lt.
Qed.

(** The check that returns is the exact lookup or the similarity
    loop. *)
Lemma cross_rejects_spec (g : Generator.State) (cache : SetOf)
  (first last : string) :
  Generator.existingPairs g = Return cache ->
  fst (Generator.isTooSimilarToExisting g first last)
  = Return (includes cache (toLowerCase first ++ "|" ++ toLowerCase last)
            || Generator.existsSimilar cache
                 (toLowerCase first) (toLowerCase last))
  /\ rejects g first last
     = includes cache (toLowerCase first ++ "|" ++ toLowerCase last)
       || Generator.existsSimilar cache
            (toLowerCase first) (toLowerCase last).
Proof.
  intros H. unfold rejects, Generator.isTooSimilarToExisting. rewrite H.
  destruct (includes cache _); now split.
Qed.

(** A pair is let through only by a check that returns. *)
Lemma rejects_false (g : Generator.State) (first last : string) :
  rejects g first last = false ->
  exists cache,
    Generator.existingPairs g = Return cache
    /\ includes cache (toLowerCase first ++ "|" ++ toLowerCase last) = false
    /\ Generator.existsSimilar cache (toLowerCase first) (toLowerCase last)
       = false.
Proof.
  intros H.
  destruct (Generator.existingPairs g) as [cache|message] eqn:Hc.
  - destruct (cross_rejects_spec g cache first last Hc) as [_ Hr].
    rewrite Hr in H. apply orb_false_iff in H. now exists cache.
  - unfold rejects, Generator.isTooSimilarToExisting in H.
    rewrite Hc in H. discriminate.
Qed.

(** On a coherent object the check runs against the pairs of the names
    that are loaded. *)
Lemma coherent_builds (g : Generator.State) (cache : SetOf) :
  Coherent g ->
  Generator.existingPairs g = Return cache ->
  Generator.buildExistingPairs g = Return cache.
Proof.
  unfold Generator.existingPairs.
  intros [-> | (cache' & -> & Hb)]; [exact (fun H => H)|].
  now intros [= <-].
Qed.

Lemma cross_other_lastname (existing : string) (cache : SetOf)
  (fnLower lnLower : string) :
  snd (Generator.names existing) <> Some lnLower ->
  Generator.existsSimilar (existing :: cache) fnLower lnLower
  = Generator.existsSimilar cache fnLower lnLower.
Proof.
  intros Hother. unfold Generator.existsSimilar. simpl.
  destruct (Generator.names existing) as [existingFn [existingLn|]];
    [|reflexivity].
  destruct (String.eqb_spec existingLn lnLower) as [->|]; [|reflexivity].
  now contradiction Hother.
Qed.

(** The key of two names without a bar is taken apart into the two
    names. *)
Lemma names_cacheKey (fn ln : NameRecord) :
  without "|" (toLowerCase (name fn)) = true ->
  without "|" (toLowerCase (name ln)) = true ->
  Generator.names (cacheKey fn ln)
  = (toLowerCase (name fn), Some (toLowerCase (name ln))).
Proof.
  intros Hfn Hln. unfold Generator.names, cacheKey.
  change (toLowerCase (name fn) ++ "|" ++ toLowerCase (name ln))%string
    with (toLowerCase (name fn) ++ String "|" (toLowerCase (name ln)))%string.
  now rewrite split_append, (split_without _ _ Hfn), (split_without _ _ Hln).
Qed.

Lemma direct_matches_spec (first last : string) (existing : NameRecord) :
  DirectPairs.matches first last existing = true
  <-> toLowerCase (first ++ " " ++ last) = toLowerCase (name existing)
      \/ exists existingFn,
           split " " (toLowerCase (name existing))
           = [existingFn; toLowerCase last]
           /\ levenshteinDistance (toLowerCase first) existingFn < 3.
Proof.
  unfold DirectPairs.matches. rewrite orb_true_iff, String.eqb_eq.
  apply or_iff_compat_l.
  destruct (split " " (toLowerCase (name existing)))
    as [|f1 [|f2 [|f3 fs]]].
  - split; [discriminate | intros (x & H & _); discriminate].
  - split; [discriminate | intros (x & H & _); discriminate].
  - rewrite andb_true_iff, String.eqb_eq, areTooSimilar_lt. split.
    + intros [-> Hd]. now exists f1.
    + intros (x & [= -> ->] & Hd). now split.
  - split; [discriminate | intros (x & H & _); discriminate].
Qed.

(** The same without [split]: the full name is two words around one
    space, the second is the lower-cased lastname, and the first is
    fewer than three edits away from the lower-cased firstname. *)
Lemma direct_matches_shape (first last : string) (existing : NameRecord) :
  DirectPairs.matches first last existing = true
  <-> toLowerCase (first ++ " " ++ last) = toLowerCase (name existing)
      \/ exists existingFn,
           toLowerCase (name existing)
           = (existingFn ++ " " ++ toLowerCase last)%string
           /\ without " " existingFn = true
           /\ without " " (toLowerCase last) = true
           /\ levenshteinDistance (toLowerCase first) existingFn < 3.
Proof.
  rewrite direct_matches_spec. apply or_iff_compat_l. split.
  - intros (existingFn & Hs & Hd). exists existingFn.
    apply split_two_shape in Hs as (Hs & Ha & Hb). now repeat split.
  - intros (existingFn & Hs & Ha & Hb & Hd). exists existingFn.
    split; [|exact Hd]. apply split_two_shape. now repeat split.
Qed.

(** A full name that is not two words around one space blocks its own
    spelling only. *)
Lemma direct_matches_other_shape (first last : string)
  (existing : NameRecord) :
  (forall a b,
      toLowerCase (name existing) = (a ++ " " ++ b)%string ->
      without " " a = true -> without " " b = true -> False) ->
  (DirectPairs.matches first last existing = true
   <-> toLowerCase (first ++ " " ++ last) = toLowerCase (name existing)).
Proof.
  intros Hshape. rewrite direct_matches_shape. split; [|now left].
  intros [H | (existingFn & Hs & Ha & Hb & _)]; [exact H|].
  now elim (Hshape _ _ Hs Ha Hb).
Qed.

Lemma direct_other_lastname (first last : string) (existing : NameRecord)
  (existingFn existingLn : string) :
  split " " (toLowerCase (name existing)) = [existingFn; existingLn] ->
  existingLn <> toLowerCase last ->
  DirectPairs.matches first last existing = false.
Proof.
  intros Hsplit Hother.
  destruct (DirectPairs.matches first last existing) eqn:Hm; [|reflexivity].
  exfalso. apply direct_matches_spec in Hm as [Hexact | (x & Hx & _)].
  - rewrite <- Hexact in Hsplit.
    change (first ++ " " ++ last)%string
      with (first ++ String " " last)%string in Hsplit.
    rewrite toLowerCase_append in Hsplit.
    change (toLowerCase (String " " last))
      with (String " " (toLowerCase last)) in Hsplit.
    apply split_two in Hsplit as [_ Hl]. contradiction.
  - rewrite Hsplit in Hx. injection Hx as _ Hl. contradiction.
Qed.

End SimilarityChecks.

(** ** What the check of generator.js lets through *)

Section CrossProductNovelty.
Import JS Runtime Pools Levenshtein Novelty Frame Session Samples.

Variables (g : Generator.State) (first last : string).

Hypothesis coherent : Coherent g.
Hypothesis let_through : rejects g first last = false.

(** A pair that is let through is no pair of a firstname and a lastname
    of one source, letter case aside. *)
Lemma cross_no_exact (fn ln : NameRecord) :
  In fn (Generator.allFirstnames g) ->
  In ln (Generator.allLastnames g) ->
  source fn = source ln ->
  ~ (toLowerCase (name fn) = toLowerCase first
     /\ toLowerCase (name ln) = toLowerCase last).
Proof.
  intros Hfn Hln Hsrc [Hf Hl].
  destruct (rejects_false g first last let_through)
    as (cache & Hc & Hexact & _).
  apply includes_not_In in Hexact. apply Hexact.
  apply (buildExistingPairs_spec g cache _ (coherent_builds g cache coherent Hc)).
  exists fn, ln.
  repeat split; try assumption. unfold cacheKey. now rewrite Hf, Hl.
Qed.

(** A pair that is let through is at least three edits away from every
    firstname that shares a source with its lastname, as long as the
    two names hold no bar. *)
Lemma cross_no_near_miss (fn ln : NameRecord) :
  In fn (Generator.allFirstnames g) ->
  In ln (Generator.allLastnames g) ->
  source fn = source ln ->
  without "|" (toLowerCase (name fn)) = true ->
  without "|" (toLowerCase (name ln)) = true ->
  toLowerCase (name ln) = toLowerCase last ->
  3 <= levenshteinDistance first (name fn).
Proof.
  intros Hfn Hln Hsrc Hbarf Hbarl Hl.
  destruct (rejects_false g first last let_through)
    as (cache & Hc & _ & Hsimilar).
  destruct (Nat.lt_ge_cases (levenshteinDistance first (name fn)) 3)
    as [Hlt|Hge]; [|exact Hge].
  exfalso.
  assert (Hyes : Generator.existsSimilar cache
                   (toLowerCase first) (toLowerCase last) = true).
  { apply cross_existsSimilar_spec.
    exists (cacheKey fn ln), (toLowerCase (name fn)). split.
    - apply (buildExistingPairs_spec g cache _
               (coherent_builds g cache coherent Hc)).
      now exists fn, ln.
    - split; [rewrite <- Hl; now apply names_cacheKey|].
      now rewrite levenshteinDistance_lower. }
  congruence.
Qed.

End CrossProductNovelty.

Section CrossProductSimilarity.
Import JS Runtime Pools Levenshtein Novelty Frame.

Variables (g : Generator.State) (cache : SetOf).

Hypothesis built : Generator.buildExistingPairs g = Return cache.
Hypothesis firstnames_without_bar :
  forall r, In r (Generator.allFirstnames g) ->
    without "|" (toLowerCase (name r)) = true.
Hypothesis lastnames_without_bar :
  forall r, In r (Generator.allLastnames g) ->
    without "|" (toLowerCase (name r)) = true.

(** On names without a bar the similarity loop of generator.js answers
    for the loaded records: some firstname record within fewer than
    three edits shares its source with a record of the lastname. *)
Lemma cross_existsSimilar_records (first last : string) :
  Generator.existsSimilar cache (toLowerCase first) (toLowerCase last) = true
  <-> exists fn ln,
        In fn (Generator.allFirstnames g)
        /\ In ln (Generator.allLastnames g)
        /\ source fn = source ln
        /\ toLowerCase (name ln) = toLowerCase last
        /\ levenshteinDistance first (name fn) < 3.
Proof.
  rewrite cross_existsSimilar_spec. split.
  - intros (existing & existingFn & Hin & Hnames & Hd).
    apply (buildExistingPairs_spec g cache _ built) in Hin
      as (fn & ln & Hfn & Hln & Hsrc & ->).
    rewrite (names_cacheKey fn ln (firstnames_without_bar fn Hfn)
               (lastnames_without_bar ln Hln)) in Hnames.
    injection Hnames as <- Hl.
    rewrite levenshteinDistance_lower in Hd.
    now exists fn, ln.
  - intros (fn & ln & Hfn & Hln & Hsrc & Hl & Hd).
    exists (cacheKey fn ln), (toLowerCase (name fn)). split.
    + apply (buildExistingPairs_spec g cache _ built). now exists fn, ln.
    + split.
      * rewrite <- Hl. apply names_cacheKey;
          [now apply firstnames_without_bar
          | now apply lastnames_without_bar].
      * now rewrite levenshteinDistance_lower.
Qed.

(** On names without a bar the exact lookup adds nothing to the
    similarity loop: a cached key is zero edits away. *)
Lemma cross_exact_is_similar (first last : string) :
  includes cache (toLowerCase first ++ "|" ++ toLowerCase last) = true ->
  Generator.existsSimilar cache (toLowerCase first) (toLowerCase last) = true.
Proof.
  intros Hin. apply includes_In in Hin.
  apply cross_existsSimilar_spec.
  exists (toLowerCase first ++ "|" ++ toLowerCase last)%string,
    (toLowerCase first).
  split; [exact Hin|].
  apply (buildExistingPairs_spec g cache _ built) in Hin
    as (fn & ln & Hfn & Hln & Hsrc & Hkey).
  rewrite Hkey.
  rewrite (names_cacheKey fn ln (firstnames_without_bar fn Hfn)
             (lastnames_without_bar ln Hln)).
  pose proof (f_equal Generator.names Hkey) as Hn.
  rewrite (names_cacheKey fn ln (firstnames_without_bar fn Hfn)
             (lastnames_without_bar ln Hln)) in Hn.
  assert (Hfirst : toLowerCase (name fn) = toLowerCase first
                   /\ toLowerCase (name ln) = toLowerCase last).
  { unfold cacheKey in Hkey.
    change (toLowerCase first ++ "|" ++ toLowerCase last)%string
      with (toLowerCase first ++ String "|" (toLowerCase last))%string
      in Hkey.
    change (toLowerCase (name fn) ++ "|" ++ toLowerCase (name ln))%string
      with (toLowerCase (name fn)
            ++ String "|" (toLowerCase (name ln)))%string in Hkey.
    pose proof (f_equal (split "|") Hkey) as Hs.
    rewrite (split_append "|" (toLowerCase (name fn))) in Hs.
    rewrite (split_without _ _ (firstnames_without_bar fn Hfn)),
      (split_without _ _ (lastnames_without_bar ln Hln)) in Hs.
    cbn [app] in Hs.
    apply split_two in Hs as [Hs1 Hs2]. now split. }
  destruct Hfirst as [-> ->]. split; [reflexivity|].
  rewrite levenshteinDistance_same. lia.
Qed.

End CrossProductSimilarity.

Section BarsInNames.
Import JS Runtime Pools Levenshtein Novelty Frame Samples.

(** Without the condition on the bar the last lemmas fail: the key of
    x|yon and Savel is taken apart into x and yon, so x|yoo Savel is let
    through one edit away from x|yon Savel. *)
Lemma bar_in_names_is_split :
  Generator.existingPairs barLoaded = Return ["x|yon|savel"]
  /\ Generator.names "x|yon|savel" = ("x", Some "yon")
  /\ levenshteinDistance "x|yoo" "x|yon" = 1
  /\ rejects barLoaded "x|yoo" "Savel" = false.
Proof. repeat split; vm_compute; reflexivity. Qed.

End BarsInNames.

(** ** The direct-pairs variant on its sample dataset *)

Section DirectPairsExample.
Import JS Runtime Pools Sampling Samples.

(** The firstnames Aryon and Dilborn, the lastname Savel and the
    existing full name Aryon Savel: every call returns Dilborn Savel or
    nothing, and some call returns Dilborn Savel. *)
Lemma direct_pairs_example :
  DirectPairs.getFirstnames directLoaded "all" = ["Aryon"; "Dilborn"]
  /\ DirectPairs.getLastnames directLoaded "all" = ["Savel"]
  /\ DirectPairs.allFullnames directLoaded
     = [ {| name := "Aryon Savel"; source := "vanilla" |} ]
  /\ (forall fuel random count r,
        DirectPairs.generate fuel directLoaded random count "all" = Some r ->
        outcome r = Return []
        \/ outcome r
           = Return [ {| firstname := "Dilborn"; lastname := "Savel" |} ])
  /\ (exists random r,
        DirectPairs.generate 500 directLoaded random 5 "all" = Some r
        /\ outcome r
           = Return [ {| firstname := "Dilborn"; lastname := "Savel" |} ]).
Proof.
  split; [reflexivity|]. split; [reflexivity|]. split; [reflexivity|].
  split.
  - intros fuel random count r Hrun.
    destruct (direct_generate_result directLoaded random count "all" eq_refl)
      with (fuel := fuel) (r := r)
      as (results & attempted & Hr & Hs & _);
      [discriminate | discriminate | exact Hrun |].
    rewrite Hr. cbn [outcome].
    destruct Hs as (_ & _ & _ & _ & Hres & Hnd).
    assert (Hall : forall p, In p results ->
              p = {| firstname := "Dilborn"; lastname := "Savel" |}).
    { intros [first last] Hp.
      destruct (Hres _ Hp) as (_ & Hf & Hl & Hrej).
      cbn [firstname lastname] in Hf, Hl, Hrej.
      change (DirectPairs.getFirstnames directLoaded "all")
        with ["Aryon"; "Dilborn"] in Hf.
      change (DirectPairs.getLastnames directLoaded "all")
        with ["Savel"] in Hl.
      destruct Hl as [Hl | Hl]; [subst last | contradiction].
      destruct Hf as [Hf | [Hf | Hf]];
        [subst first | subst first; reflexivity | contradiction].
      assert (Hyes : DirectPairs.isTooSimilarToExisting directLoaded
                       "Aryon" "Savel" = true)
        by (vm_compute; reflexivity).
      congruence. }
    destruct results as [|p [|q rest]].
    + now left.
    + right. now rewrite (Hall p (or_introl eq_refl)).
    + exfalso.
      rewrite (Hall p (or_introl eq_refl)) in Hnd.
      rewrite (Hall q (or_intror (or_introl eq_refl))) in Hnd.
      inversion Hnd as [|? ? Hnotin _]. apply Hnotin. now left.
  - exists (fun k => 1). eexists. split; [vm_compute; reflexivity|].
    reflexivity.
Qed.

End DirectPairsExample.

(** * The claims *)

Section Claims.
Import JS Runtime Pools Levenshtein EditDistance Sampling Novelty Samples
  Sessions PoolSpec Frame Session Scenarios.

(** C1.  In the flat-file variant every pair that [generate] emits is,
    letter case aside, (a) the full name of no existing NPC, (b) no near
    miss of an existing NPC: no existing NPC bears its lastname with a
    firstname fewer than three edits away, and (c) no duplicate of
    another pair of the same call.  In generator.js the existing full
    names are the pairs of a firstname record and a lastname record of
    one source: on an object whose pair cache is absent or current an
    emitted pair is (a) none of them and (b) at least three edits away,
    in its firstname, from each of them that bears its lastname, as long
    as the two names of that pair hold no bar; and it is (c) no
    duplicate.  A bar in a name breaks (b) in generator.js: from the
    vanilla firstname x|yon, the tr firstname x|yoo and the vanilla
    lastname Savel, [generate] emits x|yoo Savel, one edit away from the
    existing x|yon Savel.  In particular, from the firstnames Aryon and
    Dilborn, the lastname Savel and the existing NPC Aryon Savel, no
    call emits Aryon Savel; wherever Aryon Savel exists, no pair with
    the lastname Savel and a firstname within two edits of Aryon is
    emitted, and the check rejects Aryan Savel; Dilborn Savel is
    emitted for some random source.  In generator.js, with the vanilla
    names Aryon and Savel and the firstname Vedam of another source, no
    call emits Aryon Savel or a firstname within two edits of Aryon
    with the lastname Savel, and Vedam Savel is emitted. *)
Theorem generate_emission_invariant :
  (forall fuel g random count sourceFilter r results,
      FlatFile.generate fuel g random count sourceFilter = Some r ->
      outcome r = Return results ->
      (forall p npc, In p results -> In npc (FlatFile.npcs g) ->
         ~ exactMatch p npc /\ ~ nearMiss p npc)
      /\ NoDup (map folded results))
  /\ (forall fuel g random count sourceFilter r results p fn ln,
        Coherent g ->
        Generator.generate fuel g random count sourceFilter = Some r ->
        outcome r = Return results ->
        In p results ->
        In fn (Generator.allFirstnames g) ->
        In ln (Generator.allLastnames g) ->
        source fn = source ln ->
        ~ (toLowerCase (name fn) = toLowerCase (firstname p)
           /\ toLowerCase (name ln) = toLowerCase (lastname p))
        /\ (without "|" (toLowerCase (name fn)) = true ->
            without "|" (toLowerCase (name ln)) = true ->
            toLowerCase (name ln) = toLowerCase (lastname p) ->
            3 <= levenshteinDistance (firstname p) (name fn)))
  /\ (forall fuel g random count sourceFilter r results,
        Generator.generate fuel g random count sourceFilter = Some r ->
        outcome r = Return results ->
        NoDup (map folded results))
  /\ (Generator.loadData Generator.initial barWorld "darkelf" "male"
        = (Return true, barLoaded)
      /\ Generator.allFirstnames barLoaded
         = [ {| name := "x|yon"; source := "vanilla" |};
             {| name := "x|yoo"; source := "tr" |} ]
      /\ Generator.allLastnames barLoaded
         = [ {| name := "Savel"; source := "vanilla" |} ]
      /\ levenshteinDistance "x|yoo" "x|yon" = 1
      /\ Generator.generate 500 barLoaded oneThenZero 1 "all"
         = Some {| outcome :=
                     Return [ {| firstname := "x|yoo";
                                 lastname := "Savel" |} ];
                   after := withCache barLoaded;
                   randomCalls := 2; iterations := 1 |})
  /\ (FlatFile.loadData FlatFile.initial flatWorld "darkelf" "male"
        = (Return true, flatLoaded)
      /\ FlatFile.getFirstnames flatLoaded "all" = ["Aryon"; "Dilborn"]
      /\ FlatFile.getLastnames flatLoaded "all" = ["Savel"]
      /\ FlatFile.npcs flatLoaded
         = [ {| FlatFile.firstname := "Aryon";
                FlatFile.lastname := Some "Savel";
                FlatFile.source := "vanilla" |};
             {| FlatFile.firstname := "Dilborn";
                FlatFile.lastname := None;
                FlatFile.source := "vanilla" |} ])
  /\ (forall fuel random count r results,
        FlatFile.generate fuel flatLoaded random count "all" = Some r ->
        outcome r = Return results ->
        ~ In {| firstname := "Aryon"; lastname := "Savel" |} results)
  /\ (forall fuel g random count sourceFilter r results src p,
        In {| FlatFile.firstname := "Aryon";
              FlatFile.lastname := Some "Savel";
              FlatFile.source := src |} (FlatFile.npcs g) ->
        FlatFile.generate fuel g random count sourceFilter = Some r ->
        outcome r = Return results ->
        In p results ->
        toLowerCase (lastname p) = "savel" ->
        3 <= levenshteinDistance (firstname p) "Aryon")
  /\ (forall g src,
        In {| FlatFile.firstname := "Aryon";
              FlatFile.lastname := Some "Savel";
              FlatFile.source := src |} (FlatFile.npcs g) ->
        FlatFile.isTooSimilarToExisting g "Aryan" "Savel" = true)
  /\ (exists random r,
        FlatFile.generate 500 flatLoaded random 5 "all" = Some r
        /\ outcome r
           = Return [ {| firstname := "Dilborn"; lastname := "Savel" |} ])
  /\ (forall fuel random count sourceFilter r results p,
        Generator.generate fuel customLoaded random count sourceFilter
        = Some r ->
        outcome r = Return results ->
        In p results ->
        p <> {| firstname := "Aryon"; lastname := "Savel" |}
        /\ (toLowerCase (lastname p) = "savel" ->
            3 <= levenshteinDistance (firstname p) "Aryon"))
  /\ (exists random r,
        Generator.generate 2500 customLoaded random 5 "all" = Some r
        /\ outcome r
           = Return [ {| firstname := "Vedam"; lastname := "Savel" |} ]).
Proof.
  assert (General : forall fuel g random count sourceFilter r results,
      FlatFile.generate fuel g random count sourceFilter = Some r ->
      outcome r = Return results ->
      (forall p npc, In p results -> In npc (FlatFile.npcs g) ->
         ~ exactMatch p npc /\ ~ nearMiss p npc)
      /\ NoDup (map folded results)).
  { intros fuel g random count sourceFilter r results Hrun Hout.
    destruct (FlatFile.loaded g) eqn:Hloaded;
      [|unfold FlatFile.generate in Hrun; rewrite Hloaded in Hrun;
        injection Hrun as <-; discriminate].
    destruct (FlatFile.getFirstnames g sourceFilter) as [|f fs] eqn:Hf;
      [unfold FlatFile.generate in Hrun; rewrite Hloaded, Hf in Hrun;
       injection Hrun as <-; discriminate|].
    destruct (FlatFile.getLastnames g sourceFilter) as [|l ls] eqn:Hl;
      [unfold FlatFile.generate in Hrun; rewrite Hloaded, Hf, Hl in Hrun;
       injection Hrun as <-; discriminate|].
    destruct (flat_generate_result g random count sourceFilter Hloaded)
      with (fuel := fuel) (r := r)
      as (res & attempted & Hr & Hs & _);
      [rewrite Hf; discriminate | rewrite Hl; discriminate | exact Hrun |].
    rewrite Hr in Hout. injection Hout as ->.
    destruct Hs as (_ & _ & _ & _ & Hres & Hnd). split.
    - intros p npc Hp Hnpc. destruct (Hres p Hp) as (_ & _ & Hlast & Hrej).
      destruct p as [first last]. simpl in *.
      apply (flat_check_false g first last); try assumption.
      apply (flat_lastnames_truthy g sourceFilter). exact Hlast.
    - apply NoDup_key_folded. exact Hnd. }
  assert (Cross : forall fuel g random count sourceFilter r results p fn ln,
        Coherent g ->
        Generator.generate fuel g random count sourceFilter = Some r ->
        outcome r = Return results ->
        In p results ->
        In fn (Generator.allFirstnames g) ->
        In ln (Generator.allLastnames g) ->
        source fn = source ln ->
        ~ (toLowerCase (name fn) = toLowerCase (firstname p)
           /\ toLowerCase (name ln) = toLowerCase (lastname p))
        /\ (without "|" (toLowerCase (name fn)) = true ->
            without "|" (toLowerCase (name ln)) = true ->
            toLowerCase (name ln) = toLowerCase (lastname p) ->
            3 <= levenshteinDistance (firstname p) (name fn))).
  { intros fuel g random count sourceFilter r results p fn ln
      Hg Hrun Hout Hp Hfn Hln Hsrc.
    destruct (cross_generate_returns _ _ _ _ _ _ _ Hrun Hout)
      as (_ & _ & attempted & Hs).
    destruct Hs as (_ & _ & _ & _ & Hres & _).
    destruct (Hres p Hp) as (_ & _ & _ & Hrej). split.
    - now apply (cross_no_exact g (firstname p) (lastname p) Hg Hrej).
    - intros Hbf Hbl Hlast.
      now apply (cross_no_near_miss g (firstname p) (lastname p) Hg Hrej
                   fn ln). }
  split; [exact General|].
  split; [exact Cross|].
  split.
  { intros fuel g random count sourceFilter r results Hrun Hout.
    destruct (cross_generate_returns _ _ _ _ _ _ _ Hrun Hout)
      as (_ & _ & attempted & Hs).
    destruct Hs as (_ & _ & _ & _ & _ & Hnd).
    apply NoDup_key_folded. exact Hnd. }
  split.
  { split; [reflexivity|]. split; [reflexivity|]. split; [reflexivity|].
    split; vm_compute; reflexivity. }
  split; [repeat split; reflexivity|].
  split.
  { intros fuel random count r results Hrun Hout Hin.
    destruct (General _ _ _ _ _ _ _ Hrun Hout) as [Hnovel _].
    destruct (Hnovel _ {| FlatFile.firstname := "Aryon";
                          FlatFile.lastname := Some "Savel";
                          FlatFile.source := "vanilla" |} Hin)
      as [Hexact _]; [now left|].
    apply Hexact. exists "Savel". repeat split; reflexivity. }
  split.
  { intros fuel g random count sourceFilter r results src p
      Hnpc Hrun Hout Hp Hlast.
    destruct (General _ _ _ _ _ _ _ Hrun Hout) as [Hnovel _].
    destruct (Hnovel p _ Hp Hnpc) as [_ Hnear].
    destruct (Nat.lt_ge_cases (levenshteinDistance (firstname p) "Aryon") 3)
      as [Hlt|Hge]; [|exact Hge].
    exfalso. apply Hnear. exists "Savel".
    split; [reflexivity|]. split; [rewrite Hlast; reflexivity | exact Hlt]. }
  split.
  { intros g src Hnpc. unfold FlatFile.isTooSimilarToExisting.
    apply existsb_exists. eexists. split; [exact Hnpc|]. reflexivity. }
  split.
  { exists (fun k => 1). eexists. split; [vm_compute; reflexivity|].
    reflexivity. }
  split.
  { intros fuel random count sourceFilter r results p Hrun Hout Hp.
    destruct (Cross fuel customLoaded random count sourceFilter r results p
                {| name := "Aryon"; source := "vanilla" |}
                {| name := "Savel"; source := "vanilla" |}
                (or_introl eq_refl) Hrun Hout Hp)
      as [Hexact Hnear]; [now left | now left | reflexivity |].
    split.
    - intros ->. apply Hexact. now split.
    - intros Hlast. apply Hnear; [reflexivity | reflexivity|].
      now rewrite Hlast. }
  exists (fun k => 1). eexists. split; [vm_compute; reflexivity|].
  reflexivity.
Qed.

(** C1 at work: the call on the flat sample dataset that emits Dilborn
    Savel, and the call of generator.js that emits Vedam Savel next to
    the vanilla pair Aryon Savel. *)
Lemma generate_emission_invariant_witness :
  ((forall p npc,
       In p [ {| firstname := "Dilborn"; lastname := "Savel" |} ] ->
       In npc (FlatFile.npcs flatLoaded) ->
       ~ exactMatch p npc /\ ~ nearMiss p npc)
   /\ NoDup
        (map folded [ {| firstname := "Dilborn"; lastname := "Savel" |} ]))
  /\ (~ (toLowerCase "Aryon" = toLowerCase "Vedam"
         /\ toLowerCase "Savel" = toLowerCase "Savel")
      /\ (without "|" (toLowerCase "Aryon") = true ->
          without "|" (toLowerCase "Savel") = true ->
          toLowerCase "Savel" = toLowerCase "Savel" ->
          3 <= levenshteinDistance "Vedam" "Aryon")).
Proof.
  split.
  - apply (proj1 generate_emission_invariant 500 flatLoaded (fun _ => 1) 5
             "all"
             {| outcome :=
                  Return [ {| firstname := "Dilborn"; lastname := "Savel" |} ];
                after := flatLoaded; randomCalls := 1000;
                iterations := 500 |});
      [vm_compute; reflexivity | reflexivity].
  - apply (proj1 (proj2 generate_emission_invariant) 500 customLoaded
             (fun _ => 1) 1 "all"
             {| outcome :=
                  Return [ {| firstname := "Vedam"; lastname := "Savel" |} ];
                after := withCache customLoaded;
                randomCalls := 2; iterations := 1 |}
             [ {| firstname := "Vedam"; lastname := "Savel" |} ]
             {| firstname := "Vedam"; lastname := "Savel" |}
             {| name := "Aryon"; source := "vanilla" |}
             {| name := "Savel"; source := "vanilla" |});
      [left; reflexivity | vm_compute; reflexivity | reflexivity
      | now left | now left | now left | reflexivity].
Defined.

(** C2.  [generate] ends for every dataset and every [count]: with fuel
    for [count * K] rounds the call comes back after at most
    [count * K] rounds, [K] being 500 in generator.js and 100 in the
    flat-file variant.  In the flat-file variant, and in generator.js on
    an object on which the novelty check returns, a loaded dataset with
    non-empty pools makes it return without throwing at most [count]
    pairs, and fewer only when the budget is used up; no round starts
    once [count] pairs are accepted; and when the check rejects every
    pair of the pools the result is empty and all [count * K] rounds
    were run.  In generator.js the check throws when the pair cache is
    absent and a loaded record has a source named like an inherited
    property: then a call for one pair or more throws the [TypeError]
    in its first round and leaves the empty set in the cache, as on the
    dataset whose manifest lists constructor.txt. *)
Theorem generate_terminates :
  (100 <= Generator.maxAttemptsFactor <= 500
   /\ 100 <= FlatFile.maxAttemptsFactor <= 500)
  /\ (forall g random count sourceFilter fuel,
        count * Generator.maxAttemptsFactor <= fuel ->
        exists r,
          Generator.generate fuel g random count sourceFilter = Some r
          /\ iterations r <= count * Generator.maxAttemptsFactor
          /\ randomCalls r = 2 * iterations r
          /\ (Generator.loaded g = true ->
              Generator.getFirstnames g sourceFilter <> [] ->
              Generator.getLastnames g sourceFilter <> [] ->
              checks g ->
              BoundedRun Generator.maxAttemptsFactor count r
              /\ (forall m, m < iterations r ->
                    length
                      (Generator.results
                         (Nat.iter m
                            (Generator.body random
                               (Generator.getFirstnames g sourceFilter)
                               (Generator.getLastnames g sourceFilter))
                            (Generator.start g))) < count)
              /\ ((forall first last,
                      In first (Generator.getFirstnames g sourceFilter) ->
                      In last (Generator.getLastnames g sourceFilter) ->
                      Frame.rejects g first last = true) ->
                  outcome r = Return []
                  /\ iterations r = count * Generator.maxAttemptsFactor)))
  /\ (forall g random count sourceFilter fuel message,
        Generator.loaded g = true ->
        Generator.getFirstnames g sourceFilter <> [] ->
        Generator.getLastnames g sourceFilter <> [] ->
        Generator.existingPairs g = Throw message ->
        0 < count -> 0 < fuel ->
        Generator.generate fuel g random count sourceFilter
        = Some {| outcome := Throw message;
                  after := Generator.setCache g (Some []);
                  randomCalls := 2; iterations := 1 |})
  /\ (forall g,
        (exists message, Generator.existingPairs g = Throw message)
        <-> Generator.existingPairsCache g = None
            /\ exists r,
                 In r (Generator.allFirstnames g ++ Generator.allLastnames g)
                 /\ In (source r) Generator.inherited)
  /\ (Generator.loadData Generator.initial inheritedWorld "darkelf" "male"
        = (Return true, inheritedLoaded)
      /\ Generator.allFirstnames inheritedLoaded
         = [ {| name := "Aryon"; source := "vanilla" |};
             {| name := "Vedam"; source := "constructor" |} ]
      /\ Generator.allLastnames inheritedLoaded
         = [ {| name := "Savel"; source := "vanilla" |} ]
      /\ forall fuel random count,
           0 < count -> 0 < fuel ->
           Generator.generate fuel inheritedLoaded random count "all"
           = Some {| outcome :=
                       Throw "fnBySource[fn.source].push is not a function";
                     after :=
                       Generator.setCache inheritedLoaded (Some []);
                     randomCalls := 2; iterations := 1 |})
  /\ (forall g random count sourceFilter fuel,
        count * FlatFile.maxAttemptsFactor <= fuel ->
        exists r,
          FlatFile.generate fuel g random count sourceFilter = Some r
          /\ (FlatFile.loaded g = true ->
              FlatFile.getFirstnames g sourceFilter <> [] ->
              FlatFile.getLastnames g sourceFilter <> [] ->
              BoundedRun FlatFile.maxAttemptsFactor count r
              /\ (forall m, m < iterations r ->
                    length
                      (FlatFile.results
                         (Nat.iter m
                            (FlatFile.body g random
                               (FlatFile.getFirstnames g sourceFilter)
                               (FlatFile.getLastnames g sourceFilter))
                            FlatFile.start)) < count)
              /\ ((forall first last,
                      In first (FlatFile.getFirstnames g sourceFilter) ->
                      In last (FlatFile.getLastnames g sourceFilter) ->
                      FlatFile.isTooSimilarToExisting g first last = true) ->
                  outcome r = Return []
                  /\ iterations r = count * FlatFile.maxAttemptsFactor))).
Proof.
  assert (Fails : forall g random count sourceFilter fuel message,
        Generator.loaded g = true ->
        Generator.getFirstnames g sourceFilter <> [] ->
        Generator.getLastnames g sourceFilter <> [] ->
        Generator.existingPairs g = Throw message ->
        0 < count -> 0 < fuel ->
        Generator.generate fuel g random count sourceFilter
        = Some {| outcome := Throw message;
                  after := Generator.setCache g (Some []);
                  randomCalls := 2; iterations := 1 |}).
  { intros g random count sourceFilter fuel message Hl Hf Hn Hthrow Hc Hfuel.
    rewrite (cross_generate_fails g random count sourceFilter Hl Hf Hn
               fuel message Hthrow).
    destruct (Nat.eqb_spec count 0) as [Hz|_]; [lia|].
    destruct fuel; [lia | reflexivity]. }
  split; [unfold Generator.maxAttemptsFactor, FlatFile.maxAttemptsFactor; lia|].
  split.
  - intros g random count sourceFilter fuel Hfuel.
    destruct (Generator.loaded g) eqn:Hloaded;
      [|eexists; split;
        [unfold Generator.generate; rewrite Hloaded; reflexivity
        |cbn; split; [lia|]; split; [reflexivity | discriminate]]].
    destruct (Generator.getFirstnames g sourceFilter) as [|f fs] eqn:Hf;
      [eexists; split;
        [unfold Generator.generate; rewrite Hloaded, Hf; reflexivity
        |cbn; split; [lia|]; split;
         [reflexivity | intros _ Habs; now contradiction Habs]]|].
    destruct (Generator.getLastnames g sourceFilter) as [|l ls] eqn:Hl;
      [eexists; split;
        [unfold Generator.generate; rewrite Hloaded, Hf, Hl; reflexivity
        |cbn; split; [lia|]; split;
         [reflexivity | intros _ _ Habs; now contradiction Habs]]|].
    rewrite <- Hf, <- Hl.
    assert (Hfs : Generator.getFirstnames g sourceFilter <> [])
      by (rewrite Hf; discriminate).
    assert (Hls : Generator.getLastnames g sourceFilter <> [])
      by (rewrite Hl; discriminate).
    destruct (checks_or_throws g) as [Hcheck | [message Hthrow]].
    + destruct (cross_generate_defined g random count sourceFilter
                  Hloaded Hfs Hls fuel Hfuel) as [r Hr].
      exists r. split; [exact Hr|].
      destruct (cross_generate_result g random count sourceFilter
                  Hloaded Hfs Hls fuel r Hcheck Hr)
        as (results & attempted & Hout & _ & Hcalls & Hs & Hend & Hrounds).
      destruct Hs as (Hlen & Hatt & _ & _ & Hres & _).
      split; [exact Hatt|]. split; [exact Hcalls|]. intros _ _ _ _.
      split; [|split; [exact Hrounds|]].
      * exists results. repeat split; try assumption. lia.
      * intros Hall.
        assert (Hnil : results = []).
        { destruct results as [|p rest]; [reflexivity|]. exfalso.
          destruct (Hres p (or_introl eq_refl)) as (_ & Hpf & Hpl & Hrej).
          rewrite (Hall _ _ Hpf Hpl) in Hrej. discriminate. }
        subst results. split; [exact Hout|].
        destruct Hend as [Hend|Hend]; [|exact Hend].
        simpl in Hend. subst count. simpl in *. lia.
    + assert (Hno : ~ checks g)
        by (intros [cache Hc]; congruence).
      rewrite (cross_generate_fails g random count sourceFilter
                 Hloaded Hfs Hls fuel message Hthrow).
      destruct (Nat.eqb_spec count 0) as [Hz|Hz].
      * eexists. split; [reflexivity|]. cbn.
        split; [lia|]. split; [reflexivity|]. intros _ _ _ Hc.
        contradiction.
      * destruct fuel as [|fuel'];
          [unfold Generator.maxAttemptsFactor in Hfuel; lia|].
        eexists. split; [reflexivity|]. cbn.
        split; [unfold Generator.maxAttemptsFactor; lia|].
        split; [reflexivity|]. intros _ _ _ Hc. contradiction.
  - split; [exact Fails|]. split.
    { intros g. unfold Generator.existingPairs.
      destruct (Generator.existingPairsCache g) as [cache|].
      - split; [intros [message H]; discriminate | intros [H _]; discriminate].
      - rewrite <- plainSources_throws. unfold plainSources.
        split.
        + intros Hp. split; [reflexivity|].
          apply not_true_iff_false in Hp.
          rewrite forallb_forall in Hp.
          destruct (existsb
                      (fun r => includes Generator.inherited (source r))
                      (Generator.allFirstnames g
                       ++ Generator.allLastnames g)) eqn:He.
          * apply existsb_exists in He as (r & Hr & Hi).
            exists r. split; [exact Hr | now apply includes_In].
          * exfalso. apply Hp. intros r Hr.
            apply negb_true_iff.
            destruct (includes Generator.inherited (source r)) eqn:Hi;
              [|reflexivity].
            assert (Hyes : existsb
                      (fun r => includes Generator.inherited (source r))
                      (Generator.allFirstnames g
                       ++ Generator.allLastnames g) = true)
              by (apply existsb_exists; now exists r).
            congruence.
        + intros (_ & r & Hr & Hi). apply not_true_iff_false.
          rewrite forallb_forall. intros Hall.
          specialize (Hall r Hr). apply negb_true_iff in Hall.
          apply includes_not_In in Hall. contradiction. }
    split.
    { split; [reflexivity|]. split; [reflexivity|]. split; [reflexivity|].
      intros fuel random count Hc Hfuel.
      apply Fails; try assumption;
        [reflexivity | vm_compute; discriminate | vm_compute; discriminate
        | reflexivity]. }
    intros g random count sourceFilter fuel Hfuel.
    destruct (FlatFile.loaded g) eqn:Hloaded;
      [|eexists; split;
        [unfold FlatFile.generate; rewrite Hloaded; reflexivity
        |discriminate]].
    destruct (FlatFile.getFirstnames g sourceFilter) as [|f fs] eqn:Hf;
      [eexists; split;
        [unfold FlatFile.generate; rewrite Hloaded, Hf; reflexivity
        |intros _ Habs; now contradiction Habs]|].
    destruct (FlatFile.getLastnames g sourceFilter) as [|l ls] eqn:Hl;
      [eexists; split;
        [unfold FlatFile.generate; rewrite Hloaded, Hf, Hl; reflexivity
        |intros _ _ Habs; now contradiction Habs]|].
    rewrite <- Hf, <- Hl.
    assert (Hfs : FlatFile.getFirstnames g sourceFilter <> [])
      by (rewrite Hf; discriminate).
    assert (Hls : FlatFile.getLastnames g sourceFilter <> [])
      by (rewrite Hl; discriminate).
    destruct (flat_generate_defined g random count sourceFilter
                Hloaded Hfs Hls fuel Hfuel) as [r Hr].
    exists r. split; [exact Hr|]. intros _ _ _.
    destruct (flat_generate_result g random count sourceFilter
                Hloaded Hfs Hls fuel r Hr)
      as (results & attempted & Hout & Hs & Hend & Hrounds).
    destruct Hs as (Hlen & Hatt & _ & _ & Hres & _).
    split; [|split; [exact Hrounds|]].
    + exists results. rewrite Hout. cbn [outcome iterations randomCalls].
      repeat split; try assumption. lia.
    + intros Hall.
      assert (Hnil : results = []).
      { destruct results as [|p rest]; [reflexivity|]. exfalso.
        destruct (Hres p (or_introl eq_refl)) as (_ & Hpf & Hpl & Hrej).
        rewrite (Hall _ _ Hpf Hpl) in Hrej. discriminate. }
      subst results. rewrite Hout at 1. split; [reflexivity|].
      destruct Hend as [Hend|Hend]; [|exact Hend].
      simpl in Hend. subst count. simpl in *. lia.
Qed.

(** C2 at work: five pairs are asked of the two sample datasets in
    which one pair at most is new, and of the dataset whose manifest
    lists constructor.txt. *)
Lemma generate_terminates_witness :
  (exists r,
      Generator.generate 2500 blacklistLoaded (fun _ => 0) 5 "all" = Some r
      /\ BoundedRun Generator.maxAttemptsFactor 5 r
      /\ outcome r = Return []
      /\ iterations r = 5 * Generator.maxAttemptsFactor)
  /\ Generator.generate 2500 inheritedLoaded (fun _ => 0) 5 "all"
     = Some {| outcome :=
                 Throw "fnBySource[fn.source].push is not a function";
               after := Generator.setCache inheritedLoaded (Some []);
               randomCalls := 2; iterations := 1 |}
  /\ (exists r,
        FlatFile.generate 500 flatLoaded (fun _ => 1) 5 "all" = Some r
        /\ BoundedRun FlatFile.maxAttemptsFactor 5 r).
Proof.
  split; [|split].
  - destruct (proj1 (proj2 generate_terminates)
                blacklistLoaded (fun _ => 0) 5 "all" 2500)
      as [r [Hrun (_ & _ & Hr)]]; [vm_compute; lia|].
    destruct Hr as (Hbounded & _ & Hall);
      [reflexivity | vm_compute; discriminate | vm_compute; discriminate
      | eexists; vm_compute; reflexivity |].
    exists r. split; [exact Hrun|]. split; [exact Hbounded|].
    apply Hall. intros first last Hf Hl.
    vm_compute in Hf, Hl.
    destruct Hf as [<- | []]. destruct Hl as [<- | []]. reflexivity.
  - apply (proj1 (proj2 (proj2 generate_terminates))
             inheritedLoaded (fun _ => 0) 5 "all" 2500);
      [reflexivity | vm_compute; discriminate | vm_compute; discriminate
      | reflexivity | lia | lia].
  - destruct (proj2 (proj2 (proj2 (proj2 (proj2 generate_terminates))))
                flatLoaded (fun _ => 1) 5 "all" 500)
      as [r [Hrun Hr]]; [vm_compute; lia|].
    destruct Hr as (Hbounded & _);
      [reflexivity | vm_compute; discriminate | vm_compute; discriminate |].
    exists r. split; [exact Hrun | exact Hbounded].
Defined.

(** C4, as the claim states it, fails: the string of the one code unit
    U+0130 has the length 1, and its distance from the empty string is
    2, the length of its lower case. *)
Lemma distance_from_empty_is_not_the_length :
  length [Wide.CapitalIDot] = 1
  /\ Wide.toLowerCase [Wide.CapitalIDot]
     = [Wide.Below256 "i"; Wide.CombiningDot]
  /\ Wide.levenshteinDistance [] [Wide.CapitalIDot] = 2.
Proof. repeat split; reflexivity. Qed.

(** C4, amended.  [levenshteinDistance] is zero on equal arguments,
    symmetric, and from the empty string to [s] it is the length of the
    lower-cased [s]; it is 3 from the empty string to abc and from
    kitten to sitting; and it is the least number of single-unit
    insertions, deletions and substitutions that turn the lower-cased
    first argument into the lower-cased second one.  On the strings
    that hold U+0130 it is zero on equal arguments as well, and from
    the empty string to [s] it is again the length of the lower-cased
    [s]; on the strings of code units below 256, whose lower case has
    their length, the two embeddings agree. *)
Theorem levenshteinDistance_properties :
  (forall x, levenshteinDistance x x = 0)
  /\ (forall a b, levenshteinDistance a b = levenshteinDistance b a)
  /\ (forall s, levenshteinDistance "" s = String.length (toLowerCase s))
  /\ levenshteinDistance "" "abc" = 3
  /\ levenshteinDistance "kitten" "sitting" = 3
  /\ (forall a b,
        Script (levenshteinDistance a b)
          (units (toLowerCase a)) (units (toLowerCase b))
        /\ forall n,
             Script n (units (toLowerCase a)) (units (toLowerCase b)) ->
             levenshteinDistance a b <= n)
  /\ (forall x, Wide.levenshteinDistance x x = 0)
  /\ (forall s,
        Wide.levenshteinDistance [] s = length (Wide.toLowerCase s))
  /\ (forall a b,
        Wide.levenshteinDistance (Wide.ofString a) (Wide.ofString b)
        = levenshteinDistance a b)
  /\ (forall s,
        Wide.toLowerCase (Wide.ofString s) = Wide.ofString (toLowerCase s)
        /\ String.length (toLowerCase s) = String.length s).
Proof.
  split; [exact levenshteinDistance_same|].
  split; [exact levenshteinDistance_symmetric|].
  split; [exact levenshteinDistance_empty|].
  split; [reflexivity|]. split; [reflexivity|].
  split; [exact levenshteinDistance_minimal|].
  split; [exact wide_distance_same|].
  split; [exact wide_distance_empty|].
  split; [exact wide_distance_ofString|].
  intros s. split; [apply wide_toLowerCase_ofString|].
  apply length_toLowerCase.
Qed.

(** C6.  [generate] throws "Data not loaded" on an object on which no
    [loadData] has succeeded, and on a loaded object it throws an error
    of its own for an empty firstname pool and another one for an empty
    lastname pool; the three messages differ, and a call that throws
    returns no pair, draws nothing and leaves the object as it was
    (generator.js and the flat-file variant). *)
Theorem generate_errors :
  (forall fuel g random count sourceFilter,
      (NeverLoaded g \/ Generator.loaded g = false) ->
      Generator.generate fuel g random count sourceFilter
      = Some (thrown g "Data not loaded"))
  /\ (forall fuel g random count sourceFilter,
        Generator.loaded g = true ->
        Generator.getFirstnames g sourceFilter = [] ->
        Generator.generate fuel g random count sourceFilter
        = Some (thrown g
            "No firstnames available (check source filter and blacklist)"))
  /\ (forall fuel g random count sourceFilter,
        Generator.loaded g = true ->
        Generator.getFirstnames g sourceFilter <> [] ->
        Generator.getLastnames g sourceFilter = [] ->
        Generator.generate fuel g random count sourceFilter
        = Some (thrown g
            "No lastnames available (check source filter and blacklist)"))
  /\ (forall fuel g random count sourceFilter,
        (FlatNeverLoaded g \/ FlatFile.loaded g = false) ->
        FlatFile.generate fuel g random count sourceFilter
        = Some (thrown g "Data not loaded"))
  /\ (forall fuel g random count sourceFilter,
        FlatFile.loaded g = true ->
        FlatFile.getFirstnames g sourceFilter = [] ->
        FlatFile.generate fuel g random count sourceFilter
        = Some (thrown g "No firstnames available"))
  /\ (forall fuel g random count sourceFilter,
        FlatFile.loaded g = true ->
        FlatFile.getFirstnames g sourceFilter <> [] ->
        FlatFile.getLastnames g sourceFilter = [] ->
        FlatFile.generate fuel g random count sourceFilter
        = Some (thrown g "No lastnames available (all may be blacklisted)"))
  /\ ("Data not loaded"
        <> "No firstnames available (check source filter and blacklist)"
      /\ "Data not loaded"
        <> "No lastnames available (check source filter and blacklist)"
      /\ "No firstnames available (check source filter and blacklist)"
        <> "No lastnames available (check source filter and blacklist)"
      /\ "Data not loaded" <> "No firstnames available"
      /\ "Data not loaded"
        <> "No lastnames available (all may be blacklisted)"
      /\ "No firstnames available"
        <> "No lastnames available (all may be blacklisted)").
Proof.
  split.
  { intros fuel g random count sourceFilter H.
    assert (Hl : Generator.loaded g = false)
      by (destruct H as [H|H]; [now apply neverLoaded_not_loaded | exact H]).
    unfold Generator.generate. now rewrite Hl. }
  split.
  { intros fuel g random count sourceFilter Hl Hf.
    unfold Generator.generate. now rewrite Hl, Hf. }
  split.
  { intros fuel g random count sourceFilter Hl Hf Hln.
    unfold Generator.generate. rewrite Hl, Hln.
    destruct (Generator.getFirstnames g sourceFilter); [contradiction|].
    reflexivity. }
  split.
  { intros fuel g random count sourceFilter H.
    assert (Hl : FlatFile.loaded g = false)
      by (destruct H as [H|H];
          [now apply flatNeverLoaded_not_loaded | exact H]).
    unfold FlatFile.generate. now rewrite Hl. }
  split.
  { intros fuel g random count sourceFilter Hl Hf.
    unfold FlatFile.generate. now rewrite Hl, Hf. }
  split.
  { intros fuel g random count sourceFilter Hl Hf Hln.
    unfold FlatFile.generate. rewrite Hl, Hln.
    destruct (FlatFile.getFirstnames g sourceFilter); [contradiction|].
    reflexivity. }
  repeat split; discriminate.
Qed.

(** C6 at work: a call on the initial object, a call after a load that
    found no files, calls on the datasets whose only firstname or only
    lastname is blacklisted, and calls on flat files without names and
    without lastnames. *)
Lemma generate_errors_witness :
  Generator.generate 10 Generator.initial (fun _ => 0) 3 "all"
  = Some (thrown Generator.initial "Data not loaded")
  /\ Generator.generate 10
       (snd (Generator.loadData Generator.initial (serve []) "orc" "male"))
       (fun _ => 0) 3 "all"
     = Some (thrown
               (snd (Generator.loadData Generator.initial (serve [])
                       "orc" "male"))
               "Data not loaded")
  /\ Generator.generate 10 emptiedLoaded (fun _ => 0) 3 "all"
     = Some (thrown emptiedLoaded
         "No firstnames available (check source filter and blacklist)")
  /\ Generator.generate 10 lastEmptiedLoaded (fun _ => 0) 3 "all"
     = Some (thrown lastEmptiedLoaded
         "No lastnames available (check source filter and blacklist)")
  /\ FlatFile.generate 10 FlatFile.initial (fun _ => 0) 3 "all"
     = Some (thrown FlatFile.initial "Data not loaded")
  /\ FlatFile.generate 10 commentLoaded (fun _ => 0) 3 "all"
     = Some (thrown commentLoaded "No firstnames available")
  /\ FlatFile.generate 10 singleNamesLoaded (fun _ => 0) 3 "all"
     = Some (thrown singleNamesLoaded
         "No lastnames available (all may be blacklisted)").
Proof.
  split; [apply (proj1 generate_errors); left; constructor|].
  split.
  { apply (proj1 generate_errors). left.
    apply (NeverLoadedFailed Generator.initial (serve []) "orc" "male"
             "No firstnames found for orc male");
      [constructor | reflexivity]. }
  split; [apply (proj1 (proj2 generate_errors)); reflexivity|].
  split.
  { apply (proj1 (proj2 (proj2 generate_errors)));
      [reflexivity | vm_compute; discriminate | reflexivity]. }
  split.
  { apply (proj1 (proj2 (proj2 (proj2 generate_errors)))). left.
    constructor. }
  split.
  { apply (proj1 (proj2 (proj2 (proj2 (proj2 generate_errors)))));
      reflexivity. }
  apply (proj1 (proj2 (proj2 (proj2 (proj2 (proj2 generate_errors))))));
    [reflexivity | vm_compute; discriminate | reflexivity].
Defined.

(** C8.  On a loaded dataset with non-empty pools, [generate(0, "all")]
    returns the empty sequence, calls [Math.random()] not once, runs no
    round and throws nothing, whatever the fuel (generator.js and the
    direct-pairs variant; the same holds for every source filter). *)
Theorem generate_zero :
  (forall fuel g random sourceFilter,
      Generator.loaded g = true ->
      Generator.getFirstnames g sourceFilter <> [] ->
      Generator.getLastnames g sourceFilter <> [] ->
      Generator.generate fuel g random 0 sourceFilter
      = Some {| outcome := Return []; after := g;
                randomCalls := 0; iterations := 0 |})
  /\ (forall fuel g random sourceFilter,
        DirectPairs.loaded g = true ->
        DirectPairs.getFirstnames g sourceFilter <> [] ->
        DirectPairs.getLastnames g sourceFilter <> [] ->
        DirectPairs.generate fuel g random 0 sourceFilter
        = Some {| outcome := Return []; after := g;
                  randomCalls := 0; iterations := 0 |}).
Proof.
  split.
  - intros fuel g random sourceFilter Hl Hf Hln.
    rewrite (cross_generate_loop g random 0 sourceFilter Hl Hf Hln).
    now rewrite while_done.
  - intros fuel g random sourceFilter Hl Hf Hln.
    rewrite (direct_generate_loop g random 0 sourceFilter Hl Hf Hln).
    now rewrite while_done.
Qed.

(** C8 at work on two loaded sample datasets. *)
Lemma generate_zero_witness :
  Generator.generate 7 plainLoaded (fun k => k) 0 "all"
  = Some {| outcome := Return []; after := plainLoaded;
            randomCalls := 0; iterations := 0 |}
  /\ DirectPairs.generate 0 directLoaded (fun k => k) 0 "all"
     = Some {| outcome := Return []; after := directLoaded;
               randomCalls := 0; iterations := 0 |}.
Proof.
  split.
  - apply (proj1 generate_zero);
      [reflexivity | vm_compute; discriminate | vm_compute; discriminate].
  - apply (proj2 generate_zero);
      [reflexivity | vm_compute; discriminate | vm_compute; discriminate].
Defined.

(** C10.  In the flat-file variant a single-word line is parsed as an
    NPC whose lastname is absent, and such an NPC never blocks a
    candidate: no round of [isTooSimilarToExisting] matches it, the
    check answers the same with and without it, and a rejection is
    always on account of an NPC that has a lastname.  With the
    single-named Jiub and with Aryon Savel loaded, [generate] emits
    Jiub Savel for some random source. *)
Theorem single_name_never_blocks :
  (forall word,
      singleWord word = true ->
      FlatFile.parseLine word
      = Some {| FlatFile.firstname := word;
                FlatFile.lastname := None;
                FlatFile.source := "vanilla" |})
  /\ (forall first last npc,
        FlatFile.lastname npc = None ->
        FlatFile.matches first last npc = false)
  /\ (forall before npc rest blacklist isLoaded first last,
        FlatFile.lastname npc = None ->
        FlatFile.isTooSimilarToExisting
          {| FlatFile.npcs := before ++ npc :: rest;
             FlatFile.blacklistedLastnames := blacklist;
             FlatFile.loaded := isLoaded |} first last
        = FlatFile.isTooSimilarToExisting
            {| FlatFile.npcs := before ++ rest;
               FlatFile.blacklistedLastnames := blacklist;
               FlatFile.loaded := isLoaded |} first last)
  /\ (forall g first last,
        FlatFile.isTooSimilarToExisting g first last = true ->
        exists npc npcLast,
          In npc (FlatFile.npcs g)
          /\ FlatFile.lastname npc = Some npcLast
          /\ FlatFile.matches first last npc = true)
  /\ (FlatFile.loadData FlatFile.initial jiubWorld "darkelf" "male"
        = (Return true, jiubLoaded)
      /\ FlatFile.npcs jiubLoaded
         = [ {| FlatFile.firstname := "Jiub";
                FlatFile.lastname := None;
                FlatFile.source := "vanilla" |};
             {| FlatFile.firstname := "Aryon";
                FlatFile.lastname := Some "Savel";
                FlatFile.source := "vanilla" |} ]
      /\ FlatFile.isTooSimilarToExisting jiubLoaded "Jiub" "Savel" = false
      /\ exists random r,
           FlatFile.generate 100 jiubLoaded random 1 "all" = Some r
           /\ outcome r
              = Return [ {| firstname := "Jiub"; lastname := "Savel" |} ]).
Proof.
  split; [exact parseLine_singleWord|].
  split; [exact flat_matches_no_lastname|].
  split.
  { intros before npc rest blacklist isLoaded first last Hnone.
    unfold FlatFile.isTooSimilarToExisting. simpl.
    rewrite !existsb_app. simpl.
    now rewrite (flat_matches_no_lastname first last npc Hnone). }
  split.
  { intros g first last Hcheck.
    unfold FlatFile.isTooSimilarToExisting in Hcheck.
    apply existsb_exists in Hcheck as [npc [Hin Hm]].
    destruct (FlatFile.lastname npc) as [npcLast|] eqn:Hlast.
    - now exists npc, npcLast.
    - rewrite (flat_matches_no_lastname first last npc Hlast) in Hm.
      discriminate. }
  split; [reflexivity|]. split; [reflexivity|]. split; [reflexivity|].
  exists (fun k => 0). eexists. split; [vm_compute; reflexivity|].
  reflexivity.
Qed.

(** C10 at work: the line Jiub, and the sample dataset with and without
    the NPC Jiub. *)
Lemma single_name_never_blocks_witness :
  FlatFile.parseLine "Jiub"
  = Some {| FlatFile.firstname := "Jiub";
            FlatFile.lastname := None;
            FlatFile.source := "vanilla" |}
  /\ FlatFile.isTooSimilarToExisting jiubLoaded "Jiub" "Savel"
     = FlatFile.isTooSimilarToExisting
         {| FlatFile.npcs :=
              [ {| FlatFile.firstname := "Aryon";
                   FlatFile.lastname := Some "Savel";
                   FlatFile.source := "vanilla" |} ];
            FlatFile.blacklistedLastnames := [];
            FlatFile.loaded := true |} "Jiub" "Savel".
Proof.
  split.
  - apply (proj1 single_name_never_blocks). reflexivity.
  - apply (proj1 (proj2 (proj2 single_name_never_blocks)) []). reflexivity.
Defined.

(** C5, as the claim states it, fails: the only firstname of the
    dataset is blacklisted, so the firstname pool is empty after the
    filters, and yet [loadData] returns [true] and marks the object
    loaded; the empty pool is reported by [generate]. *)
Lemma loadData_ignores_blacklists :
  Generator.loadData Generator.initial emptiedWorld "darkelf" "male"
  = (Return true, emptiedLoaded)
  /\ Generator.loaded emptiedLoaded = true
  /\ Generator.blacklistedFirstnames emptiedLoaded = ["aryon"]
  /\ Generator.getFirstnames emptiedLoaded "all" = []
  /\ Generator.generate 0 emptiedLoaded (fun _ => 0) 1 "all"
     = Some (thrown emptiedLoaded
         "No firstnames available (check source filter and blacklist)").
Proof. repeat split; reflexivity. Qed.

(** C5, amended.  [loadData] throws exactly when no firstname record or
    no lastname record was loaded, the records being the lines of the
    served files that are neither blank nor comments; the blacklists
    and the source filter play no part.  It then marks the object not
    loaded, and marks it loaded exactly when it returns (generator.js
    and the direct-pairs variant). *)
Theorem loadData_fails_on_empty_lists :
  (forall g world race sex,
      let firstnames :=
        loadDirectory world ("npcs/" ++ race ++ "/firstnames_" ++ sex) in
      let lastnames :=
        loadDirectory world ("npcs/" ++ race ++ "/lastnames") in
      let done := Generator.loadData g world race sex in
      Generator.allFirstnames (snd done) = firstnames
      /\ Generator.allLastnames (snd done) = lastnames
      /\ ((exists message, fst done = Throw message)
          <-> firstnames = [] \/ lastnames = [])
      /\ (fst done = Return true <-> Generator.loaded (snd done) = true)
      /\ (firstnames = [] ->
          fst done = Throw ("No firstnames found for " ++ race ++ " " ++ sex))
      /\ (firstnames <> [] -> lastnames = [] ->
          fst done = Throw ("No lastnames found for " ++ race)))
  /\ (forall g world race sex,
        let firstnames :=
          loadDirectory world ("npcs/" ++ race ++ "/firstnames_" ++ sex) in
        let lastnames :=
          loadDirectory world ("npcs/" ++ race ++ "/lastnames") in
        let done := DirectPairs.loadData g world race sex in
        DirectPairs.allFirstnames (snd done) = firstnames
        /\ DirectPairs.allLastnames (snd done) = lastnames
        /\ ((exists message, fst done = Throw message)
            <-> firstnames = [] \/ lastnames = [])
        /\ (fst done = Return true <-> DirectPairs.loaded (snd done) = true)
        /\ (firstnames = [] ->
            fst done
            = Throw ("No firstnames found for " ++ race ++ " " ++ sex))
        /\ (firstnames <> [] -> lastnames = [] ->
            fst done = Throw ("No lastnames found for " ++ race)))
  /\ (forall world basePath r,
        In r (loadDirectory world basePath) ->
        name r <> "" /\ startsWith (name r) "#" = false).
Proof.
  split; [|split; [|exact loadDirectory_lines]].
  - intros g world race sex firstnames lastnames done.
    subst done. unfold Generator.loadData. fold firstnames lastnames.
    destruct firstnames as [|f fs]; [|destruct lastnames as [|l ls]];
      simpl; repeat split; intros; try reflexivity; try congruence;
      try discriminate; eauto;
      match goal with
      | H : exists _, _ |- _ => destruct H; discriminate
      | H : _ \/ _ |- _ => destruct H; discriminate
      end.
  - intros g world race sex firstnames lastnames done.
    subst done. unfold DirectPairs.loadData. fold firstnames lastnames.
    destruct firstnames as [|f fs]; [|destruct lastnames as [|l ls]];
      simpl; repeat split; intros; try reflexivity; try congruence;
      try discriminate; eauto;
      match goal with
      | H : exists _, _ |- _ => destruct H; discriminate
      | H : _ \/ _ |- _ => destruct H; discriminate
      end.
Qed.

(** C5 (amended) at work: a world without files, and the sample world
    whose only firstname is blacklisted. *)
Lemma loadData_fails_on_empty_lists_witness :
  fst (Generator.loadData Generator.initial (serve []) "orc" "male")
  = Throw "No firstnames found for orc male"
  /\ Generator.loaded
       (snd (Generator.loadData Generator.initial emptiedWorld
               "darkelf" "male")) = true.
Proof.
  split.
  - apply (proj1 loadData_fails_on_empty_lists Generator.initial (serve [])
             "orc" "male").
    reflexivity.
  - apply (proj1 loadData_fails_on_empty_lists Generator.initial emptiedWorld
             "darkelf" "male").
    reflexivity.
Defined.

(** C7, as the claim states it, fails: in generator.js the loaded
    firstname Vedam is tagged custom, not vanilla, and the filter
    expanded does not return it; in the flat-file variant the filter
    expanded returns no name at all, although NPCs of tr and of sky are
    loaded, and the pool holds Aryon in two spellings. *)
Lemma expanded_is_tr_sky_pc :
  Generator.loadData Generator.initial customWorld "darkelf" "male"
  = (Return true, customLoaded)
  /\ Generator.allFirstnames customLoaded
     = [ {| name := "Aryon"; source := "vanilla" |};
         {| name := "Vedam"; source := "custom" |} ]
  /\ Generator.blacklistedFirstnames customLoaded = []
  /\ Generator.getFirstnames customLoaded "expanded" = []
  /\ FlatFile.loadData FlatFile.initial taggedWorld "darkelf" "male"
     = (Return true, taggedLoaded)
  /\ FlatFile.npcs taggedLoaded
     = [ {| FlatFile.firstname := "Aryon";
            FlatFile.lastname := Some "Savel";
            FlatFile.source := "vanilla" |};
         {| FlatFile.firstname := "Vedam";
            FlatFile.lastname := Some "Dren";
            FlatFile.source := "tr" |};
         {| FlatFile.firstname := "Dilborn";
            FlatFile.lastname := Some "Hlaalu";
            FlatFile.source := "sky" |} ]
  /\ FlatFile.getFirstnames taggedLoaded "expanded" = []
  /\ FlatFile.getLastnames taggedLoaded "expanded" = []
  /\ FlatFile.loadData FlatFile.initial caseWorld "darkelf" "male"
     = (Return true, caseLoaded)
  /\ FlatFile.getFirstnames caseLoaded "all" = ["Aryon"; "aryon"].
Proof. repeat split; reflexivity. Qed.

(** C7, amended.  In generator.js [getFirstnames] and [getLastnames]
    draw, with the filter expanded, from the records tagged tr, sky or
    pc, with the filter vanilla from the records tagged vanilla, and
    with any other filter from every record.  For every filter the
    result is a pool of these names: in their order, without two names
    that agree letter case aside, each name in the first spelling that
    occurs, without a name whose lower-cased form is blacklisted, and
    with a spelling of every other name.  In the flat-file variant the
    filter all passes every NPC, and every other filter passes, in
    their order, the NPCs whose source tag is the filter itself, so
    that expanded passes the NPCs tagged expanded only; the pools are
    built from the names of these NPCs as they are written: two
    spellings of a name are two names, empty names are left out, and
    only the lastnames have a blacklist. *)
Theorem candidate_pools :
  (forall g sourceFilter,
      PoolOf (blacklisted (Generator.blacklistedFirstnames g)) toLowerCase
        (map name (bySourceFilter sourceFilter (Generator.allFirstnames g)))
        (Generator.getFirstnames g sourceFilter))
  /\ (forall g sourceFilter,
        PoolOf (blacklisted (Generator.blacklistedLastnames g)) toLowerCase
          (map name (bySourceFilter sourceFilter (Generator.allLastnames g)))
          (Generator.getLastnames g sourceFilter))
  /\ (forall records r,
        In r (bySourceFilter "expanded" records)
        <-> In r records
            /\ (source r = "tr" \/ source r = "sky" \/ source r = "pc"))
  /\ (forall records r,
        In r (bySourceFilter "vanilla" records)
        <-> In r records /\ source r = "vanilla")
  /\ (forall sourceFilter records,
        sourceFilter <> "vanilla" -> sourceFilter <> "expanded" ->
        bySourceFilter sourceFilter records = records)
  /\ (forall g sourceFilter,
        PoolOf (fun n => negb (truthy n)) (fun n => n)
          (map FlatFile.firstname (FlatFile.filterBySource g sourceFilter))
          (FlatFile.getFirstnames g sourceFilter))
  /\ (forall g sourceFilter,
        PoolOf
          (fun n => negb (truthy n)
                    || blacklisted (FlatFile.blacklistedLastnames g) n)
          (fun n => n)
          (lastnamesOf (FlatFile.filterBySource g sourceFilter))
          (FlatFile.getLastnames g sourceFilter))
  /\ (forall g, FlatFile.filterBySource g "all" = FlatFile.npcs g)
  /\ (forall g sourceFilter,
        sourceFilter <> "all" ->
        Subsequence (FlatFile.filterBySource g sourceFilter) (FlatFile.npcs g)
        /\ forall npc,
             In npc (FlatFile.filterBySource g sourceFilter)
             <-> In npc (FlatFile.npcs g)
                 /\ FlatFile.source npc = sourceFilter).
Proof.
  split; [intros; apply getNames_pool|].
  split; [intros; apply getNames_pool|].
  split; [exact bySourceFilter_expanded|].
  split; [exact bySourceFilter_vanilla|].
  split; [exact bySourceFilter_other|].
  split.
  { intros g sourceFilter. rewrite flat_getFirstnames_keepFirst.
    apply keepFirst_pool. now intros m n ->. }
  split.
  { intros g sourceFilter. rewrite flat_getLastnames_keepFirst.
    apply keepFirst_pool. now intros m n ->. }
  split; [reflexivity|].
  intros g sourceFilter Hother. unfold FlatFile.filterBySource.
  destruct (String.eqb_spec sourceFilter "all") as [Heq|_];
    [contradiction|].
  split.
  - induction (FlatFile.npcs g) as [|npc l IH]; cbn [filter];
      [constructor|].
    destruct (String.eqb (FlatFile.source npc) sourceFilter);
      now constructor.
  - intros npc. rewrite filter_In, String.eqb_eq. reflexivity.
Qed.

(** C7 (amended) at work: the filter all passes every record, the pool
    of the sample dataset holds no blacklisted name, and the filter tr
    of the flat-file variant passes the NPCs tagged tr. *)
Lemma candidate_pools_witness :
  bySourceFilter "all" (Generator.allFirstnames blacklistLoaded)
  = Generator.allFirstnames blacklistLoaded
  /\ (forall n,
        In n (Generator.getFirstnames blacklistLoaded "all") ->
        blacklisted (Generator.blacklistedFirstnames blacklistLoaded) n
        = false)
  /\ (forall npc,
        In npc (FlatFile.filterBySource taggedLoaded "tr")
        <-> In npc (FlatFile.npcs taggedLoaded)
            /\ FlatFile.source npc = "tr").
Proof.
  split; [|split].
  - apply (proj1 (proj2 (proj2 (proj2 (proj2 candidate_pools)))));
      discriminate.
  - apply (proj1 candidate_pools blacklistLoaded "all").
  - apply (proj2 (proj2 (proj2 (proj2 (proj2 (proj2 (proj2 (proj2
             candidate_pools))))))) taggedLoaded "tr").
    discriminate.
Defined.

(** C9.  In generator.js the cached pair set is built without the
    blacklists: the build ends in the same way under any blacklists,
    and the set it returns holds the key of every firstname record
    paired with every lastname record of the same source, while a
    blacklisted name is in no candidate pool.
    With the blacklisted vanilla firstname Aryon, the tr firstname Aryan
    and the vanilla lastname Savel, the only candidate Aryan Savel is no
    cached pair but one edit away from the cached aryon|savel, so the
    check rejects it and [generate] returns nothing; without the record
    of Aryon the same candidate is let through and emitted. *)
Theorem blacklisted_names_still_block :
  (forall g firstnameBlacklist lastnameBlacklist,
      Generator.buildExistingPairs
        (setBlacklists g firstnameBlacklist lastnameBlacklist)
      = Generator.buildExistingPairs g)
  /\ (forall g cache fn ln,
        Generator.buildExistingPairs g = Return cache ->
        In fn (Generator.allFirstnames g) ->
        In ln (Generator.allLastnames g) ->
        source fn = source ln ->
        In (cacheKey fn ln) cache)
  /\ (forall g sourceFilter n,
        In (toLowerCase n) (Generator.blacklistedFirstnames g) ->
        ~ In n (Generator.getFirstnames g sourceFilter))
  /\ (Generator.loadData Generator.initial blacklistWorld "darkelf" "male"
        = (Return true, blacklistLoaded)
      /\ Generator.allFirstnames blacklistLoaded
         = [ {| name := "Aryon"; source := "vanilla" |};
             {| name := "Aryan"; source := "tr" |} ]
      /\ Generator.allLastnames blacklistLoaded
         = [ {| name := "Savel"; source := "vanilla" |} ]
      /\ Generator.blacklistedFirstnames blacklistLoaded = ["aryon"]
      /\ Generator.getFirstnames blacklistLoaded "all" = ["Aryan"]
      /\ Generator.getLastnames blacklistLoaded "all" = ["Savel"]
      /\ Generator.buildExistingPairs blacklistLoaded
         = Return ["aryon|savel"]
      /\ Generator.existingPairs blacklistLoaded = Return ["aryon|savel"]
      /\ levenshteinDistance "Aryan" "Aryon" = 1
      /\ fst (Generator.isTooSimilarToExisting blacklistLoaded
                "Aryan" "Savel") = Return true
      /\ rejects blacklistLoaded "Aryan" "Savel" = true)
  /\ (forall fuel random count r,
        Generator.generate fuel blacklistLoaded random count "all" = Some r ->
        outcome r = Return [])
  /\ (Generator.loadData Generator.initial plainWorld "darkelf" "male"
        = (Return true, plainLoaded)
      /\ Generator.allFirstnames plainLoaded
         = [ {| name := "Aryan"; source := "tr" |} ]
      /\ Generator.allLastnames plainLoaded
         = Generator.allLastnames blacklistLoaded
      /\ Generator.blacklistedFirstnames plainLoaded
         = Generator.blacklistedFirstnames blacklistLoaded
      /\ fst (Generator.isTooSimilarToExisting plainLoaded "Aryan" "Savel")
         = Return false
      /\ rejects plainLoaded "Aryan" "Savel" = false
      /\ exists random r,
           Generator.generate 500 plainLoaded random 1 "all" = Some r
           /\ outcome r
              = Return [ {| firstname := "Aryan"; lastname := "Savel" |} ]).
Proof.
  split; [reflexivity|].
  split.
  { intros g cache fn ln Hb Hfn Hln Hsrc.
    apply (buildExistingPairs_spec g cache _ Hb). now exists fn, ln. }
  split.
  { intros g sourceFilter n Hblack Hin.
    destruct (getNames_pool (Generator.blacklistedFirstnames g)
                (Generator.allFirstnames g) sourceFilter)
      as (_ & _ & Hblocked & _).
    specialize (Hblocked n Hin). unfold blacklisted in Hblocked.
    apply includes_not_In in Hblocked. contradiction. }
  split; [repeat split; reflexivity|].
  split.
  { intros fuel random count r Hrun.
    destruct (cross_generate_result blacklistLoaded random count "all"
                eq_refl) with (fuel := fuel) (r := r)
      as (results & attempted & Hout & _ & _ & Hs & _);
      [discriminate | discriminate | eexists; reflexivity | exact Hrun |].
    destruct Hs as (_ & _ & _ & _ & Hres & _).
    destruct results as [|p rest]; [exact Hout|]. exfalso.
    destruct (Hres p (or_introl eq_refl)) as (_ & Hf & Hl & Hrej).
    change (Generator.getFirstnames blacklistLoaded "all")
      with ["Aryan"] in Hf.
    change (Generator.getLastnames blacklistLoaded "all")
      with ["Savel"] in Hl.
    destruct Hf as [Hf | []]. destruct Hl as [Hl | []].
    rewrite <- Hf, <- Hl in Hrej.
    assert (Hyes : rejects blacklistLoaded "Aryan" "Savel" = true)
      by (vm_compute; reflexivity).
    congruence. }
  split; [reflexivity|]. split; [reflexivity|]. split; [reflexivity|].
  split; [reflexivity|]. split; [reflexivity|]. split; [reflexivity|].
  exists (fun k => 0). eexists. split; [vm_compute; reflexivity|].
  reflexivity.
Qed.

(** C9 at work: the key of the blacklisted Aryon and of Savel is
    cached, and Aryon is in no pool. *)
Lemma blacklisted_names_still_block_witness :
  In "aryon|savel" ["aryon|savel"]
  /\ ~ In "Aryon" (Generator.getFirstnames blacklistLoaded "expanded").
Proof.
  split.
  - apply (proj1 (proj2 blacklisted_names_still_block) blacklistLoaded
             ["aryon|savel"]
             {| name := "Aryon"; source := "vanilla" |}
             {| name := "Savel"; source := "vanilla" |});
      [reflexivity | now left | now left | reflexivity].
  - apply (proj1 (proj2 (proj2 blacklisted_names_still_block))).
    now left.
Defined.

(** C3, as the claim states it, fails.  In the direct-pairs variant the
    existing full name M'Aiq the Liar is the firstname M'Aiq with the
    lastname the Liar, and the candidate M'Aaq with the same lastname,
    one edit away, is let through.  In generator.js the key of Aryon
    and Sa|vel is taken apart into aryon and sa: the candidate Aryan
    with the lastname Sa|vel, one edit away from the existing pair, is
    let through, and Aryan with the lastname Sa, the lastname of no
    existing pair, is rejected. *)
Lemma similarity_check_misreads_entries :
  (DirectPairs.loadData DirectPairs.initial threeWordWorld "khajiit" "male"
     = (Return true, threeWordLoaded)
   /\ DirectPairs.allFullnames threeWordLoaded
      = [ {| name := "M'Aiq the Liar"; source := "vanilla" |} ]
   /\ ("M'Aiq" ++ " " ++ "the Liar")%string = "M'Aiq the Liar"
   /\ levenshteinDistance "M'Aaq" "M'Aiq" = 1
   /\ DirectPairs.isTooSimilarToExisting threeWordLoaded "M'Aaq" "the Liar"
      = false)
  /\ (Generator.loadData Generator.initial barLastWorld "darkelf" "male"
        = (Return true, barLastLoaded)
      /\ Generator.allFirstnames barLastLoaded
         = [ {| name := "Aryon"; source := "vanilla" |};
             {| name := "Aryan"; source := "tr" |} ]
      /\ Generator.allLastnames barLastLoaded
         = [ {| name := "Sa|vel"; source := "vanilla" |};
             {| name := "Sa"; source := "sky" |} ]
      /\ Generator.buildExistingPairs barLastLoaded
         = Return ["aryon|sa|vel"]
      /\ levenshteinDistance "Aryan" "Aryon" = 1
      /\ Generator.existsSimilar ["aryon|sa|vel"]
           (toLowerCase "Aryan") (toLowerCase "Sa|vel") = false
      /\ fst (Generator.isTooSimilarToExisting barLastLoaded
                "Aryan" "Sa|vel") = Return false
      /\ Generator.existsSimilar ["aryon|sa|vel"]
           (toLowerCase "Aryan") (toLowerCase "Sa") = true
      /\ fst (Generator.isTooSimilarToExisting barLastLoaded "Aryan" "Sa")
         = Return true).
Proof.
  split.
  - split; [reflexivity|]. split; [reflexivity|]. split; [reflexivity|].
    split; vm_compute; reflexivity.
  - split; [reflexivity|]. split; [reflexivity|]. split; [reflexivity|].
    split; [reflexivity|]. repeat split; vm_compute; reflexivity.
Qed.

(** C3, amended.  In generator.js, when no loaded name holds a bar, the
    similarity loop over the pair set that is built answers [true]
    exactly when some firstname record and some lastname record of one
    source bear the lower-cased lastname of the candidate and a
    firstname fewer than three edits away from the candidate's; on an
    object whose cache is absent or current the whole check answers
    [true] in exactly that case, so that a pair with another lastname
    never causes a rejection.  In the direct-pairs variant the check
    answers [true] exactly when some existing full name is the
    candidate, letter case aside, or is two words around one space, the
    second being the lower-cased lastname of the candidate and the first
    fewer than three edits away from its lower-cased firstname; a full
    name of another shape blocks its own spelling only, and a full name
    of two words with another lastname causes no rejection at all. *)
Theorem existsSimilar_same_lastname_only :
  (forall g cache first last,
      Generator.buildExistingPairs g = Return cache ->
      (forall r, In r (Generator.allFirstnames g) ->
         without "|" (toLowerCase (name r)) = true) ->
      (forall r, In r (Generator.allLastnames g) ->
         without "|" (toLowerCase (name r)) = true) ->
      (Generator.existsSimilar cache (toLowerCase first) (toLowerCase last)
       = true
       <-> exists fn ln,
             In fn (Generator.allFirstnames g)
             /\ In ln (Generator.allLastnames g)
             /\ source fn = source ln
             /\ toLowerCase (name ln) = toLowerCase last
             /\ levenshteinDistance first (name fn) < 3))
  /\ (forall g cache first last,
        Coherent g ->
        Generator.buildExistingPairs g = Return cache ->
        (forall r, In r (Generator.allFirstnames g) ->
           without "|" (toLowerCase (name r)) = true) ->
        (forall r, In r (Generator.allLastnames g) ->
           without "|" (toLowerCase (name r)) = true) ->
        (exists answer,
            fst (Generator.isTooSimilarToExisting g first last)
            = Return answer)
        /\ (fst (Generator.isTooSimilarToExisting g first last) = Return true
            <-> exists fn ln,
                  In fn (Generator.allFirstnames g)
                  /\ In ln (Generator.allLastnames g)
                  /\ source fn = source ln
                  /\ toLowerCase (name ln) = toLowerCase last
                  /\ levenshteinDistance first (name fn) < 3))
  /\ (forall g first last,
        DirectPairs.isTooSimilarToExisting g first last = true
        <-> exists existing,
              In existing (DirectPairs.allFullnames g)
              /\ (toLowerCase (first ++ " " ++ last)
                  = toLowerCase (name existing)
                  \/ exists existingFn,
                       toLowerCase (name existing)
                       = (existingFn ++ " " ++ toLowerCase last)%string
                       /\ without " " existingFn = true
                       /\ without " " (toLowerCase last) = true
                       /\ levenshteinDistance (toLowerCase first) existingFn
                          < 3))
  /\ (forall first last existing,
        (forall a b,
            toLowerCase (name existing) = (a ++ " " ++ b)%string ->
            without " " a = true -> without " " b = true -> False) ->
        (DirectPairs.matches first last existing = true
         <-> toLowerCase (first ++ " " ++ last)
             = toLowerCase (name existing)))
  /\ (forall first last existing existingFn existingLn,
        toLowerCase (name existing)
        = (existingFn ++ " " ++ existingLn)%string ->
        without " " existingFn = true ->
        without " " existingLn = true ->
        existingLn <> toLowerCase last ->
        DirectPairs.matches first last existing = false).
Proof.
  split;
    [intros g cache first last Hb Hf Hl;
     now apply (cross_existsSimilar_records g cache)|].
  split.
  { intros g cache first last Hg Hb Hf Hl.
    assert (Hc : Generator.existingPairs g = Return cache).
    { unfold Generator.existingPairs.
      destruct Hg as [-> | (cache' & -> & Hb')]; [exact Hb | congruence]. }
    destruct (cross_rejects_spec g cache first last Hc) as [Hfst _].
    rewrite Hfst. split; [eauto|].
    rewrite <- (cross_existsSimilar_records g cache Hb Hf Hl first last).
    split.
    - intros [= H]. apply orb_true_iff in H as [H | H]; [|exact H].
      now apply (cross_exact_is_similar g cache Hb Hf Hl).
    - intros ->. now rewrite orb_true_r. }
  split.
  { intros g first last. unfold DirectPairs.isTooSimilarToExisting.
    rewrite existsb_exists. split.
    - intros (existing & Hin & Hm). exists existing. split; [exact Hin|].
      now apply direct_matches_shape.
    - intros (existing & Hin & Hm). exists existing. split; [exact Hin|].
      now apply direct_matches_shape. }
  split; [exact direct_matches_other_shape|].
  intros first last existing existingFn existingLn Hs Ha Hb Hother.
  apply (direct_other_lastname first last existing existingFn existingLn);
    [|exact Hother].
  apply split_two_shape. now repeat split.
Qed.

(** C3 (amended) at work: the check of generator.js answers for the
    records of the sample dataset, and the full name Aryon Hlaalu does
    not reject Aryan Savel. *)
Lemma existsSimilar_same_lastname_only_witness :
  ((exists answer,
       fst (Generator.isTooSimilarToExisting blacklistLoaded "Aryan" "Savel")
       = Return answer)
   /\ (fst (Generator.isTooSimilarToExisting blacklistLoaded "Aryan" "Savel")
       = Return true
       <-> exists fn ln,
             In fn (Generator.allFirstnames blacklistLoaded)
             /\ In ln (Generator.allLastnames blacklistLoaded)
             /\ source fn = source ln
             /\ toLowerCase (name ln) = toLowerCase "Savel"
             /\ levenshteinDistance "Aryan" (name fn) < 3))
  /\ DirectPairs.matches "Aryan" "Savel"
       {| name := "Aryon Hlaalu"; source := "vanilla" |} = false.
Proof.
  split.
  - apply (proj1 (proj2 existsSimilar_same_lastname_only)
             blacklistLoaded ["aryon|savel"] "Aryan" "Savel").
    + left. reflexivity.
    + reflexivity.
    + intros r [<- | [<- | []]]; reflexivity.
    + intros r [<- | []]; reflexivity.
  - apply (proj2 (proj2 (proj2 (proj2 existsSimilar_same_lastname_only)))
             "Aryan" "Savel"
             {| name := "Aryon Hlaalu"; source := "vanilla" |}
             "aryon" "hlaalu");
      [reflexivity | reflexivity | reflexivity | discriminate].
Defined.

End Claims.

(** * Further lemmas: distances, files, sessions, statistics, the page *)

(** ** The edit distance as a metric *)

Section ScriptAlgebra.
Import EditDistance Levenshtein.

(** Two scripts in a row are replaced by one script that is not longer
    than the two together. *)
Lemma script_compose n u v :
  Script n u v ->
  forall m w, Script m v w -> exists k, k <= n + m /\ Script k u w.
Proof.
  induction 1 as [|n x u v H IH|n x y u v H IH|n x u v H IH|n y u v H IH];
    intros m w H2.
  - exists m. split; [lia | exact H2].
  - remember (x :: v) as xv eqn:E. revert E.
    induction H2 as [|m z v' w' H2 _|m z z' v' w' H2 _|m z v' w' H2 _
                     |m z' v' w' H2 IH2]; intros E.
    + discriminate.
    + injection E as -> ->. destruct (IH _ _ H2) as (k & Hk & Hs).
      exists k. split; [lia | now apply ScriptKeep].
    + injection E as -> ->. destruct (IH _ _ H2) as (k & Hk & Hs).
      exists (S k). split; [lia | now apply ScriptSubstitute].
    + injection E as -> ->. destruct (IH _ _ H2) as (k & Hk & Hs).
      exists (S k). split; [lia | now apply ScriptDelete].
    + destruct (IH2 E) as (k & Hk & Hs).
      exists (S k). split; [lia | now apply ScriptInsert].
  - remember (y :: v) as yv eqn:E. revert E.
    induction H2 as [|m z v' w' H2 _|m z z' v' w' H2 _|m z v' w' H2 _
                     |m z' v' w' H2 IH2]; intros E.
    + discriminate.
    + injection E as -> ->. destruct (IH _ _ H2) as (k & Hk & Hs).
      exists (S k). split; [lia | now apply ScriptSubstitute].
    + injection E as -> ->. destruct (IH _ _ H2) as (k & Hk & Hs).
      exists (S k). split; [lia | now apply ScriptSubstitute].
    + injection E as -> ->. destruct (IH _ _ H2) as (k & Hk & Hs).
      exists (S k). split; [lia | now apply ScriptDelete].
    + destruct (IH2 E) as (k & Hk & Hs).
      exists (S k). split; [lia | now apply ScriptInsert].
  - destruct (IH _ _ H2) as (k & Hk & Hs).
    exists (S k). split; [lia | now apply ScriptDelete].
  - remember (y :: v) as yv eqn:E. revert E.
    induction H2 as [|m z v' w' H2 _|m z z' v' w' H2 _|m z v' w' H2 _
                     |m z' v' w' H2 IH2]; intros E.
    + discriminate.
    + injection E as -> ->. destruct (IH _ _ H2) as (k & Hk & Hs).
      exists (S k). split; [lia | now apply ScriptInsert].
    + injection E as -> ->. destruct (IH _ _ H2) as (k & Hk & Hs).
      exists (S k). split; [lia | now apply ScriptInsert].
    + injection E as -> ->. destruct (IH _ _ H2) as (k & Hk & Hs).
      exists k. split; [lia | exact Hs].
    + destruct (IH2 E) as (k & Hk & Hs).
      exists (S k). split; [lia | now apply ScriptInsert].
Qed.

Lemma edit_triangle (u v w : list ascii) :
  edit u w <= edit u v + edit v w.
Proof.
  destruct (script_compose _ _ _ (script_of_edit u v) _ _
              (script_of_edit v w)) as (k & Hk & Hs).
  apply edit_le_script in Hs. lia.
Qed.

(** A script changes the length of a word by at most its own length. *)
Lemma script_lengths n u v :
  Script n u v -> length v <= length u + n /\ length u <= length v + n.
Proof. induction 1; simpl; lia. Qed.

Lemma edit_le_max : forall u v, edit u v <= Nat.max (length u) (length v).
Proof.
  induction u as [|x u IH]; intros v.
  - rewrite edit_nil_l. simpl. lia.
  - destruct v as [|y v]; [rewrite edit_nil_r; simpl; lia|].
    rewrite edit_cons. specialize (IH v). simpl length.
    destruct (Ascii.eqb y x); lia.
Qed.

(** A script without an edit leaves the word as it is. *)
Lemma script_zero n u v : Script n u v -> n = 0 -> u = v.
Proof.
  induction 1; intros Hn; try discriminate; [reflexivity|].
  now rewrite IHScript.
Qed.

Lemma edit_zero (u v : list ascii) : edit u v = 0 -> u = v.
Proof.
  intros H. apply (script_zero (edit u v)); [apply script_of_edit | exact H].
Qed.

(** The recurrence reads its words in either direction. *)
Lemma edit_rev (u v : list ascii) : edit (rev u) (rev v) = edit u v.
Proof.
  apply Nat.le_antisymm.
  - apply edit_le_script, script_rev, script_of_edit.
  - rewrite <- (rev_involutive u), <- (rev_involutive v) at 1.
    apply edit_le_script, script_rev, script_of_edit.
Qed.

Lemma edit_common_head (s u v : list ascii) :
  edit (s ++ u) (s ++ v) = edit u v.
Proof.
  induction s as [|x s IH]; [reflexivity|]. simpl app.
  now rewrite edit_cons, Ascii.eqb_refl.
Qed.

Lemma units_append (s t : string) :
  units (s ++ t)%string = units s ++ units t.
Proof. induction s; simpl; [reflexivity|]. now f_equal. Qed.

Lemma units_injective (s t : string) : units s = units t -> s = t.
Proof.
  intros H. rewrite <- (string_of_list_ascii_of_string s).
  rewrite <- (string_of_list_ascii_of_string t).
  unfold units in H. now rewrite H.
Qed.

End ScriptAlgebra.

Section DistanceFacts.
Import JS EditDistance Levenshtein.

Lemma distance_triangle (a b c : string) :
  levenshteinDistance a c
  <= levenshteinDistance a b + levenshteinDistance b c.
Proof. rewrite !levenshteinDistance_edit. apply edit_triangle. Qed.

Lemma distance_le_max (a b : string) :
  levenshteinDistance a b
  <= Nat.max (String.length (toLowerCase a))
       (String.length (toLowerCase b)).
Proof.
  rewrite levenshteinDistance_edit.
  rewrite <- !length_units, <- (length_rev (units (toLowerCase a))).
  rewrite <- (length_rev (units (toLowerCase b))).
  apply edit_le_max.
Qed.

Lemma distance_lengths (a b : string) :
  String.length (toLowerCase a)
  <= String.length (toLowerCase b) + levenshteinDistance a b
  /\ String.length (toLowerCase b)
     <= String.length (toLowerCase a) + levenshteinDistance a b.
Proof.
  destruct (levenshteinDistance_minimal a b) as [Hs _].
  apply script_lengths in Hs.
  rewrite !length_units in Hs. lia.
Qed.

Lemma distance_zero (a b : string) :
  levenshteinDistance a b = 0 <-> toLowerCase a = toLowerCase b.
Proof.
  split.
  - rewrite levenshteinDistance_edit. intros H. apply edit_zero in H.
    apply units_injective.
    rewrite <- (rev_involutive (units (toLowerCase a))), H.
    apply rev_involutive.
  - intros H. unfold levenshteinDistance. rewrite H.
    now rewrite String.eqb_refl.
Qed.

Lemma distance_affixes (p s a b : string) :
  toLowerCase (p ++ a ++ s)
  = (toLowerCase p ++ toLowerCase a ++ toLowerCase s)%string ->
  toLowerCase (p ++ b ++ s)
  = (toLowerCase p ++ toLowerCase b ++ toLowerCase s)%string ->
  levenshteinDistance (p ++ a ++ s) (p ++ b ++ s)
  = levenshteinDistance a b.
Proof.
  intros Ha Hb.
  rewrite !levenshteinDistance_edit, Ha, Hb, !units_append.
  rewrite !rev_app_distr, <- !app_assoc, edit_common_head.
  rewrite <- !rev_app_distr, edit_rev, edit_common_head.
  symmetry. apply edit_rev.
Qed.

Lemma areTooSimilar_symmetric (a b : string) (t : nat) :
  areTooSimilar a b t = areTooSimilar b a t.
Proof. unfold areTooSimilar. now rewrite levenshteinDistance_symmetric. Qed.

End DistanceFacts.

(** ** Trimming and splitting *)

Section Trimming.
Import JS Novelty.

(** A string that does not start with white space. *)
Let startsPlain (s : string) : Prop :=
  match s with
  | EmptyString => True
  | String c _ => isSpace c = false
  end.

Lemma trimStart_plain (s : string) : startsPlain (trimStart s).
Proof.
  induction s as [|c s IH]; simpl; [exact I|].
  destruct (isSpace c) eqn:Hc; [exact IH | exact Hc].
Qed.

Lemma trimStart_fixed (s : string) : startsPlain s -> trimStart s = s.
Proof. destruct s as [|c s]; simpl; [reflexivity|]. now intros ->. Qed.

Lemma trimEnd_plain (s : string) : startsPlain s -> startsPlain (trimEnd s).
Proof.
  destruct s as [|c s]; simpl; [exact (fun H => H)|]. intros Hc.
  destruct (trimEnd s); [rewrite Hc|]; exact Hc.
Qed.

Lemma trimEnd_cons (c : ascii) (s : string) :
  trimEnd (String c s)
  = match trimEnd s with
    | EmptyString => if isSpace c then EmptyString else String c EmptyString
    | t => String c t
    end.
Proof. reflexivity. Qed.

Lemma trimEnd_idempotent (s : string) : trimEnd (trimEnd s) = trimEnd s.
Proof.
  induction s as [|c s IH]; [reflexivity|]. rewrite trimEnd_cons.
  destruct (trimEnd s) as [|d t] eqn:Ht.
  - destruct (isSpace c) eqn:Hc; [reflexivity|].
    rewrite trimEnd_cons. simpl. now rewrite Hc.
  - rewrite trimEnd_cons, IH. reflexivity.
Qed.

Lemma trim_plain (s : string) : startsPlain (trim s).
Proof. apply trimEnd_plain, trimStart_plain. Qed.

Lemma trim_idempotent (s : string) : trim (trim s) = trim s.
Proof.
  unfold trim at 1. rewrite (trimStart_fixed _ (trim_plain s)).
  apply trimEnd_idempotent.
Qed.

(** A trimmed string is a fixed point of both halves of [trim]. *)
Lemma trimmed_halves (s : string) :
  trim s = s -> startsPlain s /\ trimStart s = s /\ trimEnd s = s.
Proof.
  intros H. assert (Hp : startsPlain s) by (rewrite <- H; apply trim_plain).
  split; [exact Hp|]. split; [now apply trimStart_fixed|].
  unfold trim in H. now rewrite (trimStart_fixed _ Hp) in H.
Qed.

Lemma trimEnd_space_end (s : string) (c : ascii) :
  isSpace c = true -> trimEnd (s ++ String c EmptyString) = trimEnd s.
Proof.
  intros Hc. induction s as [|x s IH]; simpl; [now rewrite Hc|].
  now rewrite IH.
Qed.

Lemma without_append (c : ascii) (s t : string) :
  without c (s ++ t) = without c s && without c t.
Proof.
  unfold without. induction s as [|x s IH]; simpl; [reflexivity|].
  now rewrite IH, andb_assoc.
Qed.

Lemma without_trimStart (c : ascii) (s : string) :
  without c s = true -> without c (trimStart s) = true.
Proof.
  induction s as [|x s IH]; simpl; [reflexivity|]. intros H.
  destruct (isSpace x); [|exact H].
  unfold without in H. simpl in H. apply andb_prop in H as [_ H].
  now apply IH.
Qed.

Lemma without_trimEnd (c : ascii) (s : string) :
  without c s = true -> without c (trimEnd s) = true.
Proof.
  induction s as [|x s IH]; simpl; [reflexivity|]. intros H.
  unfold without in H. simpl in H. apply andb_prop in H as [Hx H].
  specialize (IH H). destruct (trimEnd s) as [|d t].
  - destruct (isSpace x); [reflexivity|].
    unfold without. simpl. now rewrite Hx.
  - unfold without. simpl. rewrite Hx. exact IH.
Qed.

Lemma without_trim (c : ascii) (s : string) :
  without c s = true -> without c (trim s) = true.
Proof. intros H. now apply without_trimEnd, without_trimStart. Qed.

End Trimming.

(** ** Name files and blacklists *)

Section NameFiles.
Import JS Runtime Pools Novelty Loading PoolSpec.

(** What the filter of [parseNameFile] keeps of one trimmed line. *)
Let kept (line : string) : list string :=
  if truthy line && negb (startsWith line "#") then [line] else [].

Lemma parseNameFile_single (line : string) :
  without "010" line = true -> parseNameFile line = kept (trim line).
Proof.
  intros H. unfold parseNameFile. rewrite (split_without _ _ H). simpl.
  unfold kept. now destruct (truthy _ && _).
Qed.

(** Two texts with a line feed between them give the names of the first
    followed by the names of the second. *)
Lemma parseNameFile_append (a b : string) :
  parseNameFile (a ++ String "010" b)
  = parseNameFile a ++ parseNameFile b.
Proof.
  unfold parseNameFile. now rewrite split_append, map_app, filter_app.
Qed.

Lemma parseNameFile_clean (text n : string) :
  In n (parseNameFile text) -> cleanName n.
Proof.
  intros Hin. destruct (parseNameFile_lines _ _ Hin) as [Hne Hc].
  unfold parseNameFile in Hin. apply filter_In in Hin as [Hin _].
  apply in_map_iff in Hin as [line [<- Hline]].
  split; [exact Hne|]. split; [apply trim_idempotent|].
  split; [exact Hc|].
  apply without_trim. now apply split_fields_without with (s := text).
Qed.

Lemma kept_clean (n : string) : cleanName n -> kept (trim n) = [n].
Proof.
  intros (Hne & Ht & Hc & _). rewrite Ht. unfold kept.
  apply truthy_true in Hne. now rewrite Hne, Hc.
Qed.

Lemma parseNameFile_join (names : list string) :
  Forall cleanName names ->
  parseNameFile (join (String "010" EmptyString) names) = names.
Proof.
  induction 1 as [|n names Hn Hnames IH]; [reflexivity|].
  destruct names as [|m names].
  - simpl. rewrite parseNameFile_single by apply Hn. now apply kept_clean.
  - change (join (String "010" EmptyString) (n :: m :: names))
      with (n ++ String "010"
                   (join (String "010" EmptyString) (m :: names)))%string.
    rewrite parseNameFile_append, IH.
    rewrite parseNameFile_single by apply Hn.
    now rewrite kept_clean.
Qed.

End NameFiles.

Section LineEndings.
Import JS Runtime Pools Novelty Loading PoolSpec Samples.

Lemma append_unit_assoc (a b : string) (c : ascii) :
  ((a ++ String c EmptyString) ++ b)%string = (a ++ String c b)%string.
Proof. induction a as [|x a IH]; simpl; [reflexivity|]. now rewrite IH. Qed.

(** A clean name followed by a carriage return is trimmed back to the
    name. *)
Lemma trim_carriage_return (n : string) :
  cleanName n -> trim (n ++ String "013" EmptyString) = n.
Proof.
  intros (Hne & Ht & _ & _).
  destruct (trimmed_halves n Ht) as (Hp & _ & He).
  unfold trim. destruct n as [|c n]; [contradiction|].
  simpl in Hp. cbn [append trimStart]. rewrite Hp.
  change (String c (n ++ String "013" EmptyString))%string
    with (String c n ++ String "013" EmptyString)%string.
  rewrite trimEnd_space_end by reflexivity. exact He.
Qed.

Lemma parseNameFile_join_crlf (names : list string) :
  Forall cleanName names ->
  parseNameFile (join (String "013" (String "010" EmptyString)) names)
  = names.
Proof.
  induction 1 as [|n names Hn Hnames IH]; [reflexivity|].
  destruct names as [|m names].
  - simpl. rewrite parseNameFile_single by apply Hn.
    destruct Hn as (Hne & Ht & Hc & _). rewrite Ht.
    apply truthy_true in Hne. now rewrite Hne, Hc.
  - change (join (String "013" (String "010" EmptyString)) (n :: m :: names))
      with (n ++ String "013"
              (String "010"
                 (join (String "013" (String "010" EmptyString))
                    (m :: names))))%string.
    rewrite <- append_unit_assoc, parseNameFile_append, IH.
    rewrite parseNameFile_single.
    + rewrite (trim_carriage_return n Hn).
      destruct Hn as (Hne & Ht & Hc & _).
      apply truthy_true in Hne. now rewrite Hne, Hc.
    + rewrite without_append. destruct Hn as (_ & _ & _ & ->). reflexivity.
Qed.

Lemma parseNameFile_fileOf (names : list string) :
  Forall cleanName names -> parseNameFile (fileOf names) = names.
Proof.
  unfold fileOf.
  induction 1 as [|n names Hn Hnames IH]; [reflexivity|].
  assert (Hone : parseNameFile n = [n]).
  { rewrite parseNameFile_single by apply Hn.
    destruct Hn as (Hne & Ht & Hc & _). rewrite Ht.
    apply truthy_true in Hne. now rewrite Hne, Hc. }
  destruct names as [|m names].
  - simpl. rewrite parseNameFile_append, Hone. reflexivity.
  - cbn [map String.concat] in *.
    change (EmptyString ++ ?x)%string with x.
    rewrite append_unit_assoc, parseNameFile_append, Hone.
    simpl. f_equal. exact IH.
Qed.

End LineEndings.

Section Blacklists.
Import JS Runtime Pools Novelty Loading PoolSpec.

Lemma truthy_toLowerCase (s : string) : truthy (toLowerCase s) = truthy s.
Proof. destruct s; reflexivity. Qed.

Lemma comment_toLowerCase (s : string) :
  startsWith (toLowerCase s) "#" = startsWith s "#".
Proof.
  destruct s as [|c s]; [reflexivity|].
  destruct c as [[] [] [] [] [] [] [] []]; try reflexivity.
  destruct s; reflexivity.
Qed.

Lemma filter_toLowerCase (l : list string) :
  filter (fun line => truthy line && negb (startsWith line "#"))
    (map toLowerCase l)
  = map toLowerCase
      (filter (fun line => truthy line && negb (startsWith line "#")) l).
Proof.
  induction l as [|x l IH]; simpl; [reflexivity|].
  rewrite truthy_toLowerCase, comment_toLowerCase, IH.
  now destruct (truthy x && negb (startsWith x "#")).
Qed.

(** A blacklist file is read like a name file, lower-cased and freed of
    duplicates. *)
Lemma parseBlacklist_parseNameFile (text : string) :
  parseBlacklist text = newSet (map toLowerCase (parseNameFile text)).
Proof.
  unfold parseBlacklist, parseNameFile.
  rewrite <- filter_toLowerCase, map_map. reflexivity.
Qed.

Lemma NoDup_add (s : SetOf) (x : string) : NoDup s -> NoDup (add s x).
Proof.
  intros H. unfold add. destruct (includes s x) eqn:Hx; [exact H|].
  apply NoDup_snoc; [exact H | now apply includes_not_In].
Qed.

Lemma NoDup_newSet (l : list string) : NoDup (newSet l).
Proof.
  unfold newSet. apply fold_left_invariant; [constructor|].
  intros s x _ Hs. now apply NoDup_add.
Qed.

Lemma In_newSet (l : list string) (x : string) :
  In x (newSet l) <-> In x l.
Proof.
  unfold newSet.
  rewrite (In_fold_add (fun y : string => y) l [] x). split.
  - intros [[] | (y & Hy & ->)]. exact Hy.
  - intros H. right. now exists x.
Qed.

End Blacklists.

(** ** Directories *)

Section Directories.
Import JS Runtime Pools Novelty Loading PoolSpec.

Lemma includes_app (l l' : list string) (x : string) :
  includes (l ++ l') x = includes l x || includes l' x.
Proof. unfold includes. apply existsb_app. Qed.

(** The loop that merges the manifest into the default files keeps the
    first occurrence of every file that is no default file. *)
Lemma merge_keepFirst (files : list string) :
  forall seen,
    fold_left
      (fun filesToLoad f =>
         if includes filesToLoad f then filesToLoad else filesToLoad ++ [f])
      files (defaultFiles ++ seen)
    = defaultFiles ++ seen
      ++ keepFirst (includes defaultFiles) (fun f => f) seen files.
Proof.
  induction files as [|f files IH]; intros seen; cbn [fold_left keepFirst].
  - now rewrite app_nil_r.
  - rewrite includes_app, <- negb_orb.
    destruct (includes defaultFiles f || includes seen f) eqn:Hf;
      cbn [negb]; [apply IH|].
    apply orb_false_iff in Hf as [_ Hf].
    rewrite <- app_assoc, IH. unfold add. rewrite Hf.
    now rewrite <- app_assoc.
Qed.

(** The loading loop appends what each file contributes. *)
Lemma load_flat_map (world : World) (basePath : string)
  (files : list string) :
  forall results,
    fold_left
      (fun results filename =>
         match fetch world (basePath ++ "/" ++ filename)%string with
         | Ok text =>
             let source := replace filename ".txt" "" in
             results
               ++ map (fun name => {| name := name; source := source |})
                    (parseNameFile text)
         | _ => results
         end)
      files results
    = results ++ flat_map (fileRecords world basePath) files.
Proof.
  induction files as [|f files IH]; intros results; cbn [fold_left flat_map].
  - now rewrite app_nil_r.
  - rewrite IH. unfold fileRecords at 2.
    destruct (fetch world _); cbn zeta;
      [now rewrite <- app_assoc | reflexivity | reflexivity].
Qed.

Lemma loadDirectory_flat_map (world : World) (basePath : string) :
  loadDirectory world basePath
  = flat_map (fileRecords world basePath)
      (defaultFiles
         ++ keepFirst (includes defaultFiles) (fun f => f) []
              (listedFiles world basePath)).
Proof.
  unfold loadDirectory, listedFiles. rewrite load_flat_map. cbn [app].
  destruct (manifestFiles world basePath) as [files|].
  - pose proof (merge_keepFirst files []) as H.
    rewrite app_nil_r in H. now rewrite H.
  - cbn [keepFirst]. now rewrite app_nil_r.
Qed.

(** The tag of a file whose stem holds no dot is the stem. *)
Lemma replace_extension (stem : string) :
  without "." stem = true -> replace (stem ++ ".txt") ".txt" "" = stem.
Proof.
  unfold without. induction stem as [|c stem IH]; [reflexivity|].
  cbn [list_ascii_of_string forallb]. intros H.
  apply andb_prop in H as [Hc H]. apply negb_true_iff in Hc.
  cbn [append replace String.prefix].
  destruct (Ascii.ascii_dec "." c) as [<-|_]; [discriminate|].
  now rewrite (IH H).
Qed.

End Directories.

(** ** Sessions and the pair cache *)

Section SessionFacts.
Import JS Runtime Pools Frame Session Sampling.

(** The build reads the loaded names only. *)
Lemma build_setCache (g : Generator.State) (cache : option SetOf) :
  Generator.buildExistingPairs (Generator.setCache g cache)
  = Generator.buildExistingPairs g.
Proof. reflexivity. Qed.

(** What a check leaves in the cache of a coherent object: the pairs of
    the loaded names, or the empty set when they cannot be built. *)
Lemma settled_sameData (g g' : Generator.State) :
  Coherent g \/ Emptied g -> sameData g g' -> Coherent g' \/ Emptied g'.
Proof.
  intros Hg [-> | ->]; [exact Hg|].
  unfold withCache, pairs, Generator.existingPairs.
  destruct Hg as [[Hn | (cache & Hc & Hb)] | [Hc (message & Hb)]].
  - rewrite Hn.
    destruct (Generator.buildExistingPairs g) as [cache|message] eqn:Hb.
    + left. right. exists cache. now split.
    + right. split; [reflexivity|]. now exists message.
  - rewrite Hc. left. right. exists cache. now split.
  - rewrite Hc. right. split; [reflexivity|]. now exists message.
Qed.

Lemma coherent_sameData (g g' : Generator.State) :
  Coherent g -> checks g -> sameData g g' -> Coherent g'.
Proof.
  intros Hg [cache Hc] [-> | ->]; [exact Hg|].
  right. exists cache. unfold withCache.
  rewrite (checks_pairs g cache Hc). split; [reflexivity|].
  exact (coherent_builds g cache Hg Hc).
Qed.

Lemma sameData_combinations (g g' : Generator.State) :
  sameData g g' ->
  Generator.existingCombinations g' = Generator.existingCombinations g.
Proof. now intros [-> | ->]. Qed.

(** A check, whether it returns or throws, leaves the cache filled. *)
Lemma check_after (g : Generator.State) (first last : string) :
  snd (Generator.isTooSimilarToExisting g first last) = withCache g.
Proof.
  unfold withCache, pairs, Generator.isTooSimilarToExisting.
  destruct (Generator.existingPairs g) as [cache|message]; [|reflexivity].
  now destruct (includes cache _).
Qed.

Lemma cross_generate_after (fuel : nat) (g : Generator.State)
  (random : Random) (count : nat) (sourceFilter : string)
  (r : Run Generator.State) :
  Generator.generate fuel g random count sourceFilter = Some r ->
  sameData g (after r).
Proof.
  intros Hrun. destruct (outcome r) as [results|message] eqn:Hout.
  - now destruct (cross_generate_returns _ _ _ _ _ _ _ Hrun Hout)
      as (_ & H & _).
  - destruct (cross_generate_throws_cases _ _ _ _ _ _ _ Hrun Hout)
      as [[-> _] | (-> & Hthrow & _)]; [now left | right].
    cbn [after]. now destruct (check_throws g "" "" message Hthrow)
      as (_ & -> & _).
Qed.

(** When the check returns on an object it ends in the same way on the
    object with its cache filled. *)
Lemma rejects_sameData (g g' : Generator.State) (first last : string) :
  checks g -> sameData g g' ->
  fst (Generator.isTooSimilarToExisting g' first last)
  = fst (Generator.isTooSimilarToExisting g first last)
  /\ rejects g' first last = rejects g first last.
Proof.
  intros Hcheck Hsame. unfold rejects at 1.
  rewrite (check_sameData g g' first last Hcheck Hsame).
  rewrite (check_sameData g g first last Hcheck (or_introl eq_refl)).
  now split.
Qed.

(** A call on an object on which the check throws leaves the object as
    it was, or it throws in its first round and leaves the empty set in
    the cache. *)
Lemma cross_generate_on_throw (fuel : nat) (g : Generator.State)
  (random : Random) (count : nat) (sourceFilter : string)
  (r : Run Generator.State) (message : string) :
  Generator.existingPairs g = Throw message ->
  Generator.generate fuel g random count sourceFilter = Some r ->
  after r = g
  \/ r = {| outcome := Throw message;
            after := Generator.setCache g (Some []);
            randomCalls := 2; iterations := 1 |}.
Proof.
  intros Hthrow Hrun.
  destruct (Generator.loaded g) eqn:Hl.
  2:{ unfold Generator.generate in Hrun. rewrite Hl in Hrun.
      cbn [negb] in Hrun. injection Hrun as <-. now left. }
  destruct (Generator.getFirstnames g sourceFilter) as [|f fs] eqn:Hf.
  { unfold Generator.generate in Hrun. rewrite Hl, Hf in Hrun.
    cbn [negb length Nat.eqb] in Hrun. injection Hrun as <-. now left. }
  destruct (Generator.getLastnames g sourceFilter) as [|l ls] eqn:Hn.
  { unfold Generator.generate in Hrun. rewrite Hl, Hf, Hn in Hrun.
    cbn [negb length Nat.eqb] in Hrun. injection Hrun as <-. now left. }
  rewrite (cross_generate_fails g random count sourceFilter Hl) with
    (message := message) in Hrun;
    [|rewrite Hf; discriminate | rewrite Hn; discriminate | exact Hthrow].
  destruct (count =? 0); [injection Hrun as <-; now left|].
  destruct fuel; [discriminate|]. injection Hrun as <-. now right.
Qed.

Lemma loadData_cache (g : Generator.State) (world : World)
  (race sex : string) :
  Generator.existingPairsCache (snd (Generator.loadData g world race sex))
  = None
  /\ Generator.existingCombinations
       (snd (Generator.loadData g world race sex))
     = Generator.existingCombinations g.
Proof.
  unfold Generator.loadData.
  destruct (length _ =? 0); [now split|].
  destruct (length _ =? 0); now split.
Qed.

(** The click handler loads and then leaves the object as it is, up to
    the cache. *)
Lemma clickHandler_after (fuel : nat) (g : Generator.State) (world : World)
  (random : Random) (race sex : string) (sourceSelect : option string)
  (g' : Generator.State) (writes : list Dom.Write) :
  Generator.clickHandler fuel g world random race sex sourceSelect
  = Some (g', writes) ->
  sameData (snd (Generator.loadData g world race sex)) g'.
Proof.
  unfold Generator.clickHandler.
  destruct (Generator.loadData g world race sex) as [[v|message] g1];
    cbn [snd]; [|intros [= <- _]; now left].
  destruct (Generator.generate fuel g1 random 10 _) as [r|] eqn:Hrun;
    [|discriminate].
  pose proof (cross_generate_after _ _ _ _ _ _ Hrun) as Hsame.
  destruct (outcome r) as [names|message]; [|now intros [= <- _]].
  destruct (length names =? 0); now intros [= <- _].
Qed.

Lemma reachable_settled (g : Generator.State) :
  Reachable g ->
  (Coherent g \/ Emptied g) /\ Generator.existingCombinations g = [].
Proof.
  induction 1 as [|g world race sex _ [IHc IHe]|g _ [IHc IHe]
                  |g first last _ [IHc IHe]
                  |g fuel random count sourceFilter r _ [IHc IHe] Hrun
                  |g fuel world random race sex sourceSelect g' writes
                     _ [IHc IHe] Hrun].
  - split; [left; now left | reflexivity].
  - destruct (loadData_cache g world race sex) as [Hc He].
    split; [left; now left | now rewrite He].
  - split; [exact IHc | reflexivity].
  - rewrite check_after.
    split; [apply (settled_sameData g _ IHc); now right | exact IHe].
  - pose proof (cross_generate_after _ _ _ _ _ _ Hrun) as Hsame.
    split; [now apply (settled_sameData g)|].
    now rewrite (sameData_combinations _ _ Hsame).
  - pose proof (clickHandler_after _ _ _ _ _ _ _ _ _ Hrun) as Hsame.
    destruct (loadData_cache g world race sex) as [Hc He].
    split; [apply (settled_sameData _ _ (or_introl (or_introl Hc)) Hsame)|].
    now rewrite (sameData_combinations _ _ Hsame), He.
Qed.

(** On a coherent object the check ends as on the object without its
    cache. *)
Lemma coherent_check (g : Generator.State) (first last : string) :
  Coherent g ->
  fst (Generator.isTooSimilarToExisting g first last)
  = fst (Generator.isTooSimilarToExisting (Generator.setCache g None)
           first last).
Proof.
  intros Hg. unfold Generator.isTooSimilarToExisting.
  assert (He : Generator.existingPairs g
               = Generator.existingPairs (Generator.setCache g None)).
  { unfold Generator.existingPairs.
    destruct Hg as [-> | (cache & -> & Hb)]; [reflexivity|].
    now rewrite <- Hb. }
  rewrite <- He.
  destruct (Generator.existingPairs g) as [cache|message]; [|reflexivity].
  now destruct (includes cache _).
Qed.

Lemma coherent_rejects (g : Generator.State) (first last : string) :
  Coherent g ->
  rejects g first last = rejects (Generator.setCache g None) first last.
Proof.
  intros Hg. unfold rejects. now rewrite (coherent_check g first last Hg).
Qed.

(** On an object whose cache a failed build left empty the check lets
    every pair through, while it throws on the object without its
    cache. *)
Lemma emptied_check (g : Generator.State) (first last : string) :
  Emptied g ->
  fst (Generator.isTooSimilarToExisting g first last) = Return false
  /\ exists message,
       fst (Generator.isTooSimilarToExisting (Generator.setCache g None)
              first last) = Throw message.
Proof.
  intros [Hc (message & Hb)]. unfold Generator.isTooSimilarToExisting.
  split.
  - unfold Generator.existingPairs. now rewrite Hc.
  - exists message. unfold Generator.existingPairs.
    cbn [Generator.existingPairsCache Generator.setCache].
    now rewrite build_setCache, Hb.
Qed.

(** Without a source that is named like an inherited property the cache
    is never left empty by a failed build. *)
Lemma plainSources_not_emptied (g : Generator.State) :
  plainSources g = true -> ~ Emptied g.
Proof.
  intros Hp [_ (message & Hb)].
  apply plainSources_builds in Hp as [cache Hc]. congruence.
Qed.

End SessionFacts.

(** ** What [generate] returns *)

Section GenerateFacts.
Import JS Runtime Pools Frame Session Sampling PoolSpec Novelty.

Lemma bySourceFilter_In (sourceFilter : string) (records : list NameRecord)
  (r : NameRecord) :
  In r (bySourceFilter sourceFilter records) -> In r records.
Proof.
  unfold bySourceFilter.
  destruct (String.eqb sourceFilter "vanilla");
    [now intros H; apply filter_In in H|].
  destruct (String.eqb sourceFilter "expanded");
    [now intros H; apply filter_In in H|].
  exact (fun H => H).
Qed.

(** A name of a pool is the name of a record that passes the source
    filter, and it is not blacklisted. *)
Lemma getNames_In (records : list NameRecord) (blacklist : SetOf)
  (sourceFilter n : string) :
  In n (getNames records blacklist sourceFilter) ->
  blacklisted blacklist n = false
  /\ exists r, In r (bySourceFilter sourceFilter records) /\ name r = n.
Proof.
  unfold getNames. rewrite collect_keepFirst. intros H.
  apply keepFirst_In in H as (Hin & Hb & _). split; [exact Hb|].
  apply in_map_iff in Hin as [r [Hr Hin]]. now exists r.
Qed.

Lemma length_keepFirst (blocked : string -> bool) (norm : string -> string)
  (names : list string) :
  forall seen, length (keepFirst blocked norm seen names) <= length names.
Proof.
  induction names as [|n names IH]; intros seen; simpl; [lia|].
  destruct (negb _ && negb _); simpl.
  - specialize (IH (add seen (norm n))). lia.
  - specialize (IH seen). lia.
Qed.

Lemma length_getNames (records : list NameRecord) (blacklist : SetOf)
  (sourceFilter : string) :
  length (getNames records blacklist sourceFilter)
  <= length (bySourceFilter sourceFilter records).
Proof.
  unfold getNames. rewrite collect_keepFirst.
  rewrite <- (length_map name (bySourceFilter sourceFilter records)).
  apply length_keepFirst.
Qed.

(** A pair that the check of generator.js lets through does not take
    its two names from one source. *)
Lemma cross_emitted_sources (g : Generator.State) (first last : string)
  (fn ln : NameRecord) :
  Coherent g -> rejects g first last = false ->
  In fn (Generator.allFirstnames g) -> In ln (Generator.allLastnames g) ->
  toLowerCase (name fn) = toLowerCase first ->
  toLowerCase (name ln) = toLowerCase last ->
  source fn <> source ln.
Proof.
  intros Hg Hrej Hfn Hln Hf Hl Hsrc.
  apply (cross_no_exact g first last Hg Hrej fn ln Hfn Hln Hsrc).
  now split.
Qed.

(** The accepted pairs are not more than the pairs of the two pools. *)
Lemma sampled_product (firstnames lastnames : list string)
  (rejects : string -> string -> bool) (count maxAttempts : nat)
  (results : list Pair) (attempted : SetOf) (attempts calls : nat) :
  Sampled firstnames lastnames rejects count maxAttempts
    results attempted attempts calls ->
  length results <= length firstnames * length lastnames.
Proof.
  intros (_ & _ & _ & _ & Hres & Hnd).
  rewrite <- (length_map key results), <- length_prod.
  rewrite <- (length_map
                (fun fl => key {| firstname := fst fl; lastname := snd fl |})
                (list_prod firstnames lastnames)).
  apply NoDup_incl_length; [exact Hnd|].
  intros k Hk. apply in_map_iff in Hk as [p [<- Hp]].
  destruct (Hres p Hp) as (_ & Hf & Hl & _).
  apply in_map_iff. exists (firstname p, lastname p).
  split; [now destruct p | now apply in_prod].
Qed.

End GenerateFacts.

Section FlatFileRuns.
Import JS Runtime Sampling.

(** A call of [generate] of the flat-file variant that returns pairs ran
    on a loaded object, and its results satisfy [Sampled]. *)
Lemma flat_generate_returns (fuel : nat) (g : FlatFile.State)
  (random : Random) (count : nat) (sourceFilter : string)
  (r : Run FlatFile.State) (results : list Pair) :
  FlatFile.generate fuel g random count sourceFilter = Some r ->
  outcome r = Return results ->
  FlatFile.loaded g = true
  /\ after r = g
  /\ exists attempted,
       Sampled (FlatFile.getFirstnames g sourceFilter)
         (FlatFile.getLastnames g sourceFilter)
         (FlatFile.isTooSimilarToExisting g)
         count (count * FlatFile.maxAttemptsFactor)
         results attempted (iterations r) (2 * iterations r).
Proof.
  intros Hrun Hout.
  assert (Hl : FlatFile.loaded g = true).
  { destruct (FlatFile.loaded g) eqn:Hl; [reflexivity|].
    unfold FlatFile.generate in Hrun. rewrite Hl in Hrun.
    cbn [negb] in Hrun. injection Hrun as <-. discriminate Hout. }
  assert (Hf : FlatFile.getFirstnames g sourceFilter <> []).
  { intros E. unfold FlatFile.generate in Hrun.
    rewrite Hl, E in Hrun. cbn [negb length Nat.eqb] in Hrun.
    injection Hrun as <-. discriminate Hout. }
  assert (Hn : FlatFile.getLastnames g sourceFilter <> []).
  { intros E. unfold FlatFile.generate in Hrun.
    rewrite Hl, E in Hrun. cbn [negb length Nat.eqb] in Hrun.
    destruct (length (FlatFile.getFirstnames g sourceFilter) =? 0);
      injection Hrun as <-; discriminate Hout. }
  destruct (flat_generate_result g random count sourceFilter Hl Hf Hn
              fuel r Hrun)
    as (results' & attempted & Hr & Hs & _).
  rewrite Hr in Hout. cbn [outcome] in Hout. injection Hout as ->.
  split; [exact Hl|]. split; [now rewrite Hr|]. now exists attempted.
Qed.

Lemma direct_generate_returns (fuel : nat) (g : DirectPairs.State)
  (random : Random) (count : nat) (sourceFilter : string)
  (r : Run DirectPairs.State) (results : list Pair) :
  DirectPairs.generate fuel g random count sourceFilter = Some r ->
  outcome r = Return results ->
  DirectPairs.loaded g = true
  /\ after r = g
  /\ exists attempted,
       Sampled (DirectPairs.getFirstnames g sourceFilter)
         (DirectPairs.getLastnames g sourceFilter)
         (DirectPairs.isTooSimilarToExisting g)
         count (count * DirectPairs.maxAttemptsFactor)
         results attempted (iterations r) (2 * iterations r).
Proof.
  intros Hrun Hout.
  assert (Hl : DirectPairs.loaded g = true).
  { destruct (DirectPairs.loaded g) eqn:Hl; [reflexivity|].
    unfold DirectPairs.generate in Hrun. rewrite Hl in Hrun.
    cbn [negb] in Hrun. injection Hrun as <-. discriminate Hout. }
  assert (Hf : DirectPairs.getFirstnames g sourceFilter <> []).
  { intros E. unfold DirectPairs.generate in Hrun.
    rewrite Hl, E in Hrun. cbn [negb length Nat.eqb] in Hrun.
    injection Hrun as <-. discriminate Hout. }
  assert (Hn : DirectPairs.getLastnames g sourceFilter <> []).
  { intros E. unfold DirectPairs.generate in Hrun.
    rewrite Hl, E in Hrun. cbn [negb length Nat.eqb] in Hrun.
    destruct (length (DirectPairs.getFirstnames g sourceFilter) =? 0);
      injection Hrun as <-; discriminate Hout. }
  destruct (direct_generate_result g random count sourceFilter Hl Hf Hn
              fuel r Hrun)
    as (results' & attempted & Hr & Hs & _).
  rewrite Hr in Hout. cbn [outcome] in Hout. injection Hout as ->.
  split; [exact Hl|]. split; [now rewrite Hr|]. now exists attempted.
Qed.

(** Whatever the number of rounds, the key of every accepted pair was
    remembered. *)
Lemma flat_keys_attempted (g : FlatFile.State) (random : Random)
  (firstnames lastnames : list string) (m : nat) :
  let s := Nat.iter m (FlatFile.body g random firstnames lastnames)
             FlatFile.start in
  forall p, In p (FlatFile.results s) -> In (key p) (FlatFile.attempted s).
Proof.
  induction m as [|m IH]; [intros s p []|].
  cbv zeta in IH |- *. rewrite Nat.iter_succ.
  set (s := Nat.iter m _ _) in *.
  destruct (flat_body_spec g random firstnames lastnames s I)
    as (_ & _ & _ & Hcase).
  destruct (includes (FlatFile.attempted s) _) eqn:Hinc.
  - destruct Hcase as [-> ->]. exact IH.
  - destruct Hcase as [-> [-> | [_ ->]]]; intros p Hp.
    + apply In_add. left. now apply IH.
    + apply In_add. apply in_app_or in Hp as [Hp | [<- | []]].
      * left. now apply IH.
      * now right.
Qed.

Lemma alreadyInResults_key (results : list Pair) (first last : string) :
  FlatFile.alreadyInResults results first last = true ->
  exists r, In r results
            /\ key r = key {| firstname := first; lastname := last |}.
Proof.
  unfold FlatFile.alreadyInResults. rewrite existsb_exists.
  intros (r & Hr & H). apply andb_prop in H as [Hf Hl].
  apply String.eqb_eq in Hf, Hl. exists r. split; [exact Hr|].
  unfold key. cbn [firstname lastname]. now rewrite Hf, Hl.
Qed.

End FlatFileRuns.

(** ** Pairs that can come out *)

Section Emittable.
Import JS Runtime Pools Frame Sampling.

(** The random source that draws the index [i] first and the index [j]
    ever after. *)
Let drawing (i j : nat) : Random :=
  fun k => match k with 0 => i | _ => j end.

Lemma cross_emittable (g : Generator.State)
  (sourceFilter first last : string) :
  Generator.loaded g = true ->
  In first (Generator.getFirstnames g sourceFilter) ->
  In last (Generator.getLastnames g sourceFilter) ->
  rejects g first last = false ->
  exists random, forall fuel, 1 <= fuel ->
    exists r,
      Generator.generate fuel g random 1 sourceFilter = Some r
      /\ outcome r = Return [{| firstname := first; lastname := last |}].
Proof.
  intros Hl Hf Hn Hrej.
  destruct (In_nth _ _ EmptyString Hf) as (i & Hi & Hfi).
  destruct (In_nth _ _ EmptyString Hn) as (j & Hj & Hlj).
  exists (drawing i j). intros [|fuel] Hfuel; [lia|].
  rewrite cross_generate_loop;
    [|exact Hl
     |intros E; rewrite E in Hf; contradiction
     |intros E; rewrite E in Hn; contradiction].
  rewrite while_step by reflexivity.
  assert (Hbody :
    Generator.body (drawing i j) (Generator.getFirstnames g sourceFilter)
      (Generator.getLastnames g sourceFilter) (Generator.start g)
    = {| Generator.this := withCache g;
         Generator.results := [{| firstname := first; lastname := last |}];
         Generator.attempted :=
           [(toLowerCase first ++ "|" ++ toLowerCase last)%string];
         Generator.attempts := 1;
         Generator.calls := 2;
         Generator.failure := None |}).
  { unfold Generator.body, Generator.start, randomIndex, drawing.
    cbn [Generator.calls Generator.this Generator.results
         Generator.attempted Generator.attempts Generator.failure].
    rewrite !Nat.mod_small by assumption. rewrite Hfi, Hlj.
    cbn [includes existsb].
    destruct (rejects_false g first last Hrej) as (cache & Hc & _).
    rewrite (check_sameData g g first last (ex_intro _ cache Hc)
               (or_introl eq_refl)), Hrej.
    reflexivity. }
  rewrite Hbody, while_done by reflexivity.
  eexists. split; reflexivity.
Qed.

Lemma direct_emittable (g : DirectPairs.State)
  (sourceFilter first last : string) :
  DirectPairs.loaded g = true ->
  In first (DirectPairs.getFirstnames g sourceFilter) ->
  In last (DirectPairs.getLastnames g sourceFilter) ->
  DirectPairs.isTooSimilarToExisting g first last = false ->
  exists random, forall fuel, 1 <= fuel ->
    exists r,
      DirectPairs.generate fuel g random 1 sourceFilter = Some r
      /\ outcome r = Return [{| firstname := first; lastname := last |}].
Proof.
  intros Hl Hf Hn Hrej.
  destruct (In_nth _ _ EmptyString Hf) as (i & Hi & Hfi).
  destruct (In_nth _ _ EmptyString Hn) as (j & Hj & Hlj).
  exists (drawing i j). intros [|fuel] Hfuel; [lia|].
  rewrite direct_generate_loop;
    [|exact Hl
     |intros E; rewrite E in Hf; contradiction
     |intros E; rewrite E in Hn; contradiction].
  rewrite while_step by reflexivity.
  assert (Hbody :
    DirectPairs.body g (drawing i j)
      (DirectPairs.getFirstnames g sourceFilter)
      (DirectPairs.getLastnames g sourceFilter) DirectPairs.start
    = {| DirectPairs.results :=
           [{| firstname := first; lastname := last |}];
         DirectPairs.attempted :=
           [(toLowerCase first ++ "|" ++ toLowerCase last)%string];
         DirectPairs.attempts := 1;
         DirectPairs.calls := 2 |}).
  { unfold DirectPairs.body, DirectPairs.start, randomIndex, drawing.
    cbn [DirectPairs.calls DirectPairs.results
         DirectPairs.attempted DirectPairs.attempts].
    rewrite !Nat.mod_small by assumption. rewrite Hfi, Hlj.
    cbn [includes existsb]. rewrite Hrej. reflexivity. }
  rewrite Hbody, while_done by reflexivity.
  eexists. split; reflexivity.
Qed.

Lemma flat_emittable (g : FlatFile.State)
  (sourceFilter first last : string) :
  FlatFile.loaded g = true ->
  In first (FlatFile.getFirstnames g sourceFilter) ->
  In last (FlatFile.getLastnames g sourceFilter) ->
  FlatFile.isTooSimilarToExisting g first last = false ->
  exists random, forall fuel, 1 <= fuel ->
    exists r,
      FlatFile.generate fuel g random 1 sourceFilter = Some r
      /\ outcome r = Return [{| firstname := first; lastname := last |}].
Proof.
  intros Hl Hf Hn Hrej.
  destruct (In_nth _ _ EmptyString Hf) as (i & Hi & Hfi).
  destruct (In_nth _ _ EmptyString Hn) as (j & Hj & Hlj).
  exists (drawing i j). intros [|fuel] Hfuel; [lia|].
  rewrite flat_generate_loop;
    [|exact Hl
     |intros E; rewrite E in Hf; contradiction
     |intros E; rewrite E in Hn; contradiction].
  rewrite while_step by reflexivity.
  assert (Hbody :
    FlatFile.body g (drawing i j)
      (FlatFile.getFirstnames g sourceFilter)
      (FlatFile.getLastnames g sourceFilter) FlatFile.start
    = {| FlatFile.results :=
           [{| firstname := first; lastname := last |}];
         FlatFile.attempted :=
           [(toLowerCase first ++ "|" ++ toLowerCase last)%string];
         FlatFile.attempts := 1;
         FlatFile.calls := 2 |}).
  { unfold FlatFile.body, FlatFile.start, randomIndex, drawing.
    cbn [FlatFile.calls FlatFile.results
         FlatFile.attempted FlatFile.attempts].
    rewrite !Nat.mod_small by assumption. rewrite Hfi, Hlj.
    cbn [includes existsb]. rewrite Hrej. reflexivity. }
  rewrite Hbody, while_done by reflexivity.
  eexists. split; reflexivity.
Qed.

End Emittable.

(** ** The lower-cased name sets and the statistics *)

Section LowerSets.
Import JS Runtime Pools PoolSpec.

(** The loop of [getAllFirstnamesLower] and [getAllLastnamesLower]
    collects the lower-cased names that [keepFirst] keeps. *)
Lemma lower_fold_keepFirst (blacklist : SetOf) (records : list NameRecord) :
  forall seen,
    fold_left
      (fun seen fn =>
         if negb (includes blacklist (toLowerCase (name fn)))
         then add seen (toLowerCase (name fn))
         else seen)
      records seen
    = seen
      ++ map toLowerCase
           (keepFirst (blacklisted blacklist) toLowerCase seen
              (map name records)).
Proof.
  induction records as [|fn records IH]; intros seen;
    cbn [fold_left map keepFirst]; [now rewrite app_nil_r|].
  unfold blacklisted at 1.
  destruct (includes blacklist (toLowerCase (name fn))); cbn [negb andb];
    [apply IH|].
  rewrite IH. unfold add.
  destruct (includes seen (toLowerCase (name fn))); cbn [negb];
    [reflexivity|].
  cbn [map]. now rewrite <- app_assoc.
Qed.

Lemma getNames_all (records : list NameRecord) (blacklist : SetOf) :
  getNames records blacklist "all"
  = keepFirst (blacklisted blacklist) toLowerCase [] (map name records).
Proof. unfold getNames. now rewrite collect_keepFirst. Qed.

End LowerSets.

Section SourceCounts.
Import JS Runtime Pools PoolSpec.

Let known (r : NameRecord) : Prop :=
  source r = "vanilla" \/ source r = "tr"
  \/ source r = "sky" \/ source r = "pc".

Let counted (records : list NameRecord) : nat :=
  Generator.countSource "vanilla" records
  + (Generator.countSource "tr" records
     + Generator.countSource "sky" records
     + Generator.countSource "pc" records).

Lemma countSource_cons (src : string) (r : NameRecord)
  (records : list NameRecord) :
  Generator.countSource src (r :: records)
  = (if String.eqb (source r) src then 1 else 0)
    + Generator.countSource src records.
Proof.
  unfold Generator.countSource. simpl.
  now destruct (String.eqb (source r) src).
Qed.

(** A record is counted once when its source is one of the four default
    sources, and not at all otherwise. *)
Lemma counted_cons (r : NameRecord) (records : list NameRecord) :
  (known r /\ counted (r :: records) = S (counted records))
  \/ (~ known r /\ counted (r :: records) = counted records).
Proof.
  unfold counted, known. rewrite !countSource_cons.
  destruct (String.eqb_spec (source r) "vanilla") as [Hv|Hv].
  { left. rewrite Hv. simpl. split; [now left | lia]. }
  destruct (String.eqb_spec (source r) "tr") as [Ht|Ht].
  { left. rewrite Ht. simpl. split; [right; now left | lia]. }
  destruct (String.eqb_spec (source r) "sky") as [Hs|Hs].
  { left. rewrite Hs. simpl. split; [right; right; now left | lia]. }
  destruct (String.eqb_spec (source r) "pc") as [Hp|Hp].
  { left. rewrite Hp. simpl. split; [right; right; now right | lia]. }
  right. split; [|lia]. intros [H | [H | [H | H]]]; contradiction.
Qed.

Lemma counted_le (records : list NameRecord) :
  counted records <= length records.
Proof.
  induction records as [|r records IH]; [reflexivity|].
  destruct (counted_cons r records) as [[_ ->] | [_ ->]]; simpl; lia.
Qed.

Lemma counted_all (records : list NameRecord) :
  counted records = length records
  <-> forall r, In r records -> known r.
Proof.
  induction records as [|r records IH].
  - split; [intros _ r [] | reflexivity].
  - pose proof (counted_le records) as Hle.
    destruct (counted_cons r records) as [[Hk ->] | [Hk ->]]; simpl length.
    + split.
      * intros H r' [<- | Hr']; [exact Hk|].
        apply IH; [lia | exact Hr'].
      * intros H. f_equal. apply IH. intros r' Hr'. apply H. now right.
    + split; [lia|]. intros H. exfalso. apply Hk, H. now left.
Qed.

Lemma counted_spec (records : list NameRecord) :
  Generator.countSource "vanilla" records
  + (Generator.countSource "tr" records
     + Generator.countSource "sky" records
     + Generator.countSource "pc" records)
  <= length records
  /\ (Generator.countSource "vanilla" records
      + (Generator.countSource "tr" records
         + Generator.countSource "sky" records
         + Generator.countSource "pc" records)
      = length records
      <-> forall r, In r records ->
            source r = "vanilla" \/ source r = "tr"
            \/ source r = "sky" \/ source r = "pc").
Proof. split; [apply counted_le | apply counted_all]. Qed.

(** The filter expanded keeps as many records as tr, sky and pc have
    together. *)
Lemma expanded_count (records : list NameRecord) :
  length (bySourceFilter "expanded" records)
  = Generator.countSource "tr" records
    + Generator.countSource "sky" records
    + Generator.countSource "pc" records.
Proof.
  change (bySourceFilter "expanded" records)
    with (filter (fun fn => includes ["tr"; "sky"; "pc"] (source fn)) records).
  induction records as [|r records IH]; [reflexivity|].
  rewrite !countSource_cons. cbn [filter].
  destruct (includes ["tr"; "sky"; "pc"] (source r)) eqn:Hinc;
    unfold includes in Hinc; cbn [existsb] in Hinc;
    destruct (String.eqb (source r) "tr") eqn:Ht;
    destruct (String.eqb (source r) "sky") eqn:Hs;
    destruct (String.eqb (source r) "pc") eqn:Hp;
    try discriminate Hinc;
    cbn [length]; rewrite IH; try lia; exfalso;
    repeat match goal with
           | H : String.eqb _ _ = true |- _ => apply String.eqb_eq in H
           end;
    congruence.
Qed.

Lemma vanilla_count (records : list NameRecord) :
  length (bySourceFilter "vanilla" records)
  = Generator.countSource "vanilla" records.
Proof. reflexivity. Qed.

Lemma length_bySourceFilter (sourceFilter : string)
  (records : list NameRecord) :
  length (bySourceFilter sourceFilter records) <= length records.
Proof.
  unfold bySourceFilter.
  destruct (String.eqb sourceFilter "vanilla"); [apply filter_length_le|].
  destruct (String.eqb sourceFilter "expanded"); [apply filter_length_le|].
  reflexivity.
Qed.

End SourceCounts.

(** ** The flat NPC file *)

Section FlatLines.
Import JS Runtime Novelty PoolSpec.

Let startsPlain (s : string) : Prop :=
  match s with
  | EmptyString => True
  | String c _ => isSpace c = false
  end.

Lemma splitSpacesFrom_not_nil (inRun : bool) (s : string) :
  splitSpacesFrom inRun s <> [].
Proof.
  revert inRun. induction s as [|c s IH]; intros inRun; simpl;
    [discriminate|].
  destruct (isSpace c).
  - destruct inRun; [apply IH | discriminate].
  - destruct (splitSpacesFrom false s); discriminate.
Qed.

(** Every field is a single word. *)
Lemma splitSpacesFrom_words (s : string) :
  forall inRun f, In f (splitSpacesFrom inRun s) -> singleWord f = true.
Proof.
  induction s as [|c s IH]; intros inRun f; simpl.
  - intros [<- | []]. reflexivity.
  - destruct (isSpace c) eqn:Hc.
    + destruct inRun; [apply IH|].
      intros [<- | Hf]; [reflexivity | now apply (IH true)].
    + destruct (splitSpacesFrom false s) as [|g gs] eqn:Hs;
        [now apply splitSpacesFrom_not_nil in Hs|].
      intros [<- | Hf].
      * unfold singleWord. simpl. rewrite Hc. simpl.
        apply (IH false g). rewrite Hs. now left.
      * apply (IH false f). rewrite Hs. now right.
Qed.

(** A string without white space at its end: all fields but the first
    are not empty, and the first is not empty either unless the string
    starts with a run of white space that is split off. *)
Lemma splitSpacesFrom_fields (s : string) :
  forall inRun,
    trimEnd s = s -> s <> EmptyString ->
    exists f fs,
      splitSpacesFrom inRun s = f :: fs
      /\ (forall x, In x fs -> x <> EmptyString)
      /\ (inRun = true \/ startsPlain s -> f <> EmptyString).
Proof.
  induction s as [|c s IH]; intros inRun Ht Hne; [contradiction|].
  rewrite trimEnd_cons in Ht. cbn [splitSpacesFrom].
  destruct (isSpace c) eqn:Hc.
  - assert (Hs : trimEnd s = s /\ s <> EmptyString).
    { destruct (trimEnd s) as [|d t] eqn:Hd; [discriminate|].
      injection Ht as <-. split; [reflexivity | discriminate]. }
    destruct Hs as [Hs Hs'].
    destruct (IH true Hs Hs') as (f & fs & Heq & Hfs & Hf).
    rewrite Heq. destruct inRun.
    + exists f, fs. split; [reflexivity|]. split; [exact Hfs|].
      intros _. apply Hf. now left.
    + exists EmptyString, (f :: fs). split; [reflexivity|]. split.
      * intros x [<- | Hx]; [apply Hf; now left | now apply Hfs].
      * intros [H | H]; [discriminate|]. simpl in H. congruence.
  - destruct s as [|d s'].
    + exists (String c EmptyString), []. simpl.
      split; [reflexivity|]. split; [intros x []|]. discriminate.
    + assert (Hs : trimEnd (String d s') = String d s').
      { destruct (trimEnd (String d s')) as [|e t] eqn:Hd;
          [discriminate | injection Ht as -> ->; reflexivity]. }
      destruct (IH false Hs ltac:(discriminate)) as (f & fs & Heq & Hfs & _).
      rewrite Heq. exists (String c f), fs.
      split; [reflexivity|]. split; [exact Hfs|]. discriminate.
Qed.

Lemma join_head_not_empty (sep x : string) (l : list string) :
  x <> EmptyString -> join sep (x :: l) <> EmptyString.
Proof.
  intros Hx. destruct l as [|y l]; [exact Hx|].
  change (join sep (x :: y :: l))
    with (x ++ sep ++ join sep (y :: l))%string.
  destruct x; [contradiction | discriminate].
Qed.

Lemma lastIndexOf_zero (sub s : string) :
  lastIndexOf sub s = Some 0 -> String.prefix sub s = true.
Proof.
  destruct s as [|c s]; cbn [lastIndexOf].
  - now destruct (String.prefix sub EmptyString).
  - destruct (lastIndexOf sub s); [discriminate|].
    now destruct (String.prefix sub (String c s)).
Qed.

(** The name part and the source that [parseLine] takes from a line:
    the source is lower-cased, and the name part of a trimmed line that
    is not empty is trimmed and not empty. *)
Lemma parseLine_parts (line : string) :
  exists namePart source,
    FlatFile.parseLine line
    = match splitSpaces namePart with
      | first :: second :: rest =>
          Some {| FlatFile.firstname := first;
                  FlatFile.lastname := Some (join " " (second :: rest));
                  FlatFile.source := source |}
      | [only] =>
          Some {| FlatFile.firstname := only;
                  FlatFile.lastname := None;
                  FlatFile.source := source |}
      | [] => None
      end
    /\ toLowerCase source = source
    /\ (trim line = line -> line <> EmptyString ->
        trim namePart = namePart /\ namePart <> EmptyString).
Proof.
  unfold FlatFile.parseLine.
  destruct (includesSub line " | ");
    [|exists line, "vanilla"; split; [reflexivity|];
      split; [reflexivity | now split]].
  destruct (lastIndexOf " | " line) as [i|] eqn:Hi;
    [|exists line, "vanilla"; split; [reflexivity|];
      split; [reflexivity | now split]].
  eexists. eexists. split; [reflexivity|].
  split; [apply toLowerCase_idempotent|].
  intros Ht Hne. split; [apply trim_idempotent|].
  destruct (trimmed_halves line Ht) as (Hp & _ & _).
  destruct line as [|c line]; [contradiction|]. simpl in Hp.
  destruct i as [|i].
  - apply lastIndexOf_zero in Hi. cbn [String.prefix] in Hi.
    destruct (Ascii.ascii_dec " " c) as [<-|]; discriminate.
  - unfold substring. cbn [Nat.sub String.substring].
    unfold trim. cbn [trimStart]. rewrite Hp, trimEnd_cons.
    destruct (trimEnd _); [rewrite Hp|]; discriminate.
Qed.

(** A trimmed line that is not empty gives an NPC whose firstname is a
    word, whose lastname, if it has one, is not empty, and whose source
    is lower-cased. *)
Lemma parseLine_npc (line : string) :
  trim line = line -> line <> EmptyString ->
  exists npc,
    FlatFile.parseLine line = Some npc
    /\ FlatFile.firstname npc <> EmptyString
    /\ singleWord (FlatFile.firstname npc) = true
    /\ toLowerCase (FlatFile.source npc) = FlatFile.source npc
    /\ forall ln, FlatFile.lastname npc = Some ln -> ln <> EmptyString.
Proof.
  intros Ht Hne.
  destruct (parseLine_parts line) as (namePart & source & -> & Hs & Hn).
  destruct (Hn Ht Hne) as [Hnt Hnn].
  destruct (trimmed_halves namePart Hnt) as (Hp & _ & He).
  destruct (splitSpacesFrom_fields namePart false He Hnn)
    as (f & fs & Heq & Hfs & Hf).
  assert (Hw : singleWord f = true).
  { apply (splitSpacesFrom_words namePart false). rewrite Heq. now left. }
  unfold splitSpaces. rewrite Heq.
  destruct fs as [|second rest]; eexists; (split; [reflexivity|]);
    cbn [FlatFile.firstname FlatFile.lastname FlatFile.source];
    (split; [apply Hf; now right|]); (split; [exact Hw|]);
    (split; [exact Hs|]); intros ln [= <-].
  change (join " " (second :: rest) <> EmptyString).
  apply join_head_not_empty, Hfs. now left.
Qed.

End FlatLines.

Section FlatFiles.
Import JS Runtime Pools Novelty PoolSpec Loading.

Lemma parseNPCFile_lines (text : string) :
  FlatFile.parseNPCFile text
  = flat_map
      (fun line =>
         match FlatFile.parseLine line with
         | Some npc => [npc]
         | None => []
         end)
      (parseNameFile text).
Proof. reflexivity. Qed.

Lemma length_parseNPCFile (text : string) :
  length (FlatFile.parseNPCFile text) = length (parseNameFile text).
Proof.
  rewrite parseNPCFile_lines.
  assert (H : Forall cleanName (parseNameFile text))
    by (apply Forall_forall; intros n; apply parseNameFile_clean).
  induction H as [|line lines (Hne & Ht & _) _ IH]; [reflexivity|].
  cbn [flat_map]. rewrite length_app, IH.
  destruct (parseLine_npc line Ht Hne) as (npc & -> & _). reflexivity.
Qed.

Lemma parseNPCFile_npc (text : string) (npc : FlatFile.Npc) :
  In npc (FlatFile.parseNPCFile text) ->
  exists line,
    In line (parseNameFile text) /\ FlatFile.parseLine line = Some npc.
Proof.
  rewrite parseNPCFile_lines, in_flat_map. intros (line & Hline & Hin).
  exists line. split; [exact Hline|].
  destruct (FlatFile.parseLine line) as [npc'|]; [|contradiction].
  destruct Hin as [<- | []]. reflexivity.
Qed.

Lemma flat_filter_In (g : FlatFile.State) (sourceFilter : string)
  (npc : FlatFile.Npc) :
  In npc (FlatFile.filterBySource g sourceFilter) ->
  In npc (FlatFile.npcs g)
  /\ (sourceFilter = "all" \/ FlatFile.source npc = sourceFilter).
Proof.
  unfold FlatFile.filterBySource.
  destruct (String.eqb_spec sourceFilter "all") as [->|_].
  - intros H. split; [exact H | now left].
  - intros H. apply filter_In in H as [H Hs]. apply String.eqb_eq in Hs.
    split; [exact H | now right].
Qed.

Lemma flat_firstnames_In (g : FlatFile.State) (sourceFilter n : string) :
  In n (FlatFile.getFirstnames g sourceFilter) ->
  exists npc,
    In npc (FlatFile.filterBySource g sourceFilter)
    /\ FlatFile.firstname npc = n.
Proof.
  rewrite flat_getFirstnames_keepFirst. intros H.
  apply keepFirst_In in H as (H & _). apply in_map_iff in H as [npc [Hn H]].
  now exists npc.
Qed.

Lemma flat_lastnames_In (g : FlatFile.State) (sourceFilter n : string) :
  In n (FlatFile.getLastnames g sourceFilter) ->
  blacklisted (FlatFile.blacklistedLastnames g) n = false
  /\ exists npc,
       In npc (FlatFile.filterBySource g sourceFilter)
       /\ FlatFile.lastname npc = Some n.
Proof.
  rewrite flat_getLastnames_keepFirst. intros H.
  apply keepFirst_In in H as (H & Hb & _).
  apply orb_false_iff in Hb as [_ Hb]. split; [exact Hb|].
  unfold lastnamesOf in H. apply in_flat_map in H as (npc & Hnpc & H).
  exists npc. split; [exact Hnpc|].
  destruct (FlatFile.lastname npc) as [ln|]; [|contradiction].
  destruct H as [<- | []]. reflexivity.
Qed.

Lemma length_keepFirst_open (blocked : string -> bool)
  (norm : string -> string) (names : list string) :
  forall seen,
    length (keepFirst blocked norm seen names)
    <= length (filter (fun n => negb (blocked n)) names).
Proof.
  induction names as [|n names IH]; intros seen; simpl; [lia|].
  destruct (blocked n); simpl; [apply IH|].
  destruct (includes seen (norm n)); simpl.
  - specialize (IH seen). lia.
  - specialize (IH (add seen (norm n))). lia.
Qed.

Lemma length_named (blacklist : SetOf) (l : list FlatFile.Npc) :
  length
    (filter (fun n => negb (negb (truthy n) || blacklisted blacklist n))
       (lastnamesOf l))
  <= length (filter FlatFile.hasLastname l).
Proof.
  induction l as [|npc l IH]; [reflexivity|].
  unfold lastnamesOf in *. cbn [flat_map filter].
  rewrite filter_app, length_app. unfold FlatFile.hasLastname at 1.
  destruct (FlatFile.lastname npc) as [ln|]; cbn [filter length app];
    [|exact IH].
  destruct (truthy ln); cbn [negb orb].
  - destruct (blacklisted blacklist ln); cbn [negb length]; lia.
  - cbn [length]. lia.
Qed.

Lemma length_flat_lastnames (g : FlatFile.State) (sourceFilter : string) :
  length (FlatFile.getLastnames g sourceFilter)
  <= length (filter FlatFile.hasLastname
               (FlatFile.filterBySource g sourceFilter)).
Proof.
  rewrite flat_getLastnames_keepFirst.
  etransitivity; [apply length_keepFirst_open | apply length_named].
Qed.

Lemma length_flat_firstnames (g : FlatFile.State) (sourceFilter : string) :
  length (FlatFile.getFirstnames g sourceFilter)
  <= length (FlatFile.filterBySource g sourceFilter).
Proof.
  rewrite flat_getFirstnames_keepFirst.
  rewrite <- (length_map FlatFile.firstname
                (FlatFile.filterBySource g sourceFilter)).
  apply length_keepFirst.
Qed.

Lemma length_flat_filter (g : FlatFile.State) (sourceFilter : string) :
  length (FlatFile.filterBySource g sourceFilter)
  <= length (FlatFile.npcs g).
Proof.
  unfold FlatFile.filterBySource.
  destruct (String.eqb sourceFilter "all");
    [reflexivity | apply filter_length_le].
Qed.

Lemma length_two_sources (l : list FlatFile.Npc) :
  length (filter (fun n => String.eqb (FlatFile.source n) "vanilla") l)
  + length (filter (fun n => String.eqb (FlatFile.source n) "tr") l)
  <= length l.
Proof.
  induction l as [|npc l IH]; [reflexivity|]. cbn [filter].
  destruct (String.eqb_spec (FlatFile.source npc) "vanilla") as [Hv|Hv].
  - rewrite Hv. cbn [String.eqb Ascii.eqb Bool.eqb andb length]. lia.
  - destruct (String.eqb (FlatFile.source npc) "tr"); cbn [length]; lia.
Qed.

End FlatFiles.

(** ** Writing and reading a line of the flat file *)

Section FlatRoundTrip.
Import JS Runtime Novelty FlatFormat.

Lemma append_assoc (a b c : string) :
  ((a ++ b) ++ c)%string = (a ++ b ++ c)%string.
Proof. induction a as [|x a IH]; simpl; [reflexivity|]. now rewrite IH. Qed.

Lemma length_append (a b : string) :
  String.length (a ++ b) = String.length a + String.length b.
Proof. induction a as [|x a IH]; simpl; [reflexivity|]. now rewrite IH. Qed.

Lemma prefix_empty (s : string) : String.prefix EmptyString s = true.
Proof. now destruct s. Qed.

Lemma substring_all (s : string) :
  String.substring 0 (String.length s) s = s.
Proof. induction s as [|c s IH]; simpl; [reflexivity|]. now rewrite IH. Qed.

Lemma substring_head (a b : string) :
  String.substring 0 (String.length a) (a ++ b) = a.
Proof.
  induction a as [|c a IH]; simpl; [now destruct b|]. now rewrite IH.
Qed.

Lemma substring_tail (a b : string) :
  String.substring (String.length a)
    (String.length (a ++ b) - String.length a) (a ++ b) = b.
Proof.
  induction a as [|c a IH]; simpl.
  - rewrite Nat.sub_0_r. apply substring_all.
  - exact IH.
Qed.

Lemma lastIndexOf_append (sub s t : string) (i : nat) :
  lastIndexOf sub t = Some i ->
  lastIndexOf sub (s ++ t) = Some (String.length s + i).
Proof.
  intros H. induction s as [|c s IH]; simpl; [exact H|]. now rewrite IH.
Qed.

(** A word does not start with a bar that is followed by a space. *)
Lemma word_no_bar_space (src : string) :
  singleWord src = true -> String.prefix "| " src = false.
Proof.
  intros Hs. destruct src as [|c src]; [reflexivity|].
  cbn [String.prefix].
  destruct (Ascii.ascii_dec "|" c) as [_|]; [|reflexivity].
  apply singleWord_cons in Hs as [_ Hs].
  destruct src as [|d src]; [reflexivity|].
  apply singleWord_cons in Hs as [Hd _]. cbn [String.prefix].
  destruct (Ascii.ascii_dec " " d) as [<-|]; [|reflexivity].
  rewrite space_is_space in Hd. discriminate.
Qed.

(** The tag of a tagged line starts at its last separator. *)
Lemma lastIndexOf_tag (src : string) :
  singleWord src = true ->
  lastIndexOf " | " (" | " ++ src) = Some 0.
Proof.
  intros Hs.
  change (" | " ++ src)%string
    with (String " " (String "|" (String " " src))).
  cbn [lastIndexOf]. rewrite (singleWord_no_tag src Hs).
  cbn [String.prefix]. 
  destruct (Ascii.ascii_dec " " " ") as [_|n]; [|now contradiction n].
  rewrite (word_no_bar_space src Hs).
  destruct (Ascii.ascii_dec " " "|") as [e|_]; [discriminate e|].
  destruct (Ascii.ascii_dec "|" "|") as [_|n]; [|now contradiction n].
  now rewrite prefix_empty.
Qed.

Lemma singleWord_trimEnd (w : string) :
  singleWord w = true -> trimEnd w = w.
Proof.
  induction w as [|c w IH]; intros Hw; [reflexivity|].
  apply singleWord_cons in Hw as [Hc Hw].
  rewrite trimEnd_cons, (IH Hw), Hc. now destruct w.
Qed.

Lemma word_trim (w : string) : singleWord w = true -> trim w = w.
Proof.
  intros Hw. unfold trim. destruct w as [|c w]; [reflexivity|].
  pose proof (singleWord_cons _ _ Hw) as [Hc _].
  cbn [trimStart]. rewrite Hc. now apply singleWord_trimEnd.
Qed.

Lemma trimEnd_append (s t : string) :
  trimEnd t = t -> t <> EmptyString -> trimEnd (s ++ t) = (s ++ t)%string.
Proof.
  intros Ht Hne. induction s as [|c s IH]; [exact Ht|].
  cbn [append]. rewrite trimEnd_cons, IH.
  destruct (s ++ t)%string eqn:E; [|reflexivity].
  destruct s; [simpl in E; contradiction | discriminate].
Qed.

(** The words joined by single spaces: trimmed, and split into the
    words again. *)
Lemma join_words_cons (w v : string) (ws : list string) :
  join " " (w :: v :: ws) = (w ++ String " " (join " " (v :: ws)))%string.
Proof. reflexivity. Qed.

Lemma join_words_not_empty (w : string) (ws : list string) :
  word w -> join " " (w :: ws) <> EmptyString.
Proof. intros [_ Hw]. now apply join_head_not_empty. Qed.

Lemma join_words_trimEnd (words : list string) :
  Forall word words -> words <> [] ->
  trimEnd (join " " words) = join " " words.
Proof.
  induction 1 as [|w ws [Hw Hne] Hws IH]; intros Hnil; [congruence|].
  destruct ws as [|v ws]; [now apply singleWord_trimEnd|].
  rewrite join_words_cons.
  change (w ++ String " " (join " " (v :: ws)))%string
    with (w ++ (" " ++ join " " (v :: ws)))%string.
  rewrite <- append_assoc. apply trimEnd_append.
  - apply IH. discriminate.
  - apply join_words_not_empty. now inversion Hws.
Qed.

Lemma join_words_trim (words : list string) :
  Forall word words -> words <> [] ->
  trim (join " " words) = join " " words.
Proof.
  intros Hws Hne. unfold trim.
  assert (Hs : trimStart (join " " words) = join " " words).
  { destruct Hws as [|w ws [Hw Hwne] _]; [congruence|].
    destruct w as [|c w]; [contradiction|].
    apply singleWord_cons in Hw as [Hc _].
    destruct ws as [|v ws]; [simpl; now rewrite Hc|].
    rewrite join_words_cons. cbn [append trimStart]. now rewrite Hc. }
  rewrite Hs. now apply join_words_trimEnd.
Qed.

Lemma splitSpacesFrom_word (w rest : string) :
  singleWord w = true ->
  forall inRun, w <> EmptyString \/ inRun = false ->
    splitSpacesFrom inRun (w ++ String " " rest)
    = w :: splitSpacesFrom true rest.
Proof.
  induction w as [|c w IH]; intros Hw inRun Hb.
  - destruct Hb as [Hb | ->]; [contradiction | reflexivity].
  - apply singleWord_cons in Hw as [Hc Hw].
    cbn [append splitSpacesFrom]. rewrite Hc.
    now rewrite (IH Hw false (or_intror eq_refl)).
Qed.

Lemma splitSpacesFrom_last (w : string) (inRun : bool) :
  word w -> splitSpacesFrom inRun w = [w].
Proof.
  intros [Hw Hne]. destruct w as [|c w]; [contradiction|].
  apply singleWord_cons in Hw as [Hc Hw].
  cbn [splitSpacesFrom]. rewrite Hc.
  now rewrite (singleWord_splitSpaces w Hw).
Qed.

Lemma splitSpacesFrom_join (words : list string) :
  Forall word words -> words <> [] ->
  forall inRun, splitSpacesFrom inRun (join " " words) = words.
Proof.
  induction 1 as [|w ws Hw Hws IH]; intros Hnil inRun; [congruence|].
  destruct ws as [|v ws]; [now apply splitSpacesFrom_last|].
  rewrite join_words_cons.
  rewrite splitSpacesFrom_word by (try apply Hw; left; apply Hw).
  f_equal. apply IH. discriminate.
Qed.

(** What [parseLine] makes of the fields of the name part. *)
Lemma npcOf_fields (words : list string) (src : string) :
  match words with
  | first :: second :: rest =>
      Some {| FlatFile.firstname := first;
              FlatFile.lastname := Some (join " " (second :: rest));
              FlatFile.source := src |}
  | [only] =>
      Some {| FlatFile.firstname := only;
              FlatFile.lastname := None;
              FlatFile.source := src |}
  | [] => None
  end = npcOf words src.
Proof. destruct words as [|w [|v ws]]; reflexivity. Qed.

Lemma parseLine_tagged (words : list string) (src : string) :
  Forall word words -> words <> [] -> singleWord src = true ->
  FlatFile.parseLine (taggedLine words src)
  = npcOf words (toLowerCase src).
Proof.
  intros Hws Hne Hs. unfold FlatFile.parseLine, taggedLine, includesSub.
  rewrite (lastIndexOf_append " | " (join " " words) _ 0
             (lastIndexOf_tag src Hs)).
  rewrite Nat.add_0_r. unfold substring, substringFrom.
  rewrite Nat.sub_0_r, substring_head.
  rewrite <- (append_assoc (join " " words) " | " src).
  replace (String.length (join " " words) + 3)
    with (String.length (join " " words ++ " | "))
    by (rewrite length_append; reflexivity).
  rewrite substring_tail, (word_trim src Hs).
  rewrite (join_words_trim words Hws Hne). unfold splitSpaces.
  rewrite (splitSpacesFrom_join words Hws Hne).
  apply npcOf_fields.
Qed.

(** A name without the word that is a bar alone holds no separator. *)
Lemma plain_no_tag (words : list string) :
  Forall word words -> Forall (fun w => w <> "|") words -> words <> [] ->
  lastIndexOf " | " (join " " words) = None
  /\ String.prefix "| " (join " " words) = false.
Proof.
  induction 1 as [|w ws [Hw Hwne] Hws IH]; intros Hbar Hnil;
    [congruence|].
  inversion Hbar as [|? ? Hwbar Hbars]; subst.
  destruct ws as [|v ws].
  - split; [now apply singleWord_no_tag | now apply word_no_bar_space].
  - destruct (IH Hbars ltac:(discriminate)) as [IHl IHp].
    rewrite join_words_cons. split.
    + assert (Hsep : lastIndexOf " | " (String " " (join " " (v :: ws)))
                     = None).
      { cbn [lastIndexOf]. rewrite IHl. cbn [String.prefix].
        destruct (Ascii.ascii_dec " " " ") as [_|n]; [|now contradiction n].
        now rewrite IHp. }
      clear Hwne Hwbar Hbar Hnil.
      induction w as [|c w IHw]; [exact Hsep|].
      apply singleWord_cons in Hw as [Hc Hw]. cbn [append lastIndexOf].
      rewrite (IHw Hw). cbn [String.prefix].
      destruct (Ascii.ascii_dec " " c) as [<-|]; [|reflexivity].
      rewrite space_is_space in Hc. discriminate.
    + destruct w as [|c w]; [contradiction|].
      cbn [append String.prefix].
      destruct (Ascii.ascii_dec "|" c) as [<-|]; [|reflexivity].
      apply singleWord_cons in Hw as [_ Hw].
      destruct w as [|d w]; [contradiction|].
      apply singleWord_cons in Hw as [Hd _].
      cbn [append String.prefix].
      destruct (Ascii.ascii_dec " " d) as [<-|]; [|reflexivity].
      rewrite space_is_space in Hd. discriminate.
Qed.

Lemma parseLine_plain (words : list string) :
  Forall word words -> Forall (fun w => w <> "|") words -> words <> [] ->
  FlatFile.parseLine (plainLine words) = npcOf words "vanilla".
Proof.
  intros Hws Hbar Hne. unfold FlatFile.parseLine, plainLine, includesSub.
  destruct (plain_no_tag words Hws Hbar Hne) as [-> _].
  unfold splitSpaces. rewrite (splitSpacesFrom_join words Hws Hne).
  apply npcOf_fields.
Qed.

End FlatRoundTrip.

(** ** Calls that end, and pairs of one source *)

Section Totality.
Import JS Runtime Pools Frame Session Sampling PoolSpec.

Lemma cross_generate_total (fuel : nat) (g : Generator.State)
  (random : Random) (count : nat) (sourceFilter : string) :
  count * Generator.maxAttemptsFactor <= fuel ->
  exists r, Generator.generate fuel g random count sourceFilter = Some r.
Proof.
  intros Hfuel.
  destruct (Generator.loaded g) eqn:Hl;
    [|unfold Generator.generate; rewrite Hl; eexists; reflexivity].
  destruct (Generator.getFirstnames g sourceFilter) as [|f fs] eqn:Hf;
    [unfold Generator.generate; rewrite Hl, Hf; eexists; reflexivity|].
  destruct (Generator.getLastnames g sourceFilter) as [|l ls] eqn:Hn;
    [unfold Generator.generate; rewrite Hl, Hf, Hn; eexists; reflexivity|].
  apply cross_generate_defined; [exact Hl | | | exact Hfuel];
    congruence.
Qed.

Lemma direct_generate_total (fuel : nat) (g : DirectPairs.State)
  (random : Random) (count : nat) (sourceFilter : string) :
  count * DirectPairs.maxAttemptsFactor <= fuel ->
  exists r, DirectPairs.generate fuel g random count sourceFilter = Some r.
Proof.
  intros Hfuel.
  destruct (DirectPairs.loaded g) eqn:Hl;
    [|unfold DirectPairs.generate; rewrite Hl; eexists; reflexivity].
  destruct (DirectPairs.getFirstnames g sourceFilter) as [|f fs] eqn:Hf;
    [unfold DirectPairs.generate; rewrite Hl, Hf; eexists; reflexivity|].
  destruct (DirectPairs.getLastnames g sourceFilter) as [|l ls] eqn:Hn;
    [unfold DirectPairs.generate; rewrite Hl, Hf, Hn; eexists; reflexivity|].
  apply direct_generate_defined; [exact Hl | | | exact Hfuel];
    congruence.
Qed.

Lemma flat_generate_total (fuel : nat) (g : FlatFile.State)
  (random : Random) (count : nat) (sourceFilter : string) :
  count * FlatFile.maxAttemptsFactor <= fuel ->
  exists r, FlatFile.generate fuel g random count sourceFilter = Some r.
Proof.
  intros Hfuel.
  destruct (FlatFile.loaded g) eqn:Hl;
    [|unfold FlatFile.generate; rewrite Hl; eexists; reflexivity].
  destruct (FlatFile.getFirstnames g sourceFilter) as [|f fs] eqn:Hf;
    [unfold FlatFile.generate; rewrite Hl, Hf; eexists; reflexivity|].
  destruct (FlatFile.getLastnames g sourceFilter) as [|l ls] eqn:Hn;
    [unfold FlatFile.generate; rewrite Hl, Hf, Hn; eexists; reflexivity|].
  apply flat_generate_defined; [exact Hl | | | exact Hfuel];
    congruence.
Qed.

(** When the records that pass the source filter are all of one source,
    [generate] of generator.js accepts nothing. *)
Lemma cross_one_source_empty (fuel : nat) (g : Generator.State)
  (random : Random) (count : nat) (sourceFilter : string)
  (r : Run Generator.State) (results : list Pair) :
  Coherent g ->
  (forall fn ln,
      In fn (bySourceFilter sourceFilter (Generator.allFirstnames g)) ->
      In ln (bySourceFilter sourceFilter (Generator.allLastnames g)) ->
      source fn = source ln) ->
  Generator.generate fuel g random count sourceFilter = Some r ->
  outcome r = Return results ->
  results = [].
Proof.
  intros Hg Hone Hrun Hout.
  destruct results as [|p rest]; [reflexivity|]. exfalso.
  destruct (cross_generate_returns _ _ _ _ _ _ _ Hrun Hout)
    as (_ & _ & attempted & Hs).
  destruct Hs as (_ & _ & _ & _ & Hres & _).
  destruct (Hres p (or_introl eq_refl)) as (_ & Hf & Hl & Hrej).
  apply getNames_In in Hf as (_ & fn & Hfn & Hfname).
  apply getNames_In in Hl as (_ & ln & Hln & Hlname).
  apply (cross_emitted_sources g (firstname p) (lastname p) fn ln Hg Hrej).
  - now apply bySourceFilter_In in Hfn.
  - now apply bySourceFilter_In in Hln.
  - now rewrite Hfname.
  - now rewrite Hlname.
  - now apply Hone.
Qed.

End Totality.

(** ** Letter case in the novelty checks *)

Section LetterCase.
Import JS Runtime Pools Frame Levenshtein.

Variables first first' last last' : string.
Hypothesis same_first : toLowerCase first = toLowerCase first'.
Hypothesis same_last : toLowerCase last = toLowerCase last'.

Lemma cross_check_case (g : Generator.State) :
  rejects g first last = rejects g first' last'.
Proof.
  unfold rejects, Generator.isTooSimilarToExisting.
  now rewrite same_first, same_last.
Qed.

Lemma distance_case (x : string) :
  levenshteinDistance first x = levenshteinDistance first' x.
Proof. unfold levenshteinDistance. now rewrite same_first. Qed.

Lemma full_name_case :
  toLowerCase (first ++ " " ++ last) = toLowerCase (first' ++ " " ++ last').
Proof. now rewrite !toLowerCase_append, same_first, same_last. Qed.

Lemma direct_check_case (g : DirectPairs.State) :
  DirectPairs.isTooSimilarToExisting g first last
  = DirectPairs.isTooSimilarToExisting g first' last'.
Proof.
  unfold DirectPairs.isTooSimilarToExisting.
  induction (DirectPairs.allFullnames g) as [|existing l IH];
    [reflexivity|].
  cbn [existsb]. rewrite IH. f_equal. unfold DirectPairs.matches.
  now rewrite full_name_case, same_first, same_last.
Qed.

Lemma flat_check_case (g : FlatFile.State) :
  FlatFile.isTooSimilarToExisting g first last
  = FlatFile.isTooSimilarToExisting g first' last'.
Proof.
  unfold FlatFile.isTooSimilarToExisting.
  induction (FlatFile.npcs g) as [|npc l IH]; [reflexivity|].
  cbn [existsb]. rewrite IH. f_equal. unfold FlatFile.matches.
  destruct (FlatFile.lastname npc) as [npcLast|]; [|reflexivity].
  unfold areTooSimilar.
  rewrite full_name_case, same_last.
  now rewrite (distance_case (FlatFile.firstname npc)).
Qed.

End LetterCase.

(** ** The click handlers *)

Section Handlers.
Import JS Runtime Pools Frame Session Sampling Dom.

Lemma loadData_cases (g : Generator.State) (world : World)
  (race sex : string) :
  let done := Generator.loadData g world race sex in
  (fst done = Throw ("No firstnames found for " ++ race ++ " " ++ sex)
   /\ Generator.loaded (snd done) = false)
  \/ (fst done = Throw ("No lastnames found for " ++ race)
      /\ Generator.loaded (snd done) = false)
  \/ (fst done = Return true /\ Generator.loaded (snd done) = true).
Proof.
  unfold Generator.loadData.
  destruct (length _ =? 0); [left; now split|].
  destruct (length _ =? 0); [right; left; now split|].
  right. right. now split.
Qed.

(** On a loaded object [generate] of generator.js throws for an empty
    pool, or because the pair set cannot be built. *)
Lemma cross_generate_throws (fuel : nat) (g : Generator.State)
  (random : Random) (count : nat) (sourceFilter : string)
  (r : Run Generator.State) (message : string) :
  Generator.loaded g = true ->
  Generator.generate fuel g random count sourceFilter = Some r ->
  outcome r = Throw message ->
  (after r = g
   /\ (message
       = "No firstnames available (check source filter and blacklist)"
       \/ message
          = "No lastnames available (check source filter and blacklist)"))
  \/ (after r = Generator.setCache g (Some [])
      /\ Generator.existingPairs g = Throw message).
Proof.
  intros Hl Hrun Hout.
  destruct (cross_generate_throws_cases _ _ _ _ _ _ _ Hrun Hout)
    as [[-> Hm] | (-> & Hthrow & _)]; [left | right; now split].
  split; [reflexivity|].
  destruct Hm as [[_ Hno] | [_ Hm]]; [congruence | exact Hm].
Qed.

Lemma sameData_stats (g g' : Generator.State) (sourceFilter : string) :
  sameData g g' ->
  Generator.getStats g' sourceFilter = Generator.getStats g sourceFilter
  /\ Generator.getFirstnames g' sourceFilter
     = Generator.getFirstnames g sourceFilter
  /\ Generator.getLastnames g' sourceFilter
     = Generator.getLastnames g sourceFilter.
Proof. intros [-> | ->]; repeat split. Qed.

End Handlers.

(** ** Blacklists across loads *)

Section BlacklistsAcrossLoads.
Import JS Runtime Pools.

Lemma loadData_blacklists (g : Generator.State) (world : World)
  (race sex : string) :
  Generator.blacklistedFirstnames
    (snd (Generator.loadData g world race sex))
  = Generator.loadBlacklist world "npcs/blacklist_firstnames.txt"
      (Generator.blacklistedFirstnames g)
  /\ Generator.blacklistedLastnames
       (snd (Generator.loadData g world race sex))
     = Generator.loadBlacklist world "npcs/blacklist_lastnames.txt"
         (Generator.blacklistedLastnames g).
Proof.
  unfold Generator.loadData.
  destruct (length _ =? 0); [now split|].
  destruct (length _ =? 0); now split.
Qed.

Lemma direct_loadData_blacklists (g : DirectPairs.State) (world : World)
  (race sex : string) :
  DirectPairs.blacklistedFirstnames
    (snd (DirectPairs.loadData g world race sex))
  = DirectPairs.loadBlacklist world "npcs/blacklist_firstnames.txt"
      (DirectPairs.blacklistedFirstnames g)
  /\ DirectPairs.blacklistedLastnames
       (snd (DirectPairs.loadData g world race sex))
     = DirectPairs.loadBlacklist world "npcs/blacklist_lastnames.txt"
         (DirectPairs.blacklistedLastnames g).
Proof.
  unfold DirectPairs.loadData.
  destruct (length _ =? 0); [now split|].
  destruct (length _ =? 0); now split.
Qed.

End BlacklistsAcrossLoads.

Section DefaultSources.
Import JS Runtime Pools Novelty Loading PoolSpec.

(** Without a manifest the records bear the tags of the default
    files. *)
Lemma loadDirectory_default_sources (world : World) (basePath : string)
  (r : NameRecord) :
  manifestFiles world basePath = None ->
  In r (loadDirectory world basePath) ->
  source r = "vanilla" \/ source r = "tr"
  \/ source r = "sky" \/ source r = "pc".
Proof.
  intros Hnone. rewrite loadDirectory_flat_map, in_flat_map.
  unfold listedFiles. rewrite Hnone. cbn [keepFirst].
  rewrite app_nil_r. intros (filename & Hfile & Hr).
  unfold fileRecords in Hr.
  destruct (fetch world (basePath ++ "/" ++ filename)) as [text| |];
    try contradiction.
  apply in_map_iff in Hr as (n & <- & _). cbn [source].
  destruct Hfile as [<- | [<- | [<- | [<- | []]]]]; cbn; tauto.
Qed.

Lemma loadData_records (g : Generator.State) (world : World)
  (race sex : string) :
  Generator.allFirstnames (snd (Generator.loadData g world race sex))
  = loadDirectory world ("npcs/" ++ race ++ "/firstnames_" ++ sex)
  /\ Generator.allLastnames (snd (Generator.loadData g world race sex))
     = loadDirectory world ("npcs/" ++ race ++ "/lastnames").
Proof.
  unfold Generator.loadData.
  destruct (length _ =? 0); [now split|].
  destruct (length _ =? 0); now split.
Qed.

End DefaultSources.

Section MoreHandlers.
Import JS Runtime Pools Frame Session Sampling Dom.

Lemma direct_loadData_cases (g : DirectPairs.State) (world : World)
  (race sex : string) :
  let done := DirectPairs.loadData g world race sex in
  (fst done = Throw ("No firstnames found for " ++ race ++ " " ++ sex)
   /\ DirectPairs.loaded (snd done) = false)
  \/ (fst done = Throw ("No lastnames found for " ++ race)
      /\ DirectPairs.loaded (snd done) = false)
  \/ (fst done = Return true /\ DirectPairs.loaded (snd done) = true).
Proof.
  unfold DirectPairs.loadData.
  destruct (length _ =? 0); [left; now split|].
  destruct (length _ =? 0); [right; left; now split|].
  right. right. now split.
Qed.

Lemma direct_generate_throws (fuel : nat) (g : DirectPairs.State)
  (random : Random) (count : nat) (sourceFilter : string)
  (r : Run DirectPairs.State) (message : string) :
  DirectPairs.loaded g = true ->
  DirectPairs.generate fuel g random count sourceFilter = Some r ->
  outcome r = Throw message ->
  after r = g
  /\ (message
      = "No firstnames available (check source filter and blacklist)"
      \/ message
         = "No lastnames available (check source filter and blacklist)").
Proof.
  intros Hl Hrun Hout. unfold DirectPairs.generate in Hrun.
  rewrite Hl in Hrun. cbn [negb] in Hrun.
  destruct (length (DirectPairs.getFirstnames g sourceFilter) =? 0).
  { injection Hrun as <-. cbn [outcome] in Hout. injection Hout as <-.
    split; [reflexivity | now left]. }
  destruct (length (DirectPairs.getLastnames g sourceFilter) =? 0).
  { injection Hrun as <-. cbn [outcome] in Hout. injection Hout as <-.
    split; [reflexivity | now right]. }
  destruct (while _ _ _ _); [|discriminate].
  injection Hrun as <-. discriminate Hout.
Qed.

Lemma flat_loadData_cases (g : FlatFile.State) (world : World)
  (race sex : string) :
  let done := FlatFile.loadData g world race sex in
  (fst done = Throw ("No data found for " ++ race ++ " " ++ sex)
   /\ fetch world ("npcs/" ++ race ++ "_" ++ sex ++ ".txt") = NotOk)
  \/ (exists message,
        fst done = Throw message
        /\ fetch world ("npcs/" ++ race ++ "_" ++ sex ++ ".txt")
           = Rejected message)
  \/ (fst done = Return true /\ FlatFile.loaded (snd done) = true).
Proof.
  unfold FlatFile.loadData.
  destruct (fetch world _) as [text| |message].
  - right. right. now split.
  - left. now split.
  - right. left. now exists message.
Qed.

Lemma flat_generate_throws (fuel : nat) (g : FlatFile.State)
  (random : Random) (count : nat) (sourceFilter : string)
  (r : Run FlatFile.State) (message : string) :
  FlatFile.loaded g = true ->
  FlatFile.generate fuel g random count sourceFilter = Some r ->
  outcome r = Throw message ->
  after r = g
  /\ (message = "No firstnames available"
      \/ message = "No lastnames available (all may be blacklisted)").
Proof.
  intros Hl Hrun Hout. unfold FlatFile.generate in Hrun.
  rewrite Hl in Hrun. cbn [negb] in Hrun.
  destruct (length (FlatFile.getFirstnames g sourceFilter) =? 0).
  { injection Hrun as <-. cbn [outcome] in Hout. injection Hout as <-.
    split; [reflexivity | now left]. }
  destruct (length (FlatFile.getLastnames g sourceFilter) =? 0).
  { injection Hrun as <-. cbn [outcome] in Hout. injection Hout as <-.
    split; [reflexivity | now right]. }
  destruct (while _ _ _ _); [|discriminate].
  injection Hrun as <-. discriminate Hout.
Qed.

(** The list items follow the markup that was there. *)
Lemma appendItems_append (names : list Pair) :
  forall html,
    appendItems html names = (html ++ appendItems EmptyString names)%string.
Proof.
  induction names as [|n names IH]; intros html; cbn [appendItems fold_left].
  - clear. induction html as [|c html IH]; simpl; [reflexivity|].
    now rewrite <- IH.
  - fold (appendItems
            (html ++ "<li>" ++ firstname n ++ " " ++ lastname n ++ "</li>")
            names).
    fold (appendItems
            (EmptyString ++ "<li>" ++ firstname n ++ " " ++ lastname n
               ++ "</li>") names).
    rewrite IH, (IH (EmptyString ++ _)%string). cbn [append].
    now rewrite append_assoc.
Qed.

(** The markup of an error and the markup of a list of names differ in
    their thirteenth code unit. *)
Lemma errorHtml_get (message : string) :
  String.get 12 (Generator.errorHtml message) = Some "e"%char.
Proof. reflexivity. Qed.

Lemma listHtml_get (names : list Pair) (rest : string) :
  String.get 12 (listHtml names ++ rest) = Some "r"%char.
Proof.
  unfold listHtml. rewrite appendItems_append. reflexivity.
Qed.

End MoreHandlers.

(** ** Calls that follow each other *)

Section RelatedLoops.
Import Runtime.

Context {S S' : Type}.
Variables (cond : S -> bool) (body : S -> S).
Variables (cond' : S' -> bool) (body' : S' -> S').
Variable R : S -> S' -> Prop.

Hypothesis cond_related : forall s s', R s s' -> cond s = cond' s'.
Hypothesis body_related : forall s s', R s s' -> R (body s) (body' s').

(** Two loops that start from related variables, test the same and keep
    the relation end together, with related variables. *)
Lemma while_related (fuel : nat) :
  forall s s', R s s' ->
    match while cond body fuel s, while cond' body' fuel s' with
    | Some t, Some t' => R t t'
    | None, None => True
    | _, _ => False
    end.
Proof.
  induction fuel as [|fuel IH]; intros s s' HR; simpl;
    rewrite <- (cond_related s s' HR); destruct (cond s);
    try exact I; try exact HR.
  apply IH. now apply body_related.
Qed.

End RelatedLoops.

Section RepeatedCalls.
Import JS Runtime Pools Frame Session Sampling.

Let related (g : Generator.State) (s s' : Generator.Loop) : Prop :=
  sameData g (Generator.this s) /\ sameData g (Generator.this s')
  /\ Generator.results s = Generator.results s'
  /\ Generator.attempted s = Generator.attempted s'
  /\ Generator.attempts s = Generator.attempts s'
  /\ Generator.calls s = Generator.calls s'
  /\ Generator.failure s = Generator.failure s'.

Lemma cross_body_related (g : Generator.State) (random : Random)
  (firstnames lastnames : list string) (s s' : Generator.Loop) :
  checks g ->
  related g s s' ->
  related g (Generator.body random firstnames lastnames s)
    (Generator.body random firstnames lastnames s').
Proof.
  intros Hcheck (Hs & Hs' & Hr & Ha & Hn & Hc & Hfail).
  unfold Generator.body.
  rewrite <- Hr, <- Ha, <- Hn, <- Hc, <- Hfail.
  destruct (includes (Generator.attempted s) _);
    [now repeat split|].
  rewrite (check_sameData g (Generator.this s) _ _ Hcheck Hs).
  rewrite (check_sameData g (Generator.this s') _ _ Hcheck Hs').
  destruct (rejects g _ _); repeat split; now right.
Qed.

(** When the check returns on an object, [generate] of generator.js
    does the same on the object and on the object with its cache
    filled. *)
Lemma cross_generate_sameData (fuel : nat) (g g' : Generator.State)
  (random : Random) (count : nat) (sourceFilter : string) :
  checks g ->
  sameData g g' ->
  option_map observed
    (Generator.generate fuel g' random count sourceFilter)
  = option_map observed
      (Generator.generate fuel g random count sourceFilter).
Proof.
  intros Hcheck Hsame.
  destruct (sameData_stats g g' sourceFilter Hsame) as (_ & Hf & Hl).
  assert (Hloaded : Generator.loaded g' = Generator.loaded g)
    by (now destruct Hsame as [-> | ->]).
  unfold Generator.generate. rewrite Hloaded, Hf, Hl.
  destruct (negb (Generator.loaded g)); [reflexivity|].
  destruct (length (Generator.getFirstnames g sourceFilter) =? 0);
    [reflexivity|].
  destruct (length (Generator.getLastnames g sourceFilter) =? 0);
    [reflexivity|].
  pose proof (while_related
                (Generator.cond count (count * Generator.maxAttemptsFactor))
                (Generator.body random
                   (Generator.getFirstnames g sourceFilter)
                   (Generator.getLastnames g sourceFilter))
                (Generator.cond count (count * Generator.maxAttemptsFactor))
                (Generator.body random
                   (Generator.getFirstnames g sourceFilter)
                   (Generator.getLastnames g sourceFilter))
                (related g)) as Hloop.
  assert (Hcond : forall s s', related g s s' ->
            Generator.cond count (count * Generator.maxAttemptsFactor) s
            = Generator.cond count (count * Generator.maxAttemptsFactor) s').
  { intros s s' (_ & _ & Hr & _ & Hn & _ & Hfail). unfold Generator.cond.
    now rewrite Hr, Hn, Hfail. }
  assert (Hstart : related g (Generator.start g') (Generator.start g))
    by (repeat split; [exact Hsame | now left]).
  specialize (Hloop Hcond
                (fun s s' => cross_body_related g random _ _ s s' Hcheck)
                fuel (Generator.start g') (Generator.start g) Hstart).
  destruct (while _ _ fuel (Generator.start g')) as [t|];
    destruct (while _ _ fuel (Generator.start g)) as [t'|];
    try contradiction; [|reflexivity].
  destruct Hloop as (_ & _ & Hr & _ & Hn & Hc & Hfail).
  unfold observed. cbn [option_map outcome randomCalls iterations].
  now rewrite Hr, Hn, Hc, Hfail.
Qed.

Lemma direct_generate_after (fuel : nat) (g : DirectPairs.State)
  (random : Random) (count : nat) (sourceFilter : string)
  (r : Run DirectPairs.State) :
  DirectPairs.generate fuel g random count sourceFilter = Some r ->
  after r = g.
Proof.
  unfold DirectPairs.generate.
  destruct (negb _); [now intros [= <-]|].
  destruct (length _ =? 0); [now intros [= <-]|].
  destruct (length _ =? 0); [now intros [= <-]|].
  destruct (while _ _ _ _); [now intros [= <-] | discriminate].
Qed.

Lemma flat_generate_after (fuel : nat) (g : FlatFile.State)
  (random : Random) (count : nat) (sourceFilter : string)
  (r : Run FlatFile.State) :
  FlatFile.generate fuel g random count sourceFilter = Some r ->
  after r = g.
Proof.
  unfold FlatFile.generate.
  destruct (negb _); [now intros [= <-]|].
  destruct (length _ =? 0); [now intros [= <-]|].
  destruct (length _ =? 0); [now intros [= <-]|].
  destruct (while _ _ _ _); [now intros [= <-] | discriminate].
Qed.

End RepeatedCalls.

(** * Further properties of the code *)

Section DistanceProperties.
Import JS EditDistance Levenshtein.

(** X1. [levenshteinDistance] satisfies the triangle inequality: the
    way from [a] to [c] takes no more edits than the way from [a] to [b]
    followed by the way from [b] to [c]. *)
Theorem levenshteinDistance_triangle (a b c : string) :
  levenshteinDistance a c
  <= levenshteinDistance a b + levenshteinDistance b c.
Proof. apply distance_triangle. Qed.

(** X2. [levenshteinDistance] is at most the length of the longer of
    the two lower-cased strings, and at least the difference of their
    lengths. *)
Theorem levenshteinDistance_length_bounds (a b : string) :
  levenshteinDistance a b
  <= Nat.max (String.length (toLowerCase a)) (String.length (toLowerCase b))
  /\ String.length (toLowerCase a)
     <= String.length (toLowerCase b) + levenshteinDistance a b
  /\ String.length (toLowerCase b)
     <= String.length (toLowerCase a) + levenshteinDistance a b.
Proof. split; [apply distance_le_max | apply distance_lengths]. Qed.

(** X3. [levenshteinDistance] does not see letter case, and it is 0
    exactly between two strings that are equal up to letter case. *)
Theorem levenshteinDistance_letter_case :
  (forall a b,
      levenshteinDistance (toLowerCase a) (toLowerCase b)
      = levenshteinDistance a b)
  /\ (forall a b,
        levenshteinDistance a b = 0 <-> toLowerCase a = toLowerCase b).
Proof.
  split; [apply levenshteinDistance_lower | apply distance_zero].
Qed.

(** X4. A prefix and a suffix that two strings share do not count,
    when lower-casing the whole strings lower-cases their parts:
    [levenshteinDistance] of [p ++ a ++ s] and [p ++ b ++ s] is then
    that of [a] and [b]. *)
Theorem levenshteinDistance_common_affixes (p s a b : string) :
  toLowerCase (p ++ a ++ s)
  = (toLowerCase p ++ toLowerCase a ++ toLowerCase s)%string ->
  toLowerCase (p ++ b ++ s)
  = (toLowerCase p ++ toLowerCase b ++ toLowerCase s)%string ->
  levenshteinDistance (p ++ a ++ s) (p ++ b ++ s)
  = levenshteinDistance a b.
Proof. apply distance_affixes. Qed.

Lemma levenshteinDistance_common_affixes_witness :
  levenshteinDistance ("Ser " ++ "Aryon" ++ " Savel")
    ("Ser " ++ "Aryan" ++ " Savel")
  = levenshteinDistance "Aryon" "Aryan".
Proof.
  apply (levenshteinDistance_common_affixes "Ser " " Savel" "Aryon" "Aryan");
    reflexivity.
Defined.

(** X5. [areTooSimilar] is symmetric; a name is too similar to itself
    for every threshold above 0; raising the threshold keeps an answer
    true; and two answers true in a row, for the thresholds [s] and
    [t], give an answer true for the threshold [s + t - 1]. *)
Theorem areTooSimilar_relation :
  (forall a b t, areTooSimilar a b t = areTooSimilar b a t)
  /\ (forall a t, areTooSimilar a a t = (0 <? t))
  /\ (forall a b t t',
        t <= t' -> areTooSimilar a b t = true ->
        areTooSimilar a b t' = true)
  /\ (forall a b c s t,
        areTooSimilar a b s = true -> areTooSimilar b c t = true ->
        areTooSimilar a c (s + t - 1) = true).
Proof.
  split; [apply areTooSimilar_symmetric|].
  split; [intros a t; unfold areTooSimilar;
          now rewrite levenshteinDistance_same|].
  split.
  - intros a b t t' Ht. unfold areTooSimilar. rewrite !Nat.ltb_lt. lia.
  - intros a b c s t. unfold areTooSimilar. rewrite !Nat.ltb_lt.
    pose proof (distance_triangle a b c). lia.
Qed.

Lemma areTooSimilar_relation_witness :
  areTooSimilar "Aryon" "Bryan" (3 + 3 - 1) = true.
Proof.
  apply (proj2 (proj2 (proj2 areTooSimilar_relation))
           "Aryon" "Aryan" "Bryan" 3 3); vm_compute; reflexivity.
Defined.

(** X6. Two names whose lower-cased forms differ in length by the
    threshold or more are never too similar. *)
Theorem areTooSimilar_length_gap (a b : string) (threshold : nat) :
  String.length (toLowerCase a) + threshold <= String.length (toLowerCase b)
  \/ String.length (toLowerCase b) + threshold
     <= String.length (toLowerCase a) ->
  areTooSimilar a b threshold = false.
Proof.
  intros H. unfold areTooSimilar. apply Nat.ltb_ge.
  pose proof (distance_lengths a b). lia.
Qed.

Lemma areTooSimilar_length_gap_witness :
  areTooSimilar "Jo" "Dilborn" 3 = false.
Proof.
  apply (areTooSimilar_length_gap "Jo" "Dilborn" 3). left. simpl. lia.
Defined.

End DistanceProperties.

Section NameFileProperties.
Import JS Runtime Pools Novelty Loading PoolSpec Samples Scenarios.

(** X7. Every name that [parseNameFile] returns is not empty, has no
    white space around it, is no comment line and holds no line
    feed. *)
Theorem parseNameFile_names_are_clean (text n : string) :
  In n (parseNameFile text) ->
  n <> EmptyString
  /\ trim n = n
  /\ startsWith n "#" = false
  /\ without "010" n = true.
Proof. apply parseNameFile_clean. Qed.

Lemma parseNameFile_names_are_clean_witness :
  "Aryon" <> EmptyString
  /\ trim "Aryon" = "Aryon"
  /\ startsWith "Aryon" "#" = false
  /\ without "010" "Aryon" = true.
Proof.
  apply (parseNameFile_names_are_clean untidyText "Aryon").
  vm_compute. now left.
Defined.

(** X8. [parseNameFile] reads two texts with a line feed between them
    as the names of the first followed by the names of the second, and
    it reads back a list of clean names that was written with line
    feeds between them, with carriage returns and line feeds between
    them, or with a line feed after each. *)
Theorem parseNameFile_round_trip :
  (forall a b,
      parseNameFile (a ++ String "010" b)
      = parseNameFile a ++ parseNameFile b)
  /\ (forall names,
        Forall cleanName names ->
        parseNameFile (join (String "010" EmptyString) names) = names
        /\ parseNameFile
             (join (String "013" (String "010" EmptyString)) names)
           = names
        /\ parseNameFile (fileOf names) = names).
Proof.
  split; [apply parseNameFile_append|]. intros names H.
  split; [now apply parseNameFile_join|].
  split; [now apply parseNameFile_join_crlf|].
  now apply parseNameFile_fileOf.
Qed.

Lemma parseNameFile_round_trip_witness :
  parseNameFile (join (String "010" EmptyString) ["Aryon"; "Dilborn"])
  = ["Aryon"; "Dilborn"]
  /\ parseNameFile
       (join (String "013" (String "010" EmptyString)) ["Aryon"; "Dilborn"])
     = ["Aryon"; "Dilborn"]
  /\ parseNameFile (fileOf ["Aryon"; "Dilborn"]) = ["Aryon"; "Dilborn"].
Proof.
  apply (proj2 parseNameFile_round_trip ["Aryon"; "Dilborn"]).
  repeat constructor; discriminate.
Defined.

(** X9. [parseBlacklist] reads a blacklist file like a name file and
    keeps each name once, lower-cased; so a name is blacklisted exactly
    when the file lists it in some letter case.  The flat-file variant
    reads its blacklist in the same way. *)
Theorem parseBlacklist_lists_lower_cased_names (text : string) :
  parseBlacklist text = newSet (map toLowerCase (parseNameFile text))
  /\ FlatFile.parseBlacklist text = parseBlacklist text
  /\ NoDup (parseBlacklist text)
  /\ (forall n,
        blacklisted (parseBlacklist text) n = true
        <-> exists m,
              In m (parseNameFile text)
              /\ toLowerCase m = toLowerCase n).
Proof.
  split; [apply parseBlacklist_parseNameFile|].
  split; [reflexivity|]. split.
  - rewrite parseBlacklist_parseNameFile. apply NoDup_newSet.
  - intros n. unfold blacklisted.
    rewrite includes_In, parseBlacklist_parseNameFile, In_newSet.
    rewrite in_map_iff. split; intros (m & H1 & H2); exists m; now split.
Qed.

(** X10. [loadDirectory] returns what the default files contribute, in
    their order, followed by what the files of the manifest contribute
    that are no default files, each once and in the order of its first
    entry; a file that is not served contributes nothing.  The records
    of a file whose stem holds no dot are tagged with the stem. *)
Theorem loadDirectory_reads_files_in_order :
  (forall world basePath,
      exists extra,
        PoolOf (includes defaultFiles) (fun f => f)
          (listedFiles world basePath) extra
        /\ loadDirectory world basePath
           = flat_map (fileRecords world basePath) (defaultFiles ++ extra))
  /\ (forall world basePath stem text,
        without "." stem = true ->
        fetch world (basePath ++ "/" ++ stem ++ ".txt") = Ok text ->
        fileRecords world basePath (stem ++ ".txt")
        = map (fun n => {| name := n; source := stem |})
            (parseNameFile text)).
Proof.
  split.
  - intros world basePath.
    exists (keepFirst (includes defaultFiles) (fun f => f) []
              (listedFiles world basePath)).
    split; [|apply loadDirectory_flat_map].
    apply keepFirst_pool. now intros m n ->.
  - intros world basePath stem text Hstem Hfetch. unfold fileRecords.
    now rewrite Hfetch, (replace_extension stem Hstem).
Qed.

Lemma loadDirectory_reads_files_in_order_witness :
  fileRecords customWorld "npcs/darkelf/firstnames_male" ("custom" ++ ".txt")
  = map (fun n => {| name := n; source := "custom" |})
      (parseNameFile (fileOf ["Vedam"])).
Proof.
  apply (proj2 loadDirectory_reads_files_in_order customWorld
           "npcs/darkelf/firstnames_male" "custom" (fileOf ["Vedam"]));
    reflexivity.
Defined.

(** X11. Every record that [loadDirectory] returns bears a clean name
    that stands in a served file of the directory, a default file or a
    file of the manifest, and is tagged with the name of that file
    without its first [.txt]; without a manifest the tag is vanilla, tr,
    sky or pc. *)
Theorem loadDirectory_tags_records (world : World) (basePath : string)
  (r : NameRecord) :
  In r (loadDirectory world basePath) ->
  cleanName (name r)
  /\ (exists filename text,
        (In filename defaultFiles
         \/ In filename (listedFiles world basePath))
        /\ fetch world (basePath ++ "/" ++ filename) = Ok text
        /\ In (name r) (parseNameFile text)
        /\ source r = replace filename ".txt" "")
  /\ (manifestFiles world basePath = None ->
      source r = "vanilla" \/ source r = "tr"
      \/ source r = "sky" \/ source r = "pc").
Proof.
  rewrite loadDirectory_flat_map, in_flat_map.
  intros (filename & Hfile & Hr). unfold fileRecords in Hr.
  destruct (fetch world (basePath ++ "/" ++ filename)) as [text| |] eqn:Hf;
    try contradiction.
  apply in_map_iff in Hr as (n & <- & Hn). cbn [name source].
  split; [now apply parseNameFile_clean with (text := text)|]. split.
  - exists filename, text. split; [|now repeat split].
    apply in_app_or in Hfile as [Hd | He]; [now left | right].
    now apply keepFirst_In in He as (He & _).
  - intros Hnone. unfold listedFiles in Hfile. rewrite Hnone in Hfile.
    cbn [keepFirst] in Hfile. rewrite app_nil_r in Hfile.
    destruct Hfile as [<- | [<- | [<- | [<- | []]]]]; cbn; tauto.
Qed.

Lemma loadDirectory_tags_records_witness :
  cleanName "Vedam"
  /\ (exists filename text,
        (In filename defaultFiles
         \/ In filename
              (listedFiles customWorld "npcs/darkelf/firstnames_male"))
        /\ fetch customWorld
             ("npcs/darkelf/firstnames_male" ++ "/" ++ filename)
           = Ok text
        /\ In "Vedam" (parseNameFile text)
        /\ "custom" = replace filename ".txt" "")
  /\ (manifestFiles customWorld "npcs/darkelf/firstnames_male" = None ->
      "custom" = "vanilla" \/ "custom" = "tr"
      \/ "custom" = "sky" \/ "custom" = "pc").
Proof.
  apply (loadDirectory_tags_records customWorld
           "npcs/darkelf/firstnames_male"
           {| name := "Vedam"; source := "custom" |}).
  vm_compute. right. now left.
Defined.

End NameFileProperties.

Section SessionProperties.
Import JS Runtime Pools Novelty Loading PoolSpec Frame Session Sampling
  Samples Scenarios.

(** X12. In generator.js and in the direct-pairs variant a blacklist
    survives a [loadData] whose blacklist file is answered by a response
    that is not ok: the names that were blacklisted before stay out of
    the pools.  A failed [fetch] empties the blacklist instead, and the
    flat-file variant empties its blacklist in both cases, once its NPC
    file is served; when the NPC file is not served it keeps its
    blacklist as it was. *)
Theorem loadData_keeps_blacklist_when_file_is_missing :
  (forall g world race sex sourceFilter n,
      fetch world "npcs/blacklist_firstnames.txt" = NotOk ->
      blacklisted (Generator.blacklistedFirstnames g) n = true ->
      ~ In n (Generator.getFirstnames
                (snd (Generator.loadData g world race sex)) sourceFilter))
  /\ (forall g world race sex sourceFilter n,
        fetch world "npcs/blacklist_lastnames.txt" = NotOk ->
        blacklisted (Generator.blacklistedLastnames g) n = true ->
        ~ In n (Generator.getLastnames
                  (snd (Generator.loadData g world race sex)) sourceFilter))
  /\ (forall g world race sex sourceFilter n,
        fetch world "npcs/blacklist_firstnames.txt" = NotOk ->
        blacklisted (DirectPairs.blacklistedFirstnames g) n = true ->
        ~ In n (DirectPairs.getFirstnames
                  (snd (DirectPairs.loadData g world race sex))
                  sourceFilter))
  /\ (forall g world race sex message,
        fetch world "npcs/blacklist_firstnames.txt" = Rejected message ->
        Generator.blacklistedFirstnames
          (snd (Generator.loadData g world race sex)) = [])
  /\ (forall g world race sex text,
        fetch world ("npcs/" ++ race ++ "_" ++ sex ++ ".txt") = Ok text ->
        (forall blacklistText,
            fetch world "npcs/blacklist.txt" <> Ok blacklistText) ->
        FlatFile.blacklistedLastnames
          (snd (FlatFile.loadData g world race sex)) = [])
  /\ (forall g world race sex message,
        fetch world "npcs/blacklist_lastnames.txt" = Rejected message ->
        Generator.blacklistedLastnames
          (snd (Generator.loadData g world race sex)) = [])
  /\ (forall g world race sex sourceFilter n,
        fetch world "npcs/blacklist_lastnames.txt" = NotOk ->
        blacklisted (DirectPairs.blacklistedLastnames g) n = true ->
        ~ In n (DirectPairs.getLastnames
                  (snd (DirectPairs.loadData g world race sex))
                  sourceFilter))
  /\ (forall g world race sex message,
        fetch world "npcs/blacklist_firstnames.txt" = Rejected message ->
        DirectPairs.blacklistedFirstnames
          (snd (DirectPairs.loadData g world race sex)) = [])
  /\ (forall g world race sex message,
        fetch world "npcs/blacklist_lastnames.txt" = Rejected message ->
        DirectPairs.blacklistedLastnames
          (snd (DirectPairs.loadData g world race sex)) = [])
  /\ (forall g world race sex,
        (forall text,
            fetch world ("npcs/" ++ race ++ "_" ++ sex ++ ".txt")
            <> Ok text) ->
        FlatFile.blacklistedLastnames
          (snd (FlatFile.loadData g world race sex))
        = FlatFile.blacklistedLastnames g).
Proof.
  split; [|split; [|split; [|split; [|split; [|split; [|split;
    [|split; [|split]]]]]]]].
  - intros g world race sex sourceFilter n Hfetch Hb Hin.
    apply getNames_In in Hin as [Hfree _].
    destruct (loadData_blacklists g world race sex) as [Hf _].
    rewrite Hf in Hfree. unfold Generator.loadBlacklist in Hfree.
    rewrite Hfetch in Hfree. congruence.
  - intros g world race sex sourceFilter n Hfetch Hb Hin.
    apply getNames_In in Hin as [Hfree _].
    destruct (loadData_blacklists g world race sex) as [_ Hl].
    rewrite Hl in Hfree. unfold Generator.loadBlacklist in Hfree.
    rewrite Hfetch in Hfree. congruence.
  - intros g world race sex sourceFilter n Hfetch Hb Hin.
    apply getNames_In in Hin as [Hfree _].
    destruct (direct_loadData_blacklists g world race sex) as [Hf _].
    rewrite Hf in Hfree. unfold DirectPairs.loadBlacklist in Hfree.
    rewrite Hfetch in Hfree. congruence.
  - intros g world race sex message Hfetch.
    destruct (loadData_blacklists g world race sex) as [-> _].
    unfold Generator.loadBlacklist. now rewrite Hfetch.
  - intros g world race sex text Hfetch Hnone. unfold FlatFile.loadData.
    rewrite Hfetch. cbn [snd FlatFile.blacklistedLastnames].
    destruct (fetch world "npcs/blacklist.txt") as [blacklistText| |];
      [now elim (Hnone blacklistText) | reflexivity | reflexivity].
  - intros g world race sex message Hfetch.
    destruct (loadData_blacklists g world race sex) as [_ ->].
    unfold Generator.loadBlacklist. now rewrite Hfetch.
  - intros g world race sex sourceFilter n Hfetch Hb Hin.
    apply getNames_In in Hin as [Hfree _].
    destruct (direct_loadData_blacklists g world race sex) as [_ Hl].
    rewrite Hl in Hfree. unfold DirectPairs.loadBlacklist in Hfree.
    rewrite Hfetch in Hfree. congruence.
  - intros g world race sex message Hfetch.
    destruct (direct_loadData_blacklists g world race sex) as [-> _].
    unfold DirectPairs.loadBlacklist. now rewrite Hfetch.
  - intros g world race sex message Hfetch.
    destruct (direct_loadData_blacklists g world race sex) as [_ ->].
    unfold DirectPairs.loadBlacklist. now rewrite Hfetch.
  - intros g world race sex Hnone. unfold FlatFile.loadData.
    destruct (fetch world ("npcs/" ++ race ++ "_" ++ sex ++ ".txt"))
      as [text| |]; [now elim (Hnone text) | reflexivity | reflexivity].
Qed.

Lemma loadData_keeps_blacklist_when_file_is_missing_witness :
  ~ In "Aryon" (Generator.getFirstnames reloaded "all").
Proof.
  apply (proj1 loadData_keeps_blacklist_when_file_is_missing
           blacklistLoaded reloadWorld "darkelf" "male" "all" "Aryon");
    vm_compute; reflexivity.
Defined.

(** X13. Whatever sequence of [loadData], [isTooSimilarToExisting],
    [generate], [buildExistingCombinations] and clicks led to an object
    of generator.js: [existingCombinations] is empty, and the pair cache
    is absent, or holds the pairs of the names loaded now, or was left
    empty by a build that threw and would throw again.  In the first
    two cases the check ends as it would without a cache; in the third
    it lets every pair through, while without the cache it would throw.
    The third case needs a loaded source that is named like an
    inherited property. *)
Theorem reachable_cache_is_settled (g : Generator.State) :
  Reachable g ->
  Generator.existingCombinations g = []
  /\ (Coherent g \/ Emptied g)
  /\ (Coherent g ->
      forall first last,
        fst (Generator.isTooSimilarToExisting g first last)
        = fst (Generator.isTooSimilarToExisting (Generator.setCache g None)
                 first last))
  /\ (Emptied g ->
      forall first last,
        fst (Generator.isTooSimilarToExisting g first last) = Return false
        /\ exists message,
             fst (Generator.isTooSimilarToExisting
                    (Generator.setCache g None) first last)
             = Throw message)
  /\ (plainSources g = true -> Coherent g).
Proof.
  intros Hg. destruct (reachable_settled g Hg) as [Hc He].
  split; [exact He|]. split; [exact Hc|].
  split; [intros Hco first last; now apply coherent_check|].
  split; [intros Hem first last; now apply emptied_check|].
  intros Hp. destruct Hc as [Hc | Hem]; [exact Hc|].
  now elim (plainSources_not_emptied g Hp).
Qed.

Lemma reachable_cache_is_settled_witness :
  Generator.existingCombinations
    (snd (Generator.isTooSimilarToExisting inheritedLoaded "Vedam" "Savel"))
  = []
  /\ (Coherent
        (snd (Generator.isTooSimilarToExisting inheritedLoaded
                "Vedam" "Savel"))
      \/ Emptied
           (snd (Generator.isTooSimilarToExisting inheritedLoaded
                   "Vedam" "Savel")))
  /\ (Coherent
        (snd (Generator.isTooSimilarToExisting inheritedLoaded
                "Vedam" "Savel")) ->
      forall first last,
        fst (Generator.isTooSimilarToExisting
               (snd (Generator.isTooSimilarToExisting inheritedLoaded
                       "Vedam" "Savel")) first last)
        = fst (Generator.isTooSimilarToExisting
                 (Generator.setCache
                    (snd (Generator.isTooSimilarToExisting inheritedLoaded
                            "Vedam" "Savel")) None)
                 first last))
  /\ (Emptied
        (snd (Generator.isTooSimilarToExisting inheritedLoaded
                "Vedam" "Savel")) ->
      forall first last,
        fst (Generator.isTooSimilarToExisting
               (snd (Generator.isTooSimilarToExisting inheritedLoaded
                       "Vedam" "Savel")) first last)
        = Return false
        /\ exists message,
             fst (Generator.isTooSimilarToExisting
                    (Generator.setCache
                       (snd (Generator.isTooSimilarToExisting
                               inheritedLoaded "Vedam" "Savel")) None)
                    first last)
             = Throw message)
  /\ (plainSources
        (snd (Generator.isTooSimilarToExisting inheritedLoaded
                "Vedam" "Savel")) = true ->
      Coherent
        (snd (Generator.isTooSimilarToExisting inheritedLoaded
                "Vedam" "Savel"))).
Proof.
  apply (reachable_cache_is_settled
           (snd (Generator.isTooSimilarToExisting inheritedLoaded
                   "Vedam" "Savel"))).
  apply ReachableCheck.
  apply (ReachableLoadData Generator.initial inheritedWorld
           "darkelf" "male").
  apply ReachableInitial.
Defined.

(** X14. [generate] of generator.js never returns a pair whose
    firstname and lastname are names, letter case aside, of two records
    of the same source. *)
Theorem generate_never_pairs_names_of_one_source (fuel : nat)
  (g : Generator.State) (random : Random) (count : nat)
  (sourceFilter : string) (r : Run Generator.State) (results : list Pair)
  (p : Pair) (fn ln : NameRecord) :
  Coherent g ->
  Generator.generate fuel g random count sourceFilter = Some r ->
  outcome r = Return results ->
  In p results ->
  In fn (Generator.allFirstnames g) ->
  In ln (Generator.allLastnames g) ->
  toLowerCase (name fn) = toLowerCase (firstname p) ->
  toLowerCase (name ln) = toLowerCase (lastname p) ->
  source fn <> source ln.
Proof.
  intros Hg Hrun Hout Hp Hfn Hln Hf Hl.
  destruct (cross_generate_returns _ _ _ _ _ _ _ Hrun Hout)
    as (_ & _ & attempted & Hs).
  destruct Hs as (_ & _ & _ & _ & Hres & _).
  destruct (Hres p Hp) as (_ & _ & _ & Hrej).
  now apply (cross_emitted_sources g (firstname p) (lastname p)).
Qed.

Lemma generate_never_pairs_names_of_one_source_witness :
  "custom" <> "vanilla".
Proof.
  apply (generate_never_pairs_names_of_one_source 500 customLoaded
           (fun _ => 1) 1 "all"
           {| outcome := Return [{| firstname := "Vedam";
                                    lastname := "Savel" |}];
              after := Frame.withCache customLoaded;
              randomCalls := 2; iterations := 1 |}
           [{| firstname := "Vedam"; lastname := "Savel" |}]
           {| firstname := "Vedam"; lastname := "Savel" |}
           {| name := "Vedam"; source := "custom" |}
           {| name := "Savel"; source := "vanilla" |});
    try (vm_compute; reflexivity).
  - left. reflexivity.
  - now left.
  - vm_compute. right. now left.
  - vm_compute. now left.
Defined.

(** X15. With the source filter vanilla, and whenever the records that
    pass the source filter are all of one source, [generate] of
    generator.js returns no pair. *)
Theorem generate_of_one_source_returns_nothing (fuel : nat)
  (g : Generator.State) (random : Random) (count : nat)
  (sourceFilter : string) (r : Run Generator.State) (results : list Pair) :
  Coherent g ->
  (sourceFilter = "vanilla"
   \/ forall fn ln,
        In fn (bySourceFilter sourceFilter (Generator.allFirstnames g)) ->
        In ln (bySourceFilter sourceFilter (Generator.allLastnames g)) ->
        source fn = source ln) ->
  Generator.generate fuel g random count sourceFilter = Some r ->
  outcome r = Return results ->
  results = [].
Proof.
  intros Hg Hone Hrun Hout.
  apply (cross_one_source_empty fuel g random count sourceFilter r results
           Hg); [|exact Hrun | exact Hout].
  destruct Hone as [-> | Hone]; [|exact Hone].
  intros fn ln Hfn Hln.
  apply bySourceFilter_vanilla in Hfn as [_ ->].
  now apply bySourceFilter_vanilla in Hln as [_ ->].
Qed.

Lemma generate_of_one_source_returns_nothing_witness :
  @nil Pair = [].
Proof.
  apply (generate_of_one_source_returns_nothing 500 customLoaded
           (fun _ => 1) 1 "vanilla"
           {| outcome := Return [];
              after := Frame.withCache customLoaded;
              randomCalls := 1000; iterations := 500 |} []).
  - left. reflexivity.
  - now left.
  - vm_compute. reflexivity.
  - reflexivity.
Defined.

(** X16. The novelty check of each of the three variants does not see
    the letter case of the candidate. *)
Theorem novelty_check_ignores_letter_case :
  (forall g first first' last last',
      toLowerCase first = toLowerCase first' ->
      toLowerCase last = toLowerCase last' ->
      rejects g first last = rejects g first' last')
  /\ (forall g first first' last last',
        toLowerCase first = toLowerCase first' ->
        toLowerCase last = toLowerCase last' ->
        DirectPairs.isTooSimilarToExisting g first last
        = DirectPairs.isTooSimilarToExisting g first' last')
  /\ (forall g first first' last last',
        toLowerCase first = toLowerCase first' ->
        toLowerCase last = toLowerCase last' ->
        FlatFile.isTooSimilarToExisting g first last
        = FlatFile.isTooSimilarToExisting g first' last').
Proof.
  split; [|split]; intros g first first' last last' Hf Hl.
  - now apply cross_check_case.
  - now apply direct_check_case.
  - now apply flat_check_case.
Qed.

Lemma novelty_check_ignores_letter_case_witness :
  FlatFile.isTooSimilarToExisting flatLoaded "ARYAN" "savel"
  = FlatFile.isTooSimilarToExisting flatLoaded "aryan" "SAVEL".
Proof.
  apply (proj2 (proj2 novelty_check_ignores_letter_case)
           flatLoaded "ARYAN" "aryan" "savel" "SAVEL"); reflexivity.
Defined.

End SessionProperties.

Section GenerateProperties.
Import JS Runtime Pools Novelty Loading PoolSpec Frame Session Sampling
  Samples Scenarios.

(** X17. Every pair that [generate] returns is drawn from the pools of
    the source filter: in generator.js its two names are names of
    records that pass the filter and are not blacklisted; in the
    flat-file variant its firstname is the firstname of an NPC that
    passes the filter, and its lastname is the lastname of such an NPC
    and is not blacklisted. *)
Theorem generate_draws_from_the_pools :
  (forall fuel g random count sourceFilter r results p,
      Generator.generate fuel g random count sourceFilter = Some r ->
      outcome r = Return results ->
      In p results ->
      blacklisted (Generator.blacklistedFirstnames g) (firstname p) = false
      /\ blacklisted (Generator.blacklistedLastnames g) (lastname p) = false
      /\ (exists fn,
            In fn (bySourceFilter sourceFilter (Generator.allFirstnames g))
            /\ name fn = firstname p)
      /\ (exists ln,
            In ln (bySourceFilter sourceFilter (Generator.allLastnames g))
            /\ name ln = lastname p))
  /\ (forall fuel g random count sourceFilter r results p,
        FlatFile.generate fuel g random count sourceFilter = Some r ->
        outcome r = Return results ->
        In p results ->
        blacklisted (FlatFile.blacklistedLastnames g) (lastname p) = false
        /\ (exists npc,
              In npc (FlatFile.npcs g)
              /\ (sourceFilter = "all"
                  \/ FlatFile.source npc = sourceFilter)
              /\ FlatFile.firstname npc = firstname p)
        /\ (exists npc,
              In npc (FlatFile.npcs g)
              /\ (sourceFilter = "all"
                  \/ FlatFile.source npc = sourceFilter)
              /\ FlatFile.lastname npc = Some (lastname p))).
Proof.
  split.
  - intros fuel g random count sourceFilter r results p Hrun Hout Hp.
    destruct (cross_generate_returns _ _ _ _ _ _ _ Hrun Hout)
      as (_ & _ & attempted & Hs).
    destruct Hs as (_ & _ & _ & _ & Hres & _).
    destruct (Hres p Hp) as (_ & Hf & Hl & _).
    apply getNames_In in Hf as [Hfb Hfr].
    apply getNames_In in Hl as [Hlb Hlr]. now repeat split.
  - intros fuel g random count sourceFilter r results p Hrun Hout Hp.
    destruct (flat_generate_returns _ _ _ _ _ _ _ Hrun Hout)
      as (_ & _ & attempted & Hs).
    destruct Hs as (_ & _ & _ & _ & Hres & _).
    destruct (Hres p Hp) as (_ & Hf & Hl & _).
    apply flat_firstnames_In in Hf as (npc & Hnpc & Hname).
    apply flat_lastnames_In in Hl as (Hb & npc' & Hnpc' & Hname').
    apply flat_filter_In in Hnpc as [Hin Hsrc].
    apply flat_filter_In in Hnpc' as [Hin' Hsrc'].
    split; [exact Hb|]. split; [now exists npc | now exists npc'].
Qed.

Lemma generate_draws_from_the_pools_witness :
  blacklisted (Generator.blacklistedFirstnames customLoaded) "Vedam" = false
  /\ blacklisted (Generator.blacklistedLastnames customLoaded) "Savel"
     = false
  /\ (exists fn,
        In fn (bySourceFilter "all" (Generator.allFirstnames customLoaded))
        /\ name fn = "Vedam")
  /\ (exists ln,
        In ln (bySourceFilter "all" (Generator.allLastnames customLoaded))
        /\ name ln = "Savel").
Proof.
  apply (proj1 generate_draws_from_the_pools 500 customLoaded
           (fun _ => 1) 1 "all"
           {| outcome := Return [{| firstname := "Vedam";
                                    lastname := "Savel" |}];
              after := Frame.withCache customLoaded;
              randomCalls := 2; iterations := 1 |}
           [{| firstname := "Vedam"; lastname := "Savel" |}]
           {| firstname := "Vedam"; lastname := "Savel" |}).
  - vm_compute. reflexivity.
  - reflexivity.
  - now left.
Defined.

(** X18. [generate] returns at most [count] pairs and at most as many
    pairs as the two pools can form: the product of [uniqueFirstnames]
    and [uniqueLastnames] of [getStats], which the flat-file variant
    reports as [theoreticalCombinations]. *)
Theorem generate_returns_at_most_all_pairs :
  (forall fuel g random count sourceFilter r results,
      Generator.generate fuel g random count sourceFilter = Some r ->
      outcome r = Return results ->
      length results <= count
      /\ length results
         <= Generator.Stats.uniqueFirstnames
              (Generator.getStats g sourceFilter)
            * Generator.Stats.uniqueLastnames
                (Generator.getStats g sourceFilter))
  /\ (forall fuel g random count sourceFilter r results,
        DirectPairs.generate fuel g random count sourceFilter = Some r ->
        outcome r = Return results ->
        length results <= count
        /\ length results
           <= DirectPairs.Stats.uniqueFirstnames
                (DirectPairs.getStats g sourceFilter)
              * DirectPairs.Stats.uniqueLastnames
                  (DirectPairs.getStats g sourceFilter))
  /\ (forall fuel g random count sourceFilter r results,
        FlatFile.generate fuel g random count sourceFilter = Some r ->
        outcome r = Return results ->
        length results <= count
        /\ length results
           <= FlatFile.Stats.theoreticalCombinations
                (FlatFile.getStats g sourceFilter)).
Proof.
  split; [|split];
    intros fuel g random count sourceFilter r results Hrun Hout.
  - destruct (cross_generate_returns _ _ _ _ _ _ _ Hrun Hout)
      as (_ & _ & attempted & Hs).
    split; [apply Hs | exact (sampled_product _ _ _ _ _ _ _ _ _ Hs)].
  - destruct (direct_generate_returns _ _ _ _ _ _ _ Hrun Hout)
      as (_ & _ & attempted & Hs).
    split; [apply Hs | exact (sampled_product _ _ _ _ _ _ _ _ _ Hs)].
  - destruct (flat_generate_returns _ _ _ _ _ _ _ Hrun Hout)
      as (_ & _ & attempted & Hs).
    split; [apply Hs | exact (sampled_product _ _ _ _ _ _ _ _ _ Hs)].
Qed.

Lemma generate_returns_at_most_all_pairs_witness :
  length [{| firstname := "Dilborn"; lastname := "Savel" |}] <= 5
  /\ length [{| firstname := "Dilborn"; lastname := "Savel" |}]
     <= FlatFile.Stats.theoreticalCombinations
          (FlatFile.getStats flatLoaded "all").
Proof.
  apply (proj2 (proj2 generate_returns_at_most_all_pairs) 500 flatLoaded
           (fun _ => 1) 5 "all"
           {| outcome := Return [{| firstname := "Dilborn";
                                    lastname := "Savel" |}];
              after := flatLoaded;
              randomCalls := 1000; iterations := 500 |}).
  - vm_compute. reflexivity.
  - reflexivity.
Defined.

(** X19. The test [alreadyInResults] of the flat-file variant never
    fires: after any number of rounds, a pair whose key was not tried
    before is not among the results. *)
Theorem alreadyInResults_never_fires (g : FlatFile.State)
  (random : Random) (firstnames lastnames : list string) (m : nat) :
  let s := Nat.iter m (FlatFile.body g random firstnames lastnames)
             FlatFile.start in
  let first :=
    nth (randomIndex random (FlatFile.calls s) (length firstnames))
        firstnames EmptyString in
  let last :=
    nth (randomIndex random (S (FlatFile.calls s)) (length lastnames))
        lastnames EmptyString in
  includes (FlatFile.attempted s)
    (toLowerCase first ++ "|" ++ toLowerCase last) = false ->
  FlatFile.alreadyInResults (FlatFile.results s) first last = false.
Proof.
  intros s first last Hnew.
  destruct (FlatFile.alreadyInResults (FlatFile.results s) first last)
    eqn:Hin; [|reflexivity].
  apply alreadyInResults_key in Hin as (p & Hp & Hkey).
  apply (flat_keys_attempted g random firstnames lastnames m) in Hp.
  fold s in Hp. rewrite Hkey in Hp. apply includes_In in Hp.
  unfold key in Hp. cbn [firstname lastname] in Hp. congruence.
Qed.

Lemma alreadyInResults_never_fires_witness :
  FlatFile.alreadyInResults
    [{| firstname := "Dilborn"; lastname := "Savel" |}] "Aryon" "Savel"
  = false.
Proof.
  apply (alreadyInResults_never_fires flatLoaded oneThenZero
           ["Aryon"; "Dilborn"] ["Savel"] 1).
  vm_compute. reflexivity.
Defined.

(** X20. Every pair of the pools that the novelty check lets through
    can come out: some random source makes [generate(1, sourceFilter)]
    return exactly that pair. *)
Theorem novel_pair_can_be_generated :
  (forall g sourceFilter first last,
      Generator.loaded g = true ->
      In first (Generator.getFirstnames g sourceFilter) ->
      In last (Generator.getLastnames g sourceFilter) ->
      rejects g first last = false ->
      exists random, forall fuel, 1 <= fuel ->
        exists r,
          Generator.generate fuel g random 1 sourceFilter = Some r
          /\ outcome r
             = Return [{| firstname := first; lastname := last |}])
  /\ (forall g sourceFilter first last,
        DirectPairs.loaded g = true ->
        In first (DirectPairs.getFirstnames g sourceFilter) ->
        In last (DirectPairs.getLastnames g sourceFilter) ->
        DirectPairs.isTooSimilarToExisting g first last = false ->
        exists random, forall fuel, 1 <= fuel ->
          exists r,
            DirectPairs.generate fuel g random 1 sourceFilter = Some r
            /\ outcome r
               = Return [{| firstname := first; lastname := last |}])
  /\ (forall g sourceFilter first last,
        FlatFile.loaded g = true ->
        In first (FlatFile.getFirstnames g sourceFilter) ->
        In last (FlatFile.getLastnames g sourceFilter) ->
        FlatFile.isTooSimilarToExisting g first last = false ->
        exists random, forall fuel, 1 <= fuel ->
          exists r,
            FlatFile.generate fuel g random 1 sourceFilter = Some r
            /\ outcome r
               = Return [{| firstname := first; lastname := last |}]).
Proof.
  split; [|split]; intros g sourceFilter first last Hl Hf Hn Hrej.
  - now apply cross_emittable.
  - now apply direct_emittable.
  - now apply flat_emittable.
Qed.

Lemma novel_pair_can_be_generated_witness :
  exists random, forall fuel, 1 <= fuel ->
    exists r,
      Generator.generate fuel customLoaded random 1 "all" = Some r
      /\ outcome r
         = Return [{| firstname := "Vedam"; lastname := "Savel" |}].
Proof.
  apply (proj1 novel_pair_can_be_generated customLoaded "all"
           "Vedam" "Savel").
  - reflexivity.
  - vm_compute. right. now left.
  - vm_compute. now left.
  - vm_compute. reflexivity.
Defined.

(** X30. A call of [generate] changes nothing that a later call can
    see, as long as the novelty check returns.  In generator.js a call
    leaves the object as it was up to the pair cache, and the pools and
    the statistics are the same after it; when the check returns on the
    object, it ends in the same way after the call, and a later call of
    [generate] ends in the same way, after the same number of rounds and
    draws, as it would have without the call before.  When the check
    throws on the object, a call leaves the object as it was or throws
    in its first round and leaves the empty set in the cache, and from
    then on the check lets every pair through.  In the two other
    variants the object is not changed at all. *)
Theorem generate_leaves_the_object :
  (forall fuel g random count sourceFilter r,
      Generator.generate fuel g random count sourceFilter = Some r ->
      sameData g (after r)
      /\ (forall filter,
            Generator.getFirstnames (after r) filter
            = Generator.getFirstnames g filter
            /\ Generator.getLastnames (after r) filter
               = Generator.getLastnames g filter
            /\ Generator.getStats (after r) filter
               = Generator.getStats g filter)
      /\ (checks g ->
          (forall first last,
              fst (Generator.isTooSimilarToExisting (after r) first last)
              = fst (Generator.isTooSimilarToExisting g first last))
          /\ (forall fuel' random' count' sourceFilter',
                option_map observed
                  (Generator.generate fuel' (after r) random' count'
                     sourceFilter')
                = option_map observed
                    (Generator.generate fuel' g random' count'
                       sourceFilter')))
      /\ (forall message,
            Generator.existingPairs g = Throw message ->
            after r = g
            \/ (r = {| outcome := Throw message;
                       after := Generator.setCache g (Some []);
                       randomCalls := 2; iterations := 1 |}
                /\ forall first last,
                     fst (Generator.isTooSimilarToExisting (after r)
                            first last) = Return false)))
  /\ (forall fuel g random count sourceFilter r,
        DirectPairs.generate fuel g random count sourceFilter = Some r ->
        after r = g)
  /\ (forall fuel g random count sourceFilter r,
        FlatFile.generate fuel g random count sourceFilter = Some r ->
        after r = g).
Proof.
  split; [|split; [apply direct_generate_after | apply flat_generate_after]].
  intros fuel g random count sourceFilter r Hrun.
  pose proof (cross_generate_after _ _ _ _ _ _ Hrun) as Hsame.
  split; [exact Hsame|]. split; [|split].
  - intros filter.
    destruct (sameData_stats g (after r) filter Hsame) as (Hs & Hf & Hl).
    now repeat split.
  - intros Hcheck. split.
    + intros first last.
      now apply (rejects_sameData g (after r) first last Hcheck Hsame).
    + intros fuel' random' count' sourceFilter'.
      now apply cross_generate_sameData.
  - intros message Hthrow.
    destruct (cross_generate_on_throw _ _ _ _ _ _ _ Hthrow Hrun)
      as [H | ->]; [now left | right].
    split; reflexivity.
Qed.

Lemma generate_leaves_the_object_witness :
  sameData customLoaded
    (after
       {| outcome :=
            Return [{| firstname := "Vedam"; lastname := "Savel" |}];
          after := Frame.withCache customLoaded;
          randomCalls := 2; iterations := 1 |}).
Proof.
  refine (proj1 (proj1 generate_leaves_the_object 500 customLoaded
                   (fun _ => 1) 1 "all" _ _)).
  vm_compute. reflexivity.
Defined.

End GenerateProperties.

Section StatisticsProperties.
Import JS Runtime Pools Novelty Loading PoolSpec Frame Session Sampling
  Samples Scenarios.

(** X21. [getAllFirstnamesLower] and [getAllLastnamesLower] hold, in
    the same order, the lower-cased names of the pools that
    [getFirstnames] and [getLastnames] return for the filter all; their
    sizes are [uniqueFirstnames] and [uniqueLastnames] of
    [getStats("all")]. *)
Theorem getAllNamesLower_are_the_pools (g : Generator.State) :
  Generator.getAllFirstnamesLower g
  = map toLowerCase (Generator.getFirstnames g "all")
  /\ Generator.getAllLastnamesLower g
     = map toLowerCase (Generator.getLastnames g "all")
  /\ length (Generator.getAllFirstnamesLower g)
     = Generator.Stats.uniqueFirstnames (Generator.getStats g "all")
  /\ length (Generator.getAllLastnamesLower g)
     = Generator.Stats.uniqueLastnames (Generator.getStats g "all").
Proof.
  assert (Hf : Generator.getAllFirstnamesLower g
               = map toLowerCase (Generator.getFirstnames g "all")).
  { unfold Generator.getAllFirstnamesLower, Generator.getFirstnames.
    now rewrite lower_fold_keepFirst, getNames_all. }
  assert (Hl : Generator.getAllLastnamesLower g
               = map toLowerCase (Generator.getLastnames g "all")).
  { unfold Generator.getAllLastnamesLower, Generator.getLastnames.
    now rewrite lower_fold_keepFirst, getNames_all. }
  split; [exact Hf|]. split; [exact Hl|].
  rewrite Hf, Hl, !length_map. now split.
Qed.

(** X22. The numbers of [getStats] of generator.js: a pool is not
    larger than the list it is drawn from; the vanilla and the expanded
    records together are not more than all records, and they are all
    records exactly when every record is of the source vanilla, tr, sky
    or pc; under the filter vanilla a pool is not larger than the number
    of vanilla records, and under the filter expanded not larger than
    the number of expanded records. *)
Theorem getStats_counts (g : Generator.State) (sourceFilter : string) :
  let stats := Generator.getStats g sourceFilter in
  Generator.Stats.uniqueFirstnames stats
  <= Generator.Stats.totalFirstnames stats
  /\ Generator.Stats.uniqueLastnames stats
     <= Generator.Stats.totalLastnames stats
  /\ Generator.Stats.vanillaFirstnames stats
     + Generator.Stats.expandedFirstnames stats
     <= Generator.Stats.totalFirstnames stats
  /\ Generator.Stats.vanillaLastnames stats
     + Generator.Stats.expandedLastnames stats
     <= Generator.Stats.totalLastnames stats
  /\ (Generator.Stats.vanillaFirstnames stats
      + Generator.Stats.expandedFirstnames stats
      = Generator.Stats.totalFirstnames stats
      <-> forall r, In r (Generator.allFirstnames g) ->
            source r = "vanilla" \/ source r = "tr"
            \/ source r = "sky" \/ source r = "pc")
  /\ (Generator.Stats.vanillaLastnames stats
      + Generator.Stats.expandedLastnames stats
      = Generator.Stats.totalLastnames stats
      <-> forall r, In r (Generator.allLastnames g) ->
            source r = "vanilla" \/ source r = "tr"
            \/ source r = "sky" \/ source r = "pc")
  /\ (sourceFilter = "vanilla" ->
      Generator.Stats.uniqueFirstnames stats
      <= Generator.Stats.vanillaFirstnames stats
      /\ Generator.Stats.uniqueLastnames stats
         <= Generator.Stats.vanillaLastnames stats)
  /\ (sourceFilter = "expanded" ->
      Generator.Stats.uniqueFirstnames stats
      <= Generator.Stats.expandedFirstnames stats
      /\ Generator.Stats.uniqueLastnames stats
         <= Generator.Stats.expandedLastnames stats).
Proof.
  intros stats. subst stats. unfold Generator.getStats.
  cbn [Generator.Stats.uniqueFirstnames Generator.Stats.uniqueLastnames
       Generator.Stats.vanillaFirstnames Generator.Stats.expandedFirstnames
       Generator.Stats.vanillaLastnames Generator.Stats.expandedLastnames
       Generator.Stats.totalFirstnames Generator.Stats.totalLastnames].
  unfold Generator.getFirstnames, Generator.getLastnames.
  pose proof (length_getNames (Generator.allFirstnames g)
                (Generator.blacklistedFirstnames g) sourceFilter) as Hf.
  pose proof (length_getNames (Generator.allLastnames g)
                (Generator.blacklistedLastnames g) sourceFilter) as Hl.
  pose proof (length_bySourceFilter sourceFilter (Generator.allFirstnames g))
    as Hf'.
  pose proof (length_bySourceFilter sourceFilter (Generator.allLastnames g))
    as Hl'.
  split; [lia|]. split; [lia|].
  split; [apply counted_spec|]. split; [apply counted_spec|].
  split; [apply counted_spec|]. split; [apply counted_spec|].
  split; intros ->.
  - rewrite vanilla_count in Hf, Hl. now split.
  - rewrite expanded_count in Hf, Hl. now split.
Qed.

Lemma getStats_counts_witness :
  Generator.Stats.uniqueFirstnames (Generator.getStats customLoaded "vanilla")
  <= Generator.Stats.vanillaFirstnames
       (Generator.getStats customLoaded "vanilla")
  /\ Generator.Stats.uniqueLastnames
       (Generator.getStats customLoaded "vanilla")
     <= Generator.Stats.vanillaLastnames
          (Generator.getStats customLoaded "vanilla").
Proof.
  destruct (getStats_counts customLoaded "vanilla")
    as (_ & _ & _ & _ & _ & _ & H & _).
  exact (H eq_refl).
Defined.

(** X23. After a [loadData] of generator.js from directories without a
    manifest, [getStats] counts every record as vanilla or expanded. *)
Theorem getStats_counts_every_name_without_manifest (g : Generator.State)
  (world : World) (race sex sourceFilter : string) :
  (forall basePath, manifestFiles world basePath = None) ->
  let stats :=
    Generator.getStats (snd (Generator.loadData g world race sex))
      sourceFilter in
  Generator.Stats.vanillaFirstnames stats
  + Generator.Stats.expandedFirstnames stats
  = Generator.Stats.totalFirstnames stats
  /\ Generator.Stats.vanillaLastnames stats
     + Generator.Stats.expandedLastnames stats
     = Generator.Stats.totalLastnames stats.
Proof.
  intros Hnone stats. subst stats. unfold Generator.getStats.
  cbn [Generator.Stats.vanillaFirstnames Generator.Stats.expandedFirstnames
       Generator.Stats.vanillaLastnames Generator.Stats.expandedLastnames
       Generator.Stats.totalFirstnames Generator.Stats.totalLastnames].
  destruct (loadData_records g world race sex) as [-> ->].
  split; apply counted_spec; intros r Hr;
    now apply loadDirectory_default_sources in Hr.
Qed.

Lemma getStats_counts_every_name_without_manifest_witness :
  let stats := Generator.getStats blacklistLoaded "all" in
  Generator.Stats.vanillaFirstnames stats
  + Generator.Stats.expandedFirstnames stats
  = Generator.Stats.totalFirstnames stats
  /\ Generator.Stats.vanillaLastnames stats
     + Generator.Stats.expandedLastnames stats
     = Generator.Stats.totalLastnames stats.
Proof.
  apply (getStats_counts_every_name_without_manifest Generator.initial
           blacklistWorld "darkelf" "male" "all").
  reflexivity.
Defined.

End StatisticsProperties.

Section FlatFileProperties.
Import JS Runtime Pools Novelty Loading PoolSpec Sampling FlatFormat
  Samples Scenarios.

(** X24. The numbers of [getStats] of the flat-file variant: the
    lastnames of the pool are not more than the NPCs with a lastname
    ([existingCombinations]), these and the firstnames of the pool are
    not more than the NPCs that pass the filter ([totalNPCs]), these are
    not more than all NPCs, and the vanilla and the tr NPCs together are
    not more than all NPCs; [totalNPCs] is [allNPCs] under the filter
    all, [vanillaNPCs] under vanilla and [trNPCs] under tr. *)
Theorem flat_getStats_counts (g : FlatFile.State) (sourceFilter : string) :
  let stats := FlatFile.getStats g sourceFilter in
  FlatFile.Stats.uniqueLastnames stats
  <= FlatFile.Stats.existingCombinations stats
  /\ FlatFile.Stats.existingCombinations stats
     <= FlatFile.Stats.totalNPCs stats
  /\ FlatFile.Stats.uniqueFirstnames stats <= FlatFile.Stats.totalNPCs stats
  /\ FlatFile.Stats.totalNPCs stats <= FlatFile.Stats.allNPCs stats
  /\ FlatFile.Stats.vanillaNPCs stats + FlatFile.Stats.trNPCs stats
     <= FlatFile.Stats.allNPCs stats
  /\ FlatFile.Stats.theoreticalCombinations stats
     = FlatFile.Stats.uniqueFirstnames stats
       * FlatFile.Stats.uniqueLastnames stats
  /\ (sourceFilter = "all" ->
      FlatFile.Stats.totalNPCs stats = FlatFile.Stats.allNPCs stats)
  /\ (sourceFilter = "vanilla" ->
      FlatFile.Stats.totalNPCs stats = FlatFile.Stats.vanillaNPCs stats)
  /\ (sourceFilter = "tr" ->
      FlatFile.Stats.totalNPCs stats = FlatFile.Stats.trNPCs stats).
Proof.
  intros stats. subst stats. unfold FlatFile.getStats.
  cbn [FlatFile.Stats.uniqueLastnames FlatFile.Stats.existingCombinations
       FlatFile.Stats.totalNPCs FlatFile.Stats.uniqueFirstnames
       FlatFile.Stats.allNPCs FlatFile.Stats.vanillaNPCs
       FlatFile.Stats.trNPCs FlatFile.Stats.theoreticalCombinations].
  split; [apply length_flat_lastnames|].
  split; [apply filter_length_le|].
  split; [apply length_flat_firstnames|].
  split; [apply length_flat_filter|].
  split; [apply length_two_sources|].
  split; [reflexivity|].
  split; [|split]; now intros ->.
Qed.

Lemma flat_getStats_counts_witness :
  FlatFile.Stats.totalNPCs (FlatFile.getStats caseLoaded "vanilla")
  = FlatFile.Stats.vanillaNPCs (FlatFile.getStats caseLoaded "vanilla").
Proof.
  destruct (flat_getStats_counts caseLoaded "vanilla")
    as (_ & _ & _ & _ & _ & _ & _ & H & _).
  exact (H eq_refl).
Defined.

(** X25. [parseNPCFile] returns one NPC for each line that
    [parseNameFile] would keep, in the order of the lines.  The firstname
    of every NPC is a word that is not empty, its lastname is [null] or
    not empty, and its source is lower-cased: the tests [npc.firstname]
    and [npc.lastname] of the generator only tell an NPC with a lastname
    from one without. *)
Theorem parseNPCFile_npcs (text : string) :
  length (FlatFile.parseNPCFile text) = length (parseNameFile text)
  /\ forall npc,
       In npc (FlatFile.parseNPCFile text) ->
       (exists line,
          In line (parseNameFile text)
          /\ FlatFile.parseLine line = Some npc)
       /\ truthy (FlatFile.firstname npc) = true
       /\ singleWord (FlatFile.firstname npc) = true
       /\ toLowerCase (FlatFile.source npc) = FlatFile.source npc
       /\ (FlatFile.hasLastname npc = true
           <-> FlatFile.lastname npc <> None).
Proof.
  split; [apply length_parseNPCFile|]. intros npc Hnpc.
  destruct (parseNPCFile_npc text npc Hnpc) as (line & Hline & Hparse).
  split; [now exists line|].
  destruct (parseNameFile_clean text line Hline) as (Hne & Ht & _).
  destruct (parseLine_npc line Ht Hne) as (npc' & Hp & Hf & Hw & Hs & Hl).
  rewrite Hparse in Hp. injection Hp as <-.
  split; [now apply truthy_true|]. split; [exact Hw|]. split; [exact Hs|].
  unfold FlatFile.hasLastname.
  destruct (FlatFile.lastname npc) as [ln|] eqn:Hln.
  - rewrite truthy_true. split; [discriminate | intros _; now apply Hl].
  - split; [discriminate | congruence].
Qed.

Lemma parseNPCFile_npcs_witness :
  (exists line,
     In line (parseNameFile (fileOf ["Aryon Savel | TR"; "Jiub"]))
     /\ FlatFile.parseLine line
        = Some {| FlatFile.firstname := "Aryon";
                  FlatFile.lastname := Some "Savel";
                  FlatFile.source := "tr" |})
  /\ truthy "Aryon" = true
  /\ singleWord "Aryon" = true
  /\ toLowerCase "tr" = "tr"
  /\ (FlatFile.hasLastname
        {| FlatFile.firstname := "Aryon";
           FlatFile.lastname := Some "Savel";
           FlatFile.source := "tr" |} = true
      <-> Some "Savel" <> None).
Proof.
  apply (proj2 (parseNPCFile_npcs (fileOf ["Aryon Savel | TR"; "Jiub"]))
           {| FlatFile.firstname := "Aryon";
              FlatFile.lastname := Some "Savel";
              FlatFile.source := "tr" |}).
  vm_compute. now left.
Defined.

(** X26. [parseLine] reads back what was written: a name of one or more
    words followed by [ | ] and a source tag of one word gives the NPC
    with the first word as firstname, the other words, joined by single
    spaces, as lastname ([null] when there is none) and the lower-cased
    tag as source; the same name without a tag, none of its words being
    a bar alone, gives that NPC with the source vanilla.  [parseNPCFile]
    reads each line of a file of clean lines with [parseLine]. *)
Theorem parseLine_round_trip :
  (forall words src,
      Forall word words -> words <> [] -> singleWord src = true ->
      FlatFile.parseLine (taggedLine words src)
      = npcOf words (toLowerCase src))
  /\ (forall words,
        Forall word words -> Forall (fun w => w <> "|") words ->
        words <> [] ->
        FlatFile.parseLine (plainLine words) = npcOf words "vanilla")
  /\ (forall lines,
        Forall cleanName lines ->
        FlatFile.parseNPCFile (join (String "010" EmptyString) lines)
        = flat_map
            (fun line =>
               match FlatFile.parseLine line with
               | Some npc => [npc]
               | None => []
               end)
            lines).
Proof.
  split; [apply parseLine_tagged|]. split; [apply parseLine_plain|].
  intros lines Hlines.
  now rewrite parseNPCFile_lines, parseNameFile_join.
Qed.

Lemma parseLine_round_trip_witness :
  FlatFile.parseLine (taggedLine ["Aryon"; "Savel"; "Dren"] "TR")
  = npcOf ["Aryon"; "Savel"; "Dren"] (toLowerCase "TR").
Proof.
  apply (proj1 parseLine_round_trip ["Aryon"; "Savel"; "Dren"] "TR").
  - repeat constructor; discriminate.
  - discriminate.
  - reflexivity.
Defined.

End FlatFileProperties.

Section HandlerProperties.
Import JS Runtime Pools Novelty Loading PoolSpec Frame Session Sampling
  Dom Samples Scenarios.

(** X27. A click on the generate button of generator.js, with fuel for
    the 5000 rounds of [generate(10, source)]: the handler shows the
    loading markup and disables the button, and it ends with the button
    enabled and with one of: the message of a [loadData] that found no
    firstnames or no lastnames, the message of a [generate] that found a
    pool empty, the message of the [TypeError] of a pair set that could
    not be built, the note that nothing could be generated, or a list
    of one to ten pairs that were drawn from the pools and that the
    check let through.  [Data not loaded] is never among the messages,
    and the [TypeError] needs a loaded source that is named like an
    inherited property. *)
Theorem clickHandler_shows (fuel : nat) (g : Generator.State)
  (world : World) (random : Random) (race sex : string)
  (sourceSelect : option string) :
  10 * Generator.maxAttemptsFactor <= fuel ->
  let source :=
    match sourceSelect with Some value => value | None => "all" end in
  exists g' html,
    Generator.clickHandler fuel g world random race sex sourceSelect
    = Some (g', [SetInnerHTML loadingHtml; SetDisabled true;
                 SetInnerHTML html; SetDisabled false])
    /\ (forall page,
          render page [SetInnerHTML loadingHtml; SetDisabled true;
                       SetInnerHTML html; SetDisabled false]
          = {| innerHTML := html; disabled := false |})
    /\ sameData (snd (Generator.loadData g world race sex)) g'
    /\ (html
        = Generator.errorHtml
            ("No firstnames found for " ++ race ++ " " ++ sex)
        \/ html = Generator.errorHtml ("No lastnames found for " ++ race)
        \/ html
           = Generator.errorHtml
               "No firstnames available (check source filter and blacklist)"
        \/ html
           = Generator.errorHtml
               "No lastnames available (check source filter and blacklist)"
        \/ html = Generator.noNamesHtml
        \/ (exists names,
              names <> [] /\ length names <= 10
              /\ html
                 = Generator.resultsHtml names (Generator.getStats g' source)
              /\ forall p, In p names ->
                   In (firstname p) (Generator.getFirstnames g' source)
                   /\ In (lastname p) (Generator.getLastnames g' source)
                   /\ rejects g' (firstname p) (lastname p) = false)
        \/ (exists message,
              Generator.buildExistingPairs
                (snd (Generator.loadData g world race sex))
              = Throw message
              /\ plainSources (snd (Generator.loadData g world race sex))
                 = false
              /\ html = Generator.errorHtml message)).
Proof.
  intros Hfuel source. unfold Generator.clickHandler. fold source.
  pose proof (loadData_cases g world race sex) as Hcases.
  pose proof (loadData_cache g world race sex) as [Hcache _].
  cbv zeta in Hcases.
  destruct (Generator.loadData g world race sex) as [done g1].
  cbn [fst snd] in *.
  destruct Hcases as [[-> _] | [[-> _] | [-> Hloaded]]].
  - exists g1. eexists. split; [reflexivity|]. split; [reflexivity|].
    split; [now left | now left].
  - exists g1. eexists. split; [reflexivity|]. split; [reflexivity|].
    split; [now left | right; now left].
  - destruct (cross_generate_total fuel g1 random 10 source Hfuel)
      as [r Hrun].
    rewrite Hrun. destruct (outcome r) as [names|message] eqn:Hout.
    + destruct (cross_generate_returns _ _ _ _ _ _ _ Hrun Hout)
        as (_ & Hsame & attempted & Hs).
      destruct names as [|p rest]; cbn [length Nat.eqb].
      * exists (after r). eexists. split; [reflexivity|].
        split; [reflexivity|]. split; [exact Hsame|].
        do 4 right. now left.
      * exists (after r). eexists. split; [reflexivity|].
        split; [reflexivity|]. split; [exact Hsame|].
        do 5 right. left. exists (p :: rest). split; [discriminate|].
        split; [apply Hs|]. split; [reflexivity|].
        intros q Hq. destruct Hs as (_ & _ & _ & _ & Hres & _).
        destruct (Hres q Hq) as (_ & Hf & Hl & Hrej).
        destruct (sameData_stats g1 (after r) source Hsame)
          as (_ & -> & ->).
        split; [exact Hf|]. split; [exact Hl|].
        destruct (rejects_false g1 _ _ Hrej) as (cache & Hc & _).
        destruct (rejects_sameData g1 (after r) (firstname q) (lastname q)
                    (ex_intro _ cache Hc) Hsame) as [_ ->].
        exact Hrej.
    + destruct (cross_generate_throws _ _ _ _ _ _ _ Hloaded Hrun Hout)
        as [[-> Hmessage] | [Hafter Hthrow]].
      * exists g1. eexists. split; [reflexivity|]. split; [reflexivity|].
        split; [now left|].
        destruct Hmessage as [-> | ->];
          [do 2 right; now left | do 3 right; now left].
      * exists (after r). eexists. split; [reflexivity|].
        split; [reflexivity|].
        split; [now apply (cross_generate_after _ _ _ _ _ _ Hrun)|].
        do 6 right. exists message.
        unfold Generator.existingPairs in Hthrow. rewrite Hcache in Hthrow.
        split; [exact Hthrow|]. split; [|reflexivity].
        apply plainSources_throws. now exists message.
Qed.

Lemma clickHandler_shows_witness :
  exists g' html,
    Generator.clickHandler 5000 Generator.initial inheritedWorld
      (fun _ => 1) "darkelf" "male" None
    = Some (g', [SetInnerHTML loadingHtml; SetDisabled true;
                 SetInnerHTML html; SetDisabled false])
    /\ (forall page,
          render page [SetInnerHTML loadingHtml; SetDisabled true;
                       SetInnerHTML html; SetDisabled false]
          = {| innerHTML := html; disabled := false |})
    /\ sameData
         (snd (Generator.loadData Generator.initial inheritedWorld
                 "darkelf" "male")) g'
    /\ (html
        = Generator.errorHtml
            ("No firstnames found for " ++ "darkelf" ++ " " ++ "male")
        \/ html
           = Generator.errorHtml ("No lastnames found for " ++ "darkelf")
        \/ html
           = Generator.errorHtml
               "No firstnames available (check source filter and blacklist)"
        \/ html
           = Generator.errorHtml
               "No lastnames available (check source filter and blacklist)"
        \/ html = Generator.noNamesHtml
        \/ (exists names,
              names <> [] /\ length names <= 10
              /\ html
                 = Generator.resultsHtml names (Generator.getStats g' "all")
              /\ forall p, In p names ->
                   In (firstname p) (Generator.getFirstnames g' "all")
                   /\ In (lastname p) (Generator.getLastnames g' "all")
                   /\ rejects g' (firstname p) (lastname p) = false)
        \/ (exists message,
              Generator.buildExistingPairs
                (snd (Generator.loadData Generator.initial inheritedWorld
                        "darkelf" "male"))
              = Throw message
              /\ plainSources
                   (snd (Generator.loadData Generator.initial inheritedWorld
                           "darkelf" "male"))
                 = false
              /\ html = Generator.errorHtml message)).
Proof.
  apply (clickHandler_shows 5000 Generator.initial inheritedWorld
           (fun _ => 1) "darkelf" "male" None).
  vm_compute. repeat constructor.
Defined.

(** X28. With the source selector on vanilla, a click on the generate
    button of generator.js never ends with a list of names: the page
    shows the markup of an error, which is not the markup of a list. *)
Theorem clickHandler_vanilla_lists_no_names :
  (forall fuel g world random race sex,
      10 * Generator.maxAttemptsFactor <= fuel ->
      exists g' message,
        Generator.clickHandler fuel g world random race sex (Some "vanilla")
        = Some (g', [SetInnerHTML loadingHtml; SetDisabled true;
                     SetInnerHTML (Generator.errorHtml message);
                     SetDisabled false]))
  /\ (forall message names stats,
        Generator.errorHtml message <> Generator.resultsHtml names stats).
Proof.
  split.
  - intros fuel g world random race sex Hfuel.
    unfold Generator.clickHandler.
    pose proof (loadData_cases g world race sex) as Hcases.
    pose proof (loadData_cache g world race sex) as [Hcache _].
    cbv zeta in Hcases.
    destruct (Generator.loadData g world race sex) as [done g1].
    cbn [fst snd] in *.
    destruct Hcases as [[-> _] | [[-> _] | [-> Hloaded]]];
      [exists g1, ("No firstnames found for " ++ race ++ " " ++ sex)%string;
       reflexivity
      |exists g1, ("No lastnames found for " ++ race)%string;
       reflexivity|].
    destruct (cross_generate_total fuel g1 random 10 "vanilla" Hfuel)
      as [r Hrun].
    rewrite Hrun. destruct (outcome r) as [names|message] eqn:Hout.
    + assert (Hempty : names = []).
      { apply (cross_one_source_empty fuel g1 random 10 "vanilla" r names);
          [now left | | exact Hrun | exact Hout].
        intros fn ln Hfn Hln.
        apply bySourceFilter_vanilla in Hfn as [_ ->].
        now apply bySourceFilter_vanilla in Hln as [_ ->]. }
      rewrite Hempty. cbn [length Nat.eqb].
      exists (after r),
        ("Could not generate any novel combinations. "
         ++ "Try a different source filter.")%string.
      reflexivity.
    + exists (after r), message. reflexivity.
  - intros message names stats Heq.
    apply (f_equal (String.get 12)) in Heq.
    rewrite errorHtml_get in Heq. unfold Generator.resultsHtml in Heq.
    rewrite listHtml_get in Heq. discriminate Heq.
Qed.

Lemma clickHandler_vanilla_lists_no_names_witness :
  exists g' message,
    Generator.clickHandler 5000 Generator.initial customWorld
      (fun _ => 1) "darkelf" "male" (Some "vanilla")
    = Some (g', [SetInnerHTML loadingHtml; SetDisabled true;
                 SetInnerHTML (Generator.errorHtml message);
                 SetDisabled false]).
Proof.
  apply (proj1 clickHandler_vanilla_lists_no_names 5000 Generator.initial
           customWorld (fun _ => 1) "darkelf" "male").
  vm_compute. repeat constructor.
Defined.

(** X29. A click on the generate button of the two other variants, with
    fuel for the 1000 rounds of [generate(10, source)], ends with the
    button enabled and with the markup of an error, of the note that
    nothing could be generated, or of a list of one to ten pairs that
    were drawn from the pools and that the check let through.  In the
    flat-file variant the error is that of a data file that is not
    served or whose [fetch] failed, or that of an empty pool. *)
Theorem clickHandler_of_the_variants_shows :
  (forall fuel g world random race sex sourceSelect,
      10 * DirectPairs.maxAttemptsFactor <= fuel ->
      let source :=
        match sourceSelect with Some value => value | None => "all" end in
      exists html,
        DirectPairs.clickHandler fuel g world random race sex sourceSelect
        = Some (snd (DirectPairs.loadData g world race sex),
                [SetInnerHTML loadingHtml; SetDisabled true;
                 SetInnerHTML html; SetDisabled false])
        /\ (html
            = DirectPairs.errorHtml
                ("No firstnames found for " ++ race ++ " " ++ sex)
            \/ html
               = DirectPairs.errorHtml ("No lastnames found for " ++ race)
            \/ html
               = DirectPairs.errorHtml
                   "No firstnames available (check source filter and blacklist)"
            \/ html
               = DirectPairs.errorHtml
                   "No lastnames available (check source filter and blacklist)"
            \/ html = DirectPairs.noNamesHtml
            \/ exists names,
                 names <> [] /\ length names <= 10
                 /\ html
                    = DirectPairs.resultsHtml names
                        (DirectPairs.getStats
                           (snd (DirectPairs.loadData g world race sex))
                           source)
                 /\ forall p, In p names ->
                      DirectPairs.isTooSimilarToExisting
                        (snd (DirectPairs.loadData g world race sex))
                        (firstname p) (lastname p) = false))
  /\ (forall fuel g world random race sex sourceSelect,
        10 * FlatFile.maxAttemptsFactor <= fuel ->
        let source :=
          match sourceSelect with Some value => value | None => "all" end in
        exists html,
          FlatFile.clickHandler fuel g world random race sex sourceSelect
          = Some (snd (FlatFile.loadData g world race sex),
                  [SetInnerHTML loadingHtml; SetDisabled true;
                   SetInnerHTML html; SetDisabled false])
          /\ (html
              = FlatFile.errorHtml
                  ("No data found for " ++ race ++ " " ++ sex) race sex
              \/ (exists message,
                    fetch world ("npcs/" ++ race ++ "_" ++ sex ++ ".txt")
                    = Rejected message
                    /\ html = FlatFile.errorHtml message race sex)
              \/ html = FlatFile.errorHtml "No firstnames available" race sex
              \/ html
                 = FlatFile.errorHtml
                     "No lastnames available (all may be blacklisted)"
                     race sex
              \/ html = FlatFile.noNamesHtml
              \/ exists names,
                   names <> [] /\ length names <= 10
                   /\ html
                      = FlatFile.resultsHtml names
                          (FlatFile.getStats
                             (snd (FlatFile.loadData g world race sex))
                             source)
                   /\ forall p, In p names ->
                        FlatFile.isTooSimilarToExisting
                          (snd (FlatFile.loadData g world race sex))
                          (firstname p) (lastname p) = false)).
Proof.
  split.
  - intros fuel g world random race sex sourceSelect Hfuel source.
    unfold DirectPairs.clickHandler. fold source.
    pose proof (direct_loadData_cases g world race sex) as Hcases.
    cbv zeta in Hcases.
    destruct (DirectPairs.loadData g world race sex) as [done g1].
    cbn [fst snd] in *.
    destruct Hcases as [[-> _] | [[-> _] | [-> Hloaded]]].
    + eexists. split; [reflexivity | now left].
    + eexists. split; [reflexivity | right; now left].
    + destruct (direct_generate_total fuel g1 random 10 source Hfuel)
        as [r Hrun].
      rewrite Hrun. destruct (outcome r) as [names|message] eqn:Hout.
      * destruct (direct_generate_returns _ _ _ _ _ _ _ Hrun Hout)
          as (_ & -> & attempted & Hs).
        destruct names as [|p rest]; cbn [length Nat.eqb].
        -- eexists. split; [reflexivity|]. do 4 right. now left.
        -- eexists. split; [reflexivity|]. do 5 right.
           exists (p :: rest). split; [discriminate|].
           split; [apply Hs|]. split; [reflexivity|].
           intros q Hq. destruct Hs as (_ & _ & _ & _ & Hres & _).
           now destruct (Hres q Hq) as (_ & _ & _ & Hrej).
      * destruct (direct_generate_throws _ _ _ _ _ _ _ Hloaded Hrun Hout)
          as [-> Hmessage].
        eexists. split; [reflexivity|].
        destruct Hmessage as [-> | ->];
          [do 2 right; now left | do 3 right; now left].
  - intros fuel g world random race sex sourceSelect Hfuel source.
    unfold FlatFile.clickHandler. fold source.
    pose proof (flat_loadData_cases g world race sex) as Hcases.
    cbv zeta in Hcases.
    destruct (FlatFile.loadData g world race sex) as [done g1].
    cbn [fst snd] in *.
    destruct Hcases
      as [[-> _] | [(message & -> & Hfetch) | [-> Hloaded]]].
    + eexists. split; [reflexivity | now left].
    + eexists. split; [reflexivity|]. right. left. now exists message.
    + destruct (flat_generate_total fuel g1 random 10 source Hfuel)
        as [r Hrun].
      rewrite Hrun. destruct (outcome r) as [names|message] eqn:Hout.
      * destruct (flat_generate_returns _ _ _ _ _ _ _ Hrun Hout)
          as (_ & -> & attempted & Hs).
        destruct names as [|p rest]; cbn [length Nat.eqb].
        -- eexists. split; [reflexivity|]. do 4 right. now left.
        -- eexists. split; [reflexivity|]. do 5 right.
           exists (p :: rest). split; [discriminate|].
           split; [apply Hs|]. split; [reflexivity|].
           intros q Hq. destruct Hs as (_ & _ & _ & _ & Hres & _).
           now destruct (Hres q Hq) as (_ & _ & _ & Hrej).
      * destruct (flat_generate_throws _ _ _ _ _ _ _ Hloaded Hrun Hout)
          as [-> Hmessage].
        eexists. split; [reflexivity|].
        destruct Hmessage as [-> | ->];
          [do 2 right; now left | do 3 right; now left].
Qed.

Lemma clickHandler_of_the_variants_shows_witness :
  exists html,
    FlatFile.clickHandler 1000 FlatFile.initial commentWorld (fun _ => 1)
      "argonian" "male" None
    = Some (snd (FlatFile.loadData FlatFile.initial commentWorld
                   "argonian" "male"),
            [SetInnerHTML loadingHtml; SetDisabled true;
             SetInnerHTML html; SetDisabled false])
    /\ (html
        = FlatFile.errorHtml
            ("No data found for " ++ "argonian" ++ " " ++ "male")
            "argonian" "male"
        \/ (exists message,
              fetch commentWorld
                ("npcs/" ++ "argonian" ++ "_" ++ "male" ++ ".txt")
              = Rejected message
              /\ html = FlatFile.errorHtml message "argonian" "male")
        \/ html
           = FlatFile.errorHtml "No firstnames available" "argonian" "male"
        \/ html
           = FlatFile.errorHtml
               "No lastnames available (all may be blacklisted)"
               "argonian" "male"
        \/ html = FlatFile.noNamesHtml
        \/ exists names,
             names <> [] /\ length names <= 10
             /\ html
                = FlatFile.resultsHtml names
                    (FlatFile.getStats
                       (snd (FlatFile.loadData FlatFile.initial
                               commentWorld "argonian" "male"))
                       "all")
             /\ forall p, In p names ->
                  FlatFile.isTooSimilarToExisting
                    (snd (FlatFile.loadData FlatFile.initial commentWorld
                            "argonian" "male"))
                    (firstname p) (lastname p) = false).
Proof.
  apply (proj2 clickHandler_of_the_variants_shows 1000 FlatFile.initial
           commentWorld (fun _ => 1) "argonian" "male" None).
  vm_compute. repeat constructor.
Defined.

End HandlerProperties.
